(** * TUD_RL maritime environments: vessel dynamics, COLREG classification,
      traffic generation, state and reward construction.

    Shallow embedding of
      - [tud_rl/envs/_envs/MMG_KVLCC2.py]            (class KVLCC2)
      - [tud_rl/envs/_envs/FossenEnv.py]             (class FossenEnv)
      - [tud_rl/envs/_envs/HHOS_PathPlanning_Env.py] (class HHOS_PathPlanning_Env)
      - [current_algos/DQN_MinAtar/dqn_agent_MinAtar.py], [current_algos/TQC/tqc_agent.py]
        (argument validation of the agent constructors).

    Python floats are idealised as real numbers ([R]); rounding, signed zeros,
    overflow and the float32 storage of [eta] and [nu] are outside the model.
    Python exceptions are values of [exn]; a computation that may raise has
    type [result A]. *)

From Stdlib Require Import Reals Lra Lia List String Bool ZArith Psatz Permutation.
From Stdlib Require Epsilon.
Import ListNotations.
Open Scope R_scope.

(* ================================================================== *)
(** * Python runtime: exceptions, float division, [math] functions     *)
(* ================================================================== *)

Inductive exn : Type :=
| AssertionError (msg : string)
| ZeroDivisionError
| ValueError
| TypeError
| IndexError
| UnboundLocalError (name : string)
| NotImplementedError (msg : string).

Inductive result (A : Type) : Type :=
| Ok (a : A)
| Raise (e : exn).
Arguments Ok {A} a.
Arguments Raise {A} e.

Definition bind {A B} (c : result A) (k : A -> result B) : result B :=
  match c with
  | Ok a => k a
  | Raise e => Raise e
  end.

Notation "x <- c ;; k" := (bind c (fun x => k))
  (at level 61, c at next level, right associativity).
Notation "' pat <- c ;; k" := (bind c (fun x => match x with pat => k end))
  (at level 61, pat pattern, c at next level, right associativity).

(** [assert cond, msg] *)
Definition assert (cond : bool) (msg : string) : result unit :=
  if cond then Ok tt else Raise (AssertionError msg).

(** Comparisons of floats as booleans. *)
Definition Rleb (a b : R) : bool := if Rle_dec a b then true else false.
Definition Rltb (a b : R) : bool := if Rlt_dec a b then true else false.
Definition Reqb (a b : R) : bool := if Req_dec_T a b then true else false.

Infix "<=?" := Rleb (at level 70, no associativity) : R_scope.
Infix "<?" := Rltb (at level 70, no associativity) : R_scope.
Infix "=?" := Reqb (at level 70, no associativity) : R_scope.

(** [a / b] on floats raises ZeroDivisionError for [b == 0]. *)
Definition fdiv (a b : R) : result R :=
  if b =? 0 then Raise ZeroDivisionError else Ok (a / b).

(** [math.sqrt] raises ValueError on a negative argument. *)
Definition math_sqrt (x : R) : result R :=
  if x <? 0 then Raise ValueError else Ok (sqrt x).

(** [math.atan2(y, x)]: the angle of the point (x, y), in (-pi, pi]. *)
Definition math_atan2 (y x : R) : R :=
  if 0 <? x then atan (y / x)
  else if x <? 0 then (if 0 <=? y then atan (y / x) + PI else atan (y / x) - PI)
  else if 0 <? y then PI / 2
  else if y <? 0 then - (PI / 2)
  else 0.

(** [np.clip(x, lo, hi)] is [minimum(maximum(x, lo), hi)]. *)
Definition np_clip (x lo hi : R) : R := Rmin (Rmax x lo) hi.

(** Arrays of three floats ([eta], [nu], [nu_dot]). *)
Definition vec3 : Type := (R * R * R)%type.

Definition vadd (a b : vec3) : vec3 :=
  let '(a0, a1, a2) := a in let '(b0, b1, b2) := b in (a0 + b0, a1 + b1, a2 + b2).
Definition vscale (a : vec3) (c : R) : vec3 :=
  let '(a0, a1, a2) := a in (a0 * c, a1 * c, a2 * c).
Definition cscale (c : R) (a : vec3) : vec3 :=
  let '(a0, a1, a2) := a in (c * a0, c * a1, c * a2).

Definition mat3 : Type := (vec3 * vec3 * vec3)%type.

(** [np.dot(M, v)] for a 3x3 matrix and a vector. *)
Definition np_dot (M : mat3) (v : vec3) : vec3 :=
  let '(r0, r1, r2) := M in
  let row (r : vec3) := let '(a, b, c) := r in let '(x, y, z) := v in a * x + b * y + c * z in
  (row r0, row r1, row r2).

(** A function defined in a class body and looked up through an instance is
    a bound method: the instance is passed as first positional argument.
    [declared] is the number of positional parameters of the [def],
    [explicit] the arguments written at the call site; a mismatch raises
    TypeError before the body runs. *)
Definition call_bound (declared : nat) (explicit : list R) (body : list R -> R) : result R :=
  if Nat.eqb declared (S (List.length explicit)) then Ok (body explicit) else Raise TypeError.

(* ================================================================== *)
(** * FossenFnc: geometry helpers                                      *)
(* ================================================================== *)

Module FossenFnc.

(** Modelled from the spec: module [FossenFnc] is imported by every file
    under study but is not part of the sources. [dtr] and [rtd] convert
    degrees to radians and back. *)
Definition dtr (angle : R) : R := angle * PI / 180.
Definition rtd (angle : R) : R := angle * 180 / PI.

(** Modelled from the spec: "heading (rad, wrapped to [0, 2pi))"; the wrap
    removes the whole turns contained in the angle. *)
Definition angle_to_2pi (angle : R) : R := 2 * PI * frac_part (angle / (2 * PI)).

(** Modelled from the spec: the wrap of an angle into the half-open turn
    centred at zero, [-pi, pi). *)
Definition angle_to_pi (angle : R) : R := angle_to_2pi (angle + PI) - PI.

(** Modelled from the spec: "Euclidean distance between two (N,E) points,
    with and without the square root". *)
Definition ED (N0 E0 N1 E1 : R) (sqrt_ : bool) : R :=
  let d_sq := (N0 - N1) ^ 2 + (E0 - E1) ^ 2 in
  if sqrt_ then sqrt d_sq else d_sq.

(** Modelled from the spec: "Absolute bearing from one point to another":
    the angle of the line of sight, clockwise from north. *)
Definition bng_abs (N0 E0 N1 E1 : R) : R :=
  angle_to_2pi (math_atan2 (E1 - E0) (N1 - N0)).

(** Modelled from the spec: "relative bearing = absolute bearing minus own
    heading, wrapped into (-pi, pi] or [0, 2pi) depending on caller". *)
Definition bng_rel (N0 E0 N1 E1 head0 : R) (to_2pi : bool) : R :=
  if to_2pi then angle_to_2pi (bng_abs N0 E0 N1 E1 - head0)
  else angle_to_pi (bng_abs N0 E0 N1 E1 - head0).

(** Modelled from the spec: the heading intersection angle of two vessels,
    the target's heading minus the own heading, in [0, 2pi). *)
Definition head_inter (head_OS head_TS : R) : R := angle_to_2pi (head_TS - head_OS).

(** Modelled from the spec: polar and cartesian forms of a velocity; angles
    are measured clockwise from north, x points east and y north. *)
Definition xy_from_polar (r angle : R) : R * R := (r * sin angle, r * cos angle).
Definition polar_from_xy_r (x y : R) : R := sqrt (x ^ 2 + y ^ 2).
Definition polar_from_xy_angle (x y : R) : R := angle_to_2pi (math_atan2 x y).

(** Modelled from the spec: "Vector projection of one polar vector onto
    another's direction". *)
Definition project_vector (VA angleA VB angleB : R) : R * R :=
  let '(xA, yA) := xy_from_polar VA angleA in
  let '(xB, yB) := xy_from_polar 1 angleB in
  let s := xA * xB + yA * yB in
  (s * xB, s * yB).

(** Modelled from the spec: "TCPA: time at which two vessels' relative
    position vector is minimized under constant-velocity extrapolation;
    returns a signed time". *)
Definition tcpa (NOS EOS NTS ETS chiOS chiTS VOS VTS : R) : R :=
  let '(vxOS, vyOS) := xy_from_polar VOS chiOS in
  let '(vxTS, vyTS) := xy_from_polar VTS chiTS in
  let dvx := vxTS - vxOS in
  let dvy := vyTS - vyOS in
  - ((ETS - EOS) * dvx + (NTS - NOS) * dvy) / (dvx ^ 2 + dvy ^ 2).

End FossenFnc.

(* ================================================================== *)
(** * MMG_KVLCC2.py: class KVLCC2                                      *)
(* ================================================================== *)

Module KVLCC2.
Import FossenFnc.

(** ** The hull parameter dictionary [kvlcc2_full]

    [__init__] copies every entry of the dictionary onto the instance with
    [setattr]; nothing under study changes them afterwards, so they are
    constants here. [gamma_R] is the only entry whose value is [None]. *)

Definition C_b : R := 0.810.
Definition Lpp : R := 320.0.
Definition B : R := 58.
Definition m : R := 312_600 * 1020.
Definition w_P0 : R := 0.35.
Definition J_int : R := 0.4.
Definition J_slo : R := -0.5.
Definition x_G : R := 11.2.
Definition x_P : R := -160.0.
Definition D_p : R := 9.86.
Definition k_0 : R := 0.2931.
Definition k_1 : R := -0.2753.
Definition k_2 : R := -0.1359.
Definition C_1 : R := 2.0.
Definition C_2_plus : R := 1.6.
Definition C_2_minus : R := 1.1.
Definition l_R : R := -0.710.
Definition gamma_R : option R := None.
Definition gamma_R_plus : R := 0.640.
Definition gamma_R_minus : R := 0.395.
Definition eta_param : R := 0.626.
Definition kappa : R := 0.50.
Definition A_R : R := 112.5.
Definition epsilon : R := 1.09.
Definition A_R_Ld_em : R := 1 / 46.8.
Definition f_alpha : R := 2.747.
Definition rho : R := 1020.
Definition t_R : R := 0.387.
Definition t_P : R := 0.220.
Definition x_H_dash : R := -0.464.
Definition d : R := 20.8.
Definition m_x_dash : R := 0.022.
Definition m_y_dash : R := 0.223.
Definition R_0_dash : R := 0.022.
Definition X_vv_dash : R := -0.040.
Definition X_vr_dash : R := 0.002.
Definition X_rr_dash : R := 0.011.
Definition X_vvvv_dash : R := 0.771.
Definition Y_v_dash : R := -0.315.
Definition Y_r_dash : R := 0.083.
Definition Y_vvv_dash : R := -1.607.
Definition Y_vvr_dash : R := 0.379.
Definition Y_vrr_dash : R := -0.391.
Definition Y_rrr_dash : R := 0.008.
Definition N_v_dash : R := -0.137.
Definition N_r_dash : R := -0.049.
Definition N_vvv_dash : R := -0.030.
Definition N_vvr_dash : R := -0.294.
Definition N_vrr_dash : R := 0.055.
Definition N_rrr_dash : R := -0.013.
Definition I_zG : R := 2e12.
Definition J_z_dash : R := 0.011.
Definition a_H : R := 0.312.

(** [self.kvlcc2_full.keys()] *)
Definition kvlcc2_full_keys : list string :=
  [ "C_b"; "Lpp"; "B"; "m"; "w_P0"; "J_int"; "J_slo"; "x_G"; "x_P"; "D_p";
    "k_0"; "k_1"; "k_2"; "C_1"; "C_2_plus"; "C_2_minus"; "l_R"; "gamma_R";
    "gamma_R_plus"; "gamma_R_minus"; "eta_param"; "kappa"; "A_R"; "epsilon";
    "A_R_Ld_em"; "f_alpha"; "rho"; "t_R"; "t_P"; "x_H_dash"; "d"; "m_x_dash";
    "m_y_dash"; "R_0_dash"; "X_vv_dash"; "X_vr_dash"; "X_rr_dash";
    "X_vvvv_dash"; "Y_v_dash"; "Y_r_dash"; "Y_vvv_dash"; "Y_vvr_dash";
    "Y_vrr_dash"; "Y_rrr_dash"; "N_v_dash"; "N_r_dash"; "N_vvv_dash";
    "N_vvr_dash"; "N_vrr_dash"; "N_rrr_dash"; "I_zG"; "J_z_dash"; "a_H" ]%string.

(** [all([key in self.kvlcc2_full.keys() for key in keys])] *)
Definition all_keys_present (keys : list string) : bool :=
  forallb (fun key => existsb (String.eqb key) kvlcc2_full_keys) keys.

(** ** Instance state *)

Record t : Type := mk {
  delta_t : R;
  N_max : R;
  E_max : R;
  action : Z;
  nps : R;
  rud_angle_max : R;
  rud_angle_inc : R;
  rud_angle : R;
  eta : vec3;      (* N, E, psi   in the NE-system  *)
  nu : vec3;       (* u, v, r     in the BODY-system *)
  nu_dot : vec3
}.

Definition __init__ (N_init E_init psi_init u_init v_init r_init nps delta_t N_max E_max : R) : t :=
  {| delta_t := delta_t; N_max := N_max; E_max := E_max; action := 0%Z;
     nps := nps;
     rud_angle_max := dtr 10; rud_angle_inc := dtr 2.5; rud_angle := 0.0;
     eta := (N_init, E_init, psi_init);
     nu := (u_init, v_init, r_init);
     nu_dot := (0.0, 0.0, 0.0) |}.

Definition set_eta (s : t) (e : vec3) : t :=
  mk (delta_t s) (N_max s) (E_max s) (action s) (nps s) (rud_angle_max s)
     (rud_angle_inc s) (rud_angle s) e (nu s) (nu_dot s).
Definition set_nu (s : t) (v : vec3) : t :=
  mk (delta_t s) (N_max s) (E_max s) (action s) (nps s) (rud_angle_max s)
     (rud_angle_inc s) (rud_angle s) (eta s) v (nu_dot s).
Definition set_nu_dot (s : t) (v : vec3) : t :=
  mk (delta_t s) (N_max s) (E_max s) (action s) (nps s) (rud_angle_max s)
     (rud_angle_inc s) (rud_angle s) (eta s) (nu s) v.
Definition set_nps (s : t) (n : R) : t :=
  mk (delta_t s) (N_max s) (E_max s) (action s) n (rud_angle_max s)
     (rud_angle_inc s) (rud_angle s) (eta s) (nu s) (nu_dot s).
Definition set_action_rud (s : t) (a : Z) (ang : R) : t :=
  mk (delta_t s) (N_max s) (E_max s) a (nps s) (rud_angle_max s)
     (rud_angle_inc s) ang (eta s) (nu s) (nu_dot s).

Definition psi (s : t) : R := let '(_, _, p) := eta s in p.

(** [_T_of_psi]: rotation matrix for a heading. *)
Definition _T_of_psi (psi : R) : mat3 :=
  ((cos psi, - sin psi, 0),
   (sin psi,   cos psi, 0),
   (0, 0, 1)).

(** The bodies of [_C_X], [_C_Y], [_C_N]. Each is declared in the class with
    the single parameter [g_rc] (no [self]). *)
Definition _C_X (g_rc : R) : R :=
  -0.0665 * g_rc ^ 5 + 0.5228 * g_rc ^ 4 - 1.4365 * g_rc ^ 3
  + 1.6024 * g_rc ^ 2 - 0.2967 * g_rc - 0.4691.

Definition _C_Y (g_rc : R) : R :=
  0.05930686 * g_rc ^ 4 - 0.37522028 * g_rc ^ 3 + 0.46812233 * g_rc ^ 2
  + 0.39114522 * g_rc - 0.00273578.

Definition _C_N (g_rc : R) : R :=
  -0.0140 * g_rc ^ 5 + 0.1131 * g_rc ^ 4 - 0.2757 * g_rc ^ 3
  + 0.1617 * g_rc ^ 2 + 0.0728 * g_rc.

Definition declared_params_C : nat := 1.

Definition unary (f : R -> R) (args : list R) : R :=
  match args with
  | [a] => f a
  | _ => 0
  end.

Definition _vm_from_v_r (v r : R) : R := v - x_G * r.

(** ** [_mmg_dynamics], section by section *)

(** "preparation": returns (vm, U, beta, v_dash, r_dash). *)
Definition mmg_preparation (nu : vec3) : result (R * R * R * R * R) :=
  let '(u, v, r) := nu in
  let vm := _vm_from_v_r v r in
  U <- math_sqrt (u ^ 2 + vm ^ 2) ;;
  if U =? 0.0 then Ok (vm, U, 0.0, 0.0, 0.0)
  else
    let beta := math_atan2 (- vm) u in
    v_dash <- fdiv vm U ;;
    r_dash <- fdiv (r * Lpp) U ;;
    Ok (vm, U, beta, v_dash, r_dash).

(** "hydrodynamic forces acting on ship hull": returns (X_H, Y_H, N_H). *)
Definition mmg_hull (U v_dash r_dash : R) : vec3 :=
  let X_H := 0.5 * rho * Lpp * d * (U ^ 2) * (
      - R_0_dash
      + X_vv_dash * (v_dash ^ 2)
      + X_vr_dash * v_dash * r_dash
      + X_rr_dash * (r_dash ^ 2)
      + X_vvvv_dash * (v_dash ^ 4)) in
  let Y_H := 0.5 * rho * Lpp * d * (U ^ 2) * (
      Y_v_dash * v_dash
      + Y_r_dash * r_dash
      + Y_vvv_dash * (v_dash ^ 3)
      + Y_vvr_dash * (v_dash ^ 2) * r_dash
      + Y_vrr_dash * v_dash * (r_dash ^ 2)
      + Y_rrr_dash * (r_dash ^ 3)) in
  let N_H := 0.5 * rho * (Lpp ^ 2) * d * (U ^ 2) * (
      N_v_dash * v_dash
      + N_r_dash * r_dash
      + N_vvv_dash * (v_dash ^ 3)
      + N_vvr_dash * (v_dash ^ 2) * r_dash
      + N_vrr_dash * v_dash * (r_dash ^ 2)
      + N_rrr_dash * (r_dash ^ 3)) in
  (X_H, Y_H, N_H).

(** "longitudinal surge force due to propeller": returns (w_P, J, K_T, X_P). *)
Definition mmg_propeller (u beta r_dash nps : R) : result (R * R * R * R) :=
  q <- fdiv x_P Lpp ;;
  let beta_P := beta - q * r_dash in
  let w_P :=
    if all_keys_present ["C_1"; "C_2_plus"; "C_2_minus"]%string then
      let C_2 := if 0 <=? beta_P then C_2_plus else C_2_minus in
      let tmp := 1 - exp (- C_1 * Rabs beta_P) * (C_2 - 1) in
      1 - (1 - w_P0) * (1 + tmp)
    else w_P0 * exp (-4.0 * beta_P ^ 2) in
  J <- (if nps =? 0.0 then Ok 0.0 else fdiv ((1 - w_P) * u) (nps * D_p)) ;;
  let K_T :=
    if all_keys_present ["k_0"; "k_1"; "k_2"]%string then
      k_0 + (k_1 * J) + (k_2 * J ^ 2)
    else J_slo * J + J_int in
  let X_P := (1 - t_P) * rho * K_T * nps ^ 2 * D_p ^ 4 in
  Ok (w_P, J, K_T, X_P).

(** "hydrodynamic forces by steering": returns (X_R, Y_R, N_R). *)
Definition mmg_steering (u U beta r_dash rud_angle w_P J K_T : R) : result vec3 :=
  let beta_R := beta - l_R * r_dash in
  let gamma_R :=
    match gamma_R with
    | Some g => g
    | None => if beta_R <? 0.0 then gamma_R_minus else gamma_R_plus
    end in
  let v_R := U * gamma_R * beta_R in
  u_R <- (if J =? 0.0 then Ok 0.0
          else
            q <- fdiv (8.0 * K_T) (PI * J ^ 2) ;;
            s1 <- math_sqrt (1.0 + q) ;;
            s2 <- math_sqrt (eta_param * (1.0 + kappa * (s1 - 1)) ^ 2 + (1 - eta_param)) ;;
            Ok (u * (1 - w_P) * epsilon * s2)) ;;
  U_R <- math_sqrt (u_R ^ 2 + v_R ^ 2) ;;
  let alpha_R := rud_angle - math_atan2 v_R u_R in
  let F_N := 0.5 * A_R * rho * f_alpha * (U_R ^ 2) * sin alpha_R in
  let X_R := - (1 - t_R) * F_N * sin rud_angle in
  let Y_R := - (1 + a_H) * F_N * cos rud_angle in
  let x_H := x_H_dash * Lpp in
  let N_R := - (-0.5 + a_H * x_H) * F_N * cos rud_angle in
  Ok (X_R, Y_R, N_R).

(** "forces related to currents": returns (X_C, Y_C, N_C). [fl_vel] may be
    [None]. The polynomial coefficients are fetched with [self._C_X(g_rc)]. *)
Definition mmg_current (u vm psi fl_psi : R) (fl_vel : option R) : result vec3 :=
  match fl_vel with
  | Some fl_vel =>
      if negb (fl_vel =? 0)
      then
        let u_c := - fl_vel * cos (fl_psi - psi) in
        let u_rc := u - u_c in
        let v_c := fl_vel * sin (fl_psi - psi) in
        let v_rc := vm - v_c in
        let g_rc := Rabs (- math_atan2 v_rc u_rc) in
        let A_Fc := B * d * C_b in
        cx <- call_bound declared_params_C [g_rc] (unary _C_X) ;;
        let X_C := 0.5 * rho * A_Fc * cx * Rabs u_rc * u_rc in
        let A_Lc := Lpp * d * C_b in
        cy <- call_bound declared_params_C [g_rc] (unary _C_Y) ;;
        let Y_C := 0.5 * rho * A_Lc * cy * Rabs v_rc * v_rc in
        cn <- call_bound declared_params_C [g_rc] (unary _C_N) ;;
        let N_C := 0.5 * rho * A_Lc * Lpp * cn * Rabs v_rc * v_rc in
        Ok (X_C, Y_C, N_C)
      else Ok (0.0, 0.0, 0.0)
  | None => Ok (0.0, 0.0, 0.0)
  end.

(** "Equation solving": returns [nu_dot = (d_u, d_v, d_r)]. *)
Definition mmg_solve (u vm r : R) (H_ R_ C_ : vec3) (X_P : R) : result vec3 :=
  let '(X_H, Y_H, N_H) := H_ in
  let '(X_R, Y_R, N_R) := R_ in
  let '(X_C, Y_C, N_C) := C_ in
  let m_x := m_x_dash * (0.5 * rho * (Lpp ^ 2) * d) in
  let m_y := m_y_dash * (0.5 * rho * (Lpp ^ 2) * d) in
  let J_z := J_z_dash * (0.5 * rho * (Lpp ^ 4) * d) in
  let X := X_H + X_R + X_P + X_C in
  let Y := Y_H + Y_R + Y_C in
  let N_M := N_H + N_R + N_C in
  d_u <- fdiv (X + (m + m_y) * vm * r + x_G * m * (r ^ 2)) (m + m_x) ;;
  let f := I_zG + J_z + (x_G ^ 2) * m in
  q1 <- fdiv (x_G * m * N_M) f ;;
  q2 <- fdiv (x_G ^ 2 * m ^ 2 * u * r) f ;;
  let d_vm_nom := Y - (m + m_x) * u * r - q1 + q2 in
  q3 <- fdiv (x_G ^ 2 * m ^ 2) f ;;
  let d_vm_den := m + m_y - q3 in
  d_vm <- fdiv d_vm_nom d_vm_den ;;
  d_r <- fdiv (N_M - x_G * m * (d_vm + u * r)) f ;;
  let d_v := d_vm + x_G * d_r in
  Ok (d_u, d_v, d_r).

(** [_mmg_dynamics(nu, psi, rud_angle, nps, fl_psi, fl_vel)] *)
Definition _mmg_dynamics (nu : vec3) (psi rud_angle nps fl_psi : R) (fl_vel : option R)
  : result vec3 :=
  let '(u, v, r) := nu in
  '(vm, U, beta, v_dash, r_dash) <- mmg_preparation nu ;;
  let H_ := mmg_hull U v_dash r_dash in
  '(w_P, J, K_T, X_P) <- mmg_propeller u beta r_dash nps ;;
  R_ <- mmg_steering u U beta r_dash rud_angle w_P J K_T ;;
  C_ <- mmg_current u vm psi fl_psi fl_vel ;;
  mmg_solve u vm r H_ R_ C_ X_P.

(** [_upd_dynamics]: "ballistic" update of velocities and positions. *)
Definition _upd_dynamics (s : t) : result t :=
  let eta_dot_old := np_dot (_T_of_psi (psi s)) (nu s) in
  nu_dot' <- _mmg_dynamics (nu s) (psi s) (rud_angle s) (nps s) 0.0 (Some 0.0) ;;
  let s := set_nu_dot s nu_dot' in
  let s := set_nu s (vadd (nu s) (vscale (nu_dot s) (delta_t s))) in
  let eta_dot_new := np_dot (_T_of_psi (psi s)) (nu s) in
  let s := set_eta s (vadd (eta s) (vscale (cscale 0.5 (vadd eta_dot_old eta_dot_new)) (delta_t s))) in
  let '(N, E, p) := eta s in
  Ok (set_eta s (N, E, angle_to_2pi p)).

(** [_control(a)] *)
Definition _control (s : t) (a : Z) : result t :=
  _ <- assert ((0 <=? a)%Z && (a <? 3)%Z) "Unknown action." ;;
  let ang :=
    if (a =? 0)%Z then rud_angle s
    else if (a =? 1)%Z then rud_angle s + rud_angle_inc s
    else if (a =? 2)%Z then rud_angle s - rud_angle_inc s
    else rud_angle s in
  Ok (set_action_rud s a (np_clip ang (- rud_angle_max s) (rud_angle_max s))).

Definition _get_sideslip (s : t) : R :=
  let '(u, v, r) := nu s in
  let vm := _vm_from_v_r v r in
  polar_from_xy_angle vm u.

Definition _get_course (s : t) : R := angle_to_2pi (psi s + _get_sideslip s).

Definition _get_V (s : t) : result R :=
  let '(u, v, r) := nu s in
  let vm := _vm_from_v_r v r in
  math_sqrt (u ^ 2 + vm ^ 2).

Definition _is_off_map (s : t) : bool :=
  let '(N, E, _) := eta s in
  (N <=? 0) || (N_max s <=? N) || (E <=? 0) || (E_max s <=? E).

End KVLCC2.

(* ================================================================== *)
(** * Random sources                                                   *)
(* ================================================================== *)

(** [np.random] and [random] are two independent generators. A generator
    is a sequence of raw outputs and a read position; every draw reads one
    output and advances. [np.random.uniform(lo, hi)] scales a raw output of
    the unit interval, [random.choice(seq)] indexes the sequence. *)
Record rng : Type := mk_rng {
  np_raw : nat -> R;
  np_pos : nat;
  py_raw : nat -> nat;
  py_pos : nat
}.

Definition np_random_uniform (lo hi : R) (g : rng) : R * rng :=
  (lo + (hi - lo) * np_raw g (np_pos g),
   mk_rng (np_raw g) (S (np_pos g)) (py_raw g) (py_pos g)).

Definition random_choice {A} (seq : list A) (dflt : A) (g : rng) : A * rng :=
  (nth (Nat.modulo (py_raw g (py_pos g)) (List.length seq)) seq dflt,
   mk_rng (np_raw g) (np_pos g) (py_raw g) (S (py_pos g))).

(* ================================================================== *)
(** * FossenCS2: the vessel class used by FossenEnv                    *)
(* ================================================================== *)

Module CyberShipII.

(** Modelled from the spec: class [CyberShipII] is not part of the sources.
    The record holds the attributes that FossenEnv reads or assigns
    ("VesselState: position, heading, body-frame velocity, plus static hull
    parameters"). *)
Record t : Type := mk {
  eta : vec3;
  nu : vec3;
  nu_dot : vec3;
  eta_dot : vec3;
  tau : vec3;
  tau_u : option R;
  f2 : option R;
  f3 : option R;
  f23_sum : option R;
  tau_cnt_r : R;
  tau_cnt_r_max : R;
  length : R;
  width : R;
  N_max : R;
  E_max : R
}.

Definition set_eta (s : t) (e : vec3) : t :=
  mk e (nu s) (nu_dot s) (eta_dot s) (tau s) (tau_u s) (f2 s) (f3 s) (f23_sum s)
     (tau_cnt_r s) (tau_cnt_r_max s) (length s) (width s) (N_max s) (E_max s).
Definition set_nu (s : t) (v : vec3) : t :=
  mk (eta s) v (nu_dot s) (eta_dot s) (tau s) (tau_u s) (f2 s) (f3 s) (f23_sum s)
     (tau_cnt_r s) (tau_cnt_r_max s) (length s) (width s) (N_max s) (E_max s).
Definition set_tau_u (s : t) (x : option R) : t :=
  mk (eta s) (nu s) (nu_dot s) (eta_dot s) (tau s) x (f2 s) (f3 s) (f23_sum s)
     (tau_cnt_r s) (tau_cnt_r_max s) (length s) (width s) (N_max s) (E_max s).
Definition set_f123 (s : t) (sum_ a b : option R) : t :=
  mk (eta s) (nu s) (nu_dot s) (eta_dot s) (tau s) (tau_u s) a b sum_
     (tau_cnt_r s) (tau_cnt_r_max s) (length s) (width s) (N_max s) (E_max s).

(** [TS.nu[0] = x] *)
Definition set_nu0 (s : t) (x : R) : t :=
  let '(_, v, r) := nu s in set_nu s (x, v, r).

(** The constructor and the methods of the class, which FossenEnv calls and
    whose bodies are not part of the sources. *)
Class methods : Type := {
  __init__ : forall (N_init E_init psi_init u_init v_init r_init delta_t N_max E_max : R)
                    (cnt_approach : string) (tau_u f2 f23_sum : option R), t;
  _u_from_tau_u : t -> option R -> R;
  _tau_u_from_u : t -> R -> R;
  _set_tau : t -> t;
  _get_course : t -> R;
  _get_V : t -> R;
  _is_off_map : t -> bool
}.

End CyberShipII.

(* ================================================================== *)
(** * FossenEnv.py: class FossenEnv                                    *)
(* ================================================================== *)

(** An entry of an observation vector: a float or [np.nan]. *)
Inductive cell : Type :=
| Num (x : R)
| NaN.

(** [x ** y] on floats, for a non-negative base. *)
Definition fpow (x y : R) : R := if x =? 0 then 0 else Rpower x y.

(** Insertion of an index into a list of indices kept in ascending order of
    their keys; used for [np.argsort]. *)
Fixpoint argsort_insert (key : nat -> R) (i : nat) (sorted : list nat) : list nat :=
  match sorted with
  | [] => [i]
  | j :: rest => if key i <=? key j then i :: j :: rest else j :: argsort_insert key i rest
  end.

(** [np.argsort(keys)]: the indices of [keys] in ascending order of value;
    equal values keep the order of their indices, as the insertion sort that
    numpy runs on short arrays leaves them. *)
Definition np_argsort (keys : list R) : list nat :=
  fold_right (fun i acc => argsort_insert (fun k => nth k keys 0) i acc) []
             (seq 0 (List.length keys)).

(** [np.pad(x, (0, n), 'constant', constant_values=np.nan)]; a negative pad
    width raises ValueError. *)
Definition np_pad_nan (x : list cell) (desired : nat) : result (list cell) :=
  if Nat.ltb desired (List.length x) then Raise ValueError
  else Ok (x ++ repeat NaN (desired - List.length x)).

(** [lst[idx]] on a Python list with a non-negative index. *)
Definition getitem {A} (l : list A) (idx : nat) : result A :=
  match nth_error l idx with
  | Some a => Ok a
  | None => Raise IndexError
  end.

(** Monadic map and indexed fold over a list. *)
Fixpoint mapM {A B} (f : A -> result B) (l : list A) : result (list B) :=
  match l with
  | [] => Ok []
  | a :: l' => b <- f a ;; bs <- mapM f l' ;; Ok (b :: bs)
  end.

Fixpoint foldM_enum {A St} (f : St -> nat -> A -> result St) (idx : nat) (l : list A) (s : St)
  : result St :=
  match l with
  | [] => Ok s
  | a :: l' => s' <- f s idx a ;; foldM_enum f (S idx) l' s'
  end.

Module FossenEnv.
Import FossenFnc.
Import CyberShipII.

(** Attributes assigned by [__init__]. [action_space] is only assigned for
    the known control approaches; [None] stands for the missing attribute. *)
Record config : Type := mk_config {
  delta_t : R;
  N_max : R;
  E_max : R;
  N_TSs_max : nat;
  N_TSs_random : bool;
  N_TSs_increasing : bool;
  outer_step_cnt : option nat;
  sight : R;
  coll_dist : R;
  TCPA_crit : R;
  min_dist_spawn_TS : R;
  cnt_approach : string;
  state_design : string;
  goal_reach_dist : R;
  stop_spawn_dist : R;
  num_obs_OS : nat;
  num_obs_TS : nat;
  plot_traj : bool;
  obs_size : nat;
  action_space : option nat;
  _max_episode_steps : nat
}.

Definition string_in (s : string) (l : list string) : bool := existsb (String.eqb s) l.

(** [__init__(N_TSs_max=3, N_TSs_random=False, N_TSs_increasing=False,
              cnt_approach="tau", state_design="RecDQN", plot_traj=False)] *)
Definition __init__ (N_TSs_max : nat) (N_TSs_random N_TSs_increasing : bool)
    (cnt_approach state_design : string) (plot_traj : bool) : result config :=
  _ <- assert (Nat.leb (Nat.b2n N_TSs_random + Nat.b2n N_TSs_increasing) 1)
         "Either random number of TS or schedule, not both." ;;
  let outer_step_cnt := if N_TSs_increasing then Some 0%nat else None in
  _ <- assert (string_in state_design ["maxRisk"; "RecDQN"]%string)
         "Unknown state design for FossenEnv. Should be 'maxRisk' or 'RecDQN'." ;;
  let goal_reach_dist := 10 in
  let num_obs_OS := 9%nat in
  let num_obs_TS := 6%nat in
  obs_size <- (if String.eqb state_design "RecDQN" then Ok (num_obs_OS + N_TSs_max * num_obs_TS)%nat
               else if String.eqb state_design "maxRisk" then Ok (num_obs_OS + num_obs_TS)%nat
               else Raise (UnboundLocalError "obs_size")) ;;
  let action_space :=
    if string_in cnt_approach ["tau"; "rps_angle"; "f123"]%string then Some 3%nat else None in
  Ok {| delta_t := 0.5; N_max := 200; E_max := 200;
        N_TSs_max := N_TSs_max; N_TSs_random := N_TSs_random;
        N_TSs_increasing := N_TSs_increasing; outer_step_cnt := outer_step_cnt;
        sight := 100; coll_dist := 6.275; TCPA_crit := 120; min_dist_spawn_TS := 20;
        cnt_approach := cnt_approach; state_design := state_design;
        goal_reach_dist := goal_reach_dist; stop_spawn_dist := 5 * goal_reach_dist;
        num_obs_OS := num_obs_OS; num_obs_TS := num_obs_TS; plot_traj := plot_traj;
        obs_size := obs_size; action_space := action_space;
        _max_episode_steps := 500 |}.

(** The environment during an episode: the configuration and the attributes
    assigned by [reset] and [step]. *)
Record t : Type := mk {
  cfg : config;
  OS : CyberShipII.t;
  goal : R * R;                 (* goal["N"], goal["E"] *)
  N_TSs : nat;
  TSs : list CyberShipII.t;
  TS_COLREGs : list Z;
  TS_COLREGs_old : list Z;
  respawn_flags : list bool
}.

Definition set_TSs (e : t) (l : list CyberShipII.t) : t :=
  mk (cfg e) (OS e) (goal e) (N_TSs e) l (TS_COLREGs e) (TS_COLREGs_old e) (respawn_flags e).
Definition set_COLREGs (e : t) (old new : list Z) : t :=
  mk (cfg e) (OS e) (goal e) (N_TSs e) (TSs e) new old (respawn_flags e).
Definition set_respawned (e : t) (l : list CyberShipII.t) (flags : list bool) : t :=
  mk (cfg e) (OS e) (goal e) (N_TSs e) l (TS_COLREGs e) (TS_COLREGs_old e) flags.

Section WithVessel.
Context {CS : CyberShipII.methods}.

(** ** [reset], "init agent (OS for 'Own Ship')" up to "set longitudinal
    speed to near-convergence", for the start pose chosen before. *)
Definition reset_OS (c : config) (N_init E_init head : R) : result CyberShipII.t :=
  '(tau_u, f2, f23_sum) <-
     (if String.eqb (cnt_approach c) "tau" then Ok (Some 3.0, None, None)
      else if String.eqb (cnt_approach c) "f123" then Ok (None, Some 1.5, Some 3.0)
      else Raise (UnboundLocalError "tau_u")) ;;
  let OS := CyberShipII.__init__ N_init E_init head 0.0 0.0 0.0 (delta_t c) (N_max c)
              (E_max c) (cnt_approach c) tau_u f2 f23_sum in
  if String.eqb (cnt_approach c) "tau" then Ok (set_nu0 OS (_u_from_tau_u OS (CyberShipII.tau_u OS)))
  else if String.eqb (cnt_approach c) "f123" then Ok (set_nu0 OS (_u_from_tau_u OS (CyberShipII.f23_sum OS)))
  else Ok OS.

(** ** [_get_TS]: rejection sampling of a target ship *)

(** One pass through the body of [while True]; the boolean tells whether
    the pass ends in [break]. *)
Definition _get_TS_pass (e : t) (g : rng) : result (CyberShipII.t * bool * rng) :=
  let c := cfg e in
  '(tau_u, f2, f23_sum, g) <-
     (if String.eqb (cnt_approach c) "tau" then
        let '(x, g) := np_random_uniform 0 5 g in Ok (Some x, None, None, g)
      else if String.eqb (cnt_approach c) "f123" then
        let '(x, g) := np_random_uniform 0 5 g in Ok (None, Some (x / 2.0), Some x, g)
      else Raise (UnboundLocalError "tau_u")) ;;
  let '(N_init, g) := np_random_uniform (N_max c / 5) (N_max c) g in
  let '(E_init, g) := np_random_uniform (E_max c / 5) (E_max c) g in
  let '(psi_init, g) := np_random_uniform 0 (2 * PI) g in
  let TS := CyberShipII.__init__ N_init E_init psi_init 0.0 0.0 0.0 (delta_t c) (N_max c)
              (E_max c) (cnt_approach c) tau_u f2 f23_sum in
  let TS :=
    if String.eqb (cnt_approach c) "tau" then set_nu0 TS (_u_from_tau_u TS (CyberShipII.tau_u TS))
    else if String.eqb (cnt_approach c) "f123" then set_nu0 TS (_u_from_tau_u TS (CyberShipII.f23_sum TS))
    else TS in
  let '(N_0, E_0, _) := eta (OS e) in
  let chiOS := _get_course (OS e) in
  let VOS := _get_V (OS e) in
  let '(COLREG_s, g) := random_choice [1; 2; 3; 4; 5]%Z 1%Z g in
  let bng_abs_goal := bng_abs N_0 E_0 (fst (goal e)) (snd (goal e)) in
  let '(VR_goal_x, VR_goal_y) := project_vector VOS chiOS 1 bng_abs_goal in
  let '(t_hit, g) := np_random_uniform (TCPA_crit c * 0.5) (TCPA_crit c) g in
  let E_hit := E_0 + VR_goal_x * t_hit in
  let N_hit := N_0 + VR_goal_y * t_hit in
  '(C_TS_s, g) <-
     (if (COLREG_s =? 1)%Z then
        let '(x, g) := np_random_uniform 175 185 g in Ok (dtr x, g)
      else if (COLREG_s =? 2)%Z then
        let '(x, g) := np_random_uniform 185 210 g in Ok (dtr x, g)
      else if (COLREG_s =? 3)%Z then
        let '(x, g) := np_random_uniform 210 292.5 g in Ok (dtr x, g)
      else if (COLREG_s =? 4)%Z then
        let '(x, g) := np_random_uniform 67.5 175 g in Ok (dtr x, g)
      else if (COLREG_s =? 5)%Z then
        let '(x, g) := np_random_uniform (-67.5) 67.5 g in Ok (angle_to_2pi (dtr x), g)
      else Raise (UnboundLocalError "C_TS_s")) ;;
  let head_TS_s := angle_to_2pi (C_TS_s + bng_abs_goal) in
  '(VTS, TS, g) <-
     (if existsb (Z.eqb COLREG_s) [1; 2; 3; 4]%Z then
        let '(u, _, _) := nu TS in Ok (u, TS, g)
      else if (COLREG_s =? 5)%Z then
        let '(VR_TS_x, VR_TS_y) := project_vector VOS chiOS 1 head_TS_s in
        let V_max_TS := polar_from_xy_r VR_TS_x VR_TS_y in
        let '(VTS, g) := np_random_uniform 0 V_max_TS g in
        let TS := set_nu0 TS VTS in
        let tau_u := _tau_u_from_u TS VTS in
        let TS :=
          if String.eqb (cnt_approach c) "tau" then set_tau_u TS (Some tau_u)
          else if String.eqb (cnt_approach c) "f123" then
            set_f123 TS (Some tau_u) (Some (tau_u / 2.0)) (Some (tau_u / 2.0))
          else TS in
        Ok (VTS, _set_tau TS, g)
      else Raise (UnboundLocalError "VTS")) ;;
  let E_TS := E_hit - VTS * sin head_TS_s * t_hit in
  let N_TS := N_hit - VTS * cos head_TS_s * t_hit in
  let TS := set_eta TS (N_TS, E_TS, head_TS_s) in
  if Nat.eqb (List.length (TSs e)) 0 then Ok (TS, true, g)
  else
    let dists := map (fun TS_there =>
                        let '(N1, E1, _) := eta TS_there in ED N_TS E_TS N1 E1 true) (TSs e) in
    if min_dist_spawn_TS c <=? fold_right Rmin (hd 0 dists) dists
    then Ok (TS, true, g)
    else Ok (TS, false, g).

(** [while True]: at most [fuel] passes; [None] when the passes run out. *)
Fixpoint _get_TS_loop (fuel : nat) (e : t) (g : rng) : option (result (CyberShipII.t * rng)) :=
  match fuel with
  | O => None
  | S fuel' =>
      match _get_TS_pass e g with
      | Raise ex => Some (Raise ex)
      | Ok (TS, true, g') => Some (Ok (TS, g'))
      | Ok (_, false, g') => _get_TS_loop fuel' e g'
      end
  end.

Definition _get_TS (fuel : nat) (e : t) (g : rng) : option (result (CyberShipII.t * rng)) :=
  match assert (string_in (cnt_approach (cfg e)) ["tau"; "f123"]%string)
               "TS spawning only implemented for 'tau' and 'f123' controls." with
  | Raise ex => Some (Raise ex)
  | Ok _ => _get_TS_loop fuel e g
  end.

(** [reset], the loop "for _ in range(self.N_TSs): self.TSs.append(self._get_TS())"
    started from an empty list. *)
Fixpoint spawn_TSs (fuel : nat) (n : nat) (e : t) (g : rng) : option (result (t * rng)) :=
  match n with
  | O => Some (Ok (e, g))
  | S n' =>
      match _get_TS fuel e g with
      | None => None
      | Some (Raise ex) => Some (Raise ex)
      | Some (Ok (TS, g')) => spawn_TSs fuel n' (set_TSs e (TSs e ++ [TS])) g'
      end
  end.

(** ** [_get_ship_domain] *)
Definition _get_ship_domain (OS TS : CyberShipII.t) : R :=
  let VOS := _get_V OS in
  let VTS := _get_V TS in
  let chiOS := _get_course OS in
  let chiTS := _get_course TS in
  let '(vxOS, vyOS) := xy_from_polar VOS chiOS in
  let '(vxTS, vyTS) := xy_from_polar VTS chiTS in
  let VR := sqrt ((vyTS - vyOS) ^ 2 + (vxTS - vxOS) ^ 2) in
  let V := Rmax VOS VR in
  length OS * fpow V 1.26 + 30 * V.

(** ** [_get_COLREG_situation] *)
Definition _get_COLREG_situation (e : t) (OS TS : CyberShipII.t) : Z :=
  let '(NOS, EOS, psi_OS) := eta OS in
  let '(NTS, ETS, psi_TS) := eta TS in
  let V_OS := _get_V OS in
  let V_TS := _get_V TS in
  let chiOS := _get_course OS in
  let chiTS := _get_course TS in
  if sight (cfg e) <? ED NOS EOS NTS ETS true then 0%Z
  else
    let bng_OS := bng_rel NOS EOS NTS ETS psi_OS true in
    let bng_TS := bng_rel NTS ETS NOS EOS psi_TS true in
    let C_T := head_inter psi_OS psi_TS in
    let '(V_rel_x, V_rel_y) := project_vector V_OS chiOS V_TS chiTS in
    let V_rel := polar_from_xy_r V_rel_x V_rel_y in
    if (-5 <=? rtd (angle_to_pi bng_OS)) && (rtd (angle_to_pi bng_OS) <=? 5)
       && (175 <=? rtd C_T) && (rtd C_T <=? 185) then 1%Z
    else if (5 <=? rtd bng_OS) && (rtd bng_OS <=? 45)
       && (185 <=? rtd C_T) && (rtd C_T <=? 210) then 2%Z
    else if (45 <? rtd bng_OS) && (rtd bng_OS <=? 112.5)
       && (210 <? rtd C_T) && (rtd C_T <=? 292.5) then 3%Z
    else if (247.5 <=? rtd bng_OS) && (rtd bng_OS <=? 355)
       && (67.5 <=? rtd C_T) && (rtd C_T <=? 175) then 4%Z
    else if (112.5 <=? rtd bng_TS) && (rtd bng_TS <=? 247.5)
       && (-67.5 <=? rtd (angle_to_pi C_T)) && (rtd (angle_to_pi C_T) <=? 67.5)
       && (V_TS <? V_rel) then 5%Z
    else 0%Z.

(** ** [_set_COLREGs] *)
Definition _set_COLREGs (e : t) : t :=
  set_COLREGs e (TS_COLREGs e) (map (fun TS => _get_COLREG_situation e (OS e) TS) (TSs e)).

(** ** [_set_state] *)

(** "dynamic obstacle related", the loop over [self.TSs]: the rows of the
    target ships in sight and their risk ratios, in the order of the list. *)
Definition state_TSs_rows (e : t) : result (list (list cell) * list R) :=
  let '(N_0, E_0, head0) := eta (OS e) in
  foldM_enum (fun (acc : list (list cell) * list R) TS_idx TS =>
    let '(state_TSs, risk_ratios) := acc in
    let '(N, E, headTS) := eta TS in
    let ED_OS_TS := ED N_0 E_0 N E true in
    if ED_OS_TS <=? sight (cfg e) then
      let risk_ratios := risk_ratios ++ [ED_OS_TS / _get_ship_domain (OS e) TS] in
      let ED_OS_TS_norm := ED_OS_TS / E_max (cfg e) in
      let bng_rel_TS := angle_to_pi (bng_rel N_0 E_0 N E head0 true) / PI in
      let C_TS := angle_to_pi (head_inter head0 headTS) / PI in
      let V_TS := _get_V TS in
      sigma_TS <- getitem (TS_COLREGs e) TS_idx ;;
      let inside_domain := if ED_OS_TS <=? _get_ship_domain (OS e) TS then 1.0 else 0.0 in
      Ok (state_TSs ++ [[Num ED_OS_TS_norm; Num bng_rel_TS; Num C_TS; Num V_TS;
                         Num (IZR sigma_TS); Num inside_domain]],
          risk_ratios)
    else Ok (state_TSs, risk_ratios)) 0 (TSs e) ([], []).

(** The per-target block [state_TSs] that is concatenated into the state. *)
Definition state_TSs_block (e : t) : result (list cell) :=
  let c := cfg e in
  '(state_TSs, risk_ratios) <- state_TSs_rows e ;;
  if Nat.eqb (List.length state_TSs) 0 then
    if String.eqb (state_design c) "RecDQN" then
      Ok (repeat NaN (num_obs_TS c * N_TSs_max c))
    else if String.eqb (state_design c) "maxRisk" then
      Ok (repeat (Num 0.0) (num_obs_TS c))
    else Ok []
  else
    let order := rev (np_argsort risk_ratios) in
    let state_TSs := map (fun idx => nth idx state_TSs []) order in
    if String.eqb (state_design c) "RecDQN" then
      let flat := List.concat state_TSs in
      let desired_length := (num_obs_TS c * N_TSs_max c)%nat in
      np_pad_nan flat desired_length
    else if String.eqb (state_design c) "maxRisk" then
      Ok (last state_TSs [])
    else Raise ValueError.

Definition _set_state (e : t) : result (list cell) :=
  let c := cfg e in
  let '(N_0, E_0, head0) := eta (OS e) in
  f_info <-
    (if String.eqb (cnt_approach c) "tau" then
       fdiv (tau_cnt_r (OS e)) (tau_cnt_r_max (OS e))
     else if String.eqb (cnt_approach c) "f123" then
       match f23_sum (OS e) with
       | Some s => let '(_, _, tau2) := tau (OS e) in fdiv tau2 s
       | None => Raise TypeError
       end
     else Raise (UnboundLocalError "f_info")) ;;
  let '(u, v, r) := nu (OS e) in
  let '(_, _, r_dot) := nu_dot (OS e) in
  let '(_, _, head_dot) := eta_dot (OS e) in
  let state_OS := [Num u; Num v; Num r;
                   Num (angle_to_pi head0 / PI); Num r_dot; Num head_dot; Num f_info] in
  let OS_goal_ED := ED N_0 E_0 (fst (goal e)) (snd (goal e)) true in
  let state_goal :=
    [Num (angle_to_pi (bng_rel N_0 E_0 (fst (goal e)) (snd (goal e)) head0 true) / PI);
     Num (OS_goal_ED / E_max c)] in
  state_TSs <- state_TSs_block e ;;
  Ok (state_OS ++ state_goal ++ state_TSs).

(** ** [_handle_respawn(TS, respawn=True, mirrow=False, clip=False)] *)
Definition _handle_respawn (fuel : nat) (e : t) (g : rng) (TS : CyberShipII.t)
    (respawn mirrow clip : bool) : option (result (CyberShipII.t * bool * rng)) :=
  match assert (Nat.leb (Nat.b2n respawn + Nat.b2n mirrow + Nat.b2n clip) 1)
          "Can choose either 'respawn', 'mirrow', or 'clip', not a combination." with
  | Raise ex => Some (Raise ex)
  | Ok _ =>
      let respawned :=
        match _get_TS fuel e g with
        | None => None
        | Some (Raise ex) => Some (Raise ex)
        | Some (Ok (TS', g')) => Some (Ok (TS', true, g'))
        end in
      let '(N_OS, E_OS, _) := eta (OS e) in
      if stop_spawn_dist (cfg e) <? ED N_OS E_OS (fst (goal e)) (snd (goal e)) true then
        if _is_off_map TS then
          if respawn then respawned
          else if mirrow then
            let '(N, E, psi) := eta TS in
            if (E <=? 0) || (CyberShipII.E_max TS <=? E)
            then Some (Ok (set_eta TS (N, E, 2 * PI - psi), false, g))
            else Some (Ok (set_eta TS (N, E, PI - psi), false, g))
          else if clip then
            let '(N, E, psi) := eta TS in
            let N := np_clip N 0 (CyberShipII.N_max TS) in
            let E := np_clip E 0 (CyberShipII.E_max TS) in
            Some (Ok (set_eta TS (N, E, psi), false, g))
          else Some (Ok (TS, false, g))
        else
          let '(N_TS, E_TS, _) := eta TS in
          let TCPA_TS := tcpa N_OS E_OS N_TS E_TS (_get_course (OS e)) (_get_course TS)
                              (_get_V (OS e)) (_get_V TS) in
          if (TCPA_TS <? -0.1 * TCPA_crit (cfg e)) || (1.25 * TCPA_crit (cfg e) <? TCPA_TS)
          then respawned
          else Some (Ok (TS, false, g))
      else Some (Ok (TS, false, g))
  end.

(** ** [step], "handle respawning of other vessels"

    [[self._handle_respawn(TS, respawn=True) for TS in self.TSs]]: the
    environment seen by every call is the one before the assignment, the
    random source is threaded through the calls. *)
Fixpoint respawn_each (fuel : nat) (e : t) (l : list CyberShipII.t) (g : rng)
  : option (result (list (CyberShipII.t * bool) * rng)) :=
  match l with
  | [] => Some (Ok ([], g))
  | TS :: l' =>
      match _handle_respawn fuel e g TS true false false with
      | None => None
      | Some (Raise ex) => Some (Raise ex)
      | Some (Ok (TS', flag, g')) =>
          match respawn_each fuel e l' g' with
          | None => None
          | Some (Raise ex) => Some (Raise ex)
          | Some (Ok (rest, g'')) => Some (Ok ((TS', flag) :: rest, g''))
          end
      end
  end.

(** "if self.N_TSs > 0: self.TSs, self.respawn_flags = list(zip(*[...]))" *)
Definition step_respawn (fuel : nat) (e : t) (g : rng) : option (result (t * rng)) :=
  if Nat.ltb 0 (N_TSs e) then
    match respawn_each fuel e (TSs e) g with
    | None => None
    | Some (Raise ex) => Some (Raise ex)
    | Some (Ok (pairs, g')) => Some (Ok (set_respawned e (map fst pairs) (map snd pairs), g'))
    end
  else Some (Ok (e, g)).

(** ** [_calculate_reward(w_dist=1., w_head=1., w_coll=1., w_COLREG=1., w_comf=1.)] *)

(** The attributes assigned by [_calculate_reward]. *)
Record reward : Type := mk_reward {
  r_dist : R;
  r_head : R;
  r_coll : R;
  r_COLREG : R;
  r_comf : R;
  r : R
}.

Definition _calculate_reward (e : t) (w_dist w_head w_coll w_COLREG w_comf : R) : result reward :=
  let c := cfg e in
  let '(N_0, E_0, head0) := eta (OS e) in
  let OS_goal_ED := ED N_0 E_0 (fst (goal e)) (snd (goal e)) true in
  let r_dist := - OS_goal_ED / E_max c in
  let r_head :=
    -3 * Rabs (angle_to_pi (bng_rel N_0 E_0 (fst (goal e)) (snd (goal e)) head0 true)) / PI in
  let '(_, _, r_OS) := nu (OS e) in
  '(r_coll, r_COLREG) <-
    foldM_enum (fun (acc : R * R) TS_idx TS =>
      let '(r_coll, r_COLREG) := acc in
      let '(N_TS, E_TS, _) := eta TS in
      let ED_TS := ED N_0 E_0 N_TS E_TS true in
      let r_coll := if ED_TS <=? coll_dist c then r_coll - 10 else r_coll in
      flag <- getitem (respawn_flags e) TS_idx ;;
      if negb flag then
        if (ED_TS <=? sight c)
           && (0 <=? tcpa N_0 E_0 N_TS E_TS (_get_course (OS e)) (_get_course TS)
                          (_get_V (OS e)) (_get_V TS))
        then
          sigma <- getitem (TS_COLREGs e) TS_idx ;;
          if existsb (Z.eqb sigma) [1; 2]%Z && (r_OS <? 0) then Ok (r_coll, r_COLREG - 3.0)
          else if existsb (Z.eqb sigma) [3]%Z && (0 <? r_OS) then Ok (r_coll, r_COLREG - 3.0)
          else Ok (r_coll, r_COLREG)
        else Ok (r_coll, r_COLREG)
      else Ok (r_coll, r_COLREG)) 0 (TSs e) (0, 0) ;;
  let r_comf := -10 * Rabs r_OS ^ 2 in
  Ok {| r_dist := r_dist; r_head := r_head; r_coll := r_coll; r_COLREG := r_COLREG;
        r_comf := r_comf;
        r := w_dist * r_dist + w_head * r_head + w_coll * r_coll
             + w_COLREG * r_COLREG + w_comf * r_comf |}.

End WithVessel.
End FossenEnv.

(* ================================================================== *)
(** * HHOS_PathPlanning_Env.py: class HHOS_PathPlanning_Env            *)
(* ================================================================== *)

(** [int(x)] on a float: truncation towards zero. *)
Definition py_int (x : R) : Z := if 0 <=? x then Int_part x else (- Int_part (- x))%Z.

(** [sorted(rows, key=lambda x: x[0])]: stable, ascending in the key. *)
Fixpoint sorted_insert {A} (key : A -> R) (a : A) (l : list A) : list A :=
  match l with
  | [] => [a]
  | b :: l' => if key a <? key b then a :: b :: l' else b :: sorted_insert key a l'
  end.

Definition sorted_by {A} (key : A -> R) (l : list A) : list A :=
  fold_right (sorted_insert key) [] (rev l).

Module HHOS_PathPlanning_Env.
Import FossenFnc.

(** A vessel of the HHOS environments: a KVLCC2 with the attributes that the
    parent environment attaches to it. *)
Record vessel : Type := mk_vessel {
  ship : KVLCC2.t;
  rev_dir : bool;
  speedy : bool;
  ship_domain_A : R;
  ship_domain_B : R;
  ship_domain_C : R;
  ship_domain_D : R;
  critical_depth : R
}.

Definition set_ship (v : vessel) (s : KVLCC2.t) : vessel :=
  mk_vessel s (rev_dir v) (speedy v) (ship_domain_A v) (ship_domain_B v)
            (ship_domain_C v) (ship_domain_D v) (critical_depth v).

(** Attributes assigned by the parent constructor [HHOS_Env.__init__]. *)
Record base : Type := mk_base {
  delta_t : R;
  lidar_n_beams : nat;
  thrust_control_planner : bool;
  N_TSs_max : nat;
  N_TSs_random : bool;
  w_ye : R;
  w_ce : R;
  w_coll : R;
  w_comf : R;
  w_speed : R
}.

(** Attributes assigned by [__init__] on top of the parent's. *)
Record config : Type := mk_config {
  parent : base;
  state_design : string;
  n_loops : Z;
  num_obs_TS : nat;
  obs_size : nat;
  act_size : nat;
  d_head_scale : R;
  surge_scale : R;
  surge_min : R;
  surge_max : R;
  desired_V : R;
  _max_episode_steps : nat
}.

(** The environment during an episode. *)
Record t : Type := mk {
  cfg : config;
  OS : vessel;
  TSs : list vessel;
  glo_ye : R;
  glo_pi_path : R;
  H : R
}.

(** Modelled from the spec: class [HHOS_Env] (the parent class and the
    module-level helpers it exports) is not part of the sources; the items
    below are the ones the path-planning environment calls.
    [get_ship_domain] is the "four-parameter ellipse form" of the ship
    domain, [closeness_from_lidar] stands for
    [self._get_closeness_from_lidar(self._sense_LiDAR()[0])]. *)
Class HHOS_Env : Type := {
  super_init : forall (thrust_control_planner : bool) (data : string) (scenario_based : bool)
                      (w_ye w_ce w_coll w_comf w_speed : R) (N_TSs_max : nat)
                      (N_TSs_random : bool), result base;
  get_ship_domain : forall (A B C D : R) (OS TS : vessel), R;
  closeness_from_lidar : t -> list R
}.

Section WithParent.
Context {P : HHOS_Env}.

Definition __init__ (state_design : string) (thrust_control_planner : bool) (data : string)
    (scenario_based : bool) (N_TSs_max : nat) (N_TSs_random : bool)
    (w_ye w_ce w_coll w_comf w_speed : R) : result config :=
  b <- super_init thrust_control_planner data scenario_based w_ye w_ce w_coll w_comf w_speed
         N_TSs_max N_TSs_random ;;
  _ <- assert (FossenEnv.string_in state_design ["recursive"; "conventional"]%string)
         "Unknown state design for the HHOS-planner. Should be 'recursive' or 'conventional'." ;;
  q <- fdiv 60.0 (delta_t b) ;;
  let n_loops := py_int q in
  let OS_path_info_size := 3%nat in
  let num_obs_TS := 6%nat in
  let obs_size := (OS_path_info_size + lidar_n_beams b + num_obs_TS * HHOS_PathPlanning_Env.N_TSs_max b)%nat in
  let act_size := if HHOS_PathPlanning_Env.thrust_control_planner b then 2%nat else 1%nat in
  Ok {| parent := b; state_design := state_design; n_loops := n_loops;
        num_obs_TS := num_obs_TS; obs_size := obs_size; act_size := act_size;
        d_head_scale := dtr 10.0; surge_scale := 0.5; surge_min := 0.1; surge_max := 5.0;
        desired_V := 3.0; _max_episode_steps := 50 |}.

(** [_manual_heading_control(vessel, a)] *)
Definition _manual_heading_control (e : t) (v : vessel) (a : R) : result vessel :=
  _ <- assert ((-1 <=? a) && (a <=? 1)) "Unknown action." ;;
  let '(N, E, psi) := KVLCC2.eta (ship v) in
  Ok (set_ship v (KVLCC2.set_eta (ship v) (N, E, angle_to_2pi (psi + a * d_head_scale (cfg e))))).

(** ** [_set_state] *)

Definition ghost_ship : list cell := [Num 0.0; Num (-1.0); Num (-1.0); Num 0.0; Num (-1.0); Num (-1.0)].

(** "TS information": one row per target ship. *)
Definition state_TSs_rows (e : t) : result (list (list cell)) :=
  let c := cfg e in
  let '(N_0, E_0, head0) := KVLCC2.eta (ship (OS e)) in
  mapM (fun TS =>
    let '(N, E, headTS) := KVLCC2.eta (ship TS) in
    let D := get_ship_domain (ship_domain_A (OS e)) (ship_domain_B (OS e))
                             (ship_domain_C (OS e)) (ship_domain_D (OS e)) (OS e) TS in
    let ED_OS_TS := (ED N_0 E_0 N E true - D) / (20 * KVLCC2.Lpp) in
    let closeness := np_clip (1 - ED_OS_TS) 0.0 1.0 in
    let bng_rel_TS := bng_rel N_0 E_0 N E head0 false / PI in
    let C_TS_path := angle_to_pi (headTS - glo_pi_path e) / PI in
    V <- KVLCC2._get_V (ship TS) ;;
    let V_TS := if thrust_control_planner (parent c) then V - desired_V c else V / desired_V c in
    let TS_dir := if rev_dir TS then -1.0 else 1.0 in
    let TS_speedy := if speedy TS then 1.0 else -1.0 in
    Ok [Num closeness; Num bng_rel_TS; Num C_TS_path; Num V_TS; Num TS_dir; Num TS_speedy])
  (TSs e).

Definition row_key (row : list cell) : R :=
  match row with
  | Num x :: _ => x
  | _ => 0
  end.

(** "while len(state_TSs) != self.N_TSs_max: state_TSs.append(ghost)";
    [None] when the passes run out. *)
Fixpoint pad_ghost_ships (fuel : nat) (N_TSs_max : nat) (state_TSs : list (list cell))
  : option (list (list cell)) :=
  if Nat.eqb (List.length state_TSs) N_TSs_max then Some state_TSs
  else match fuel with
       | O => None
       | S fuel' => pad_ghost_ships fuel' N_TSs_max (state_TSs ++ [ghost_ship])
       end.

(** [np.hstack] of a list of rows; an empty list raises ValueError. *)
Definition np_hstack (rows : list (list cell)) : result (list cell) :=
  match rows with
  | [] => Raise ValueError
  | _ => Ok (List.concat rows)
  end.

(** The per-target block [state_TSs]. *)
Definition state_TSs_block (fuel : nat) (e : t) : option (result (list cell)) :=
  let c := cfg e in
  match state_TSs_rows e with
  | Raise ex => Some (Raise ex)
  | Ok state_TSs =>
      if String.eqb (state_design c) "recursive" then
        Some (Raise (NotImplementedError "Recursive state definition not implemented yet."))
      else
        match pad_ghost_ships fuel (N_TSs_max (parent c)) state_TSs with
        | None => None
        | Some state_TSs => Some (np_hstack (sorted_by row_key state_TSs))
        end
  end.

Definition _set_state (fuel : nat) (e : t) : option (result (list cell)) :=
  let c := cfg e in
  let '(u, _, _) := KVLCC2.nu (ship (OS e)) in
  let '(_, _, psi) := KVLCC2.eta (ship (OS e)) in
  let state_OS :=
    if thrust_control_planner (parent c)
    then [Num (u - desired_V c); Num (angle_to_pi (psi - glo_pi_path e) / PI)]
    else [Num (u / desired_V c); Num (angle_to_pi (psi - glo_pi_path e) / PI)] in
  let state_path := [Num (glo_ye e / KVLCC2.Lpp)] in
  let state_LiDAR := map Num (closeness_from_lidar e) in
  match state_TSs_block fuel e with
  | None => None
  | Some (Raise ex) => Some (Raise ex)
  | Some (Ok state_TSs) => Some (Ok (state_OS ++ state_path ++ state_LiDAR ++ state_TSs))
  end.

(** ** [_calculate_reward(a)] *)

(** The attributes assigned by [_calculate_reward]; [r_comf] and [r_speed]
    are only assigned under thrust control. *)
Record reward : Type := mk_reward {
  r_ye : R;
  r_ce : R;
  r_comf : option R;
  r_speed : option R;
  r_coll : R;
  r : R
}.

Definition np_sum (l : list R) : R := fold_right Rplus 0 l.

(** [weights * rews]: element-wise product of two arrays of equal length. *)
Fixpoint np_mul (a b : list R) : list R :=
  match a, b with
  | x :: a', y :: b' => x * y :: np_mul a' b'
  | _, _ => []
  end.

Definition r_coll_TS (e : t) (TS : vessel) (r_coll : R) : R :=
  let '(N_0, E_0, _) := KVLCC2.eta (ship (OS e)) in
  let '(N1, E1, head1) := KVLCC2.eta (ship TS) in
  let D := get_ship_domain (ship_domain_A (OS e)) (ship_domain_B (OS e))
                           (ship_domain_C (OS e)) (ship_domain_D (OS e)) (OS e) TS in
  let ED_OS_TS := ED N_0 E_0 N1 E1 true in
  let r_coll := if ED_OS_TS <=? D then r_coll - 10.0
                else r_coll - exp (- (ED_OS_TS - D) / 200) in
  let bng_rel_TS_pers := bng_rel N1 E1 N_0 E_0 head1 true in
  if speedy TS then
    if (dtr 180.0 <=? bng_rel_TS_pers) && (bng_rel_TS_pers <=? dtr 270.0)
       && (ED_OS_TS <=? 10 * KVLCC2.Lpp)
    then r_coll - 10.0 else r_coll
  else if rev_dir TS then
    if (dtr 0.0 <=? bng_rel_TS_pers) && (bng_rel_TS_pers <=? dtr 90.0)
       && (ED_OS_TS <=? 10 * KVLCC2.Lpp)
    then r_coll - 10.0 else r_coll
  else
    if (dtr 90.0 <=? bng_rel_TS_pers) && (bng_rel_TS_pers <=? dtr 180.0) then
      let l := (10 - 5 / PI * bng_rel_TS_pers) * KVLCC2.Lpp in
      if ED_OS_TS <=? l then r_coll - 10.0 else r_coll
    else r_coll.

Definition _calculate_reward (e : t) (a : list R) : result reward :=
  let c := cfg e in
  let b := parent c in
  let k_ye := 0.05 in
  let r_ye := exp (- k_ye * Rabs (glo_ye e)) in
  let '(u, _, _) := KVLCC2.nu (ship (OS e)) in
  let '(_, _, psi) := KVLCC2.eta (ship (OS e)) in
  let r_ce := if PI / 2 <=? Rabs (angle_to_pi (psi - glo_pi_path e)) then -10.0 else 0.0 in
  r_comf <- (if thrust_control_planner b
             then a1 <- getitem a 1 ;; Ok (Some (- a1 ^ 2))
             else Ok None) ;;
  let r_speed := if thrust_control_planner b
                 then Some (Rmax (- (u - desired_V c) ^ 2) (-1.0))
                 else None in
  let r_coll := fold_left (fun acc TS => r_coll_TS e TS acc) (TSs e) 0 in
  let r_coll := if H e <=? critical_depth (OS e) then r_coll - 10.0 else r_coll in
  let weights := [w_ye b; w_ce b; w_coll b] in
  let rews := [r_ye; r_ce; r_coll] in
  '(weights, rews) <-
    (if thrust_control_planner b then
       match r_comf, r_speed with
       | Some rc, Some rs => Ok (weights ++ [w_comf b; w_speed b], rews ++ [rc; rs])
       | _, _ => Raise (UnboundLocalError "r_comf")
       end
     else Ok (weights, rews)) ;;
  let r := if negb (np_sum weights =? 0.0)
           then np_sum (np_mul weights rews) / np_sum weights
           else 0.0 in
  Ok {| r_ye := r_ye; r_ce := r_ce; r_comf := r_comf; r_speed := r_speed;
        r_coll := r_coll; r := r |}.

End WithParent.
End HHOS_PathPlanning_Env.

(* ================================================================== *)
(** * Agent constructors: argument validation                          *)
(* ================================================================== *)

(** A Python sequence passed as [state_shape]: a tuple or a list. *)
Inductive pyseq : Type :=
| PyTuple (items : list Z)
| PyList (items : list Z).

Definition pyseq_len (s : pyseq) : nat :=
  match s with
  | PyTuple l | PyList l => List.length l
  end.

Definition is_tuple (s : pyseq) : bool :=
  match s with
  | PyTuple _ => true
  | PyList _ => false
  end.

Definition is_None {A} (o : option A) : bool :=
  match o with
  | None => true
  | Some _ => false
  end.

Module CNN_DQN_Agent.

(** The attributes stored by [__init__] before the replay buffer, the
    normaliser and the networks are built. *)
Record t : Type := mk {
  mode : string;
  num_actions : Z;
  state_shape : pyseq;
  dqn_weights : option string;
  input_norm : bool;
  input_norm_prior : option string;
  n_steps : Z;
  device : string
}.

(** [__init__], the checks on the arguments, in program order. *)
Definition __init__ (mode : string) (num_actions : Z) (state_shape : pyseq)
    (dqn_weights : option string) (input_norm : bool) (input_norm_prior : option string)
    (n_steps : Z) (device : string) : result t :=
  _ <- assert (FossenEnv.string_in mode ["train"; "test"]%string)
         "Unknown mode. Should be 'train' or 'test'." ;;
  _ <- assert (negb (String.eqb mode "test" && is_None dqn_weights))
         "Need prior weights in test mode." ;;
  _ <- assert (Nat.eqb (pyseq_len state_shape) 3 && is_tuple state_shape)
         "'state_shape' should be: (height, width, in_channels)" ;;
  _ <- assert (1 <=? n_steps)%Z "'n_steps' should not be smaller than 1." ;;
  _ <- assert (FossenEnv.string_in device ["cpu"; "cuda"]%string) "Unknown device." ;;
  _ <- (if input_norm
        then assert (negb (String.eqb mode "test" && is_None input_norm_prior))
               "Please supply 'input_norm_prior' in test mode with input normalization."
        else Ok tt) ;;
  Ok (mk mode num_actions state_shape dqn_weights input_norm input_norm_prior n_steps device).

End CNN_DQN_Agent.

Module TQC_Agent.

Record t : Type := mk {
  mode : string;
  action_dim : Z;
  state_dim : Z;
  actor_weights : option string;
  critic_weights : option string;
  device : string
}.

(** [__init__], the checks on the arguments, in program order. *)
Definition __init__ (mode : string) (action_dim state_dim : Z)
    (actor_weights critic_weights : option string) (device : string) : result t :=
  _ <- assert (FossenEnv.string_in mode ["train"; "test"]%string)
         "Unknown mode. Should be 'train' or 'test'." ;;
  _ <- assert (negb (String.eqb mode "test" && (is_None actor_weights || is_None critic_weights)))
         "Need prior weights in test mode." ;;
  _ <- assert (FossenEnv.string_in device ["cpu"; "cuda"]%string) "Unknown device" ;;
  Ok (mk mode action_dim state_dim actor_weights critic_weights device).

End TQC_Agent.

(* ================================================================== *)
(** * Vocabulary of the properties                                     *)
(* ================================================================== *)

Definition north (e : vec3) : R := fst (fst e).
Definition east (e : vec3) : R := snd (fst e).
Definition heading (e : vec3) : R := snd e.

(** A heading is wrapped when it lies in [0, 2pi). *)
Definition wrapped (p : R) : Prop := 0 <= p < 2 * PI.

(** [fl_vel is not None and fl_vel != 0.] *)
Definition current_active (fl_vel : option R) : bool :=
  match fl_vel with
  | Some c => negb (c =? 0)
  | None => false
  end.

(** ** Heading updates of a vessel of the path-planning environment *)

Inductive update : Type :=
| UpdDynamics                 (* vessel._upd_dynamics() *)
| ManualHeading (a : R).      (* self._manual_heading_control(vessel, a) *)

Definition valid_update (u : update) : Prop :=
  match u with
  | UpdDynamics => True
  | ManualHeading a => -1 <= a <= 1
  end.

Definition apply_update (e : HHOS_PathPlanning_Env.t) (v : HHOS_PathPlanning_Env.vessel)
    (u : update) : result HHOS_PathPlanning_Env.vessel :=
  match u with
  | UpdDynamics =>
      s <- KVLCC2._upd_dynamics (HHOS_PathPlanning_Env.ship v) ;;
      Ok (HHOS_PathPlanning_Env.set_ship v s)
  | ManualHeading a => HHOS_PathPlanning_Env._manual_heading_control e v a
  end.

(** The vessel states reached by a sequence of updates, one per update that
    returned; an exception ends the run. *)
Fixpoint run_updates (e : HHOS_PathPlanning_Env.t) (v : HHOS_PathPlanning_Env.vessel)
    (us : list update) : list HHOS_PathPlanning_Env.vessel :=
  match us with
  | [] => []
  | u :: us' =>
      match apply_update e v u with
      | Ok v' => v' :: run_updates e v' us'
      | Raise _ => []
      end
  end.

Definition vessel_heading (v : HHOS_PathPlanning_Env.vessel) : R :=
  heading (KVLCC2.eta (HHOS_PathPlanning_Env.ship v)).

(** ** The angular windows of the COLREG situations, in degrees *)

Section Windows.
Import FossenFnc.
Context {CS : CyberShipII.methods}.
Variables OS TS : CyberShipII.t.

Definition encounter_ED : R :=
  ED (north (CyberShipII.eta OS)) (east (CyberShipII.eta OS))
     (north (CyberShipII.eta TS)) (east (CyberShipII.eta TS)) true.

(** Relative bearing from the own ship to the target, in [0, 2pi). *)
Definition encounter_bng_OS : R :=
  bng_rel (north (CyberShipII.eta OS)) (east (CyberShipII.eta OS))
          (north (CyberShipII.eta TS)) (east (CyberShipII.eta TS))
          (heading (CyberShipII.eta OS)) true.

(** Reciprocal bearing, from the target to the own ship. *)
Definition encounter_bng_TS : R :=
  bng_rel (north (CyberShipII.eta TS)) (east (CyberShipII.eta TS))
          (north (CyberShipII.eta OS)) (east (CyberShipII.eta OS))
          (heading (CyberShipII.eta TS)) true.

(** Heading intersection angle. *)
Definition encounter_C_T : R :=
  head_inter (heading (CyberShipII.eta OS)) (heading (CyberShipII.eta TS)).

(** Speed of the own ship projected on the target's course. *)
Definition encounter_V_rel : R :=
  let '(x, y) := project_vector (CyberShipII._get_V OS) (CyberShipII._get_course OS)
                                (CyberShipII._get_V TS) (CyberShipII._get_course TS) in
  polar_from_xy_r x y.

(** The angles of the encounter in degrees: the relative bearing in
    [0, 360) and wrapped around zero, the reciprocal bearing, the
    intersection angle in [0, 360) and wrapped around zero. *)
Definition bearing_deg : R := rtd encounter_bng_OS.
Definition bearing_pi_deg : R := rtd (angle_to_pi encounter_bng_OS).
Definition reciprocal_deg : R := rtd encounter_bng_TS.
Definition intersection_deg : R := rtd encounter_C_T.
Definition intersection_pi_deg : R := rtd (angle_to_pi encounter_C_T).

Definition head_on_window : Prop :=
  -5 <= bearing_pi_deg <= 5 /\ 175 <= intersection_deg <= 185.

(** Starboard crossing (small), with the bounds of the spec: open below. *)
Definition starboard_small_window_literal : Prop :=
  5 < bearing_deg <= 45 /\ 185 < intersection_deg <= 210.

(** Starboard crossing (small), closed below. *)
Definition starboard_small_window_closed : Prop :=
  5 <= bearing_deg <= 45 /\ 185 <= intersection_deg <= 210.

Definition starboard_large_window : Prop :=
  45 < bearing_deg <= 112.5 /\ 210 < intersection_deg <= 292.5.

Definition portside_window : Prop :=
  247.5 <= bearing_deg <= 355 /\ 67.5 <= intersection_deg <= 175.

Definition overtaking_window : Prop :=
  112.5 <= reciprocal_deg <= 247.5
  /\ -67.5 <= intersection_pi_deg <= 67.5
  /\ CyberShipII._get_V TS < encounter_V_rel.

(** The classification as the specification words it: each literal window
    yields its situation, everything else and every target out of sight
    yields none. *)
Definition COLREG_as_stated (e : FossenEnv.t) : Prop :=
  let s := FossenEnv._get_COLREG_situation e OS TS in
  (FossenEnv.sight (FossenEnv.cfg e) < encounter_ED -> s = 0%Z)
  /\ (encounter_ED <= FossenEnv.sight (FossenEnv.cfg e) ->
        (head_on_window -> s = 1%Z)
        /\ (starboard_small_window_literal -> s = 2%Z)
        /\ (starboard_large_window -> s = 3%Z)
        /\ (portside_window -> s = 4%Z)
        /\ (overtaking_window -> s = 5%Z)
        /\ (~ head_on_window -> ~ starboard_small_window_literal -> ~ starboard_large_window ->
            ~ portside_window -> ~ overtaking_window -> s = 0%Z)).

End Windows.

(** ** Target ships in sight *)

Definition in_sight (e : FossenEnv.t) (TS : CyberShipII.t) : bool :=
  encounter_ED (FossenEnv.OS e) TS <=? FossenEnv.sight (FossenEnv.cfg e).

Definition in_sight_count (e : FossenEnv.t) : nat :=
  List.length (filter (in_sight e) (FossenEnv.TSs e)).

(** The fixed-length property as the specification words it, for the state
    assembler of FossenEnv: whenever at most [N_TSs_max] targets are in
    sight, the per-target block has [N_TSs_max * num_obs_TS] entries. *)
Definition fixed_length_as_stated {CS : CyberShipII.methods} (e : FossenEnv.t) : Prop :=
  (in_sight_count e <= FossenEnv.N_TSs_max (FossenEnv.cfg e))%nat ->
  exists block,
    FossenEnv.state_TSs_block e = Ok block
    /\ List.length block
       = (FossenEnv.N_TSs_max (FossenEnv.cfg e) * FossenEnv.num_obs_TS (FossenEnv.cfg e))%nat.

(** ** Spawn separation *)

Definition spawn_distance (a b : CyberShipII.t) : R := encounter_ED a b.

(** Two target ships are separated when their Euclidean distance is at
    least the minimum spawn distance of the configuration. *)
Definition separated (c : FossenEnv.config) (a b : CyberShipII.t) : Prop :=
  FossenEnv.min_dist_spawn_TS c <= spawn_distance a b.

(** ** Distance of the own ship to the goal *)

Definition goal_distance (e : FossenEnv.t) : R :=
  FossenFnc.ED (north (CyberShipII.eta (FossenEnv.OS e))) (east (CyberShipII.eta (FossenEnv.OS e)))
               (fst (FossenEnv.goal e)) (snd (FossenEnv.goal e)) true.

(** [sum([respawn, mirrow, clip]) <= 1] *)
Definition at_most_one (respawn mirrow clip : bool) : Prop :=
  (Nat.b2n respawn + Nat.b2n mirrow + Nat.b2n clip <= 1)%nat.

(** ** Weighted sums *)

Definition weighted_sum (ws rs : list R) : R :=
  HHOS_PathPlanning_Env.np_sum (HHOS_PathPlanning_Env.np_mul ws rs).

(* ================================================================== *)
(** * Concrete vessels and environments                                *)
(* ================================================================== *)

(** Modelled from the spec: a vessel class for the concrete runs below.
    Speed and course follow the spec ("Course angle = heading + sideslip
    angle (sideslip computed from body-frame velocity components)"), the
    map test is the one of the sibling class KVLCC2, the length is a fifth
    of the collision distance. The spec gives no formula for the converged
    speed of a thrust; it is taken as the thrust itself. *)
Definition sample_methods : CyberShipII.methods :=
  {| CyberShipII.__init__ :=
       fun N_init E_init psi_init u_init v_init r_init _ N_max E_max _ tau_u f2 f23_sum =>
         CyberShipII.mk (N_init, E_init, psi_init) (u_init, v_init, r_init)
                        (0, 0, 0) (0, 0, 0) (0, 0, 0) tau_u f2 f2 f23_sum 0 1 1.255 0.29
                        N_max E_max;
     CyberShipII._u_from_tau_u := fun _ tau_u => match tau_u with Some x => x | None => 0 end;
     CyberShipII._tau_u_from_u := fun _ u => u;
     CyberShipII._set_tau := fun s => s;
     CyberShipII._get_course :=
       fun s => let '(u, v, _) := CyberShipII.nu s in
                FossenFnc.angle_to_2pi (heading (CyberShipII.eta s)
                                        + FossenFnc.polar_from_xy_angle v u);
     CyberShipII._get_V :=
       fun s => let '(u, v, _) := CyberShipII.nu s in sqrt (u ^ 2 + v ^ 2);
     CyberShipII._is_off_map :=
       fun s => let '(N, E, _) := CyberShipII.eta s in
                (N <=? 0) || (CyberShipII.N_max s <=? N) || (E <=? 0)
                || (CyberShipII.E_max s <=? E) |}.

(** A vessel at rest at a given pose. *)
Definition vessel_at (N E psi : R) : CyberShipII.t :=
  @CyberShipII.__init__ sample_methods N E psi 0 0 0 0.5 200 200 "tau"%string (Some 3.0) None None.

(** The configuration built by [FossenEnv()] for a state design. *)
Definition fossen_config (N_TSs_max : nat) (state_design : string) : FossenEnv.config :=
  {| FossenEnv.delta_t := 0.5; FossenEnv.N_max := 200; FossenEnv.E_max := 200;
     FossenEnv.N_TSs_max := N_TSs_max; FossenEnv.N_TSs_random := false;
     FossenEnv.N_TSs_increasing := false; FossenEnv.outer_step_cnt := None;
     FossenEnv.sight := 100; FossenEnv.coll_dist := 6.275; FossenEnv.TCPA_crit := 120;
     FossenEnv.min_dist_spawn_TS := 20;
     FossenEnv.cnt_approach := "tau"; FossenEnv.state_design := state_design;
     FossenEnv.goal_reach_dist := 10; FossenEnv.stop_spawn_dist := 5 * 10;
     FossenEnv.num_obs_OS := 9; FossenEnv.num_obs_TS := 6; FossenEnv.plot_traj := false;
     FossenEnv.obs_size :=
       if String.eqb state_design "RecDQN" then (9 + N_TSs_max * 6)%nat else (9 + 6)%nat;
     FossenEnv.action_space := Some 3%nat;
     FossenEnv._max_episode_steps := 500 |}.

(** An episode with the own ship at [OS], the goal at [goal] and the target
    ships [TSs], none of them just respawned and none classified yet. *)
Definition fossen_episode (c : FossenEnv.config) (OS : CyberShipII.t) (goal : R * R)
    (TSs : list CyberShipII.t) : FossenEnv.t :=
  FossenEnv.mk c OS goal (List.length TSs) TSs (map (fun _ => 0%Z) TSs)
               (map (fun _ => 0%Z) TSs) (map (fun _ => false) TSs).

(** Own ship heading 355 degrees at the origin, target 50 m due north
    heading 195 degrees: the target bears 5 degrees, the headings intersect
    at 200 degrees. *)
Definition OS_355 : CyberShipII.t := vessel_at 0 0 (FossenFnc.dtr 355).
Definition TS_north_195 : CyberShipII.t := vessel_at 50 0 (FossenFnc.dtr 195).
Definition episode_355 : FossenEnv.t :=
  fossen_episode (fossen_config 3 "RecDQN") OS_355 (180, 100) [TS_north_195].

(** An episode of the "maxRisk" design with three target slots and no
    target ship. *)
Definition episode_maxRisk_empty : FossenEnv.t :=
  fossen_episode (fossen_config 3 "maxRisk") (vessel_at 20 100 0) (180, 100) [].

(** An episode with the own ship at rest at the origin, the goal 100 m due
    north and one target ship 30 m north of the own ship. *)
Definition episode_spawn : FossenEnv.t :=
  fossen_episode (fossen_config 3 "RecDQN") (vessel_at 0 0 0) (100, 0) [vessel_at 30 0 0].

(** An episode with the own ship at rest at the origin, the goal 100 m due
    north and no target ship. *)
Definition episode_no_TS : FossenEnv.t :=
  fossen_episode (fossen_config 3 "RecDQN") (vessel_at 0 0 0) (100, 0) [].

(** A vessel heading north at a given surge speed. *)
Definition vessel_northbound (N E u : R) : CyberShipII.t :=
  @CyberShipII.__init__ sample_methods N E 0 u 0 0 0.5 200 200 "tau"%string (Some 3.0) None None.

(** An episode in which two target ships have left the map in the same
    tick, one across the southern and one across the eastern border; the
    own ship is at (20, 100) and heads north at 0.5 m/s towards the goal at
    (180, 100). *)
Definition episode_two_leaving : FossenEnv.t :=
  fossen_episode (fossen_config 3 "RecDQN") (vessel_northbound 20 100 0.5) (180, 100)
                 [vessel_at (-5) 100 0; vessel_at 100 205 0].

(** A random source whose raw outputs are zero except for the seventh
    output of [np.random], the thrust of the second vessel generated. *)
Definition rng_two_respawns : rng :=
  mk_rng (fun i => if Nat.eqb i 6 then 0.01 else 0) 0 (fun _ => 0%nat) 0.

(** A random source whose every raw output is zero. *)
Definition rng_zero : rng := mk_rng (fun _ => 0) 0 (fun _ => 0%nat) 0.

(** An episode with the own ship on the goal and a target ship off the map. *)
Definition episode_at_goal : FossenEnv.t :=
  fossen_episode (fossen_config 3 "RecDQN") (vessel_at 180 100 0) (180, 100) [vessel_at (-10) 100 0].

(** Modelled from the spec: a parent environment for the concrete runs
    below. The parent constructor stores its arguments, with the 5 s step
    and 20 LiDAR beams; the ship domain is a constant radius and the LiDAR
    sees open water. *)
Definition sample_parent : HHOS_PathPlanning_Env.HHOS_Env :=
  {| HHOS_PathPlanning_Env.super_init :=
       fun thrust _ _ w_ye w_ce w_coll w_comf w_speed N_TSs_max N_TSs_random =>
         Ok (HHOS_PathPlanning_Env.mk_base 5.0 20 thrust N_TSs_max N_TSs_random
                                           w_ye w_ce w_coll w_comf w_speed);
     HHOS_PathPlanning_Env.get_ship_domain := fun _ _ _ _ _ _ => 500;
     HHOS_PathPlanning_Env.closeness_from_lidar := fun _ => repeat 0 20 |}.

Definition hhos_config (thrust : bool) (N_TSs_max : nat) : HHOS_PathPlanning_Env.config :=
  {| HHOS_PathPlanning_Env.parent :=
       HHOS_PathPlanning_Env.mk_base 5.0 20 thrust N_TSs_max false 1 1 1 1 1;
     HHOS_PathPlanning_Env.state_design := "conventional";
     HHOS_PathPlanning_Env.n_loops := 12;
     HHOS_PathPlanning_Env.num_obs_TS := 6;
     HHOS_PathPlanning_Env.obs_size := (3 + 20 + 6 * N_TSs_max)%nat;
     HHOS_PathPlanning_Env.act_size := if thrust then 2%nat else 1%nat;
     HHOS_PathPlanning_Env.d_head_scale := FossenFnc.dtr 10.0;
     HHOS_PathPlanning_Env.surge_scale := 0.5;
     HHOS_PathPlanning_Env.surge_min := 0.1;
     HHOS_PathPlanning_Env.surge_max := 5.0;
     HHOS_PathPlanning_Env.desired_V := 3.0;
     HHOS_PathPlanning_Env._max_episode_steps := 50 |}.

Definition hhos_vessel (N E psi u : R) : HHOS_PathPlanning_Env.vessel :=
  HHOS_PathPlanning_Env.mk_vessel (KVLCC2.__init__ N E psi u 0 0 1.8 5.0 0 0)
                                  false false 2 1 2 1 25.

Definition hhos_episode (thrust : bool) (N_TSs_max : nat)
    (TSs : list HHOS_PathPlanning_Env.vessel) : HHOS_PathPlanning_Env.t :=
  HHOS_PathPlanning_Env.mk (hhos_config thrust N_TSs_max) (hhos_vessel 0 0 0 3) TSs 0 0 100.

(* ================================================================== *)
(** * KVLCC2: rudder action sequences and the surge on a straight course *)
(* ================================================================== *)

(** [for a in acts: vessel._control(a)]; the first exception ends the run. *)
Fixpoint run_controls (s : KVLCC2.t) (acts : list Z) : result KVLCC2.t :=
  match acts with
  | [] => Ok s
  | a :: acts' => s' <- KVLCC2._control s a ;; run_controls s' acts'
  end.

(** The closure [to_find_root_of] that [_get_u_from_nps(nps, psi)] hands to
    the root finder as a function of [u], and [_get_nps_from_u(u, psi)] as a
    function of [nps]: the first component of
    [_mmg_dynamics(nu=[u, 0.0, 0.0], psi=psi, rud_angle=0.0, nps=nps,
                   fl_psi=0.0, fl_vel=0.0)]. *)
Definition to_find_root_of (psi nps u : R) : result R :=
  nu_dot <- KVLCC2._mmg_dynamics (u, 0.0, 0.0) psi 0.0 nps 0.0 (Some 0.0) ;;
  let '(d_u, _, _) := nu_dot in Ok d_u.

(** The added mass in surge, [m_x] of "Equation solving". *)
Definition m_x : R :=
  KVLCC2.m_x_dash * (0.5 * KVLCC2.rho * (KVLCC2.Lpp ^ 2) * KVLCC2.d).

(** The thrust of the propeller at advance ratio zero, [X_P] for [J = 0]. *)
Definition bollard_thrust (nps : R) : R :=
  (1 - KVLCC2.t_P) * KVLCC2.rho * KVLCC2.k_0 * nps ^ 2 * KVLCC2.D_p ^ 4.

(** The surge force on a straight course (no sway, no yaw, rudder amidships,
    wake fraction 0.09) as a quadratic form in the surge speed [u] and the
    propeller revolutions [nps]: [- surge_A u^2 - surge_B u nps + surge_C nps^2].
    [surge_A] collects the hull resistance and the part of the thrust that
    is quadratic in the advance ratio, [surge_B] the part linear in it,
    [surge_C] the thrust at advance ratio zero. *)
Definition surge_A : R :=
  0.5 * KVLCC2.rho * KVLCC2.Lpp * KVLCC2.d * KVLCC2.R_0_dash
  - (1 - KVLCC2.t_P) * KVLCC2.rho * KVLCC2.k_2 * (1 - 0.09) ^ 2 * KVLCC2.D_p ^ 2.
Definition surge_B : R :=
  - ((1 - KVLCC2.t_P) * KVLCC2.rho * KVLCC2.k_1 * (1 - 0.09) * KVLCC2.D_p ^ 3).
Definition surge_C : R :=
  (1 - KVLCC2.t_P) * KVLCC2.rho * KVLCC2.k_0 * KVLCC2.D_p ^ 4.

Definition surge_force_ahead (u nps : R) : R :=
  - surge_A * u ^ 2 - surge_B * u * nps + surge_C * nps ^ 2.

(** The positive root of [surge_A k^2 + surge_B k - surge_C]: the surge
    speed per propeller revolution at which the surge force vanishes. *)
Definition steady_speed_per_revolution : R :=
  (sqrt (surge_B ^ 2 + 4 * surge_A * surge_C) - surge_B) / (2 * surge_A).

(** A KVLCC2 heading [psi] at the origin with surge speed [u], the propeller
    at [nps] revolutions per second and a time step of 5 s. *)
Definition tanker (psi u nps : R) : KVLCC2.t :=
  KVLCC2.__init__ 0 0 psi u 0 0 nps 5.0 0 0.

(** [for _ in range(n): vessel._upd_dynamics()]; the first exception ends
    the run. *)
Fixpoint run_upd_dynamics (n : nat) (s : KVLCC2.t) : result KVLCC2.t :=
  match n with
  | O => Ok s
  | S n' => s' <- KVLCC2._upd_dynamics s ;; run_upd_dynamics n' s'
  end.

(* ================================================================== *)
(** * KVLCC2: the converged speed of a propeller revolution            *)
(* ================================================================== *)

(** [scipy.optimize.newton(func, x0)] is not part of the sources: the root
    finder is a parameter of the two methods that call it. *)
Class scipy_optimize : Type := {
  newton : (R -> result R) -> R -> result R
}.

Module KVLCC2_speed.
Section WithNewton.
Context {SO : scipy_optimize}.

(** [_get_u_from_nps(nps, psi=0.0)] *)
Definition _get_u_from_nps (nps psi : R) : result R :=
  newton (fun u => to_find_root_of psi nps u) 5.0.

(** [_get_nps_from_u(u, psi=0.0)] *)
Definition _get_nps_from_u (u psi : R) : result R :=
  newton (fun nps => to_find_root_of psi nps u) 2.0.

End WithNewton.
End KVLCC2_speed.

(* ================================================================== *)
(** * HHOS_PathPlanning_Env.py: surge control, collision flag, safety reward *)
(* ================================================================== *)

Module HHOS_PathPlanning.
Import FossenFnc.
Import HHOS_PathPlanning_Env.

Section WithParent.
Context {P : HHOS_Env} {SO : scipy_optimize}.

(** [_manual_surge_control(vessel, a)] *)
Definition _manual_surge_control (e : t) (v : vessel) (a : R) : result vessel :=
  _ <- assert ((-1 <=? a) && (a <=? 1)) "Unknown action." ;;
  let '(u, v_, r) := KVLCC2.nu (ship v) in
  let u := np_clip (u + a * surge_scale (cfg e)) (surge_min (cfg e)) (surge_max (cfg e)) in
  let s := KVLCC2.set_nu (ship v) (u, v_, r) in
  nps <- KVLCC2_speed._get_nps_from_u u 0.0 ;;
  Ok (set_ship v (KVLCC2.set_nps s nps)).

(** [_check_collision], "TS collision": the loop over [self.TSs] with its
    [break]; the value is the one left in [self.collision_flag]. *)
Fixpoint TS_collision (e : t) (l : list vessel) : bool :=
  match l with
  | [] => false
  | TS :: l' =>
      let '(N_0, E_0, _) := KVLCC2.eta (ship (OS e)) in
      let '(N1, E1, _) := KVLCC2.eta (ship TS) in
      let D := get_ship_domain (ship_domain_A (OS e)) (ship_domain_B (OS e))
                               (ship_domain_C (OS e)) (ship_domain_D (OS e)) (OS e) TS in
      let ED_OS_TS := ED N_0 E_0 N1 E1 true in
      if ED_OS_TS <=? D then true else TS_collision e l'
  end.

(** [_check_collision]: the value assigned to [self.collision_flag]. *)
Definition _check_collision (e : t) : bool :=
  if H e <=? critical_depth (OS e) then true
  else TS_collision e (TSs e).

(** [_MPC_reward], the term of one target ship. *)
Definition MPC_reward_TS (e : t) (r : R) (TS : vessel) : R :=
  let '(N_0, E_0, _) := KVLCC2.eta (ship (OS e)) in
  let '(N1, E1, _) := KVLCC2.eta (ship TS) in
  let D := get_ship_domain (ship_domain_A (OS e)) (ship_domain_B (OS e))
                           (ship_domain_C (OS e)) (ship_domain_D (OS e)) (OS e) TS in
  let ED_OS_TS := ED N_0 E_0 N1 E1 true in
  if ED_OS_TS <=? 100 then r - 100.0
  else r - exp (- (ED_OS_TS - D) / 200).

(** [_MPC_reward] *)
Definition _MPC_reward (e : t) : R :=
  let r := 0.0 in
  let k_ye := 0.05 in
  let r := r + exp (- k_ye * Rabs (glo_ye e)) in
  let '(_, _, psi) := KVLCC2.eta (ship (OS e)) in
  let r := if PI / 2 <=? Rabs (angle_to_pi (psi - glo_pi_path e)) then -100.0 else r in
  let r := fold_left (MPC_reward_TS e) (TSs e) r in
  if H e <=? critical_depth (OS e) then r - 100.0 else r.

End WithParent.
End HHOS_PathPlanning.

(** A root finder for the concrete runs: it returns its starting point. *)
Definition newton_no_iteration : scipy_optimize :=
  {| newton := fun _ x0 => Ok x0 |}.

(* ================================================================== *)
(** * Order of the rows of an observation                              *)
(* ================================================================== *)

(** A list of floats in ascending order. *)
Fixpoint ascending (l : list R) : Prop :=
  match l with
  | [] => True
  | a :: l' => match l' with
               | [] => True
               | b :: _ => a <= b
               end /\ ascending l'
  end.

(** A list of floats in descending order. *)
Definition descending (l : list R) : Prop := ascending (rev l).

(* ================================================================== *)
(** * FossenEnv.py: reset, end of an episode, plotting helper          *)
(* ================================================================== *)

(** [np.random.choice(n)] and [np.random.choice([0, ..., n-1])]: an index
    below [n], read from one raw output of the generator; [n = 0] raises
    ValueError. *)
Definition np_random_choice (n : nat) (g : rng) : result (nat * rng) :=
  if Nat.eqb n 0 then Raise ValueError
  else Ok (Nat.modulo (Z.to_nat (Int_part (INR n * np_raw g (np_pos g)))) n,
           mk_rng (np_raw g) (S (np_pos g)) (py_raw g) (py_pos g)).

Module FossenEnv_episode.
Import FossenFnc.
Import CyberShipII.
Import FossenEnv.

Section WithVessel.
Context {CS : CyberShipII.methods}.

(** [reset], "sample goal and agent positions": the goal, the start
    position and the start heading of the own ship. *)
Definition reset_sit (c : config) (g : rng) : result ((R * R) * R * R * R * rng) :=
  '(sit_init, g) <- np_random_choice 4 g ;;
  if Nat.eqb sit_init 0 then
    let '(x, g) := np_random_uniform (-10) 10 g in
    Ok ((0.9 * N_max c, 0.5 * E_max c), 0.1 * N_max c, 0.5 * E_max c, angle_to_2pi (dtr x), g)
  else if Nat.eqb sit_init 1 then
    let '(x, g) := np_random_uniform 35 55 g in
    Ok ((0.5 * N_max c, 0.9 * E_max c), 0.5 * N_max c, 0.1 * E_max c, dtr x, g)
  else if Nat.eqb sit_init 2 then
    let '(x, g) := np_random_uniform 170 190 g in
    Ok ((0.1 * N_max c, 0.5 * E_max c), 0.9 * N_max c, 0.5 * E_max c, dtr x, g)
  else if Nat.eqb sit_init 3 then
    let '(x, g) := np_random_uniform 260 280 g in
    Ok ((0.5 * N_max c, 0.1 * E_max c), 0.5 * N_max c, 0.9 * E_max c, dtr x, g)
  else Raise (UnboundLocalError "N_init").

(** [reset], "init other vessels": the number of target ships. The counter
    [outer_step_cnt] exists whenever [N_TSs_increasing] is set. *)
Definition reset_N_TSs (c : config) (g : rng) : result (nat * rng) :=
  if N_TSs_random c then np_random_choice (N_TSs_max c + 1) g
  else if N_TSs_increasing c then
    match outer_step_cnt c with
    | Some k =>
        Ok (if (Z.of_nat k <=? 1000000)%Z then 0%nat
            else if (Z.of_nat k <=? 2000000)%Z then 1%nat
            else if (Z.of_nat k <=? 3000000)%Z then 2%nat
            else 3%nat, g)
    | None => Raise (UnboundLocalError "outer_step_cnt")
    end
  else Ok (N_TSs_max c, g).

(** [reset()]: the episode, the state returned and the random source left.
    [flags_before] is [self.respawn_flags] as the previous episode left it;
    [reset] does not assign it. *)
Definition reset (fuel : nat) (c : config) (flags_before : list bool) (g : rng)
  : option (result (FossenEnv.t * list cell * rng)) :=
  match ('(goal, N_init, E_init, head, g) <- reset_sit c g ;;
         OS <- reset_OS c N_init E_init head ;;
         '(N_TSs, g) <- reset_N_TSs c g ;;
         Ok (FossenEnv.mk c OS goal N_TSs [] [] [] flags_before, g)) with
  | Raise ex => Some (Raise ex)
  | Ok (e, g) =>
      match spawn_TSs fuel (N_TSs e) e g with
      | None => None
      | Some (Raise ex) => Some (Raise ex)
      | Some (Ok (e, g)) =>
          let e := set_COLREGs e (TS_COLREGs_old e) (repeat 0%Z (N_TSs e)) in
          let e := _set_COLREGs e in
          match _set_state e with
          | Raise ex => Some (Raise ex)
          | Ok state => Some (Ok (e, state, g))
          end
      end
  end.

(** [_done()], for the step counter [step_cnt]; the trajectory plot is
    not modelled. *)
Definition _done (e : FossenEnv.t) (step_cnt : nat) : bool :=
  let '(N_0, E_0, _) := eta (OS e) in
  let d := false in
  let OS_goal_ED := ED N_0 E_0 (fst (goal e)) (snd (goal e)) true in
  let d := if OS_goal_ED <=? goal_reach_dist (cfg e) then true else d in
  let d := if Nat.leb (_max_episode_steps (cfg e)) step_cnt then true else d in
  d.

End WithVessel.

(** [_plot_jet(axis, E, N, l, angle)]: the end point [(E1, N1)] of the line
    that is drawn from [(E, N)]. *)
Definition _plot_jet (E N l angle : R) : result (R * R) :=
  let angle := angle_to_2pi angle in
  if angle <=? PI / 2 then
    Ok (E + sin angle * l, N + cos angle * l)
  else if (3 / 2 * PI <? angle) && (angle <=? 2 * PI) then
    let angle := 2 * PI - angle in
    Ok (E - sin angle * l, N + cos angle * l)
  else if (PI <? angle) && (angle <=? 3 / 2 * PI) then
    let angle := angle - PI in
    Ok (E - sin angle * l, N - cos angle * l)
  else if (PI / 2 <? angle) && (angle <=? PI) then
    let angle := PI - angle in
    Ok (E + sin angle * l, N - cos angle * l)
  else Raise (UnboundLocalError "E1").

End FossenEnv_episode.

(** A random source whose raw outputs all lie in the unit interval
    [0, 1), as those of [np.random] do. *)
Definition unit_interval_outputs (g : rng) : Prop :=
  forall i, 0 <= np_raw g i < 1.

(** An episode of the "maxRisk" design: the own ship at (20, 100) heads
    north at 0.5 m/s, two target ships lie at rest 20 m and 40 m ahead. *)
Definition episode_maxRisk_two : FossenEnv.t :=
  fossen_episode (fossen_config 3 "maxRisk") (vessel_northbound 20 100 0.5) (180, 100)
                 [vessel_at 40 100 0; vessel_at 60 100 0].

(** The same traffic in the "RecDQN" design with a single target slot. *)
Definition episode_one_slot_two_targets : FossenEnv.t :=
  fossen_episode (fossen_config 1 "RecDQN") (vessel_northbound 20 100 0.5) (180, 100)
                 [vessel_at 40 100 0; vessel_at 60 100 0].

(** The same traffic in the "RecDQN" design with three target slots. *)
Definition episode_RecDQN_two : FossenEnv.t :=
  fossen_episode (fossen_config 3 "RecDQN") (vessel_northbound 20 100 0.5) (180, 100)
                 [vessel_at 40 100 0; vessel_at 60 100 0].

(** ** Risk of the target ships in sight *)

(** The target ships within the sight radius, in the order of [self.TSs]. *)
Definition visible (e : FossenEnv.t) : list CyberShipII.t :=
  filter (in_sight e) (FossenEnv.TSs e).

(** "risk-ratio: euclidean distance / ship domain" *)
Definition risk_ratio {CS : CyberShipII.methods} (e : FossenEnv.t) (TS : CyberShipII.t) : R :=
  encounter_ED (FossenEnv.OS e) TS / FossenEnv._get_ship_domain (FossenEnv.OS e) TS.

(** A row of six entries that starts with the normalised distance of the
    target ship [TS]. *)
Definition row_of_target (e : FossenEnv.t) (row : list cell) (TS : CyberShipII.t) : Prop :=
  hd_error row = Some (Num (encounter_ED (FossenEnv.OS e) TS / FossenEnv.E_max (FossenEnv.cfg e)))
  /\ List.length row = 6%nat.

(** The configuration after [k] steps of earlier episodes: [step] adds one
    to [outer_step_cnt] whenever [N_TSs_increasing] is set. *)
Definition after_outer_steps (c : FossenEnv.config) (k : nat) : FossenEnv.config :=
  {| FossenEnv.delta_t := FossenEnv.delta_t c; FossenEnv.N_max := FossenEnv.N_max c;
     FossenEnv.E_max := FossenEnv.E_max c; FossenEnv.N_TSs_max := FossenEnv.N_TSs_max c;
     FossenEnv.N_TSs_random := FossenEnv.N_TSs_random c;
     FossenEnv.N_TSs_increasing := FossenEnv.N_TSs_increasing c;
     FossenEnv.outer_step_cnt :=
       match FossenEnv.outer_step_cnt c with
       | Some k0 => if FossenEnv.N_TSs_increasing c then Some (k0 + k)%nat else Some k0
       | None => None
       end;
     FossenEnv.sight := FossenEnv.sight c; FossenEnv.coll_dist := FossenEnv.coll_dist c;
     FossenEnv.TCPA_crit := FossenEnv.TCPA_crit c;
     FossenEnv.min_dist_spawn_TS := FossenEnv.min_dist_spawn_TS c;
     FossenEnv.cnt_approach := FossenEnv.cnt_approach c;
     FossenEnv.state_design := FossenEnv.state_design c;
     FossenEnv.goal_reach_dist := FossenEnv.goal_reach_dist c;
     FossenEnv.stop_spawn_dist := FossenEnv.stop_spawn_dist c;
     FossenEnv.num_obs_OS := FossenEnv.num_obs_OS c;
     FossenEnv.num_obs_TS := FossenEnv.num_obs_TS c;
     FossenEnv.plot_traj := FossenEnv.plot_traj c;
     FossenEnv.obs_size := FossenEnv.obs_size c;
     FossenEnv.action_space := FossenEnv.action_space c;
     FossenEnv._max_episode_steps := FossenEnv._max_episode_steps c |}.

(** The constructor of the vessel class stores the pose it is given. *)
Definition constructor_stores_pose (CS : CyberShipII.methods) : Prop :=
  forall N_init E_init psi_init u_init v_init r_init delta_t N_max E_max cnt_approach
         tau_u f2 f23_sum,
    CyberShipII.eta (CyberShipII.__init__ N_init E_init psi_init u_init v_init r_init delta_t
                                          N_max E_max cnt_approach tau_u f2 f23_sum)
    = (N_init, E_init, psi_init).

(** The vessel class gives every vessel a non-zero maximum of the control
    moment [tau_cnt_r_max]. *)
Definition moment_limit_nonzero (CS : CyberShipII.methods) : Prop :=
  forall N_init E_init psi_init u_init v_init r_init delta_t N_max E_max cnt_approach
         tau_u f2 f23_sum,
    CyberShipII.tau_cnt_r_max
      (CyberShipII.__init__ N_init E_init psi_init u_init v_init r_init delta_t
                            N_max E_max cnt_approach tau_u f2 f23_sum) <> 0.

(* ================================================================== *)
(** * dqn_agent_MinAtar.py: epsilon-greedy action selection            *)
(* ================================================================== *)

(** [np.random.binomial(1, p)]: one raw output of the generator decides the
    trial; a probability outside [0, 1] raises ValueError. *)
Definition np_random_binomial_1 (p : R) (g : rng) : result (Z * rng) :=
  if (p <? 0) || (1 <? p) then Raise ValueError
  else Ok (if np_raw g (np_pos g) <? p then 1%Z else 0%Z,
           mk_rng (np_raw g) (S (np_pos g)) (py_raw g) (py_pos g)).

(** [np.random.randint(low=0, high=high, size=1, dtype=int).item()]: an
    integer of [0, high), read from one raw output; [high <= 0] raises
    ValueError. *)
Definition np_random_randint_0 (high : Z) (g : rng) : result (Z * rng) :=
  if (high <=? 0)%Z then Raise ValueError
  else Ok ((Int_part (IZR high * np_raw g (np_pos g)) mod high)%Z,
           mk_rng (np_raw g) (S (np_pos g)) (py_raw g) (py_pos g)).

Module CNN_DQN_acting.

(** The attributes that [select_action] reads or assigns. *)
Record t : Type := mk {
  mode : string;
  num_actions : Z;
  epsilon : R;
  eps_decay : R;
  eps_final : R
}.

(** The attributes as [__init__] leaves them: [self.epsilon = 1.0]. *)
Definition initial (mode : string) (num_actions : Z) (eps_decay eps_final : R) : t :=
  mk mode num_actions 1.0 eps_decay eps_final.

Section WithNetwork.
(** The observations, and the greedy action [torch.argmax(self.DQN(s)).item()]
    of an observation: the network is not part of the sources. *)
Variable observation : Type.
Variable greedy : observation -> Z.

(** [select_action(s)]: the action, the agent with its decayed epsilon and
    the random source. *)
Definition select_action (ag : t) (s : observation) (g : rng) : result (Z * t * rng) :=
  '(draw, g) <- np_random_binomial_1 (epsilon ag) g ;;
  '(a, g) <- (if (draw =? 1)%Z && String.eqb (mode ag) "train"
              then np_random_randint_0 (num_actions ag) g
              else Ok (greedy s, g)) ;;
  let ag := mk (mode ag) (num_actions ag)
               (Rmax (epsilon ag * eps_decay ag) (eps_final ag))
               (eps_decay ag) (eps_final ag) in
  Ok (a, ag, g).

(** [select_action] on a sequence of observations: the actions, the agent
    and the random source after the last call; the first exception ends
    the run. *)
Fixpoint select_actions (ag : t) (l : list observation) (g : rng)
  : result (list Z * t * rng) :=
  match l with
  | [] => Ok ([], ag, g)
  | s :: l' =>
      '(a, ag, g) <- select_action ag s g ;;
      '(acts, ag, g) <- select_actions ag l' g ;;
      Ok (a :: acts, ag, g)
  end.

End WithNetwork.
End CNN_DQN_acting.

(** A random source whose [np.random] raw outputs are all 0.25. *)
Definition quarter_source : rng := mk_rng (fun _ => 0.25%R) 0%nat (fun _ => 0%nat) 0%nat.

(* ================================================================== *)
(** * tqc_agent.py: truncation of the quantiles, quantile Huber loss   *)
(* ================================================================== *)

(** [l[:stop]] on a sequence: a negative [stop] counts from the end. *)
Definition py_slice_to {A} (l : list A) (stop : Z) : list A :=
  if (0 <=? stop)%Z then firstn (Z.to_nat stop) l
  else firstn (Z.to_nat (Z.of_nat (List.length l) + stop)) l.

Module TQC_training.

(** [train], "Sort the calculated quantile atoms in ascending order" and
    "Cut the top n quantiles", for one row of the batch:
    [sorted_z[:, :self.total_quantiles - self.top_quantiles_to_drop]]. *)
Definition sorted_z_part (total_quantiles top_quantiles_to_drop : Z) (next_z : list R) : list R :=
  py_slice_to (sorted_by (fun z => z) next_z) (total_quantiles - top_quantiles_to_drop).

(** [quantile_huber_loss], "Compute huber loss as in Dabney, 2018":
    [torch.where(abs_pairwise_delta > 1, abs_pairwise_delta - 0.5,
                 pairwise_delta * 0.5 ** 2)] for one entry. *)
Definition huber_loss (pairwise_delta : R) : R :=
  if 1 <? Rabs pairwise_delta then Rabs pairwise_delta - 0.5
  else pairwise_delta * 0.5 ^ 2.

(** [tau = torch.arange(n_quantiles).float() / n_quantiles + 1/2 / n_quantiles],
    the entry of index [q]. *)
Definition tau (n_quantiles q : nat) : R :=
  INR q / INR n_quantiles + 1 / 2 / INR n_quantiles.

(** One entry of the tensor whose mean is the loss:
    [abs(tau - (pairwise_delta < 0).float()) * huber_loss]. *)
Definition loss_entry (n_quantiles q : nat) (pairwise_delta : R) : R :=
  Rabs (tau n_quantiles q - (if pairwise_delta <? 0 then 1 else 0)) * huber_loss pairwise_delta.

(** A tensor of shape (batch, n_critics, n_quantiles) and one of shape
    (batch, n_targets), as their shapes and their entries. *)
Record tensor3 : Type := mk_tensor3 {
  batch3 : nat; n_critics : nat; n_quantiles : nat;
  entry3 : nat -> nat -> nat -> R
}.
Record tensor2 : Type := mk_tensor2 {
  batch2 : nat; n_targets : nat;
  entry2 : nat -> nat -> R
}.

(** The sum of [f i] for [i] below [n]. *)
Definition sum_below (n : nat) (f : nat -> R) : R :=
  fold_right (fun i acc => f i + acc) 0 (seq 0 n).

(** The outcome of a call into torch code: a value, a RuntimeError of
    torch, or a Python exception. *)
Inductive outcome (A : Type) : Type :=
| Returned (a : A)
| RuntimeError
| PythonError (e : exn).
Arguments Returned {A} a.
Arguments RuntimeError {A}.
Arguments PythonError {A} e.

(** The size of a broadcast dimension: equal sizes, or one of them 1. *)
Definition broadcast_dim (n m : nat) : option nat :=
  if Nat.eqb n m then Some n
  else if Nat.eqb n 1 then Some m
  else if Nat.eqb m 1 then Some n
  else None.

(** The index into a dimension of size [n] at the broadcast index [i]. *)
Definition broadcast_index (n i : nat) : nat := if Nat.eqb n 1 then 0%nat else i.

(** [quantile_huber_loss(quantiles, targets)]: the batch dimensions are
    broadcast against each other ([targets[:,None,None,:] -
    quantiles[:,:,:,None]]); [1/2 / n_quantiles] divides by zero when there
    is no quantile; the loss is the mean of the entries over the shape
    (batch, n_critics, n_quantiles, n_targets), NaN when there is none. *)
Definition quantile_huber_loss (quantiles : tensor3) (targets : tensor2) : outcome cell :=
  match broadcast_dim (batch2 targets) (batch3 quantiles) with
  | None => RuntimeError
  | Some batch =>
      if Nat.eqb (n_quantiles quantiles) 0 then PythonError ZeroDivisionError
      else
        let count := (batch * n_critics quantiles * n_quantiles quantiles
                      * n_targets targets)%nat in
        if Nat.eqb count 0 then Returned NaN
        else
          Returned (Num (
            sum_below batch (fun b =>
            sum_below (n_critics quantiles) (fun c =>
            sum_below (n_quantiles quantiles) (fun q =>
            sum_below (n_targets targets) (fun t =>
              loss_entry (n_quantiles quantiles) q
                (entry2 targets (broadcast_index (batch2 targets) b) t
                 - entry3 quantiles (broadcast_index (batch3 quantiles) b) c q)))))
            / INR count))
  end.

End TQC_training.

(** Quantile estimates of two rows, four critics and twenty-five quantiles
    that are all 1, and three targets per row that are all 0.5. *)
Definition quantiles_one : TQC_training.tensor3 :=
  TQC_training.mk_tensor3 2 4 25 (fun _ _ _ => 1%R).
Definition targets_half : TQC_training.tensor2 :=
  TQC_training.mk_tensor2 2 3 (fun _ _ => 0.5%R).

(* ================================================================== *)
(** * The root finder behind the two speed solvers                     *)
(* ================================================================== *)

(** The contract of [scipy.optimize.newton] that the two solvers rely on:
    whenever [func] has a positive root, [newton(func, x0)] returns a
    positive root of [func], whatever the start value. *)
Definition finds_positive_root (SO : scipy_optimize) : Prop :=
  forall (func : R -> result R) (x0 : R),
    (exists x, 0 < x /\ func x = Ok 0) ->
    exists x, newton func x0 = Ok x /\ 0 < x /\ func x = Ok 0.

(** A root finder that meets the contract: it returns a positive root of
    [func] if there is one, and some number otherwise. *)
Definition newton_positive_root : scipy_optimize :=
  {| newton := fun func x0 =>
       Ok (Epsilon.epsilon (inhabits x0) (fun x => 0 < x /\ func x = Ok 0)) |}.

(* ================================================================== *)
(** * Basic facts about the runtime model                              *)
(* ================================================================== *)

Lemma Rleb_true a b : (a <=? b) = true <-> a <= b.
Proof. unfold Rleb; destruct (Rle_dec a b); split; intros; try easy. Qed.

Lemma Rleb_false a b : (a <=? b) = false <-> b < a.
Proof. unfold Rleb; destruct (Rle_dec a b); split; intros; try easy; lra. Qed.

Lemma Rltb_true a b : (a <? b) = true <-> a < b.
Proof. unfold Rltb; destruct (Rlt_dec a b); split; intros; try easy. Qed.

Lemma Rltb_false a b : (a <? b) = false <-> b <= a.
Proof. unfold Rltb; destruct (Rlt_dec a b); split; intros; try easy; lra. Qed.

Lemma Reqb_true a b : (a =? b) = true <-> a = b.
Proof. unfold Reqb; destruct (Req_dec_T a b); split; intros; try easy. Qed.

Lemma Reqb_false a b : (a =? b) = false <-> a <> b.
Proof. unfold Reqb; destruct (Req_dec_T a b); split; intros; try easy. Qed.

Lemma Reqb_refl a : (a =? a) = true.
Proof. now apply Reqb_true. Qed.

Lemma fdiv_ok a b : b <> 0 -> fdiv a b = Ok (a / b).
Proof. intros Hb. unfold fdiv. apply Reqb_false in Hb. now rewrite Hb. Qed.

Lemma fdiv_zero a : fdiv a 0 = Raise ZeroDivisionError.
Proof. unfold fdiv. now rewrite Reqb_refl. Qed.

Lemma math_sqrt_ok x : 0 <= x -> math_sqrt x = Ok (sqrt x).
Proof. intros Hx. unfold math_sqrt. apply Rltb_false in Hx. now rewrite Hx. Qed.

Lemma sum_sq_nonneg a b : 0 <= a ^ 2 + b ^ 2.
Proof. pose proof (pow2_ge_0 a). pose proof (pow2_ge_0 b). lra. Qed.

Lemma pow2_pos (x : R) : x <> 0 -> 0 < x ^ 2.
Proof. intros Hx. destruct (Rtotal_order x 0) as [H | [H | H]]; [nra | contradiction | nra]. Qed.

Lemma PI_gt_3 : 3 < PI.
Proof. pose proof PI2_3_2. lra. Qed.

(* ================================================================== *)
(** * KVLCC2: the MMG dynamics                                         *)
(* ================================================================== *)

Section MMG.
Import KVLCC2.

Lemma all_keys_C : all_keys_present ["C_1"; "C_2_plus"; "C_2_minus"]%string = true.
Proof. reflexivity. Qed.

Lemma all_keys_k : all_keys_present ["k_0"; "k_1"; "k_2"]%string = true.
Proof. reflexivity. Qed.

(** The total speed is the Euclidean norm of (u, vm), and the three
    non-dimensional quantities vanish when it does. *)
Lemma mmg_preparation_total (nu : vec3) :
  exists vm U beta v_dash r_dash,
    mmg_preparation nu = Ok (vm, U, beta, v_dash, r_dash)
    /\ vm = _vm_from_v_r (snd (fst nu)) (snd nu)
    /\ U = sqrt (fst (fst nu) ^ 2 + vm ^ 2)
    /\ (U = 0 -> beta = 0 /\ v_dash = 0 /\ r_dash = 0).
Proof.
  destruct nu as [[u v] r]. unfold mmg_preparation. cbn [fst snd].
  rewrite (math_sqrt_ok _ (sum_sq_nonneg u (_vm_from_v_r v r))). cbn [bind].
  destruct (sqrt (u ^ 2 + _vm_from_v_r v r ^ 2) =? 0.0) eqn:HU.
  - do 5 eexists. split; [reflexivity|]. repeat split; lra.
  - apply Reqb_false in HU.
    rewrite !fdiv_ok by lra. cbn [bind].
    do 5 eexists. split; [reflexivity|]. repeat split; lra.
Qed.

(** The open-water thrust coefficient is the quadratic in the advance
    ratio, and the advance ratio of a propeller at rest is zero. *)
Lemma mmg_propeller_total (u beta r_dash nps : R) :
  exists w_P J K_T X_P,
    mmg_propeller u beta r_dash nps = Ok (w_P, J, K_T, X_P)
    /\ K_T = k_0 + k_1 * J + k_2 * J ^ 2
    /\ (nps = 0 -> J = 0).
Proof.
  unfold mmg_propeller.
  rewrite fdiv_ok by (unfold Lpp; lra). cbn [bind].
  rewrite all_keys_C, all_keys_k.
  destruct (nps =? 0.0) eqn:Hn.
  - cbn [bind]. do 4 eexists. split; [reflexivity|]. split; [reflexivity|]. intros; lra.
  - apply Reqb_false in Hn.
    rewrite fdiv_ok by (unfold D_p; nra). cbn [bind].
    do 4 eexists. split; [reflexivity|]. split; [reflexivity|]. intros; lra.
Qed.

(** The radicand of the inner square root of the rudder inflow is positive
    for every advance ratio. *)
Lemma slipstream_radicand_pos (J : R) :
  J <> 0 -> 0 < 1.0 + 8.0 * (k_0 + k_1 * J + k_2 * J ^ 2) / (PI * J ^ 2).
Proof.
  intros HJ.
  assert (HJ2 : 0 < J ^ 2) by (apply pow2_pos; exact HJ).
  assert (Hd : 0 < PI * J ^ 2) by (pose proof PI_gt_3; nra).
  assert (Hq : 0 < PI * J ^ 2 + 8 * (k_0 + k_1 * J + k_2 * J ^ 2)).
  { unfold k_0, k_1, k_2. pose proof PI_gt_3. pose proof (pow2_ge_0 (J - 0.6)). nra. }
  set (K := k_0 + k_1 * J + k_2 * J ^ 2) in *.
  set (D := PI * J ^ 2) in *.
  assert (E : 8.0 * K / D * D = 8 * K).
  { unfold Rdiv. rewrite Rmult_assoc, Rinv_l; lra. }
  apply Rnot_le_lt. intros Hc.
  assert ((1.0 + 8.0 * K / D) * D <= 0) by nra.
  lra.
Qed.

Lemma mmg_steering_total (u U beta r_dash rud_angle w_P J K_T : R) :
  K_T = k_0 + k_1 * J + k_2 * J ^ 2 ->
  exists R_, mmg_steering u U beta r_dash rud_angle w_P J K_T = Ok R_.
Proof.
  intros HK. unfold mmg_steering.
  destruct (J =? 0.0) eqn:HJ.
  - cbn [bind]. rewrite (math_sqrt_ok _ (sum_sq_nonneg _ _)). cbn [bind]. eexists; reflexivity.
  - apply Reqb_false in HJ.
    assert (HJ' : J <> 0) by lra.
    assert (Hd : PI * J ^ 2 <> 0).
    { pose proof PI_gt_3. pose proof (pow2_pos J HJ'). nra. }
    rewrite fdiv_ok by exact Hd. cbn [bind].
    pose proof (slipstream_radicand_pos J HJ') as Hr.
    rewrite HK.
    rewrite math_sqrt_ok by lra. cbn [bind].
    rewrite math_sqrt_ok.
    2:{ unfold eta_param.
        pose proof (pow2_ge_0 (1.0 + kappa * (sqrt (1.0 + 8.0 * (k_0 + k_1 * J + k_2 * J ^ 2) / (PI * J ^ 2)) - 1))).
        nra. }
    cbn [bind].
    rewrite (math_sqrt_ok _ (sum_sq_nonneg _ _)). cbn [bind]. eexists; reflexivity.
Qed.

(** Without a current the current forces are zero; with one, the first
    coefficient lookup [self._C_X(g_rc)] raises TypeError. *)
Lemma mmg_current_spec (u vm psi fl_psi : R) (fl_vel : option R) :
  mmg_current u vm psi fl_psi fl_vel =
    if current_active fl_vel then Raise TypeError else Ok (0.0, 0.0, 0.0).
Proof.
  unfold mmg_current, current_active.
  destruct fl_vel as [c|]; [|reflexivity].
  destruct (negb (c =? 0)); reflexivity.
Qed.

Lemma mmg_solve_total (u vm r : R) (H_ R_ C_ : vec3) (X_P : R) :
  exists nu_dot, mmg_solve u vm r H_ R_ C_ X_P = Ok nu_dot.
Proof.
  destruct H_ as [[X_H Y_H] N_H], R_ as [[X_R Y_R] N_R], C_ as [[X_C Y_C] N_C].
  unfold mmg_solve.
  assert (Hf : I_zG + J_z_dash * (0.5 * rho * (Lpp ^ 4) * d) + (x_G ^ 2) * m <> 0)
    by (unfold I_zG, J_z_dash, rho, Lpp, d, x_G, m; lra).
  assert (Hm : m + m_x_dash * (0.5 * rho * (Lpp ^ 2) * d) <> 0)
    by (unfold m, m_x_dash, rho, Lpp, d; lra).
  assert (Hden : m + m_y_dash * (0.5 * rho * (Lpp ^ 2) * d)
                 - (x_G ^ 2 * m ^ 2) / (I_zG + J_z_dash * (0.5 * rho * (Lpp ^ 4) * d) + (x_G ^ 2) * m) <> 0)
    by (unfold I_zG, J_z_dash, rho, Lpp, d, x_G, m, m_y_dash; lra).
  rewrite (fdiv_ok _ _ Hm). cbn [bind].
  rewrite !(fdiv_ok _ _ Hf). cbn [bind].
  rewrite (fdiv_ok _ _ Hden). cbn [bind].
  rewrite (fdiv_ok _ _ Hf). cbn [bind].
  eexists; reflexivity.
Qed.

(** [_mmg_dynamics] returns an acceleration whenever no current is
    supplied: no division by zero and no square root of a negative number
    occurs, whatever the velocity, rudder angle and propeller revolution. *)
Lemma mmg_dynamics_total_no_current (nu : vec3) (psi rud_angle nps fl_psi : R) (fl_vel : option R) :
  current_active fl_vel = false ->
  exists nu_dot, _mmg_dynamics nu psi rud_angle nps fl_psi fl_vel = Ok nu_dot.
Proof.
  intros Hc. unfold _mmg_dynamics.
  destruct (mmg_preparation_total nu) as (vm & U & beta & v_dash & r_dash & Hp & _).
  destruct nu as [[u v] r]. rewrite Hp. cbn [bind].
  destruct (mmg_propeller_total u beta r_dash nps) as (w_P & J & K_T & X_P & Hq & HK & _).
  rewrite Hq. cbn [bind].
  destruct (mmg_steering_total u U beta r_dash rud_angle w_P J K_T HK) as (R_ & Hs).
  rewrite Hs. cbn [bind].
  rewrite mmg_current_spec, Hc. cbn [bind].
  apply mmg_solve_total.
Qed.

(** With a current, every call ends in TypeError. *)
Lemma mmg_dynamics_current_raises (nu : vec3) (psi rud_angle nps fl_psi : R) (fl_vel : option R) :
  current_active fl_vel = true ->
  _mmg_dynamics nu psi rud_angle nps fl_psi fl_vel = Raise TypeError.
Proof.
  intros Hc. unfold _mmg_dynamics.
  destruct (mmg_preparation_total nu) as (vm & U & beta & v_dash & r_dash & Hp & _).
  destruct nu as [[u v] r]. rewrite Hp. cbn [bind].
  destruct (mmg_propeller_total u beta r_dash nps) as (w_P & J & K_T & X_P & Hq & HK & _).
  rewrite Hq. cbn [bind].
  destruct (mmg_steering_total u U beta r_dash rud_angle w_P J K_T HK) as (R_ & Hs).
  rewrite Hs. cbn [bind].
  rewrite mmg_current_spec, Hc. reflexivity.
Qed.

End MMG.

(** The dynamics never end in ZeroDivisionError or ValueError. *)
Lemma mmg_dynamics_no_arithmetic_error (nu : vec3) (psi rud_angle nps fl_psi : R) (fl_vel : option R) :
  KVLCC2._mmg_dynamics nu psi rud_angle nps fl_psi fl_vel <> Raise ZeroDivisionError
  /\ KVLCC2._mmg_dynamics nu psi rud_angle nps fl_psi fl_vel <> Raise ValueError.
Proof.
  destruct (current_active fl_vel) eqn:Hc.
  - rewrite (mmg_dynamics_current_raises _ _ _ _ _ _ Hc). split; discriminate.
  - destruct (mmg_dynamics_total_no_current nu psi rud_angle nps fl_psi fl_vel Hc) as [x Hx].
    rewrite Hx. split; discriminate.
Qed.

Lemma no_current_zero : current_active (Some 0.0) = false.
Proof. unfold current_active. replace 0.0 with 0 by lra. now rewrite Reqb_refl. Qed.

(** C5 (code): at rest, with the propeller stopped and a current of 1 m/s
    from the north, the dynamics function ends in TypeError at
    [self._C_X(g_rc)] instead of returning an acceleration. *)
Theorem C5_mmg_dynamics_current_TypeError :
  KVLCC2._mmg_dynamics (0, 0, 0) 0 0 0 0 (Some 1) = Raise TypeError.
Proof.
  apply mmg_dynamics_current_raises.
  unfold current_active.
  assert (H : (1 =? 0) = false) by (apply Reqb_false; lra).
  now rewrite H.
Qed.

(* ================================================================== *)
(** * KVLCC2: the integration step                                     *)
(* ================================================================== *)

(** C4: for every vessel state, [_upd_dynamics] returns; the new body-frame
    velocity is the old one plus [delta_t] times the acceleration computed
    from the old state (forward Euler), and the new position is the old one
    plus [delta_t] times the mean of the world-frame velocities before and
    after the velocity update (trapezoidal rule), which differs from an
    Euler step on the position by half the change of the world-frame
    velocity times [delta_t]. *)
Theorem C4_upd_dynamics_euler_trapezoid (s : KVLCC2.t) :
  exists nu_dot s',
    KVLCC2._mmg_dynamics (KVLCC2.nu s) (KVLCC2.psi s) (KVLCC2.rud_angle s) (KVLCC2.nps s)
                         0.0 (Some 0.0) = Ok nu_dot
    /\ KVLCC2._upd_dynamics s = Ok s'
    /\ KVLCC2.nu_dot s' = nu_dot
    /\ KVLCC2.nu s' = vadd (KVLCC2.nu s) (vscale nu_dot (KVLCC2.delta_t s))
    /\ (let eta_dot_old := np_dot (KVLCC2._T_of_psi (KVLCC2.psi s)) (KVLCC2.nu s) in
        let eta_dot_new := np_dot (KVLCC2._T_of_psi (KVLCC2.psi s)) (KVLCC2.nu s') in
        north (KVLCC2.eta s')
          = north (KVLCC2.eta s) + 0.5 * (north eta_dot_old + north eta_dot_new) * KVLCC2.delta_t s
        /\ east (KVLCC2.eta s')
          = east (KVLCC2.eta s) + 0.5 * (east eta_dot_old + east eta_dot_new) * KVLCC2.delta_t s
        /\ north (KVLCC2.eta s') - (north (KVLCC2.eta s) + north eta_dot_old * KVLCC2.delta_t s)
          = 0.5 * (north eta_dot_new - north eta_dot_old) * KVLCC2.delta_t s
        /\ east (KVLCC2.eta s') - (east (KVLCC2.eta s) + east eta_dot_old * KVLCC2.delta_t s)
          = 0.5 * (east eta_dot_new - east eta_dot_old) * KVLCC2.delta_t s).
Proof.
  destruct (mmg_dynamics_total_no_current (KVLCC2.nu s) (KVLCC2.psi s) (KVLCC2.rud_angle s)
              (KVLCC2.nps s) 0.0 (Some 0.0) no_current_zero) as [nu_dot Hd].
  exists nu_dot.
  unfold KVLCC2._upd_dynamics. rewrite Hd. cbn [bind].
  destruct s as [dt Nm Em act n ram rai ra [[N E] p] [[u v] r] nd].
  destruct nu_dot as [[du dv] dr].
  cbn. eexists. split; [reflexivity|]. split; [reflexivity|].
  cbn. split; [reflexivity|]. split; [reflexivity|].
  unfold north, east. cbn. repeat split; lra.
Qed.

Lemma angle_to_2pi_wrapped (x : R) : wrapped (FossenFnc.angle_to_2pi x).
Proof.
  unfold wrapped, FossenFnc.angle_to_2pi.
  destruct (base_fp (x / (2 * PI))) as [H0 H1].
  pose proof PI_gt_3. split; nra.
Qed.

Lemma upd_dynamics_wrapped (s : KVLCC2.t) :
  exists s', KVLCC2._upd_dynamics s = Ok s' /\ wrapped (heading (KVLCC2.eta s')).
Proof.
  destruct (mmg_dynamics_total_no_current (KVLCC2.nu s) (KVLCC2.psi s) (KVLCC2.rud_angle s)
              (KVLCC2.nps s) 0.0 (Some 0.0) no_current_zero) as [nu_dot Hd].
  unfold KVLCC2._upd_dynamics. rewrite Hd. cbn [bind].
  destruct s as [dt Nm Em act n ram rai ra [[N E] p] [[u v] r] nd].
  destruct nu_dot as [[du dv] dr].
  cbn. eexists. split; [reflexivity|]. cbn. apply angle_to_2pi_wrapped.
Qed.

Lemma manual_heading_wrapped (e : HHOS_PathPlanning_Env.t) (v : HHOS_PathPlanning_Env.vessel) (a : R) :
  -1 <= a <= 1 ->
  exists v', HHOS_PathPlanning_Env._manual_heading_control e v a = Ok v'
             /\ wrapped (vessel_heading v').
Proof.
  intros [Hl Hu]. unfold HHOS_PathPlanning_Env._manual_heading_control.
  apply Rleb_true in Hl, Hu. rewrite Hl, Hu. cbn [andb assert bind].
  destruct v as [s rd sp A B C D cd]. cbn.
  destruct (KVLCC2.eta s) as [[N E] p] eqn:He.
  eexists. split; [reflexivity|].
  unfold vessel_heading. cbn. apply angle_to_2pi_wrapped.
Qed.

Lemma manual_heading_rejects (e : HHOS_PathPlanning_Env.t) (v : HHOS_PathPlanning_Env.vessel) (a : R) :
  ~ (-1 <= a <= 1) ->
  HHOS_PathPlanning_Env._manual_heading_control e v a = Raise (AssertionError "Unknown action.").
Proof.
  intros Ha. unfold HHOS_PathPlanning_Env._manual_heading_control.
  destruct (-1 <=? a) eqn:Hl; destruct (a <=? 1) eqn:Hu; try reflexivity.
  apply Rleb_true in Hl, Hu. lra.
Qed.

Lemma apply_update_wrapped (e : HHOS_PathPlanning_Env.t) (v v' : HHOS_PathPlanning_Env.vessel)
    (u : update) :
  apply_update e v u = Ok v' -> wrapped (vessel_heading v').
Proof.
  destruct u as [|a]; cbn [apply_update].
  - destruct (upd_dynamics_wrapped (HHOS_PathPlanning_Env.ship v)) as (s' & Hs & Hw).
    rewrite Hs. cbn [bind]. intros H; injection H as <-.
    unfold vessel_heading. destruct v; exact Hw.
  - destruct (Rle_dec (-1) a) as [Hl|Hl]; [destruct (Rle_dec a 1) as [Hu|Hu]|].
    + destruct (manual_heading_wrapped e v a (conj Hl Hu)) as (v1 & Hv & Hw).
      rewrite Hv. intros H; injection H as <-. exact Hw.
    + rewrite manual_heading_rejects by lra. discriminate.
    + rewrite manual_heading_rejects by lra. discriminate.
Qed.

Lemma apply_update_returns (e : HHOS_PathPlanning_Env.t) (v : HHOS_PathPlanning_Env.vessel)
    (u : update) :
  valid_update u -> exists v', apply_update e v u = Ok v'.
Proof.
  destruct u as [|a]; cbn [apply_update valid_update]; intros Hv.
  - destruct (upd_dynamics_wrapped (HHOS_PathPlanning_Env.ship v)) as (s' & Hs & _).
    rewrite Hs. cbn [bind]. eexists; reflexivity.
  - destruct (manual_heading_wrapped e v a Hv) as (v1 & Hv1 & _). eexists; exact Hv1.
Qed.

(** C2 (heading wrap as modelled from the spec): whatever the initial
    heading, after every dynamics update and after every manual heading
    change of a run the stored heading lies in [0, 2pi); and a run of valid
    updates performs every one of them. *)
Theorem C2_heading_wrapped_after_every_update
    (e : HHOS_PathPlanning_Env.t) (v : HHOS_PathPlanning_Env.vessel) (us : list update) :
  Forall (fun v' => wrapped (vessel_heading v')) (run_updates e v us)
  /\ (Forall valid_update us -> List.length (run_updates e v us) = List.length us).
Proof.
  revert v. induction us as [|u us IH]; intros v.
  - split; [constructor | reflexivity].
  - cbn [run_updates]. split.
    + destruct (apply_update e v u) as [v'|ex] eqn:Hu; [|constructor].
      constructor; [exact (apply_update_wrapped _ _ _ _ Hu) | apply IH].
    + intros Hall. inversion Hall as [|? ? Hv Hrest]; subst.
      destruct (apply_update_returns e v u Hv) as [v' Hv'].
      rewrite Hv'. cbn [List.length]. f_equal. now apply IH.
Qed.

(** A run from a heading of 7 rad: a half-scale heading change, then a
    dynamics update. *)
Lemma C2_heading_wrapped_witness :
  Forall valid_update [ManualHeading 0.5; UpdDynamics]
  /\ Forall (fun v' => wrapped (vessel_heading v'))
            (run_updates (hhos_episode false 1 []) (hhos_vessel 0 0 7 3)
                         [ManualHeading 0.5; UpdDynamics])
  /\ List.length (run_updates (hhos_episode false 1 []) (hhos_vessel 0 0 7 3)
                              [ManualHeading 0.5; UpdDynamics]) = 2%nat.
Proof.
  assert (Hv : Forall valid_update [ManualHeading 0.5; UpdDynamics]).
  { repeat constructor; cbn; lra. }
  split; [exact Hv|].
  destruct (C2_heading_wrapped_after_every_update (hhos_episode false 1 []) (hhos_vessel 0 0 7 3)
              [ManualHeading 0.5; UpdDynamics]) as [Hw Hl].
  split; [exact Hw | exact (Hl Hv)].
Defined.

(* ================================================================== *)
(** * Angles                                                           *)
(* ================================================================== *)

Lemma rtd_dtr (x : R) : FossenFnc.rtd (FossenFnc.dtr x) = x.
Proof. unfold FossenFnc.rtd, FossenFnc.dtr. pose proof PI_gt_3. field. lra. Qed.

(** Removing [k] whole turns: an angle that lands in [0, 2pi) after the
    shift is wrapped to the shifted angle. *)
Lemma angle_to_2pi_shift (a : R) (k : Z) :
  0 <= a + 2 * PI * IZR k < 2 * PI -> FossenFnc.angle_to_2pi a = a + 2 * PI * IZR k.
Proof.
  intros [H0 H1]. unfold FossenFnc.angle_to_2pi, frac_part.
  pose proof PI_gt_3 as HPI.
  assert (Hq : a / (2 * PI) * (2 * PI) = a) by (field; lra).
  assert (Hi : (- k)%Z = Int_part (a / (2 * PI))).
  { apply Int_part_spec. rewrite opp_IZR. split.
    - apply Rmult_lt_reg_r with (2 * PI); [lra|].
      rewrite Rmult_minus_distr_r, Hq. lra.
    - apply Rmult_le_reg_r with (2 * PI); [lra|]. rewrite Hq. lra. }
  rewrite <- Hi, opp_IZR. lra.
Qed.

Lemma angle_to_2pi_id (a : R) : 0 <= a < 2 * PI -> FossenFnc.angle_to_2pi a = a.
Proof. intros H. rewrite (angle_to_2pi_shift a 0); lra. Qed.

Lemma atan2_north (x : R) : 0 < x -> math_atan2 0 x = 0.
Proof.
  intros Hx. unfold math_atan2. apply Rltb_true in Hx. rewrite Hx.
  unfold Rdiv. rewrite Rmult_0_l. apply atan_0.
Qed.

Lemma atan2_south (x : R) : x < 0 -> math_atan2 0 x = PI.
Proof.
  intros Hx. unfold math_atan2.
  assert (H1 : (0 <? x) = false) by (apply Rltb_false; lra).
  assert (H2 : (x <? 0) = true) by (apply Rltb_true; lra).
  assert (H3 : (0 <=? 0) = true) by (apply Rleb_true; lra).
  rewrite H1, H2, H3. unfold Rdiv. rewrite Rmult_0_l, atan_0. lra.
Qed.

Lemma sqrt_sq_nonneg (x : R) : 0 <= x -> sqrt (x ^ 2) = x.
Proof. intros Hx. replace (x ^ 2) with (x * x) by ring. now apply sqrt_square. Qed.

(* ================================================================== *)
(** * FossenEnv: the COLREG classifier                                 *)
(* ================================================================== *)

Section Classifier.
Context {CS : CyberShipII.methods}.
Variable e : FossenEnv.t.
Variables OS TS : CyberShipII.t.

(** The classifier in terms of the encounter geometry. *)
Lemma COLREG_situation_unfold :
  FossenEnv._get_COLREG_situation e OS TS =
    let b := bearing_deg OS TS in
    let bpi := bearing_pi_deg OS TS in
    let bt := reciprocal_deg OS TS in
    let c := intersection_deg OS TS in
    let cpi := intersection_pi_deg OS TS in
    if FossenEnv.sight (FossenEnv.cfg e) <? encounter_ED OS TS then 0%Z
    else if (-5 <=? bpi) && (bpi <=? 5) && (175 <=? c) && (c <=? 185) then 1%Z
    else if (5 <=? b) && (b <=? 45) && (185 <=? c) && (c <=? 210) then 2%Z
    else if (45 <? b) && (b <=? 112.5) && (210 <? c) && (c <=? 292.5) then 3%Z
    else if (247.5 <=? b) && (b <=? 355) && (67.5 <=? c) && (c <=? 175) then 4%Z
    else if (112.5 <=? bt) && (bt <=? 247.5) && (-67.5 <=? cpi) && (cpi <=? 67.5)
            && (CyberShipII._get_V TS <? encounter_V_rel OS TS) then 5%Z
    else 0%Z.
Proof.
  cbv zeta.
  unfold FossenEnv._get_COLREG_situation, bearing_deg, bearing_pi_deg, reciprocal_deg,
    intersection_deg, intersection_pi_deg, encounter_ED, encounter_bng_OS, encounter_bng_TS,
    encounter_C_T, encounter_V_rel, north, east, heading.
  destruct (CyberShipII.eta OS) as [[NOS EOS] psi_OS].
  destruct (CyberShipII.eta TS) as [[NTS ETS] psi_TS].
  cbn [fst snd].
  destruct (FossenFnc.project_vector _ _ _ _) as [x y].
  reflexivity.
Qed.

Lemma head_on_window_reflect :
  (-5 <=? bearing_pi_deg OS TS) && (bearing_pi_deg OS TS <=? 5)
    && (175 <=? intersection_deg OS TS) && (intersection_deg OS TS <=? 185) = true
  <-> head_on_window OS TS.
Proof.
  unfold head_on_window.
  rewrite !andb_true_iff, !Rleb_true. tauto.
Qed.

Lemma starboard_small_window_reflect :
  (5 <=? bearing_deg OS TS) && (bearing_deg OS TS <=? 45)
    && (185 <=? intersection_deg OS TS) && (intersection_deg OS TS <=? 210) = true
  <-> starboard_small_window_closed OS TS.
Proof.
  unfold starboard_small_window_closed.
  rewrite !andb_true_iff, !Rleb_true. tauto.
Qed.

Lemma starboard_large_window_reflect :
  (45 <? bearing_deg OS TS) && (bearing_deg OS TS <=? 112.5)
    && (210 <? intersection_deg OS TS) && (intersection_deg OS TS <=? 292.5) = true
  <-> starboard_large_window OS TS.
Proof.
  unfold starboard_large_window.
  rewrite !andb_true_iff, !Rleb_true, !Rltb_true. tauto.
Qed.

Lemma portside_window_reflect :
  (247.5 <=? bearing_deg OS TS) && (bearing_deg OS TS <=? 355)
    && (67.5 <=? intersection_deg OS TS) && (intersection_deg OS TS <=? 175) = true
  <-> portside_window OS TS.
Proof.
  unfold portside_window.
  rewrite !andb_true_iff, !Rleb_true. tauto.
Qed.

Lemma overtaking_window_reflect :
  (112.5 <=? reciprocal_deg OS TS) && (reciprocal_deg OS TS <=? 247.5)
    && (-67.5 <=? intersection_pi_deg OS TS) && (intersection_pi_deg OS TS <=? 67.5)
    && (CyberShipII._get_V TS <? encounter_V_rel OS TS) = true
  <-> overtaking_window OS TS.
Proof.
  unfold overtaking_window.
  rewrite !andb_true_iff, !Rleb_true, !Rltb_true. tauto.
Qed.

(** C1 (amended): a target beyond the sight radius yields none; within
    sight the windows are tried in the order head-on, starboard crossing
    (small), starboard crossing (large), portside crossing, overtaking, and
    the first one that holds decides; the starboard-crossing-small window
    is closed at both lower bounds, [5, 45] by [185, 210] degrees; when no
    window holds the situation is none. *)
Theorem C1_COLREG_windows_first_match :
  let s := FossenEnv._get_COLREG_situation e OS TS in
  (FossenEnv.sight (FossenEnv.cfg e) < encounter_ED OS TS -> s = 0%Z)
  /\ (encounter_ED OS TS <= FossenEnv.sight (FossenEnv.cfg e) ->
        (head_on_window OS TS -> s = 1%Z)
        /\ (~ head_on_window OS TS -> starboard_small_window_closed OS TS -> s = 2%Z)
        /\ (~ head_on_window OS TS -> ~ starboard_small_window_closed OS TS ->
            starboard_large_window OS TS -> s = 3%Z)
        /\ (~ head_on_window OS TS -> ~ starboard_small_window_closed OS TS ->
            ~ starboard_large_window OS TS -> portside_window OS TS -> s = 4%Z)
        /\ (~ head_on_window OS TS -> ~ starboard_small_window_closed OS TS ->
            ~ starboard_large_window OS TS -> ~ portside_window OS TS ->
            overtaking_window OS TS -> s = 5%Z)
        /\ (~ head_on_window OS TS -> ~ starboard_small_window_closed OS TS ->
            ~ starboard_large_window OS TS -> ~ portside_window OS TS ->
            ~ overtaking_window OS TS -> s = 0%Z)).
Proof.
  cbv zeta. rewrite COLREG_situation_unfold. cbv zeta.
  split.
  - intros Hs. apply Rltb_true in Hs. now rewrite Hs.
  - intros Hs. apply Rltb_false in Hs. rewrite Hs.
    match goal with |- context [if ?c then 1%Z else _] => destruct c eqn:E1 end.
    { apply head_on_window_reflect in E1. repeat split; intros; first [reflexivity | tauto]. }
    assert (N1 : ~ head_on_window OS TS) by (intros Hw; apply head_on_window_reflect in Hw; congruence).
    match goal with |- context [if ?c then 2%Z else _] => destruct c eqn:E2 end.
    { apply starboard_small_window_reflect in E2. repeat split; intros; first [reflexivity | tauto]. }
    assert (N2 : ~ starboard_small_window_closed OS TS) by (intros Hw; apply starboard_small_window_reflect in Hw; congruence).
    match goal with |- context [if ?c then 3%Z else _] => destruct c eqn:E3 end.
    { apply starboard_large_window_reflect in E3. repeat split; intros; first [reflexivity | tauto]. }
    assert (N3 : ~ starboard_large_window OS TS) by (intros Hw; apply starboard_large_window_reflect in Hw; congruence).
    match goal with |- context [if ?c then 4%Z else _] => destruct c eqn:E4 end.
    { apply portside_window_reflect in E4. repeat split; intros; first [reflexivity | tauto]. }
    assert (N4 : ~ portside_window OS TS) by (intros Hw; apply portside_window_reflect in Hw; congruence).
    match goal with |- context [if ?c then 5%Z else _] => destruct c eqn:E5 end.
    { apply overtaking_window_reflect in E5. repeat split; intros; first [reflexivity | tauto]. }
    assert (N5 : ~ overtaking_window OS TS) by (intros Hw; apply overtaking_window_reflect in Hw; congruence).
    repeat split; intros; first [reflexivity | tauto].
Qed.

End Classifier.

(** ** The encounter of [episode_355] *)

Lemma eta_vessel_at (N E psi : R) : CyberShipII.eta (vessel_at N E psi) = (N, E, psi).
Proof. reflexivity. Qed.

Lemma nu_vessel_at (N E psi : R) : CyberShipII.nu (vessel_at N E psi) = (0, 0, 0).
Proof. reflexivity. Qed.

Lemma episode_355_ED : encounter_ED OS_355 TS_north_195 = 50.
Proof.
  unfold encounter_ED, OS_355, TS_north_195. rewrite !eta_vessel_at.
  unfold north, east, FossenFnc.ED. cbn [fst snd].
  replace ((0 - 50) ^ 2 + (0 - 0) ^ 2) with (50 ^ 2) by ring.
  apply sqrt_sq_nonneg. lra.
Qed.

Lemma episode_355_bng_OS : encounter_bng_OS OS_355 TS_north_195 = FossenFnc.dtr 5.
Proof.
  unfold encounter_bng_OS, OS_355, TS_north_195. rewrite !eta_vessel_at.
  unfold north, east, heading, FossenFnc.bng_rel, FossenFnc.bng_abs. cbn [fst snd].
  replace (0 - 0) with 0 by ring. rewrite atan2_north by lra.
  pose proof PI_gt_3.
  rewrite (angle_to_2pi_id 0) by lra.
  rewrite (angle_to_2pi_shift _ 1); unfold FossenFnc.dtr; lra.
Qed.

Lemma episode_355_C_T : encounter_C_T OS_355 TS_north_195 = FossenFnc.dtr 200.
Proof.
  unfold encounter_C_T, OS_355, TS_north_195. rewrite !eta_vessel_at.
  unfold heading, FossenFnc.head_inter. cbn [fst snd].
  pose proof PI_gt_3.
  rewrite (angle_to_2pi_shift _ 1); unfold FossenFnc.dtr; lra.
Qed.

Lemma angle_to_pi_dtr_5 : FossenFnc.angle_to_pi (FossenFnc.dtr 5) = FossenFnc.dtr 5.
Proof.
  unfold FossenFnc.angle_to_pi. pose proof PI_gt_3.
  rewrite angle_to_2pi_id; unfold FossenFnc.dtr; lra.
Qed.

Lemma angle_to_pi_dtr_200 : FossenFnc.angle_to_pi (FossenFnc.dtr 200) = FossenFnc.dtr (-160).
Proof.
  unfold FossenFnc.angle_to_pi. pose proof PI_gt_3.
  rewrite (angle_to_2pi_shift _ (-1)); unfold FossenFnc.dtr; lra.
Qed.

Lemma episode_355_situation :
  FossenEnv._get_COLREG_situation (CS := sample_methods) episode_355 OS_355 TS_north_195 = 2%Z.
Proof.
  rewrite COLREG_situation_unfold. cbv zeta.
  unfold bearing_deg, bearing_pi_deg, reciprocal_deg, intersection_deg, intersection_pi_deg.
  rewrite episode_355_ED, episode_355_bng_OS, episode_355_C_T.
  rewrite angle_to_pi_dtr_5, !rtd_dtr.
  assert (Hs : (FossenEnv.sight (FossenEnv.cfg episode_355) <? 50) = false)
    by (apply Rltb_false; cbn; lra).
  rewrite Hs.
  assert (Hh : (185 >= 200 -> False)) by lra.
  assert (H1 : (200 <=? 185) = false) by (apply Rleb_false; lra).
  rewrite H1, !andb_false_r.
  assert (H2 : (5 <=? 5) = true) by (apply Rleb_true; lra).
  assert (H3 : (5 <=? 45) = true) by (apply Rleb_true; lra).
  assert (H4 : (185 <=? 200) = true) by (apply Rleb_true; lra).
  assert (H5 : (200 <=? 210) = true) by (apply Rleb_true; lra).
  rewrite H2, H3, H4, H5. reflexivity.
Qed.

(** C1 (as stated) fails: with the target bearing exactly 5 degrees and the
    headings intersecting at 200 degrees no literal window of the spec
    holds, so the spec's classification is none, and the classifier returns
    starboard crossing (small). *)
Lemma C1_COLREG_literal_windows_counterexample :
  ~ COLREG_as_stated (CS := sample_methods) OS_355 TS_north_195 episode_355.
Proof.
  unfold COLREG_as_stated. cbv zeta. rewrite episode_355_situation.
  intros [_ H]. rewrite episode_355_ED in H.
  assert (Hs : 50 <= FossenEnv.sight (FossenEnv.cfg episode_355)) by (cbn; lra).
  destruct (H Hs) as (_ & _ & _ & _ & _ & Hnone).
  assert (Hfalse : 2%Z = 0%Z); [|discriminate].
  apply Hnone.
  - unfold head_on_window, intersection_deg. rewrite episode_355_C_T, rtd_dtr. lra.
  - unfold starboard_small_window_literal, bearing_deg. rewrite episode_355_bng_OS, rtd_dtr. lra.
  - unfold starboard_large_window, bearing_deg. rewrite episode_355_bng_OS, rtd_dtr. lra.
  - unfold portside_window, bearing_deg. rewrite episode_355_bng_OS, rtd_dtr. lra.
  - unfold overtaking_window, intersection_pi_deg. rewrite episode_355_C_T, angle_to_pi_dtr_200, rtd_dtr. lra.
Qed.

(** The same encounter under the amended statement: not head-on, inside
    the closed starboard-crossing-small window, classified as 2. *)
Lemma C1_COLREG_windows_first_match_witness :
  encounter_ED OS_355 TS_north_195 <= FossenEnv.sight (FossenEnv.cfg episode_355)
  /\ ~ head_on_window OS_355 TS_north_195
  /\ starboard_small_window_closed OS_355 TS_north_195
  /\ FossenEnv._get_COLREG_situation (CS := sample_methods) episode_355 OS_355 TS_north_195 = 2%Z.
Proof.
  assert (Hs : encounter_ED OS_355 TS_north_195 <= FossenEnv.sight (FossenEnv.cfg episode_355)).
  { rewrite episode_355_ED. cbn. lra. }
  assert (Hn : ~ head_on_window OS_355 TS_north_195).
  { unfold head_on_window, intersection_deg. rewrite episode_355_C_T, rtd_dtr. lra. }
  assert (Hw : starboard_small_window_closed OS_355 TS_north_195).
  { unfold starboard_small_window_closed, bearing_deg, intersection_deg.
    rewrite episode_355_bng_OS, episode_355_C_T, !rtd_dtr. lra. }
  repeat split; try assumption; try apply Hw.
  destruct (C1_COLREG_windows_first_match (CS := sample_methods) episode_355 OS_355 TS_north_195)
    as [_ H].
  destruct (H Hs) as (_ & H2 & _). exact (H2 Hn Hw).
Defined.

(* ================================================================== *)
(** * Observation vectors: the per-target block                        *)
(* ================================================================== *)

Lemma length_concat_uniform {A} (k : nat) (l : list (list A)) :
  Forall (fun row => List.length row = k) l ->
  List.length (List.concat l) = (k * List.length l)%nat.
Proof.
  induction 1 as [|row l Hrow _ IH]; cbn [List.concat List.length].
  - lia.
  - rewrite length_app, IH, Hrow. lia.
Qed.

Lemma argsort_insert_length (key : nat -> R) (i : nat) (l : list nat) :
  List.length (argsort_insert key i l) = S (List.length l).
Proof.
  induction l as [|j l IH]; cbn [argsort_insert List.length]; [reflexivity|].
  destruct (key i <=? key j); cbn [List.length]; [reflexivity | now rewrite IH].
Qed.

Lemma argsort_insert_Forall (P : nat -> Prop) (key : nat -> R) (i : nat) (l : list nat) :
  P i -> Forall P l -> Forall P (argsort_insert key i l).
Proof.
  intros Hi. induction 1 as [|j l Hj Hl IH]; cbn [argsort_insert].
  - constructor; [exact Hi | constructor].
  - destruct (key i <=? key j); repeat constructor; assumption.
Qed.

Lemma np_argsort_length (keys : list R) :
  List.length (np_argsort keys) = List.length keys.
Proof.
  unfold np_argsort.
  assert (H : forall l, List.length (fold_right (fun i acc =>
                  argsort_insert (fun k => nth k keys 0) i acc) [] l) = List.length l).
  { induction l as [|i l IH]; cbn [fold_right List.length]; [reflexivity|].
    now rewrite argsort_insert_length, IH. }
  rewrite H. apply length_seq.
Qed.

Lemma np_argsort_in_range (keys : list R) :
  Forall (fun i => (i < List.length keys)%nat) (np_argsort keys).
Proof.
  unfold np_argsort.
  assert (H : Forall (fun i => (i < List.length keys)%nat) (seq 0 (List.length keys))).
  { apply Forall_forall. intros i Hi. apply in_seq in Hi. lia. }
  induction H as [|i l Hi Hl IH]; cbn [fold_right]; [constructor|].
  now apply argsort_insert_Forall.
Qed.

Lemma np_pad_nan_ok (x : list cell) (desired : nat) :
  (List.length x <= desired)%nat ->
  np_pad_nan x desired = Ok (x ++ repeat NaN (desired - List.length x)).
Proof.
  intros H. unfold np_pad_nan.
  destruct (Nat.ltb_spec desired (List.length x)); [lia | reflexivity].
Qed.

Lemma sorted_insert_length {A} (key : A -> R) (a : A) (l : list A) :
  List.length (sorted_insert key a l) = S (List.length l).
Proof.
  induction l as [|b l IH]; cbn [sorted_insert List.length]; [reflexivity|].
  destruct (key a <? key b); cbn [List.length]; [reflexivity | now rewrite IH].
Qed.

Lemma sorted_insert_Forall {A} (P : A -> Prop) (key : A -> R) (a : A) (l : list A) :
  P a -> Forall P l -> Forall P (sorted_insert key a l).
Proof.
  intros Ha. induction 1 as [|b l Hb Hl IH]; cbn [sorted_insert].
  - constructor; [exact Ha | constructor].
  - destruct (key a <? key b); repeat constructor; assumption.
Qed.

Lemma sorted_by_length {A} (key : A -> R) (l : list A) :
  List.length (sorted_by key l) = List.length l.
Proof.
  unfold sorted_by. rewrite <- (length_rev l).
  induction (rev l) as [|a l' IH]; cbn [fold_right List.length]; [reflexivity|].
  now rewrite sorted_insert_length, IH.
Qed.

Lemma sorted_by_Forall {A} (P : A -> Prop) (key : A -> R) (l : list A) :
  Forall P l -> Forall P (sorted_by key l).
Proof.
  intros H. unfold sorted_by. apply Forall_rev in H.
  induction H as [|a l' Ha Hl IH]; cbn [fold_right]; [constructor|].
  now apply sorted_insert_Forall.
Qed.

Lemma last_In {A} (l : list A) (dflt : A) : l <> [] -> In (last l dflt) l.
Proof.
  induction l as [|a l IH]; [congruence|]. intros _.
  destruct l as [|b l']; [now left|].
  right. apply IH. discriminate.
Qed.

Section FossenState.
Context {CS : CyberShipII.methods}.

(** The rows built by the loop over the target ships: one row of six
    entries per target in sight, as many risk ratios as rows. *)
Lemma fossen_rows_spec (e : FossenEnv.t) :
  (List.length (FossenEnv.TSs e) <= List.length (FossenEnv.TS_COLREGs e))%nat ->
  exists rows ratios,
    FossenEnv.state_TSs_rows e = Ok (rows, ratios)
    /\ List.length rows = in_sight_count e
    /\ List.length ratios = in_sight_count e
    /\ Forall (fun row => List.length row = 6%nat) rows.
Proof.
  intros Hlen. unfold FossenEnv.state_TSs_rows, in_sight_count, in_sight, encounter_ED.
  destruct (CyberShipII.eta (FossenEnv.OS e)) as [[N0 E0] head0].
  unfold north, east. cbn [fst snd].
  set (f := fun (acc : list (list cell) * list R) (TS_idx : nat) (TS : CyberShipII.t) => _).
  set (p := fun TS : CyberShipII.t => _ <=? _).
  assert (G : forall l idx rows0 ratios0,
             (idx + List.length l <= List.length (FossenEnv.TS_COLREGs e))%nat ->
             Forall (fun row => List.length row = 6%nat) rows0 ->
             exists rows ratios,
               foldM_enum f idx l (rows0, ratios0) = Ok (rows, ratios)
               /\ List.length rows
                  = (List.length rows0
                     + List.length (filter p l))%nat
               /\ List.length ratios
                  = (List.length ratios0
                     + List.length (filter p l))%nat
               /\ Forall (fun row => List.length row = 6%nat) rows).
  { induction l as [|TS l IH]; intros idx rows0 ratios0 Hidx Hrows0.
    - cbn. exists rows0, ratios0. repeat split; try lia; assumption.
    - cbn [foldM_enum filter]. unfold f at 1.
      destruct (CyberShipII.eta TS) as [[N E] headTS] eqn:Heta. cbn [fst snd].
      assert (Hp : p TS = (FossenFnc.ED N0 E0 N E true <=? FossenEnv.sight (FossenEnv.cfg e)))
        by (unfold p; now rewrite Heta).
      rewrite Hp.
      cbn [List.length] in Hidx.
      destruct (FossenFnc.ED N0 E0 N E true <=? FossenEnv.sight (FossenEnv.cfg e)) eqn:Hs.
      + unfold getitem.
        destruct (nth_error (FossenEnv.TS_COLREGs e) idx) as [sigma|] eqn:Hn.
        2:{ apply nth_error_None in Hn. lia. }
        cbn [bind].
        destruct (IH (S idx) (rows0 ++ [[Num (FossenFnc.ED N0 E0 N E true / FossenEnv.E_max (FossenEnv.cfg e));
                      Num (FossenFnc.angle_to_pi (FossenFnc.bng_rel N0 E0 N E head0 true) / PI);
                      Num (FossenFnc.angle_to_pi (FossenFnc.head_inter head0 headTS) / PI);
                      Num (CyberShipII._get_V TS); Num (IZR sigma);
                      Num (if FossenFnc.ED N0 E0 N E true <=? FossenEnv._get_ship_domain (FossenEnv.OS e) TS
                           then 1.0 else 0.0)]])
                    (ratios0 ++ [FossenFnc.ED N0 E0 N E true / FossenEnv._get_ship_domain (FossenEnv.OS e) TS]))
          as (rows & ratios & Hf & Hr & Hq & Hall).
        { lia. }
        { apply Forall_app. split; [assumption | repeat constructor]. }
        exists rows, ratios. split; [exact Hf|].
        rewrite !length_app in Hr, Hq. cbn [List.length] in *.
        repeat split; try lia; assumption.
      + cbn [bind].
        destruct (IH (S idx) rows0 ratios0) as (rows & ratios & Hf & Hr & Hq & Hall);
          [lia | assumption |].
        exists rows, ratios. repeat split; try lia; assumption. }
  destruct (G (FossenEnv.TSs e) 0%nat [] []) as (rows & ratios & Hf & Hr & Hq & Hall);
    [cbn; lia | constructor |].
  exists rows, ratios. cbn [List.length] in Hr, Hq. repeat split; try assumption; lia.
Qed.

Lemma reordered_rows (rows : list (list cell)) (ratios : list R) :
  List.length ratios = List.length rows ->
  Forall (fun row => List.length row = 6%nat) rows ->
  let reordered := map (fun idx => nth idx rows []) (rev (np_argsort ratios)) in
  List.length reordered = List.length rows
  /\ Forall (fun row => List.length row = 6%nat) reordered.
Proof.
  intros Hlen Hrows. cbv zeta. split.
  - now rewrite length_map, length_rev, np_argsort_length.
  - apply Forall_map. apply Forall_rev.
    eapply Forall_impl; [|apply np_argsort_in_range].
    intros i Hi. cbv beta in *. rewrite Hlen in Hi.
    rewrite Forall_forall in Hrows. apply Hrows. now apply nth_In.
Qed.

(** [_set_COLREGs], which precedes every call of [_set_state], leaves one
    situation per target ship. *)
Lemma set_COLREGs_length (e : FossenEnv.t) :
  List.length (FossenEnv.TS_COLREGs (FossenEnv._set_COLREGs e))
  = List.length (FossenEnv.TSs (FossenEnv._set_COLREGs e)).
Proof. unfold FossenEnv._set_COLREGs. cbn. apply length_map. Qed.

(** FossenEnv, design "RecDQN": the block has [num_obs_TS * N_TSs_max]
    entries, the rows of the targets in sight followed by NaN. *)
Lemma fossen_block_RecDQN (e : FossenEnv.t) :
  FossenEnv.state_design (FossenEnv.cfg e) = "RecDQN"%string ->
  FossenEnv.num_obs_TS (FossenEnv.cfg e) = 6%nat ->
  (List.length (FossenEnv.TSs e) <= List.length (FossenEnv.TS_COLREGs e))%nat ->
  (in_sight_count e <= FossenEnv.N_TSs_max (FossenEnv.cfg e))%nat ->
  exists present,
    FossenEnv.state_TSs_block e
      = Ok (present ++ repeat NaN (6 * (FossenEnv.N_TSs_max (FossenEnv.cfg e) - in_sight_count e)))
    /\ List.length present = (6 * in_sight_count e)%nat.
Proof.
  intros Hd Hk Hlen Hcount.
  destruct (fossen_rows_spec e Hlen) as (rows & ratios & Hf & Hr & Hq & Hall).
  unfold FossenEnv.state_TSs_block. rewrite Hf. cbn [bind]. rewrite Hd, Hk.
  cbn [String.eqb Ascii.eqb Bool.eqb].
  destruct (Nat.eqb_spec (List.length rows) 0) as [H0|H0].
  - exists []. rewrite <- Hr, H0. cbn [app List.length]. split; [|reflexivity].
    do 2 f_equal. lia.
  - destruct (reordered_rows rows ratios) as [Hl Hall']; [lia | assumption |].
    cbv zeta in Hl, Hall'.
    pose proof (length_concat_uniform 6 _ Hall') as Hc. rewrite Hl, Hr in Hc.
    rewrite np_pad_nan_ok by (rewrite Hc; nia).
    eexists. split; [|exact Hc]. rewrite Hc. do 3 f_equal. lia.
Qed.

(** FossenEnv, design "maxRisk": the block has [num_obs_TS] entries, the
    row of one target or zeros. *)
Lemma fossen_block_maxRisk (e : FossenEnv.t) :
  FossenEnv.state_design (FossenEnv.cfg e) = "maxRisk"%string ->
  FossenEnv.num_obs_TS (FossenEnv.cfg e) = 6%nat ->
  (List.length (FossenEnv.TSs e) <= List.length (FossenEnv.TS_COLREGs e))%nat ->
  exists block, FossenEnv.state_TSs_block e = Ok block /\ List.length block = 6%nat.
Proof.
  intros Hd Hk Hlen.
  destruct (fossen_rows_spec e Hlen) as (rows & ratios & Hf & Hr & Hq & Hall).
  unfold FossenEnv.state_TSs_block. rewrite Hf. cbn [bind]. rewrite Hd, Hk.
  cbn [String.eqb Ascii.eqb Bool.eqb].
  destruct (Nat.eqb_spec (List.length rows) 0) as [H0|H0].
  - eexists. split; [reflexivity|]. now rewrite repeat_length.
  - destruct (reordered_rows rows ratios) as [Hl Hall']; [lia | assumption |].
    cbv zeta in Hl, Hall'. eexists. split; [reflexivity|].
    set (re := map _ _) in *.
    rewrite Forall_forall in Hall'. apply Hall'. apply last_In.
    intros Hre. rewrite Hre in Hl. cbn in Hl. lia.
Qed.

End FossenState.

Lemma KVLCC2_get_V_total (s : KVLCC2.t) : exists V, KVLCC2._get_V s = Ok V.
Proof.
  unfold KVLCC2._get_V. destruct (KVLCC2.nu s) as [[u v] r].
  rewrite (math_sqrt_ok _ (sum_sq_nonneg _ _)). eexists; reflexivity.
Qed.

Lemma pad_ghost_ships_spec (fuel N_TSs_max : nat) (rows : list (list cell)) :
  (List.length rows <= N_TSs_max)%nat ->
  (N_TSs_max - List.length rows <= fuel)%nat ->
  HHOS_PathPlanning_Env.pad_ghost_ships fuel N_TSs_max rows
    = Some (rows ++ repeat HHOS_PathPlanning_Env.ghost_ship (N_TSs_max - List.length rows)).
Proof.
  revert rows. induction fuel as [|fuel IH]; intros rows Hle Hfuel.
  - cbn [HHOS_PathPlanning_Env.pad_ghost_ships].
    destruct (Nat.eqb_spec (List.length rows) N_TSs_max) as [He|He]; [|lia].
    replace (N_TSs_max - List.length rows)%nat with 0%nat by lia.
    cbn [repeat]. now rewrite app_nil_r.
  - cbn [HHOS_PathPlanning_Env.pad_ghost_ships].
    destruct (Nat.eqb_spec (List.length rows) N_TSs_max) as [He|He].
    + replace (N_TSs_max - List.length rows)%nat with 0%nat by lia.
      cbn [repeat]. now rewrite app_nil_r.
    + rewrite IH by (rewrite length_app; cbn [List.length]; lia).
      rewrite length_app. cbn [List.length].
      replace (N_TSs_max - List.length rows)%nat
        with (S (N_TSs_max - (List.length rows + 1)))%nat by lia.
      cbn [repeat]. now rewrite <- app_assoc.
Qed.

Section HHOSState.
Context {P : HHOS_PathPlanning_Env.HHOS_Env}.

Lemma hhos_rows_spec (e : HHOS_PathPlanning_Env.t) :
  exists rows,
    HHOS_PathPlanning_Env.state_TSs_rows e = Ok rows
    /\ List.length rows = List.length (HHOS_PathPlanning_Env.TSs e)
    /\ Forall (fun row => List.length row = 6%nat) rows.
Proof.
  unfold HHOS_PathPlanning_Env.state_TSs_rows.
  destruct (KVLCC2.eta (HHOS_PathPlanning_Env.ship (HHOS_PathPlanning_Env.OS e))) as [[N0 E0] head0].
  induction (HHOS_PathPlanning_Env.TSs e) as [|TS l IH].
  - exists []. repeat split. constructor.
  - destruct IH as (rows & Hm & Hl & Hall).
    cbn [mapM]. destruct (KVLCC2.eta (HHOS_PathPlanning_Env.ship TS)) as [[N E] headTS].
    destruct (KVLCC2_get_V_total (HHOS_PathPlanning_Env.ship TS)) as [V HV].
    rewrite HV. cbn [bind]. rewrite Hm. cbn [bind].
    eexists. split; [reflexivity|]. cbn [List.length]. split; [now rewrite Hl|].
    constructor; [reflexivity | assumption].
Qed.

(** HHOS path planning, design "conventional": ghost ships fill the block
    up to [N_TSs_max] rows of six entries. *)
Lemma hhos_block_conventional (fuel : nat) (e : HHOS_PathPlanning_Env.t) :
  HHOS_PathPlanning_Env.state_design (HHOS_PathPlanning_Env.cfg e) = "conventional"%string ->
  let N_max := HHOS_PathPlanning_Env.N_TSs_max
                 (HHOS_PathPlanning_Env.parent (HHOS_PathPlanning_Env.cfg e)) in
  (1 <= N_max)%nat ->
  (List.length (HHOS_PathPlanning_Env.TSs e) <= N_max)%nat ->
  (N_max - List.length (HHOS_PathPlanning_Env.TSs e) <= fuel)%nat ->
  exists block,
    HHOS_PathPlanning_Env.state_TSs_block fuel e = Some (Ok block)
    /\ List.length block = (N_max * 6)%nat.
Proof.
  intros Hd N_max H1 Hle Hfuel.
  destruct (hhos_rows_spec e) as (rows & Hr & Hl & Hall).
  unfold HHOS_PathPlanning_Env.state_TSs_block. rewrite Hr, Hd.
  cbn [String.eqb Ascii.eqb Bool.eqb]. fold N_max.
  rewrite pad_ghost_ships_spec by (rewrite Hl; assumption).
  set (padded := rows ++ _).
  assert (Hpl : List.length padded = N_max).
  { subst padded. rewrite length_app, repeat_length. lia. }
  assert (Hpa : Forall (fun row => List.length row = 6%nat) padded).
  { subst padded. apply Forall_app. split; [assumption|].
    apply Forall_forall. intros row Hin. apply repeat_spec in Hin. now subst row. }
  pose proof (sorted_by_length HHOS_PathPlanning_Env.row_key padded) as Hsl.
  pose proof (sorted_by_Forall _ HHOS_PathPlanning_Env.row_key padded Hpa) as Hsa.
  unfold HHOS_PathPlanning_Env.np_hstack.
  destruct (sorted_by HHOS_PathPlanning_Env.row_key padded) as [|row rest] eqn:Hs.
  - cbn [List.length] in Hsl. lia.
  - eexists. split; [reflexivity|].
    rewrite (length_concat_uniform 6 _ Hsa), Hsl, Hpl. lia.
Qed.

(** HHOS path planning, design "recursive": no state is built. *)
Lemma hhos_block_recursive (fuel : nat) (e : HHOS_PathPlanning_Env.t) :
  HHOS_PathPlanning_Env.state_design (HHOS_PathPlanning_Env.cfg e) = "recursive"%string ->
  HHOS_PathPlanning_Env.state_TSs_block fuel e
    = Some (Raise (NotImplementedError "Recursive state definition not implemented yet.")).
Proof.
  intros Hd. destruct (hhos_rows_spec e) as (rows & Hr & _).
  unfold HHOS_PathPlanning_Env.state_TSs_block. now rewrite Hr, Hd.
Qed.

(** HHOS path planning without a target slot: [np.hstack] of no rows
    raises ValueError. *)
Lemma hhos_block_no_slot (fuel : nat) (e : HHOS_PathPlanning_Env.t) :
  HHOS_PathPlanning_Env.state_design (HHOS_PathPlanning_Env.cfg e) = "conventional"%string ->
  HHOS_PathPlanning_Env.N_TSs_max (HHOS_PathPlanning_Env.parent (HHOS_PathPlanning_Env.cfg e)) = 0%nat ->
  HHOS_PathPlanning_Env.TSs e = [] ->
  HHOS_PathPlanning_Env.state_TSs_block fuel e = Some (Raise ValueError).
Proof.
  intros Hd Hn Ht. unfold HHOS_PathPlanning_Env.state_TSs_block, HHOS_PathPlanning_Env.state_TSs_rows.
  destruct (KVLCC2.eta (HHOS_PathPlanning_Env.ship (HHOS_PathPlanning_Env.OS e))) as [[N0 E0] head0].
  rewrite Ht, Hd, Hn. cbn [mapM String.eqb Ascii.eqb Bool.eqb].
  destruct fuel; reflexivity.
Qed.

End HHOSState.

(** C6 (amended): the per-target block has exactly [N_TSs_max * num_obs_TS]
    entries in FossenEnv with the state design "RecDQN" (rows of the
    targets in sight, then NaN) and in the HHOS path-planning environment
    with the state design "conventional" and at least one target slot
    (ghost-ship rows for absent targets); in FossenEnv with the state
    design "maxRisk" it has exactly [num_obs_TS] entries whatever
    [N_TSs_max] is. In each of these configurations the length does not
    depend on the number of targets. *)
Theorem C6_per_target_block_length :
  (forall (CS : CyberShipII.methods) (e : FossenEnv.t),
      FossenEnv.state_design (FossenEnv.cfg e) = "RecDQN"%string ->
      FossenEnv.num_obs_TS (FossenEnv.cfg e) = 6%nat ->
      (List.length (FossenEnv.TSs e) <= List.length (FossenEnv.TS_COLREGs e))%nat ->
      (in_sight_count e <= FossenEnv.N_TSs_max (FossenEnv.cfg e))%nat ->
      exists present,
        FossenEnv.state_TSs_block e
          = Ok (present ++ repeat NaN (FossenEnv.num_obs_TS (FossenEnv.cfg e)
                                       * (FossenEnv.N_TSs_max (FossenEnv.cfg e) - in_sight_count e)))
        /\ List.length present = (FossenEnv.num_obs_TS (FossenEnv.cfg e) * in_sight_count e)%nat
        /\ List.length (present ++ repeat NaN (FossenEnv.num_obs_TS (FossenEnv.cfg e)
                                       * (FossenEnv.N_TSs_max (FossenEnv.cfg e) - in_sight_count e)))
           = (FossenEnv.N_TSs_max (FossenEnv.cfg e) * FossenEnv.num_obs_TS (FossenEnv.cfg e))%nat)
  /\ (forall (CS : CyberShipII.methods) (e : FossenEnv.t),
      FossenEnv.state_design (FossenEnv.cfg e) = "maxRisk"%string ->
      FossenEnv.num_obs_TS (FossenEnv.cfg e) = 6%nat ->
      (List.length (FossenEnv.TSs e) <= List.length (FossenEnv.TS_COLREGs e))%nat ->
      exists block,
        FossenEnv.state_TSs_block e = Ok block
        /\ List.length block = FossenEnv.num_obs_TS (FossenEnv.cfg e))
  /\ (forall (P : HHOS_PathPlanning_Env.HHOS_Env) (e : HHOS_PathPlanning_Env.t) (fuel : nat),
      let c := HHOS_PathPlanning_Env.cfg e in
      let N_max := HHOS_PathPlanning_Env.N_TSs_max (HHOS_PathPlanning_Env.parent c) in
      HHOS_PathPlanning_Env.state_design c = "conventional"%string ->
      HHOS_PathPlanning_Env.num_obs_TS c = 6%nat ->
      (1 <= N_max)%nat ->
      (List.length (HHOS_PathPlanning_Env.TSs e) <= N_max)%nat ->
      (N_max - List.length (HHOS_PathPlanning_Env.TSs e) <= fuel)%nat ->
      exists block,
        HHOS_PathPlanning_Env.state_TSs_block fuel e = Some (Ok block)
        /\ List.length block = (N_max * HHOS_PathPlanning_Env.num_obs_TS c)%nat).
Proof.
  split; [|split].
  - intros CS e Hd Hk Hlen Hcount.
    destruct (fossen_block_RecDQN e Hd Hk Hlen Hcount) as (present & Hb & Hp).
    exists present. rewrite Hk. split; [exact Hb|]. split; [exact Hp|].
    rewrite length_app, repeat_length, Hp. lia.
  - intros CS e Hd Hk Hlen.
    destruct (fossen_block_maxRisk e Hd Hk Hlen) as (block & Hb & Hl).
    exists block. rewrite Hk. split; assumption.
  - intros P e fuel c N_max Hd Hk H1 Hle Hfuel.
    destruct (hhos_block_conventional fuel e Hd H1 Hle Hfuel) as (block & Hb & Hl).
    exists block. rewrite Hk. split; assumption.
Qed.

Lemma episode_355_in_sight_count : in_sight_count episode_355 = 1%nat.
Proof.
  unfold in_sight_count, episode_355, fossen_episode.
  cbn [FossenEnv.TSs filter]. unfold in_sight. cbn [FossenEnv.OS].
  rewrite episode_355_ED.
  assert (H : (50 <=? FossenEnv.sight (FossenEnv.cfg episode_355)) = true)
    by (apply Rleb_true; cbn; lra).
  unfold episode_355, fossen_episode in H. rewrite H. reflexivity.
Qed.

(** C6 (as stated) fails: FossenEnv with the state design "maxRisk", three
    target slots and no target ship builds a block of 6 zeros, not of
    3 * 6 entries. *)
Lemma C6_fixed_length_counterexample :
  ~ fixed_length_as_stated (CS := sample_methods) episode_maxRisk_empty.
Proof.
  unfold fixed_length_as_stated. intros H.
  destruct H as (block & Hb & Hl).
  - cbn. lia.
  - assert (Hb' : FossenEnv.state_TSs_block (CS := sample_methods) episode_maxRisk_empty
                  = Ok (repeat (Num 0.0) 6)) by reflexivity.
    rewrite Hb' in Hb. injection Hb as <-. cbn in Hl. discriminate.
Qed.

(** The three configurations of C6 at concrete episodes: "RecDQN" with one
    target in sight of three slots, "maxRisk" with none, and the
    "conventional" path planner with one target ship of two slots. *)
Lemma C6_per_target_block_length_witness :
  (exists block,
      FossenEnv.state_TSs_block (CS := sample_methods) episode_355 = Ok block
      /\ List.length block = 18%nat)
  /\ (exists block,
      FossenEnv.state_TSs_block (CS := sample_methods) episode_maxRisk_empty = Ok block
      /\ List.length block = 6%nat)
  /\ (exists block,
      HHOS_PathPlanning_Env.state_TSs_block (P := sample_parent) 1
        (hhos_episode false 2 [hhos_vessel 1000 0 0 3]) = Some (Ok block)
      /\ List.length block = 12%nat).
Proof.
  destruct C6_per_target_block_length as (H1 & H2 & H3).
  split; [|split].
  - destruct (H1 sample_methods episode_355) as (present & Hb & _ & Hl).
    + reflexivity.
    + reflexivity.
    + cbn. lia.
    + rewrite episode_355_in_sight_count. cbn. lia.
    + eexists. split; [exact Hb | exact Hl].
  - destruct (H2 sample_methods episode_maxRisk_empty) as (block & Hb & Hl).
    + reflexivity.
    + reflexivity.
    + cbn. lia.
    + exists block. split; [exact Hb | exact Hl].
  - destruct (H3 sample_parent (hhos_episode false 2 [hhos_vessel 1000 0 0 3]) 1%nat)
      as (block & Hb & Hl).
    + reflexivity.
    + reflexivity.
    + cbn. lia.
    + cbn. lia.
    + cbn. lia.
    + exists block. split; [exact Hb | exact Hl].
Defined.

(* ================================================================== *)
(** * Rewards                                                          *)
(* ================================================================== *)

Section FossenReward.
Context {CS : CyberShipII.methods}.

Lemma fossen_reward_returns (e : FossenEnv.t) (w_dist w_head w_coll w_COLREG w_comf : R) :
  (List.length (FossenEnv.TSs e) <= List.length (FossenEnv.respawn_flags e))%nat ->
  (List.length (FossenEnv.TSs e) <= List.length (FossenEnv.TS_COLREGs e))%nat ->
  exists rw, FossenEnv._calculate_reward e w_dist w_head w_coll w_COLREG w_comf = Ok rw.
Proof.
  intros Hf Hc. unfold FossenEnv._calculate_reward.
  destruct (CyberShipII.eta (FossenEnv.OS e)) as [[N0 E0] head0].
  destruct (CyberShipII.nu (FossenEnv.OS e)) as [[u v] r_OS].
  set (f := fun (acc : R * R) (TS_idx : nat) (TS : CyberShipII.t) => _).
  assert (G : forall l idx acc,
             (idx + List.length l <= List.length (FossenEnv.respawn_flags e))%nat ->
             (idx + List.length l <= List.length (FossenEnv.TS_COLREGs e))%nat ->
             exists res, foldM_enum f idx l acc = Ok res).
  { induction l as [|TS l IH]; intros idx [rc rC] H1 H2.
    - eexists; reflexivity.
    - cbn [foldM_enum]. cbn [List.length] in H1, H2. unfold f at 1.
      destruct (CyberShipII.eta TS) as [[N_TS E_TS] p].
      unfold getitem.
      destruct (nth_error (FossenEnv.respawn_flags e) idx) as [flag|] eqn:Hn1.
      2:{ apply nth_error_None in Hn1. lia. }
      destruct (nth_error (FossenEnv.TS_COLREGs e) idx) as [sigma|] eqn:Hn2.
      2:{ apply nth_error_None in Hn2. lia. }
      cbn [bind].
      destruct (negb flag); [|cbn [bind]; apply IH; lia].
      destruct (_ && _); [|cbn [bind]; apply IH; lia].
      cbn [bind].
      destruct (_ && _); [cbn [bind]; apply IH; lia|].
      destruct (_ && _); cbn [bind]; apply IH; lia. }
  destruct (G (FossenEnv.TSs e) 0%nat (0, 0)) as [[rc rC] Hres]; [cbn; lia | cbn; lia |].
  rewrite Hres. cbn [bind]. eexists; reflexivity.
Qed.

Lemma fossen_reward_sum (e : FossenEnv.t) (w_dist w_head w_coll w_COLREG w_comf : R)
    (rw : FossenEnv.reward) :
  FossenEnv._calculate_reward e w_dist w_head w_coll w_COLREG w_comf = Ok rw ->
  FossenEnv.r rw
    = w_dist * FossenEnv.r_dist rw + w_head * FossenEnv.r_head rw
      + w_coll * FossenEnv.r_coll rw + w_COLREG * FossenEnv.r_COLREG rw
      + w_comf * FossenEnv.r_comf rw.
Proof.
  unfold FossenEnv._calculate_reward.
  destruct (CyberShipII.eta (FossenEnv.OS e)) as [[N0 E0] head0].
  destruct (CyberShipII.nu (FossenEnv.OS e)) as [[u v] r_OS].
  destruct (foldM_enum _ _ _ _) as [[rc rC]|ex]; cbn [bind]; [|discriminate].
  intros H; injection H as <-. reflexivity.
Qed.

End FossenReward.

Section HHOSReward.
Context {P : HHOS_PathPlanning_Env.HHOS_Env}.
Import HHOS_PathPlanning_Env.

Lemma hhos_reward_no_thrust (e : t) (a : list R) :
  thrust_control_planner (parent (cfg e)) = false ->
  exists rw,
    _calculate_reward e a = Ok rw
    /\ r_comf rw = None /\ r_speed rw = None
    /\ let b := parent (cfg e) in
       let W := w_ye b + w_ce b + w_coll b in
       (W <> 0 -> r rw = (w_ye b * r_ye rw + w_ce b * r_ce rw + w_coll b * r_coll rw) / W)
       /\ (W = 0 -> r rw = 0).
Proof.
  intros Ht. unfold _calculate_reward.
  destruct (KVLCC2.nu (ship (OS e))) as [[u v] r0].
  destruct (KVLCC2.eta (ship (OS e))) as [[N E] psi].
  rewrite Ht. cbn [bind].
  eexists. split; [reflexivity|]. cbn [r_comf r_speed r r_ye r_ce r_coll].
  split; [reflexivity|]. split; [reflexivity|].
  cbn [np_sum np_mul fold_right]. split.
  - intros HW.
    assert (Hz : (w_ye (parent (cfg e)) + (w_ce (parent (cfg e)) + (w_coll (parent (cfg e)) + 0)) =? 0.0) = false)
      by (apply Reqb_false; lra).
    rewrite Hz. cbn [negb]. unfold Rdiv. f_equal; [ring | f_equal; ring].
  - intros HW.
    assert (Hz : (w_ye (parent (cfg e)) + (w_ce (parent (cfg e)) + (w_coll (parent (cfg e)) + 0)) =? 0.0) = true)
      by (apply Reqb_true; lra).
    rewrite Hz. cbn [negb]. lra.
Qed.

Lemma hhos_reward_thrust (e : t) (a : list R) :
  thrust_control_planner (parent (cfg e)) = true ->
  (2 <= List.length a)%nat ->
  exists rw rc rs,
    _calculate_reward e a = Ok rw
    /\ r_comf rw = Some rc /\ r_speed rw = Some rs
    /\ let b := parent (cfg e) in
       let W := w_ye b + w_ce b + w_coll b + w_comf b + w_speed b in
       (W <> 0 -> r rw = (w_ye b * r_ye rw + w_ce b * r_ce rw + w_coll b * r_coll rw
                          + w_comf b * rc + w_speed b * rs) / W)
       /\ (W = 0 -> r rw = 0).
Proof.
  intros Ht Ha. unfold _calculate_reward.
  destruct (KVLCC2.nu (ship (OS e))) as [[u v] r0].
  destruct (KVLCC2.eta (ship (OS e))) as [[N E] psi].
  rewrite Ht. unfold getitem.
  destruct (nth_error a 1) as [a1|] eqn:Hn.
  2:{ apply nth_error_None in Hn. lia. }
  cbn [bind].
  eexists. exists (- a1 ^ 2). eexists. split; [reflexivity|].
  cbn [r_comf r_speed r r_ye r_ce r_coll].
  split; [reflexivity|]. split; [reflexivity|].
  cbn [np_sum np_mul fold_right app]. split.
  - intros HW.
    match goal with |- context [negb (?x =? 0.0)] =>
      assert (Hz : (x =? 0.0) = false) by (apply Reqb_false; lra); rewrite Hz end.
    cbn [negb]. unfold Rdiv. f_equal; [ring | f_equal; ring].
  - intros HW.
    match goal with |- context [negb (?x =? 0.0)] =>
      assert (Hz : (x =? 0.0) = true) by (apply Reqb_true; lra); rewrite Hz end.
    cbn [negb]. lra.
Qed.

End HHOSReward.

(** C3: the FossenEnv reward is the plain weighted sum of its five terms,
    with no division by the weights; the HHOS path-planning reward is the
    weighted sum of its terms (three, or five under thrust control) divided
    by the sum of their weights, and 0 when the weights sum to zero. *)
Theorem C3_reward_weighting :
  (forall (CS : CyberShipII.methods) (e : FossenEnv.t) (w_dist w_head w_coll w_COLREG w_comf : R),
      (List.length (FossenEnv.TSs e) <= List.length (FossenEnv.respawn_flags e))%nat ->
      (List.length (FossenEnv.TSs e) <= List.length (FossenEnv.TS_COLREGs e))%nat ->
      exists rw,
        FossenEnv._calculate_reward e w_dist w_head w_coll w_COLREG w_comf = Ok rw
        /\ FossenEnv.r rw
           = w_dist * FossenEnv.r_dist rw + w_head * FossenEnv.r_head rw
             + w_coll * FossenEnv.r_coll rw + w_COLREG * FossenEnv.r_COLREG rw
             + w_comf * FossenEnv.r_comf rw)
  /\ (forall (P : HHOS_PathPlanning_Env.HHOS_Env) (e : HHOS_PathPlanning_Env.t) (a : list R),
      let b := HHOS_PathPlanning_Env.parent (HHOS_PathPlanning_Env.cfg e) in
      HHOS_PathPlanning_Env.thrust_control_planner b = false ->
      exists rw,
        HHOS_PathPlanning_Env._calculate_reward e a = Ok rw
        /\ let W := HHOS_PathPlanning_Env.w_ye b + HHOS_PathPlanning_Env.w_ce b
                    + HHOS_PathPlanning_Env.w_coll b in
           (W <> 0 ->
            HHOS_PathPlanning_Env.r rw
            = (HHOS_PathPlanning_Env.w_ye b * HHOS_PathPlanning_Env.r_ye rw
               + HHOS_PathPlanning_Env.w_ce b * HHOS_PathPlanning_Env.r_ce rw
               + HHOS_PathPlanning_Env.w_coll b * HHOS_PathPlanning_Env.r_coll rw) / W)
           /\ (W = 0 -> HHOS_PathPlanning_Env.r rw = 0))
  /\ (forall (P : HHOS_PathPlanning_Env.HHOS_Env) (e : HHOS_PathPlanning_Env.t) (a : list R),
      let b := HHOS_PathPlanning_Env.parent (HHOS_PathPlanning_Env.cfg e) in
      HHOS_PathPlanning_Env.thrust_control_planner b = true ->
      (2 <= List.length a)%nat ->
      exists rw rc rs,
        HHOS_PathPlanning_Env._calculate_reward e a = Ok rw
        /\ HHOS_PathPlanning_Env.r_comf rw = Some rc
        /\ HHOS_PathPlanning_Env.r_speed rw = Some rs
        /\ let W := HHOS_PathPlanning_Env.w_ye b + HHOS_PathPlanning_Env.w_ce b
                    + HHOS_PathPlanning_Env.w_coll b + HHOS_PathPlanning_Env.w_comf b
                    + HHOS_PathPlanning_Env.w_speed b in
           (W <> 0 ->
            HHOS_PathPlanning_Env.r rw
            = (HHOS_PathPlanning_Env.w_ye b * HHOS_PathPlanning_Env.r_ye rw
               + HHOS_PathPlanning_Env.w_ce b * HHOS_PathPlanning_Env.r_ce rw
               + HHOS_PathPlanning_Env.w_coll b * HHOS_PathPlanning_Env.r_coll rw
               + HHOS_PathPlanning_Env.w_comf b * rc
               + HHOS_PathPlanning_Env.w_speed b * rs) / W)
           /\ (W = 0 -> HHOS_PathPlanning_Env.r rw = 0)).
Proof.
  split; [|split].
  - intros CS e w_dist w_head w_coll w_COLREG w_comf Hf Hc.
    destruct (fossen_reward_returns e w_dist w_head w_coll w_COLREG w_comf Hf Hc) as [rw Hrw].
    exists rw. split; [exact Hrw | exact (fossen_reward_sum _ _ _ _ _ _ _ Hrw)].
  - intros P e a b Ht.
    destruct (hhos_reward_no_thrust e a Ht) as (rw & Hrw & _ & _ & HW).
    exists rw. split; [exact Hrw | exact HW].
  - intros P e a b Ht Ha.
    destruct (hhos_reward_thrust e a Ht Ha) as (rw & rc & rs & Hrw & H1 & H2 & HW).
    exists rw, rc, rs. repeat split; try assumption; apply HW.
Qed.

(** C3 at concrete episodes: FossenEnv with one target ship and unit
    weights, the path planner without and with thrust control. *)
Lemma C3_reward_weighting_witness :
  (exists rw,
      FossenEnv._calculate_reward (CS := sample_methods) episode_355 1 1 1 1 1 = Ok rw
      /\ FossenEnv.r rw
         = 1 * FossenEnv.r_dist rw + 1 * FossenEnv.r_head rw + 1 * FossenEnv.r_coll rw
           + 1 * FossenEnv.r_COLREG rw + 1 * FossenEnv.r_comf rw)
  /\ (exists rw,
      HHOS_PathPlanning_Env._calculate_reward (P := sample_parent) (hhos_episode false 1 []) [0.5] = Ok rw
      /\ HHOS_PathPlanning_Env.r rw
         = (1 * HHOS_PathPlanning_Env.r_ye rw + 1 * HHOS_PathPlanning_Env.r_ce rw
            + 1 * HHOS_PathPlanning_Env.r_coll rw) / (1 + 1 + 1))
  /\ (exists rw rc rs,
      HHOS_PathPlanning_Env._calculate_reward (P := sample_parent) (hhos_episode true 1 []) [0.5; 0.25] = Ok rw
      /\ HHOS_PathPlanning_Env.r_comf rw = Some rc
      /\ HHOS_PathPlanning_Env.r_speed rw = Some rs
      /\ HHOS_PathPlanning_Env.r rw
         = (1 * HHOS_PathPlanning_Env.r_ye rw + 1 * HHOS_PathPlanning_Env.r_ce rw
            + 1 * HHOS_PathPlanning_Env.r_coll rw + 1 * rc + 1 * rs) / (1 + 1 + 1 + 1 + 1)).
Proof.
  destruct C3_reward_weighting as (H1 & H2 & H3).
  split; [|split].
  - apply (H1 sample_methods episode_355 1 1 1 1 1); cbn; lia.
  - destruct (H2 sample_parent (hhos_episode false 1 []) [0.5]) as (rw & Hrw & HW & _);
      [reflexivity|].
    exists rw. split; [exact Hrw|]. apply HW. cbn. lra.
  - destruct (H3 sample_parent (hhos_episode true 1 []) [0.5; 0.25])
      as (rw & rc & rs & Hrw & Hc & Hs & HW & _); [reflexivity | cbn; lia |].
    exists rw, rc, rs. repeat split; try assumption. apply HW. cbn. lra.
Defined.

(* ================================================================== *)
(** * FossenEnv: spawning and respawning of target ships               *)
(* ================================================================== *)

Lemma fold_Rmin_lower_bound (m init : R) (l : list R) :
  m <= fold_right Rmin init l -> Forall (fun x => m <= x) l.
Proof.
  induction l as [|x l IH]; cbn [fold_right]; intros H; constructor.
  - pose proof (Rmin_l x (fold_right Rmin init l)). lra.
  - apply IH. pose proof (Rmin_r x (fold_right Rmin init l)). lra.
Qed.

Section Spawning.
Context {CS : CyberShipII.methods}.

(** A pass that ends in [break] with target ships already placed returns a
    vessel separated from each of them. *)
Lemma get_TS_pass_separated (e : FossenEnv.t) (g g' : rng) (TS : CyberShipII.t) :
  FossenEnv._get_TS_pass e g = Ok (TS, true, g') ->
  FossenEnv.TSs e <> [] ->
  Forall (separated (FossenEnv.cfg e) TS) (FossenEnv.TSs e).
Proof.
  unfold FossenEnv._get_TS_pass.
  destruct (if String.eqb _ "tau" then _ else _) as [[[[tau_u f2] f23_sum] g1]|ex];
    cbn [bind]; [|discriminate].
  unfold np_random_uniform, random_choice. cbn [np_raw np_pos py_raw py_pos].
  destruct (CyberShipII.eta (FossenEnv.OS e)) as [[N0 E0] psi0].
  destruct (FossenFnc.project_vector _ _ 1 (FossenFnc.bng_abs _ _ _ _)) as [VRx VRy].
  match goal with |- bind ?c _ = _ -> _ => destruct c as [[C_TS_s g2]|ex] end;
    cbn [bind]; [|discriminate].
  match goal with |- bind ?c _ = _ -> _ => destruct c as [[[VTS TS1] g3]|ex] end;
    cbn [bind]; [|discriminate].
  destruct (Nat.eqb_spec (List.length (FossenEnv.TSs e)) 0) as [H0|H0].
  { intros _ Hne. destruct (FossenEnv.TSs e); [congruence | discriminate]. }
  match goal with |- (if ?c then _ else _) = _ -> _ => destruct c eqn:Hmin end;
    [|intros H; discriminate].
  intros H _. injection H as <- _.
  apply Rleb_true, fold_Rmin_lower_bound in Hmin.
  rewrite Forall_map in Hmin.
  eapply Forall_impl; [|exact Hmin].
  intros T. unfold separated, spawn_distance, encounter_ED, north, east.
  cbn [CyberShipII.set_eta CyberShipII.eta fst snd].
  destruct (CyberShipII.eta T) as [[N1 E1] p1]. cbn [fst snd]. intros HT; exact HT.
Qed.

Lemma get_TS_loop_separated (fuel : nat) (e : FossenEnv.t) (g g' : rng) (TS : CyberShipII.t) :
  FossenEnv._get_TS_loop fuel e g = Some (Ok (TS, g')) ->
  FossenEnv.TSs e <> [] ->
  Forall (separated (FossenEnv.cfg e) TS) (FossenEnv.TSs e).
Proof.
  revert g. induction fuel as [|fuel IH]; intros g; cbn [FossenEnv._get_TS_loop]; [discriminate|].
  destruct (FossenEnv._get_TS_pass e g) as [[[TS1 brk] g1]|ex] eqn:Hp; [|discriminate].
  destruct brk.
  - intros H Hne. injection H as <- <-. exact (get_TS_pass_separated _ _ _ _ Hp Hne).
  - apply IH.
Qed.

Lemma get_TS_separated (fuel : nat) (e : FossenEnv.t) (g g' : rng) (TS : CyberShipII.t) :
  FossenEnv._get_TS fuel e g = Some (Ok (TS, g')) ->
  FossenEnv.TSs e <> [] ->
  Forall (separated (FossenEnv.cfg e) TS) (FossenEnv.TSs e).
Proof.
  unfold FossenEnv._get_TS.
  destruct (assert _ _); [apply get_TS_loop_separated | discriminate].
Qed.

(** The fleet placed by [reset]: every target ship is separated from each
    one placed before it. *)
Lemma spawn_TSs_separated (fuel n : nat) (e e' : FossenEnv.t) (g g' : rng) :
  ForallOrdPairs (fun a b => separated (FossenEnv.cfg e) b a) (FossenEnv.TSs e) ->
  FossenEnv.spawn_TSs fuel n e g = Some (Ok (e', g')) ->
  FossenEnv.cfg e' = FossenEnv.cfg e
  /\ ForallOrdPairs (fun a b => separated (FossenEnv.cfg e) b a) (FossenEnv.TSs e').
Proof.
  revert e g. induction n as [|n IH]; intros e g Hord; cbn [FossenEnv.spawn_TSs].
  - intros H; injection H as <- <-. split; [reflexivity | exact Hord].
  - destruct (FossenEnv._get_TS fuel e g) as [[[TS g1]|ex]|] eqn:Hg; try discriminate.
    intros H. apply IH in H.
    + exact H.
    + cbn [FossenEnv.set_TSs FossenEnv.TSs FossenEnv.cfg].
      assert (Hsep : Forall (separated (FossenEnv.cfg e) TS) (FossenEnv.TSs e)).
      { destruct (FossenEnv.TSs e) as [|T l] eqn:HT; [constructor|].
        rewrite <- HT. apply (get_TS_separated _ _ _ _ _ Hg). rewrite HT. discriminate. }
      clear Hg H IH. induction Hord as [|a l Ha Hl IHl]; cbn [app].
      * constructor; constructor.
      * inversion Hsep as [|? ? Hsa Hsl]; subst.
        constructor; [|now apply IHl].
        apply Forall_app. split; [exact Ha | constructor; [exact Hsa | constructor]].
Qed.

End Spawning.

(** Whenever [_get_TS] returns a vessel while target ships are in the list,
    the Euclidean distance between the returned vessel's position and every
    listed target ship is at least [min_dist_spawn_TS]; and in the fleet
    placed by [reset] every target ship is that far from each one placed
    before it. *)
Lemma get_TS_spawn_separation :
  (forall (CS : CyberShipII.methods) (fuel : nat) (e : FossenEnv.t) (g g' : rng)
          (TS : CyberShipII.t),
      FossenEnv._get_TS fuel e g = Some (Ok (TS, g')) ->
      FossenEnv.TSs e <> [] ->
      Forall (fun TS_there =>
                FossenEnv.min_dist_spawn_TS (FossenEnv.cfg e) <= spawn_distance TS TS_there)
             (FossenEnv.TSs e))
  /\ (forall (CS : CyberShipII.methods) (fuel n : nat) (e e' : FossenEnv.t) (g g' : rng),
      FossenEnv.TSs e = [] ->
      FossenEnv.spawn_TSs fuel n e g = Some (Ok (e', g')) ->
      ForallOrdPairs (fun earlier later =>
                        FossenEnv.min_dist_spawn_TS (FossenEnv.cfg e') <= spawn_distance later earlier)
                     (FossenEnv.TSs e')).
Proof.
  split.
  - intros CS fuel e g g' TS H Hne. exact (get_TS_separated fuel e g g' TS H Hne).
  - intros CS fuel n e e' g g' He H.
    destruct (spawn_TSs_separated fuel n e e' g g') as [Hc Hord]; [rewrite He; constructor | exact H |].
    rewrite Hc. exact Hord.
Qed.

Lemma project_vector_at_rest (chi VB b : R) :
  FossenFnc.project_vector (sqrt (0 ^ 2 + 0 ^ 2)) chi VB b = (0, 0).
Proof.
  unfold FossenFnc.project_vector, FossenFnc.xy_from_polar.
  replace (0 ^ 2 + 0 ^ 2) with 0 by ring. rewrite sqrt_0. f_equal; ring.
Qed.

(** Evaluation of one call of [_get_TS] on an episode built with
    [fossen_episode] from vessels of [sample_methods], once the episode, the
    random source and the vessels have been unfolded. *)
Ltac run_get_TS_pass :=
  unfold FossenEnv._get_TS;
  replace (assert _ _) with (Ok tt) by reflexivity;
  unfold FossenEnv._get_TS_loop, FossenEnv._get_TS_pass;
  unfold fossen_episode, fossen_config, sample_methods;
  cbv [FossenEnv.cfg FossenEnv.cnt_approach String.eqb Ascii.eqb Bool.eqb bind
       np_random_uniform random_choice np_raw np_pos py_raw py_pos
       FossenEnv.N_max FossenEnv.E_max FossenEnv.delta_t FossenEnv.TCPA_crit FossenEnv.OS
       FossenEnv.goal FossenEnv.TSs FossenEnv.min_dist_spawn_TS FossenEnv.set_TSs
       CyberShipII.__init__ CyberShipII._u_from_tau_u CyberShipII._get_course CyberShipII._get_V
       CyberShipII._tau_u_from_u CyberShipII._set_tau
       CyberShipII.set_nu0 CyberShipII.set_nu CyberShipII.set_eta CyberShipII.nu CyberShipII.eta
       CyberShipII.tau_u CyberShipII.f23_sum CyberShipII.nu_dot CyberShipII.eta_dot CyberShipII.tau
       CyberShipII.f2 CyberShipII.f3 CyberShipII.tau_cnt_r CyberShipII.tau_cnt_r_max
       CyberShipII.length CyberShipII.width CyberShipII.N_max CyberShipII.E_max
       fst snd heading List.length Nat.modulo Nat.divmod nth Z.eqb Pos.eqb existsb
       Nat.eqb map hd fold_right Nat.sub orb app].

(** With every raw output zero the first candidate is a head-on target at
    rest on the own ship's position, 30 m from the target ship in place. *)
Lemma episode_spawn_run :
  exists TS g',
    FossenEnv._get_TS (CS := sample_methods) 1 episode_spawn rng_zero = Some (Ok (TS, g')).
Proof.
  unfold episode_spawn, rng_zero, vessel_at.
  run_get_TS_pass. rewrite project_vector_at_rest. cbv beta iota.
  match goal with
  | |- context [FossenFnc.ED ?a ?b 30 0 true] =>
      replace a with 0 by ring; replace b with 0 by ring
  end.
  assert (Hd : FossenFnc.ED 0 0 30 0 true = 30).
  { unfold FossenFnc.ED. replace ((0 - 30) ^ 2 + (0 - 0) ^ 2) with (30 ^ 2) by ring.
    apply sqrt_sq_nonneg. lra. }
  rewrite Hd.
  assert (Hc : (20 <=? Rmin 30 30) = true).
  { apply Rleb_true. unfold Rmin. destruct (Rle_dec 30 30); lra. }
  rewrite Hc. do 2 eexists. reflexivity.
Qed.

Lemma empty_fleet_run :
  exists e' g',
    FossenEnv.spawn_TSs (CS := sample_methods) 1 1
      episode_no_TS rng_zero
    = Some (Ok (e', g')).
Proof.
  unfold FossenEnv.spawn_TSs, episode_no_TS, rng_zero, vessel_at.
  run_get_TS_pass. rewrite project_vector_at_rest. cbv beta iota.
  do 2 eexists. reflexivity.
Qed.

(** The separation at concrete episodes: a target ship spawned next to one
    in place, and a fleet of one placed by [reset]. *)
Lemma get_TS_spawn_separation_example :
  (exists TS g',
      FossenEnv._get_TS (CS := sample_methods) 1 episode_spawn rng_zero = Some (Ok (TS, g'))
      /\ FossenEnv.TSs episode_spawn <> []
      /\ Forall (fun TS_there => 20 <= spawn_distance TS TS_there) (FossenEnv.TSs episode_spawn))
  /\ (exists e' g',
      FossenEnv.spawn_TSs (CS := sample_methods) 1 1 episode_no_TS rng_zero
      = Some (Ok (e', g'))
      /\ ForallOrdPairs (fun earlier later =>
                           FossenEnv.min_dist_spawn_TS (FossenEnv.cfg e') <= spawn_distance later earlier)
                        (FossenEnv.TSs e')).
Proof.
  destruct get_TS_spawn_separation as [H1 H2]. split.
  - destruct episode_spawn_run as (TS & g' & Hrun).
    exists TS, g'. split; [exact Hrun|].
    assert (Hne : FossenEnv.TSs episode_spawn <> []) by discriminate.
    split; [exact Hne|].
    exact (H1 sample_methods 1%nat episode_spawn rng_zero g' TS Hrun Hne).
  - destruct empty_fleet_run as (e' & g' & Hrun).
    exists e', g'. split; [exact Hrun|].
    apply (H2 sample_methods 1%nat 1%nat episode_no_TS e' rng_zero g');
      [reflexivity | exact Hrun].
Qed.

Section Respawn.
Context {CS : CyberShipII.methods}.

Lemma handle_respawn_rejects_flags (fuel : nat) (e : FossenEnv.t) (g : rng) (TS : CyberShipII.t)
    (respawn mirrow clip : bool) :
  ~ at_most_one respawn mirrow clip ->
  FossenEnv._handle_respawn fuel e g TS respawn mirrow clip
    = Some (Raise (AssertionError
                     "Can choose either 'respawn', 'mirrow', or 'clip', not a combination.")).
Proof.
  unfold at_most_one, FossenEnv._handle_respawn.
  destruct respawn, mirrow, clip; cbn; intros H; try reflexivity; exfalso; apply H; lia.
Qed.

Lemma handle_respawn_near_goal (fuel : nat) (e : FossenEnv.t) (g : rng) (TS : CyberShipII.t)
    (respawn mirrow clip : bool) :
  goal_distance e <= FossenEnv.stop_spawn_dist (FossenEnv.cfg e) ->
  at_most_one respawn mirrow clip ->
  FossenEnv._handle_respawn fuel e g TS respawn mirrow clip = Some (Ok (TS, false, g)).
Proof.
  unfold goal_distance, at_most_one, FossenEnv._handle_respawn, north, east.
  intros Hd Hf.
  assert (Ha : Nat.leb (Nat.b2n respawn + Nat.b2n mirrow + Nat.b2n clip) 1 = true)
    by (apply Nat.leb_le; exact Hf).
  rewrite Ha. cbn [assert].
  destruct (CyberShipII.eta (FossenEnv.OS e)) as [[N_OS E_OS] p]. cbn [fst snd] in Hd.
  apply Rltb_false in Hd. now rewrite Hd.
Qed.

End Respawn.

(** C10: whenever the own ship is at most [stop_spawn_dist] from the goal,
    [_handle_respawn] (called with at most one policy flag) returns the
    given vessel unchanged with the flag False and draws no random number,
    even if the vessel is off the map or its TCPA is outside the window;
    and a call that returns the flag True was made farther than
    [stop_spawn_dist] from the goal. *)
Theorem C10_no_respawn_near_goal :
  (forall (CS : CyberShipII.methods) (fuel : nat) (e : FossenEnv.t) (g : rng)
          (TS : CyberShipII.t) (respawn mirrow clip : bool),
      goal_distance e <= FossenEnv.stop_spawn_dist (FossenEnv.cfg e) ->
      at_most_one respawn mirrow clip ->
      FossenEnv._handle_respawn fuel e g TS respawn mirrow clip = Some (Ok (TS, false, g)))
  /\ (forall (CS : CyberShipII.methods) (fuel : nat) (e : FossenEnv.t) (g g' : rng)
             (TS TS' : CyberShipII.t) (respawn mirrow clip : bool),
      FossenEnv._handle_respawn fuel e g TS respawn mirrow clip = Some (Ok (TS', true, g')) ->
      FossenEnv.stop_spawn_dist (FossenEnv.cfg e) < goal_distance e).
Proof.
  split.
  - intros CS fuel e g TS respawn mirrow clip. apply handle_respawn_near_goal.
  - intros CS fuel e g g' TS TS' respawn mirrow clip H.
    apply Rnot_le_lt. intros Hd.
    destruct (le_dec (Nat.b2n respawn + Nat.b2n mirrow + Nat.b2n clip) 1) as [Hf|Hf].
    + rewrite (handle_respawn_near_goal fuel e g TS respawn mirrow clip Hd Hf) in H.
      discriminate.
    + rewrite (handle_respawn_rejects_flags fuel e g TS respawn mirrow clip Hf) in H.
      discriminate.
Qed.

Lemma episode_at_goal_distance : goal_distance episode_at_goal = 0.
Proof.
  unfold goal_distance, episode_at_goal, fossen_episode. cbn [FossenEnv.OS FossenEnv.goal].
  rewrite eta_vessel_at. unfold north, east, FossenFnc.ED. cbn [fst snd].
  replace ((180 - 180) ^ 2 + (100 - 100) ^ 2) with 0 by ring. apply sqrt_0.
Qed.

(** C10 at a concrete episode: the own ship on the goal, a target ship 10 m
    beyond the southern border of the map, respawning requested and no
    pass of the generator allowed. *)
Lemma C10_no_respawn_near_goal_witness :
  goal_distance episode_at_goal <= FossenEnv.stop_spawn_dist (FossenEnv.cfg episode_at_goal)
  /\ at_most_one true false false
  /\ CyberShipII._is_off_map (methods := sample_methods) (vessel_at (-10) 100 0) = true
  /\ FossenEnv._handle_respawn (CS := sample_methods) 0 episode_at_goal rng_zero
       (vessel_at (-10) 100 0) true false false
     = Some (Ok (vessel_at (-10) 100 0, false, rng_zero)).
Proof.
  assert (Hd : goal_distance episode_at_goal <= FossenEnv.stop_spawn_dist (FossenEnv.cfg episode_at_goal)).
  { rewrite episode_at_goal_distance. cbn. lra. }
  assert (Hf : at_most_one true false false) by (unfold at_most_one; cbn; lia).
  split; [exact Hd|]. split; [exact Hf|]. split.
  - cbn [CyberShipII._is_off_map sample_methods]. rewrite eta_vessel_at.
    assert (H : (-10 <=? 0) = true) by (apply Rleb_true; lra).
    now rewrite H.
  - destruct C10_no_respawn_near_goal as [H _].
    exact (H sample_methods 0%nat episode_at_goal rng_zero (vessel_at (-10) 100 0)
             true false false Hd Hf).
Defined.

(* ================================================================== *)
(** * Rejection of configuration errors                                *)
(* ================================================================== *)

Lemma dqn_rejects_unknown_mode (mode : string) (num_actions : Z) (state_shape : pyseq)
    (dqn_weights : option string) (input_norm : bool) (input_norm_prior : option string)
    (n_steps : Z) (device : string) :
  FossenEnv.string_in mode ["train"; "test"]%string = false ->
  CNN_DQN_Agent.__init__ mode num_actions state_shape dqn_weights input_norm input_norm_prior
                         n_steps device
    = Raise (AssertionError "Unknown mode. Should be 'train' or 'test'.").
Proof. intros H. unfold CNN_DQN_Agent.__init__. now rewrite H. Qed.

Lemma dqn_rejects_test_without_weights (num_actions : Z) (state_shape : pyseq)
    (input_norm : bool) (input_norm_prior : option string) (n_steps : Z) (device : string) :
  CNN_DQN_Agent.__init__ "test" num_actions state_shape None input_norm input_norm_prior
                         n_steps device
    = Raise (AssertionError "Need prior weights in test mode.").
Proof. reflexivity. Qed.

Lemma tqc_rejects_unknown_mode (mode : string) (action_dim state_dim : Z)
    (actor_weights critic_weights : option string) (device : string) :
  FossenEnv.string_in mode ["train"; "test"]%string = false ->
  TQC_Agent.__init__ mode action_dim state_dim actor_weights critic_weights device
    = Raise (AssertionError "Unknown mode. Should be 'train' or 'test'.").
Proof. intros H. unfold TQC_Agent.__init__. now rewrite H. Qed.

Lemma tqc_rejects_test_without_weights (action_dim state_dim : Z)
    (actor_weights critic_weights : option string) (device : string) :
  actor_weights = None \/ critic_weights = None ->
  TQC_Agent.__init__ "test" action_dim state_dim actor_weights critic_weights device
    = Raise (AssertionError "Need prior weights in test mode.").
Proof.
  intros [-> | ->]; [reflexivity|]. destruct actor_weights; reflexivity.
Qed.

Lemma fossen_rejects_unknown_state_design (N_TSs_max : nat) (N_TSs_random N_TSs_increasing : bool)
    (cnt_approach state_design : string) (plot_traj : bool) :
  N_TSs_random && N_TSs_increasing = false ->
  FossenEnv.string_in state_design ["maxRisk"; "RecDQN"]%string = false ->
  FossenEnv.__init__ N_TSs_max N_TSs_random N_TSs_increasing cnt_approach state_design plot_traj
    = Raise (AssertionError
               "Unknown state design for FossenEnv. Should be 'maxRisk' or 'RecDQN'.").
Proof.
  intros Hb Hs. unfold FossenEnv.__init__. rewrite Hs.
  destruct N_TSs_random, N_TSs_increasing; try discriminate; reflexivity.
Qed.

Lemma hhos_rejects_unknown_state_design {P : HHOS_PathPlanning_Env.HHOS_Env}
    (state_design : string) (thrust : bool) (data : string) (scenario_based : bool)
    (N_TSs_max : nat) (N_TSs_random : bool) (w_ye w_ce w_coll w_comf w_speed : R)
    (b : HHOS_PathPlanning_Env.base) :
  HHOS_PathPlanning_Env.super_init thrust data scenario_based w_ye w_ce w_coll w_comf w_speed
                                   N_TSs_max N_TSs_random = Ok b ->
  FossenEnv.string_in state_design ["recursive"; "conventional"]%string = false ->
  HHOS_PathPlanning_Env.__init__ state_design thrust data scenario_based N_TSs_max N_TSs_random
                                 w_ye w_ce w_coll w_comf w_speed
    = Raise (AssertionError
               "Unknown state design for the HHOS-planner. Should be 'recursive' or 'conventional'.").
Proof.
  intros Hb Hs. unfold HHOS_PathPlanning_Env.__init__. rewrite Hb. cbn [bind]. now rewrite Hs.
Qed.

Lemma control_rejects_unknown_action (s : KVLCC2.t) (a : Z) :
  (a < 0 \/ 3 <= a)%Z ->
  KVLCC2._control s a = Raise (AssertionError "Unknown action.").
Proof.
  intros Ha. unfold KVLCC2._control.
  assert (H : (0 <=? a)%Z && (a <? 3)%Z = false).
  { apply andb_false_iff. destruct Ha; [left; lia | right; lia]. }
  now rewrite H.
Qed.

(** C9 (code): [FossenEnv(cnt_approach="foo")] is constructed without any
    error, with no action space assigned; the unsupported control approach
    only surfaces in [reset] as UnboundLocalError for [tau_u]. *)
Theorem C9_unknown_control_approach_accepted :
  exists c,
    FossenEnv.__init__ 3 false false "foo" "RecDQN" false = Ok c
    /\ FossenEnv.cnt_approach c = "foo"%string
    /\ FossenEnv.action_space c = None
    /\ forall (CS : CyberShipII.methods) (N_init E_init head : R),
         FossenEnv.reset_OS c N_init E_init head = Raise (UnboundLocalError "tau_u").
Proof.
  eexists. split; [reflexivity|]. repeat split.
Qed.

(** ** Two target ships respawned in the same tick *)

Lemma ED_lower_bound (N0 E0 N1 E1 a : R) :
  0 <= a -> a ^ 2 <= (N0 - N1) ^ 2 + (E0 - E1) ^ 2 -> a <= FossenFnc.ED N0 E0 N1 E1 true.
Proof.
  intros Ha H. unfold FossenFnc.ED.
  apply Rle_trans with (sqrt (a ^ 2)).
  - rewrite sqrt_sq_nonneg; lra.
  - now apply sqrt_le_1_alt.
Qed.

Lemma ED_upper_bound (N0 E0 N1 E1 a : R) :
  0 < a -> (N0 - N1) ^ 2 + (E0 - E1) ^ 2 < a ^ 2 -> FossenFnc.ED N0 E0 N1 E1 true < a.
Proof.
  intros Ha H. unfold FossenFnc.ED.
  apply Rlt_le_trans with (sqrt (a ^ 2)).
  - apply sqrt_lt_1_alt. split; [apply sum_sq_nonneg | exact H].
  - rewrite sqrt_sq_nonneg; lra.
Qed.

(** The own ship of [episode_two_leaving] closes on the goal at 0.5 m/s due
    north. *)
Lemma project_vector_northbound :
  FossenFnc.project_vector (sqrt (0.5 ^ 2 + 0 ^ 2))
    (FossenFnc.angle_to_2pi (0 + FossenFnc.polar_from_xy_angle 0 0.5)) 1
    (FossenFnc.bng_abs 20 100 180 100) = (0, 0.5).
Proof.
  pose proof PI_gt_3 as HPI.
  replace (0.5 ^ 2 + 0 ^ 2) with (0.5 ^ 2) by ring.
  rewrite sqrt_sq_nonneg by lra.
  unfold FossenFnc.polar_from_xy_angle, FossenFnc.bng_abs.
  replace (100 - 100) with 0 by ring.
  rewrite !atan2_north by lra.
  rewrite (angle_to_2pi_id 0) by lra.
  replace (0 + 0) with 0 by ring.
  rewrite (angle_to_2pi_id 0) by lra.
  unfold FossenFnc.project_vector, FossenFnc.xy_from_polar.
  rewrite sin_0, cos_0. f_equal; lra.
Qed.

(** The first replacement: thrust 0, hence at rest on the hit point
    (50, 100). *)
Lemma two_leaving_first :
  exists TS,
    FossenEnv._get_TS (CS := sample_methods) 1 episode_two_leaving rng_two_respawns
    = Some (Ok (TS, mk_rng (fun i => if Nat.eqb i 6 then 0.01 else 0) 6 (fun _ => 0%nat) 1))
    /\ north (CyberShipII.eta TS) = 50 /\ east (CyberShipII.eta TS) = 100.
Proof.
  unfold episode_two_leaving, vessel_northbound, vessel_at; try unfold rng_two_respawns.
  run_get_TS_pass. rewrite project_vector_northbound. cbv beta iota.
  match goal with
  | |- context [FossenFnc.ED ?a ?b (-5) 100 true] => set (Nx := a); set (Ex := b)
  end.
  assert (HN : Nx = 50) by (subst Nx; lra).
  assert (HE : Ex = 100) by (subst Ex; lra).
  match goal with
  | |- context [if 20 <=? ?m then _ else _] =>
      assert (Hc : (20 <=? m) = true)
        by (apply Rleb_true; repeat apply Rmin_glb; apply ED_lower_bound; nra);
      rewrite Hc
  end.
  eexists. split; [reflexivity|]. split; assumption.
Qed.

(** The second replacement: thrust 0.05, hence within 3 m of the hit point. *)
Lemma two_leaving_second :
  exists TS,
    FossenEnv._get_TS (CS := sample_methods) 1 episode_two_leaving
      (mk_rng (fun i => if Nat.eqb i 6 then 0.01 else 0) 6 (fun _ => 0%nat) 1)
    = Some (Ok (TS, mk_rng (fun i => if Nat.eqb i 6 then 0.01 else 0) 12 (fun _ => 0%nat) 2))
    /\ (north (CyberShipII.eta TS) - 50) ^ 2 + (east (CyberShipII.eta TS) - 100) ^ 2 <= 18.
Proof.
  unfold episode_two_leaving, vessel_northbound, vessel_at; try unfold rng_two_respawns.
  run_get_TS_pass. rewrite project_vector_northbound. cbv beta iota.
  match goal with
  | |- context [FossenFnc.ED ?a ?b (-5) 100 true] => set (Nx := a); set (Ex := b)
  end.
  match goal with
  | Nx := context [cos ?h] |- _ => pose proof (COS_bound h) as [Hcos1 Hcos2];
                                   pose proof (SIN_bound h) as [Hs1 Hs2]
  end.
  assert (HN : 47 <= Nx <= 53) by (subst Nx; lra).
  assert (HE : 97 <= Ex <= 103) by (subst Ex; lra).
  match goal with
  | |- context [if 20 <=? ?m then _ else _] =>
      assert (Hc : (20 <=? m) = true)
        by (apply Rleb_true; repeat apply Rmin_glb; apply ED_lower_bound; nra);
      rewrite Hc
  end.
  eexists. split; [reflexivity|].
  cbn [CyberShipII.eta north east fst snd]. fold Nx Ex. nra.
Qed.

Lemma two_leaving_goal_distance :
  (FossenEnv.stop_spawn_dist (FossenEnv.cfg episode_two_leaving)
   <? FossenFnc.ED 20 100 180 100 true) = true.
Proof.
  apply Rltb_true.
  apply Rlt_le_trans with 160; [cbn; lra|].
  apply ED_lower_bound; lra.
Qed.

Lemma two_leaving_handle_respawn (TS TS' : CyberShipII.t) (g g' : rng) :
  CyberShipII._is_off_map (methods := sample_methods) TS = true ->
  FossenEnv._get_TS (CS := sample_methods) 1 episode_two_leaving g = Some (Ok (TS', g')) ->
  FossenEnv._handle_respawn (CS := sample_methods) 1 episode_two_leaving g TS true false false
    = Some (Ok (TS', true, g')).
Proof.
  intros Hoff Hg.
  unfold FossenEnv._handle_respawn. cbn [Nat.b2n Nat.add Nat.leb assert].
  rewrite Hg, Hoff.
  change (CyberShipII.eta (FossenEnv.OS episode_two_leaving)) with (20, 100, 0).
  change (FossenEnv.goal episode_two_leaving) with (180, 100). cbn [fst snd].
  now rewrite two_leaving_goal_distance.
Qed.

Lemma off_map_south : CyberShipII._is_off_map (methods := sample_methods) (vessel_at (-5) 100 0) = true.
Proof.
  cbn [CyberShipII._is_off_map sample_methods]. rewrite eta_vessel_at.
  assert (H : (-5 <=? 0) = true) by (apply Rleb_true; lra). now rewrite H.
Qed.

Lemma off_map_east : CyberShipII._is_off_map (methods := sample_methods) (vessel_at 100 205 0) = true.
Proof.
  cbn [CyberShipII._is_off_map sample_methods]. rewrite eta_vessel_at.
  change (CyberShipII.N_max (vessel_at 100 205 0)) with 200.
  change (CyberShipII.E_max (vessel_at 100 205 0)) with 200.
  assert (H : (200 <=? 205) = true) by (apply Rleb_true; lra).
  rewrite H. now rewrite !orb_true_r.
Qed.

(** C7 (code): in a step in which two target ships have left the map, both
    are replaced in the same list comprehension; each replacement is
    checked against the list as it was before the step and not against the
    other replacement. With thrusts 0 and 0.05 drawn for them, both
    replacements are placed within 3 m of the hit point (50, 100), closer to
    each other than [min_dist_spawn_TS], and both are flagged as respawned. *)
Theorem C7_same_tick_respawns_not_separated :
  exists e' g' A B,
    FossenEnv.step_respawn (CS := sample_methods) 1 episode_two_leaving rng_two_respawns
      = Some (Ok (e', g'))
    /\ FossenEnv.TSs e' = [A; B]
    /\ FossenEnv.respawn_flags e' = [true; true]
    /\ spawn_distance A B < FossenEnv.min_dist_spawn_TS (FossenEnv.cfg e').
Proof.
  destruct two_leaving_first as (A & HA & HAN & HAE).
  destruct two_leaving_second as (B & HB & HBd).
  apply (two_leaving_handle_respawn (vessel_at (-5) 100 0) _ _ _ off_map_south) in HA.
  apply (two_leaving_handle_respawn (vessel_at 100 205 0) _ _ _ off_map_east) in HB.
  eexists. eexists. exists A, B. split.
  - unfold FossenEnv.step_respawn.
    change (FossenEnv.N_TSs episode_two_leaving) with 2%nat.
    change (FossenEnv.TSs episode_two_leaving) with [vessel_at (-5) 100 0; vessel_at 100 205 0].
    cbn [Nat.ltb Nat.leb FossenEnv.respawn_each].
    rewrite HA, HB. reflexivity.
  - cbn [FossenEnv.set_respawned FossenEnv.TSs FossenEnv.respawn_flags FossenEnv.cfg map fst snd].
    split; [reflexivity|]. split; [reflexivity|].
    unfold spawn_distance, encounter_ED. rewrite HAN, HAE.
    apply ED_upper_bound; [cbn; lra|]. cbn. nra.
Qed.

(* ================================================================== *)
(** * KVLCC2: the rudder                                               *)
(* ================================================================== *)

Lemma np_clip_bounds (x lo hi : R) : lo <= hi -> lo <= np_clip x lo hi <= hi.
Proof.
  intros H. unfold np_clip, Rmin, Rmax.
  destruct (Rle_dec x lo); destruct (Rle_dec _ hi); lra.
Qed.

Lemma np_clip_id (x lo hi : R) : lo <= x <= hi -> np_clip x lo hi = x.
Proof.
  intros H. unfold np_clip, Rmin, Rmax.
  destruct (Rle_dec x lo); destruct (Rle_dec _ hi); lra.
Qed.

Lemma dtr_pos (x : R) : 0 < x -> 0 < FossenFnc.dtr x.
Proof. intros H. unfold FossenFnc.dtr. pose proof PI_gt_3. nra. Qed.

(** One valid action: the call returns, the limits are kept as they were
    and the new rudder angle lies within them. *)
Lemma control_step (s : KVLCC2.t) (a : Z) :
  (0 <= a < 3)%Z -> 0 <= KVLCC2.rud_angle_max s ->
  exists s', KVLCC2._control s a = Ok s'
    /\ KVLCC2.rud_angle_max s' = KVLCC2.rud_angle_max s
    /\ KVLCC2.rud_angle_inc s' = KVLCC2.rud_angle_inc s
    /\ - KVLCC2.rud_angle_max s <= KVLCC2.rud_angle s' <= KVLCC2.rud_angle_max s.
Proof.
  intros Ha Hm. unfold KVLCC2._control.
  assert (E : ((0 <=? a)%Z && (a <? 3)%Z) = true).
  { apply andb_true_intro. split; [apply Z.leb_le | apply Z.ltb_lt]; lia. }
  rewrite E. cbn [assert bind].
  eexists. split; [reflexivity|]. cbn.
  repeat split; try apply np_clip_bounds; lra.
Qed.

(** X1: on a vessel as its constructor leaves it, any sequence of the three
    rudder actions is accepted, and after it the rudder angle lies within
    10 degrees to either side. *)
Theorem X1_rudder_angle_within_limits
    (N_init E_init psi_init u_init v_init r_init nps delta_t N_max E_max : R) (acts : list Z) :
  Forall (fun a => (0 <= a < 3)%Z) acts ->
  exists s',
    run_controls (KVLCC2.__init__ N_init E_init psi_init u_init v_init r_init nps
                                  delta_t N_max E_max) acts = Ok s'
    /\ - FossenFnc.dtr 10 <= KVLCC2.rud_angle s' <= FossenFnc.dtr 10.
Proof.
  intros Hacts.
  set (s0 := KVLCC2.__init__ _ _ _ _ _ _ _ _ _ _).
  assert (Hgen : forall s, KVLCC2.rud_angle_max s = FossenFnc.dtr 10 ->
                   - FossenFnc.dtr 10 <= KVLCC2.rud_angle s <= FossenFnc.dtr 10 ->
                   exists s', run_controls s acts = Ok s'
                     /\ - FossenFnc.dtr 10 <= KVLCC2.rud_angle s' <= FossenFnc.dtr 10).
  { induction Hacts as [|a acts Ha _ IH]; intros s Hmax Hr.
    - exists s. split; [reflexivity | exact Hr].
    - pose proof (dtr_pos 10 ltac:(lra)) as Hp.
      destruct (control_step s a Ha ltac:(lra)) as (s1 & E1 & Hm1 & _ & Hb1).
      cbn [run_controls]. rewrite E1. cbn [bind].
      apply IH; [congruence | rewrite <- Hmax; exact Hb1]. }
  apply Hgen; [reflexivity|].
  pose proof (dtr_pos 10 ltac:(lra)). subst s0. cbn. lra.
Qed.

Lemma X1_rudder_angle_within_limits_witness :
  exists s',
    run_controls (KVLCC2.__init__ 0 0 0 3 0 0 1.8 5.0 0 0) [1; 1; 1; 1; 1; 2; 0]%Z = Ok s'
    /\ - FossenFnc.dtr 10 <= KVLCC2.rud_angle s' <= FossenFnc.dtr 10.
Proof.
  apply X1_rudder_angle_within_limits.
  repeat constructor; lia.
Defined.

(** X2: when neither the rudder angle nor the angle one increment above it
    is beyond the limits, "increase" followed by "decrease" gives the rudder
    angle back; the vessel differs from the one before only in the action
    stored for rendering. *)
Theorem X2_rudder_increase_then_decrease (s : KVLCC2.t) :
  - KVLCC2.rud_angle_max s <= KVLCC2.rud_angle s <= KVLCC2.rud_angle_max s ->
  - KVLCC2.rud_angle_max s <= KVLCC2.rud_angle s + KVLCC2.rud_angle_inc s
     <= KVLCC2.rud_angle_max s ->
  (s1 <- KVLCC2._control s 1 ;; KVLCC2._control s1 2)
  = Ok (KVLCC2.set_action_rud s 2 (KVLCC2.rud_angle s)).
Proof.
  intros H0 H1. unfold KVLCC2._control. cbn [Z.leb Z.ltb Z.eqb Z.compare Pos.compare
    Pos.compare_cont andb assert bind].
  cbn. unfold KVLCC2.set_action_rud. cbn.
  rewrite (np_clip_id _ _ _ H1).
  replace (KVLCC2.rud_angle s + KVLCC2.rud_angle_inc s - KVLCC2.rud_angle_inc s)
    with (KVLCC2.rud_angle s) by lra.
  rewrite (np_clip_id _ _ _ H0). reflexivity.
Qed.

Lemma X2_rudder_increase_then_decrease_witness :
  (s1 <- KVLCC2._control (KVLCC2.__init__ 0 0 0 3 0 0 1.8 5.0 0 0) 1 ;; KVLCC2._control s1 2)
  = Ok (KVLCC2.set_action_rud (KVLCC2.__init__ 0 0 0 3 0 0 1.8 5.0 0 0) 2
          (KVLCC2.rud_angle (KVLCC2.__init__ 0 0 0 3 0 0 1.8 5.0 0 0))).
Proof.
  apply X2_rudder_increase_then_decrease; cbn; unfold FossenFnc.dtr; pose proof PI_gt_3; lra.
Defined.

(* ================================================================== *)
(** * KVLCC2: the dynamics at rest and on a straight course            *)
(* ================================================================== *)

Section Straight.
Import KVLCC2.

Lemma mmg_preparation_rest : mmg_preparation (0, 0, 0) = Ok (0, 0, 0, 0, 0).
Proof.
  unfold mmg_preparation, _vm_from_v_r.
  replace (0 ^ 2 + (0 - x_G * 0) ^ 2) with 0 by lra.
  rewrite math_sqrt_ok by lra. rewrite sqrt_0. cbn [bind].
  replace 0.0 with 0 by lra. rewrite Reqb_refl.
  repeat f_equal; lra.
Qed.

Lemma mmg_preparation_ahead (u : R) :
  0 < u -> mmg_preparation (u, 0, 0) = Ok (0, u, 0, 0, 0).
Proof.
  intros Hu. unfold mmg_preparation, _vm_from_v_r.
  replace (0 - x_G * 0) with 0 by lra.
  replace (u ^ 2 + 0 ^ 2) with (u ^ 2) by lra.
  rewrite math_sqrt_ok by (apply pow2_ge_0).
  rewrite sqrt_sq_nonneg by lra. cbn [bind].
  assert (E : (u =? 0.0) = false) by (apply Reqb_false; lra).
  rewrite E. rewrite !fdiv_ok by lra. cbn [bind].
  assert (Ha : math_atan2 (- 0) u = 0).
  { replace (- 0) with 0 by lra. apply atan2_north. exact Hu. }
  rewrite Ha. repeat f_equal; unfold Rdiv; lra.
Qed.

Lemma mmg_hull_ahead (U : R) :
  mmg_hull U 0 0 = (- (0.5 * rho * Lpp * d * R_0_dash) * U ^ 2, 0, 0).
Proof. unfold mmg_hull. f_equal; [f_equal|]; nra. Qed.

(** The wake fraction without drift and yaw. *)
Lemma wake_fraction_ahead :
  1 - (1 - w_P0) * (1 + (1 - exp (- C_1 * Rabs 0) * (C_2_plus - 1))) = 0.09.
Proof.
  rewrite Rabs_R0. replace (- C_1 * 0) with 0 by lra. rewrite exp_0.
  unfold w_P0, C_2_plus. lra.
Qed.

Lemma mmg_propeller_ahead (u nps : R) :
  exists J,
    mmg_propeller u 0 0 nps
    = Ok (0.09, J, k_0 + k_1 * J + k_2 * J ^ 2,
          (1 - t_P) * rho * (k_0 + k_1 * J + k_2 * J ^ 2) * nps ^ 2 * D_p ^ 4)
    /\ (nps = 0 -> J = 0)
    /\ (nps <> 0 -> J = 0.91 * u / (nps * D_p)).
Proof.
  unfold mmg_propeller.
  rewrite fdiv_ok by (unfold Lpp; lra). cbn [bind].
  rewrite all_keys_C, all_keys_k.
  replace (0 - x_P / Lpp * 0) with 0 by lra.
  assert (E0 : (0 <=? 0) = true) by (apply Rleb_true; lra).
  rewrite E0, wake_fraction_ahead.
  destruct (nps =? 0.0) eqn:Hn.
  - apply Reqb_true in Hn. cbn [bind].
    exists 0.0. split; [reflexivity|]. split; [intros; lra | intros; lra].
  - apply Reqb_false in Hn.
    rewrite fdiv_ok by (unfold D_p; nra). cbn [bind].
    eexists. split; [reflexivity|]. split; [intros; lra|].
    intros _. unfold Rdiv. lra.
Qed.

(** Without drift and yaw the inflow to the rudder has no lateral
    component; with the rudder amidships, or without a slipstream, the
    rudder force vanishes. *)
Lemma mmg_steering_ahead (u U rud_angle w_P J K_T : R) :
  K_T = k_0 + k_1 * J + k_2 * J ^ 2 ->
  J = 0 \/ rud_angle = 0 ->
  mmg_steering u U 0 0 rud_angle w_P J K_T = Ok (0, 0, 0).
Proof.
  intros HK Hcase.
  destruct (mmg_steering_total u U 0 0 rud_angle w_P J K_T HK) as (R_ & HR).
  revert HR. unfold mmg_steering.
  replace (0 - l_R * 0) with 0 by lra.
  assert (E0 : (0 <? 0.0) = false) by (apply Rltb_false; lra).
  rewrite E0. cbn [gamma_R].
  replace (U * gamma_R_plus * 0) with 0 by lra.
  destruct (J =? 0.0) eqn:HJ.
  - cbn [bind]. intros _.
    replace (0.0 ^ 2 + 0 ^ 2) with 0 by lra.
    rewrite math_sqrt_ok by lra. rewrite sqrt_0. cbn [bind].
    repeat f_equal; lra.
  - apply Reqb_false in HJ.
    destruct Hcase as [HJ0 | Hrud]; [lra|]. subst rud_angle.
    destruct (fdiv (8.0 * K_T) (PI * J ^ 2)) as [q|] eqn:Eq; cbn [bind]; [|discriminate].
    destruct (math_sqrt (1.0 + q)) as [s1|] eqn:Es1; cbn [bind]; [|discriminate].
    destruct (math_sqrt (eta_param * (1.0 + kappa * (s1 - 1)) ^ 2 + (1 - eta_param)))
      as [s2|] eqn:Es2; cbn [bind]; [|discriminate].
    set (u_R := u * (1 - w_P) * epsilon * s2).
    rewrite (math_sqrt_ok _ (sum_sq_nonneg _ _)). cbn [bind]. intros _.
    assert (Hs : sin (0 - math_atan2 0 u_R) = 0).
    { unfold math_atan2.
      assert (E1 : (0 <=? 0) = true) by (apply Rleb_true; lra).
      assert (E2 : (0 <? 0) = false) by (apply Rltb_false; lra).
      rewrite E1, E2.
      replace (0 / u_R) with 0 by (unfold Rdiv; lra). rewrite atan_0.
      destruct (0 <? u_R); [|destruct (u_R <? 0)].
      - replace (0 - 0) with 0 by lra. apply sin_0.
      - replace (0 - (0 + PI)) with (- PI) by lra. rewrite sin_neg, sin_PI. lra.
      - replace (0 - 0) with 0 by lra. apply sin_0. }
    rewrite Hs. repeat f_equal; lra.
Qed.

Lemma solve_f_nonzero :
  I_zG + J_z_dash * (0.5 * rho * (Lpp ^ 4) * d) + (x_G ^ 2) * m <> 0.
Proof. unfold I_zG, J_z_dash, rho, Lpp, d, x_G, m. lra. Qed.

Lemma solve_surge_mass_pos : 0 < m + m_x.
Proof. unfold m_x, m, m_x_dash, rho, Lpp, d. lra. Qed.

Lemma solve_sway_den_nonzero :
  m + m_y_dash * (0.5 * rho * (Lpp ^ 2) * d)
  - (x_G ^ 2 * m ^ 2) / (I_zG + J_z_dash * (0.5 * rho * (Lpp ^ 4) * d) + (x_G ^ 2) * m) <> 0.
Proof. unfold I_zG, J_z_dash, rho, Lpp, d, x_G, m, m_y_dash. lra. Qed.

Lemma mmg_solve_ahead (u X_H X_P : R) :
  mmg_solve u 0 0 (X_H, 0, 0) (0, 0, 0) (0.0, 0.0, 0.0) X_P
  = Ok ((X_H + X_P) / (m + m_x), 0, 0).
Proof.
  unfold mmg_solve.
  pose proof solve_f_nonzero as Hf.
  pose proof solve_surge_mass_pos as Hm. unfold m_x in *.
  pose proof solve_sway_den_nonzero as Hden.
  set (f := I_zG + J_z_dash * (0.5 * rho * Lpp ^ 4 * d) + x_G ^ 2 * m) in *.
  set (mx := m_x_dash * (0.5 * rho * Lpp ^ 2 * d)) in *.
  set (my := m_y_dash * (0.5 * rho * Lpp ^ 2 * d)) in *.
  rewrite (fdiv_ok _ (m + mx)) by lra. cbn [bind].
  rewrite !(fdiv_ok _ f Hf). cbn [bind].
  rewrite (fdiv_ok _ _ Hden). cbn [bind].
  rewrite (fdiv_ok _ f Hf). cbn [bind].
  set (den := m + my - x_G ^ 2 * m ^ 2 / f) in *.
  f_equal. f_equal; [f_equal|]; unfold Rdiv; lra.
Qed.

End Straight.

Lemma current_inactive_cases (fl_vel : option R) :
  current_active fl_vel = false -> fl_vel = None \/ fl_vel = Some 0.
Proof.
  unfold current_active. destruct fl_vel as [c|]; [|now left].
  destruct (c =? 0) eqn:E; [|discriminate].
  apply Reqb_true in E. subst. now right.
Qed.

Lemma mmg_dynamics_rest (psi rud_angle nps fl_psi : R) (fl_vel : option R) :
  current_active fl_vel = false ->
  KVLCC2._mmg_dynamics (0, 0, 0) psi rud_angle nps fl_psi fl_vel
  = Ok (bollard_thrust nps / (KVLCC2.m + m_x), 0, 0).
Proof.
  intros Hc. unfold KVLCC2._mmg_dynamics.
  rewrite mmg_preparation_rest. cbn [bind].
  destruct (mmg_propeller_ahead 0 nps) as (J & HP & HJ0 & HJ1).
  rewrite HP. cbn [bind].
  assert (J0 : J = 0).
  { destruct (Req_dec_T nps 0) as [E | E]; [auto|].
    rewrite (HJ1 E). unfold Rdiv. lra. }
  rewrite mmg_steering_ahead by (auto). cbn [bind].
  rewrite mmg_current_spec, Hc. cbn [bind].
  rewrite mmg_hull_ahead.
  replace (- (0.5 * KVLCC2.rho * KVLCC2.Lpp * KVLCC2.d * KVLCC2.R_0_dash) * 0 ^ 2)
    with 0 by lra.
  rewrite mmg_solve_ahead. subst J. unfold bollard_thrust.
  do 3 f_equal. lra.
Qed.

(** X3: at rest and without a current, whatever the heading, the rudder
    angle and the propeller revolutions, the only acceleration is a surge:
    the thrust of the propeller at advance ratio zero over the mass with its
    added mass. It depends on the revolutions through their square, so a
    propeller turning backwards pushes the vessel forward as one turning
    forward does, and a stopped one leaves the vessel at rest. *)
Theorem X3_mmg_dynamics_at_rest (psi rud_angle nps fl_psi : R) (fl_vel : option R) :
  current_active fl_vel = false ->
  KVLCC2._mmg_dynamics (0, 0, 0) psi rud_angle nps fl_psi fl_vel
  = Ok (bollard_thrust nps / (KVLCC2.m + m_x), 0, 0)
  /\ KVLCC2._mmg_dynamics (0, 0, 0) psi rud_angle (- nps) fl_psi fl_vel
     = KVLCC2._mmg_dynamics (0, 0, 0) psi rud_angle nps fl_psi fl_vel
  /\ (nps = 0 -> KVLCC2._mmg_dynamics (0, 0, 0) psi rud_angle nps fl_psi fl_vel = Ok (0, 0, 0))
  /\ (nps <> 0 -> 0 < bollard_thrust nps / (KVLCC2.m + m_x)).
Proof.
  intros Hc. split; [|split; [|split]].
  - apply mmg_dynamics_rest, Hc.
  - rewrite !mmg_dynamics_rest by exact Hc.
    do 3 f_equal. unfold bollard_thrust. lra.
  - intros ->. rewrite mmg_dynamics_rest by exact Hc.
    do 3 f_equal. unfold bollard_thrust, Rdiv. lra.
  - intros Hn. pose proof solve_surge_mass_pos.
    unfold bollard_thrust, KVLCC2.t_P, KVLCC2.rho, KVLCC2.k_0, KVLCC2.D_p.
    pose proof (pow2_pos nps Hn).
    apply Rdiv_lt_0_compat; nra.
Qed.

Lemma X3_mmg_dynamics_at_rest_witness :
  KVLCC2._mmg_dynamics (0, 0, 0) 0 0 (-2) 0 (Some 0)
  = Ok (bollard_thrust (-2) / (KVLCC2.m + m_x), 0, 0)
  /\ KVLCC2._mmg_dynamics (0, 0, 0) 0 0 (- -2) 0 (Some 0)
     = KVLCC2._mmg_dynamics (0, 0, 0) 0 0 (-2) 0 (Some 0)
  /\ (-2 = 0 -> KVLCC2._mmg_dynamics (0, 0, 0) 0 0 (-2) 0 (Some 0) = Ok (0, 0, 0))
  /\ (-2 <> 0 -> 0 < bollard_thrust (-2) / (KVLCC2.m + m_x)).
Proof.
  apply X3_mmg_dynamics_at_rest.
  unfold current_active. now rewrite Reqb_refl.
Defined.

(** The acceleration on a straight course. *)
Lemma mmg_dynamics_ahead (psi nps fl_psi u : R) (fl_vel : option R) :
  current_active fl_vel = false -> 0 < u ->
  exists J,
    KVLCC2._mmg_dynamics (u, 0, 0) psi 0 nps fl_psi fl_vel
    = Ok ((- (0.5 * KVLCC2.rho * KVLCC2.Lpp * KVLCC2.d * KVLCC2.R_0_dash) * u ^ 2
           + (1 - KVLCC2.t_P) * KVLCC2.rho
             * (KVLCC2.k_0 + KVLCC2.k_1 * J + KVLCC2.k_2 * J ^ 2)
             * nps ^ 2 * KVLCC2.D_p ^ 4) / (KVLCC2.m + m_x), 0, 0)
    /\ (nps <> 0 -> J = 0.91 * u / (nps * KVLCC2.D_p)).
Proof.
  intros Hc Hu. unfold KVLCC2._mmg_dynamics.
  rewrite (mmg_preparation_ahead u Hu). cbn [bind].
  destruct (mmg_propeller_ahead u nps) as (J & HP & HJ0 & HJ1).
  rewrite HP. cbn [bind].
  rewrite mmg_steering_ahead by (auto). cbn [bind].
  rewrite mmg_current_spec, Hc. cbn [bind].
  rewrite mmg_hull_ahead, mmg_solve_ahead.
  exists J. split; [reflexivity | exact HJ1].
Qed.

Lemma surge_force_ahead_spec (u nps J : R) :
  nps <> 0 -> J = 0.91 * u / (nps * KVLCC2.D_p) ->
  - (0.5 * KVLCC2.rho * KVLCC2.Lpp * KVLCC2.d * KVLCC2.R_0_dash) * u ^ 2
  + (1 - KVLCC2.t_P) * KVLCC2.rho * (KVLCC2.k_0 + KVLCC2.k_1 * J + KVLCC2.k_2 * J ^ 2)
    * nps ^ 2 * KVLCC2.D_p ^ 4
  = surge_force_ahead u nps.
Proof.
  intros Hn HJ.
  assert (HD : KVLCC2.D_p <> 0) by (unfold KVLCC2.D_p; lra).
  assert (Hx : J * nps * KVLCC2.D_p = 0.91 * u).
  { rewrite HJ. unfold Rdiv. rewrite Rinv_mult.
    replace (0.91 * u * (/ nps * / KVLCC2.D_p) * nps * KVLCC2.D_p)
      with (0.91 * u * (nps * / nps) * (KVLCC2.D_p * / KVLCC2.D_p)) by lra.
    rewrite !Rinv_r by assumption. lra. }
  unfold surge_force_ahead, surge_A, surge_B, surge_C.
  set (D := KVLCC2.D_p) in *.
  set (b := (1 - KVLCC2.t_P) * KVLCC2.rho).
  assert (E : b * (KVLCC2.k_0 + KVLCC2.k_1 * J + KVLCC2.k_2 * J ^ 2) * nps ^ 2 * D ^ 4
              = b * (KVLCC2.k_0 * nps ^ 2 * D ^ 4 + KVLCC2.k_1 * (0.91 * u) * nps * D ^ 3
                     + KVLCC2.k_2 * (0.91 * u) ^ 2 * D ^ 2)).
  { rewrite <- Hx. lra. }
  rewrite E. lra.
Qed.

(** X4: on a straight course (surge only, rudder amidships, no current) the
    dynamics return, and the acceleration has neither a sway nor a yaw
    component; with the propeller turning, the surge acceleration is the
    quadratic form [surge_force_ahead] in speed and revolutions over the
    mass with its added mass. *)
Theorem X4_mmg_dynamics_straight_course (psi nps fl_psi u : R) (fl_vel : option R) :
  current_active fl_vel = false -> 0 < u ->
  exists d_u,
    KVLCC2._mmg_dynamics (u, 0, 0) psi 0 nps fl_psi fl_vel = Ok (d_u, 0, 0)
    /\ (nps <> 0 -> d_u = surge_force_ahead u nps / (KVLCC2.m + m_x)).
Proof.
  intros Hc Hu.
  destruct (mmg_dynamics_ahead psi nps fl_psi u fl_vel Hc Hu) as (J & E & HJ).
  eexists. split; [exact E|].
  intros Hn. now rewrite (surge_force_ahead_spec u nps J Hn (HJ Hn)).
Qed.

Lemma X4_mmg_dynamics_straight_course_witness :
  exists d_u,
    KVLCC2._mmg_dynamics (3, 0, 0) 0 0 1.8 0 (Some 0) = Ok (d_u, 0, 0)
    /\ (1.8 <> 0 -> d_u = surge_force_ahead 3 1.8 / (KVLCC2.m + m_x)).
Proof.
  apply X4_mmg_dynamics_straight_course.
  - unfold current_active. now rewrite Reqb_refl.
  - lra.
Defined.

(** ** The steady state of the surge *)

Lemma surge_A_pos : 0 < surge_A.
Proof.
  unfold surge_A, KVLCC2.rho, KVLCC2.Lpp, KVLCC2.d, KVLCC2.R_0_dash, KVLCC2.t_P,
    KVLCC2.k_2, KVLCC2.D_p. lra.
Qed.

Lemma surge_B_pos : 0 < surge_B.
Proof. unfold surge_B, KVLCC2.rho, KVLCC2.t_P, KVLCC2.k_1, KVLCC2.D_p. lra. Qed.

Lemma surge_C_pos : 0 < surge_C.
Proof. unfold surge_C, KVLCC2.rho, KVLCC2.t_P, KVLCC2.k_0, KVLCC2.D_p. lra. Qed.

Lemma steady_speed_root :
  0 < steady_speed_per_revolution
  /\ surge_A * steady_speed_per_revolution ^ 2 + surge_B * steady_speed_per_revolution
     - surge_C = 0.
Proof.
  pose proof surge_A_pos as HA. pose proof surge_B_pos as HB. pose proof surge_C_pos as HC.
  unfold steady_speed_per_revolution.
  set (A := surge_A) in *. set (B := surge_B) in *. set (C := surge_C) in *.
  assert (HD : 0 <= B ^ 2 + 4 * A * C) by nra.
  set (s := sqrt (B ^ 2 + 4 * A * C)).
  assert (Hs2 : s ^ 2 = B ^ 2 + 4 * A * C).
  { unfold s. rewrite <- Rsqr_pow2. apply Rsqr_sqrt. exact HD. }
  assert (Hs0 : 0 <= s) by apply sqrt_pos.
  assert (HsB : B < s) by nra.
  assert (Hk : (s - B) / (2 * A) * (2 * A) = s - B).
  { unfold Rdiv. rewrite Rmult_assoc, Rinv_l; lra. }
  set (k := (s - B) / (2 * A)) in *.
  assert (Hkpos : 0 < k).
  { apply Rdiv_lt_0_compat; lra. }
  split; [exact Hkpos|].
  assert (E : 4 * A * (A * k ^ 2 + B * k - C) = 0) by nra.
  nra.
Qed.

Lemma surge_force_zero_iff (u nps : R) :
  0 < nps -> 0 < u ->
  (surge_force_ahead u nps = 0 <-> u = steady_speed_per_revolution * nps).
Proof.
  intros Hn Hu.
  destruct steady_speed_root as [Hk Hroot].
  pose proof surge_A_pos as HA. pose proof surge_B_pos as HB.
  unfold surge_force_ahead.
  set (k := steady_speed_per_revolution) in *.
  set (A := surge_A) in *. set (B := surge_B) in *. set (C := surge_C) in *.
  assert (H1 : (A * k ^ 2 + B * k - C) * nps ^ 2 = 0) by (rewrite Hroot; lra).
  split.
  - intros E.
    assert (F : (u - k * nps) * (A * (u + k * nps) + B * nps) = 0) by lra.
    assert (G : 0 < A * (u + k * nps) + B * nps).
    { pose proof (Rmult_lt_0_compat _ _ HA Hu).
      pose proof (Rmult_lt_0_compat _ _ HA (Rmult_lt_0_compat _ _ Hk Hn)).
      pose proof (Rmult_lt_0_compat _ _ HB Hn). lra. }
    destruct (Rmult_integral _ _ F); lra.
  - intros ->. lra.
Qed.

(** X5: with the propeller turning forward, the function whose root
    [_get_u_from_nps] and [_get_nps_from_u] search for returns for every
    forward speed, and it vanishes at exactly one forward speed, which is
    proportional to the revolutions: the surge speed [u] and the revolutions
    [nps] are in a steady state if and only if
    [u = steady_speed_per_revolution * nps]. *)
Theorem X5_steady_speed_proportional_to_revolutions (psi nps u : R) :
  0 < nps -> 0 < u ->
  (exists d_u, to_find_root_of psi nps u = Ok d_u)
  /\ (to_find_root_of psi nps u = Ok 0 <-> u = steady_speed_per_revolution * nps).
Proof.
  intros Hn Hu.
  assert (Hc : current_active (Some 0.0) = false) by apply no_current_zero.
  destruct (mmg_dynamics_ahead psi nps 0.0 u (Some 0.0) Hc Hu) as (J & E & HJ).
  assert (Hn' : nps <> 0) by lra.
  rewrite (surge_force_ahead_spec u nps J Hn' (HJ Hn')) in E.
  assert (Ef : to_find_root_of psi nps u
               = Ok (surge_force_ahead u nps / (KVLCC2.m + m_x))).
  { unfold to_find_root_of. replace 0.0 with 0 in * by lra.
    rewrite E. reflexivity. }
  pose proof solve_surge_mass_pos as Hm.
  split; [eexists; exact Ef|].
  rewrite Ef. rewrite <- (surge_force_zero_iff u nps Hn Hu).
  split.
  - intros H. injection H as H.
    assert (G : surge_force_ahead u nps / (KVLCC2.m + m_x) * (KVLCC2.m + m_x)
                = surge_force_ahead u nps).
    { unfold Rdiv. rewrite Rmult_assoc, Rinv_l; lra. }
    rewrite H in G. lra.
  - intros ->. f_equal. unfold Rdiv. lra.
Qed.

Lemma steady_speed_pos : 0 < steady_speed_per_revolution.
Proof. apply steady_speed_root. Qed.

Lemma X5_steady_speed_proportional_to_revolutions_witness :
  (exists d_u, to_find_root_of 0 1.8 (steady_speed_per_revolution * 1.8) = Ok d_u)
  /\ (to_find_root_of 0 1.8 (steady_speed_per_revolution * 1.8) = Ok 0
      <-> steady_speed_per_revolution * 1.8 = steady_speed_per_revolution * 1.8).
Proof.
  apply X5_steady_speed_proportional_to_revolutions.
  - lra.
  - pose proof steady_speed_pos. lra.
Defined.

(* ================================================================== *)
(** * KVLCC2: integration steps at rest and on a straight course       *)
(* ================================================================== *)

(** The vessel after [_upd_dynamics], given the acceleration. *)
Lemma upd_dynamics_step (s : KVLCC2.t) (N E psi u v r du dv dr : R) :
  KVLCC2.eta s = (N, E, psi) -> KVLCC2.nu s = (u, v, r) ->
  KVLCC2._mmg_dynamics (u, v, r) psi (KVLCC2.rud_angle s) (KVLCC2.nps s) 0.0 (Some 0.0)
  = Ok (du, dv, dr) ->
  exists s',
    KVLCC2._upd_dynamics s = Ok s'
    /\ KVLCC2.nu s' = (u + du * KVLCC2.delta_t s, v + dv * KVLCC2.delta_t s,
                       r + dr * KVLCC2.delta_t s)
    /\ KVLCC2.nu_dot s' = (du, dv, dr)
    /\ KVLCC2.eta s'
       = (N + 0.5 * (cos psi * u + - sin psi * v + 0 * r
                     + (cos psi * (u + du * KVLCC2.delta_t s)
                        + - sin psi * (v + dv * KVLCC2.delta_t s)
                        + 0 * (r + dr * KVLCC2.delta_t s))) * KVLCC2.delta_t s,
          E + 0.5 * (sin psi * u + cos psi * v + 0 * r
                     + (sin psi * (u + du * KVLCC2.delta_t s)
                        + cos psi * (v + dv * KVLCC2.delta_t s)
                        + 0 * (r + dr * KVLCC2.delta_t s))) * KVLCC2.delta_t s,
          FossenFnc.angle_to_2pi
            (psi + 0.5 * (0 * u + 0 * v + 1 * r
                          + (0 * (u + du * KVLCC2.delta_t s)
                             + 0 * (v + dv * KVLCC2.delta_t s)
                             + 1 * (r + dr * KVLCC2.delta_t s))) * KVLCC2.delta_t s))
    /\ KVLCC2.rud_angle s' = KVLCC2.rud_angle s
    /\ KVLCC2.nps s' = KVLCC2.nps s
    /\ KVLCC2.delta_t s' = KVLCC2.delta_t s.
Proof.
  intros He Hn Hd. unfold KVLCC2._upd_dynamics, KVLCC2.psi.
  destruct s as [dt Nm Em act n ram rai ra e nu0 nd].
  cbn [KVLCC2.eta KVLCC2.nu KVLCC2.rud_angle KVLCC2.nps KVLCC2.delta_t] in *.
  subst e nu0. rewrite Hd. cbn [bind].
  eexists. split; [reflexivity|]. cbn. repeat split.
Qed.

(** X6: one integration step of a vessel that moves straight ahead with the
    rudder amidships: the step returns, the vessel still has neither sway
    nor yaw rate, it has moved along its heading by the mean of the old and
    the new surge speed times the time step, and its heading is the old one
    wrapped into [0, 2pi). *)
Theorem X6_upd_dynamics_straight_course (s : KVLCC2.t) (N E psi u : R) :
  KVLCC2.eta s = (N, E, psi) -> KVLCC2.nu s = (u, 0, 0) ->
  KVLCC2.rud_angle s = 0 -> 0 < u ->
  exists u' s',
    KVLCC2._upd_dynamics s = Ok s'
    /\ KVLCC2.nu s' = (u', 0, 0)
    /\ north (KVLCC2.eta s') = N + cos psi * ((u + u') / 2 * KVLCC2.delta_t s)
    /\ east (KVLCC2.eta s') = E + sin psi * ((u + u') / 2 * KVLCC2.delta_t s)
    /\ heading (KVLCC2.eta s') = FossenFnc.angle_to_2pi psi
    /\ (KVLCC2.nps s <> 0 ->
        u' = u + surge_force_ahead u (KVLCC2.nps s) / (KVLCC2.m + m_x) * KVLCC2.delta_t s).
Proof.
  intros He Hn Hr Hu.
  destruct (mmg_dynamics_ahead psi (KVLCC2.nps s) 0.0 u (Some 0.0) no_current_zero Hu)
    as (J & Ed & HJ).
  assert (Ed' : KVLCC2._mmg_dynamics (u, 0, 0) psi (KVLCC2.rud_angle s) (KVLCC2.nps s) 0.0
                  (Some 0.0)
                = Ok ((- (0.5 * KVLCC2.rho * KVLCC2.Lpp * KVLCC2.d * KVLCC2.R_0_dash) * u ^ 2
                       + (1 - KVLCC2.t_P) * KVLCC2.rho
                         * (KVLCC2.k_0 + KVLCC2.k_1 * J + KVLCC2.k_2 * J ^ 2)
                         * KVLCC2.nps s ^ 2 * KVLCC2.D_p ^ 4) / (KVLCC2.m + m_x), 0, 0))
    by (rewrite Hr; exact Ed).
  destruct (upd_dynamics_step s N E psi u 0 0 _ 0 0 He Hn Ed')
    as (s' & E1 & Hnu & _ & Heta & _).
  eexists. exists s'. split; [exact E1|].
  rewrite Hnu, Heta. unfold north, east, heading. cbn [fst snd].
  split; [f_equal; [f_equal|]; lra|].
  split; [lra|]. split; [lra|]. split; [f_equal; lra|].
  intros Hnps. rewrite (surge_force_ahead_spec u _ J Hnps (HJ Hnps)). reflexivity.
Qed.

Lemma X6_upd_dynamics_straight_course_witness :
  exists u' s',
    KVLCC2._upd_dynamics (tanker (PI / 2) 3 1.8) = Ok s'
    /\ KVLCC2.nu s' = (u', 0, 0)
    /\ north (KVLCC2.eta s') = 0 + cos (PI / 2) * ((3 + u') / 2 * KVLCC2.delta_t (tanker (PI / 2) 3 1.8))
    /\ east (KVLCC2.eta s') = 0 + sin (PI / 2) * ((3 + u') / 2 * KVLCC2.delta_t (tanker (PI / 2) 3 1.8))
    /\ heading (KVLCC2.eta s') = FossenFnc.angle_to_2pi (PI / 2)
    /\ (KVLCC2.nps (tanker (PI / 2) 3 1.8) <> 0 ->
        u' = 3 + surge_force_ahead 3 (KVLCC2.nps (tanker (PI / 2) 3 1.8)) / (KVLCC2.m + m_x)
                 * KVLCC2.delta_t (tanker (PI / 2) 3 1.8)).
Proof.
  apply X6_upd_dynamics_straight_course; [reflexivity | reflexivity | cbn; lra | lra].
Defined.

(** One step of a vessel at rest with the propeller stopped. *)
Lemma upd_dynamics_rest (s : KVLCC2.t) (N E psi : R) :
  KVLCC2.eta s = (N, E, psi) -> KVLCC2.nu s = (0, 0, 0) -> KVLCC2.nps s = 0 ->
  exists s',
    KVLCC2._upd_dynamics s = Ok s'
    /\ KVLCC2.eta s' = (N, E, FossenFnc.angle_to_2pi psi)
    /\ KVLCC2.nu s' = (0, 0, 0)
    /\ KVLCC2.nps s' = 0.
Proof.
  intros He Hn Hnps.
  assert (Ed : KVLCC2._mmg_dynamics (0, 0, 0) psi (KVLCC2.rud_angle s) (KVLCC2.nps s) 0.0
                 (Some 0.0) = Ok (0, 0, 0)).
  { rewrite (mmg_dynamics_rest _ _ _ _ _ no_current_zero). rewrite Hnps.
    do 3 f_equal. unfold bollard_thrust, Rdiv. lra. }
  destruct (upd_dynamics_step s N E psi 0 0 0 0 0 0 He Hn Ed)
    as (s' & E1 & Hnu & _ & Heta & _ & Hnps' & _).
  exists s'. split; [exact E1|].
  rewrite Hnu, Heta, Hnps'.
  split; [f_equal; [f_equal|f_equal]; lra|].
  split; [f_equal; [f_equal|]; lra | exact Hnps].
Qed.

(** X7: a vessel at rest with the propeller stopped stays where it is,
    whatever its rudder angle: any number of integration steps return, and
    after one step or more the position is the initial one, the heading is
    the initial one wrapped into [0, 2pi) and the velocity is zero. *)
Theorem X7_upd_dynamics_rest_is_fixed (n : nat) (s : KVLCC2.t) (N E psi : R) :
  KVLCC2.eta s = (N, E, psi) -> KVLCC2.nu s = (0, 0, 0) -> KVLCC2.nps s = 0 ->
  exists s',
    run_upd_dynamics (S n) s = Ok s'
    /\ KVLCC2.eta s' = (N, E, FossenFnc.angle_to_2pi psi)
    /\ KVLCC2.nu s' = (0, 0, 0).
Proof.
  revert s psi. induction n as [|n IH]; intros s psi He Hn Hnps.
  - destruct (upd_dynamics_rest s N E psi He Hn Hnps) as (s' & E1 & He' & Hn' & _).
    exists s'. cbn [run_upd_dynamics]. rewrite E1. cbn [bind]. auto.
  - destruct (upd_dynamics_rest s N E psi He Hn Hnps) as (s1 & E1 & He1 & Hn1 & Hnps1).
    destruct (IH s1 _ He1 Hn1 Hnps1) as (s' & E2 & He' & Hn').
    exists s'. change (run_upd_dynamics (S (S n)) s)
      with (s1' <- KVLCC2._upd_dynamics s ;; run_upd_dynamics (S n) s1').
    rewrite E1. cbn [bind]. split; [exact E2|]. split; [|exact Hn'].
    rewrite He'. f_equal.
    apply angle_to_2pi_id. apply angle_to_2pi_wrapped.
Qed.

Lemma X7_upd_dynamics_rest_is_fixed_witness :
  exists s',
    run_upd_dynamics 12 (tanker 7 0 0) = Ok s'
    /\ KVLCC2.eta s' = (0, 0, FossenFnc.angle_to_2pi 7)
    /\ KVLCC2.nu s' = (0, 0, 0).
Proof.
  apply (X7_upd_dynamics_rest_is_fixed 11 (tanker 7 0 0) 0 0 7); reflexivity.
Defined.

(* ================================================================== *)
(** * HHOS path planning: surge control, collision flag and rewards    *)
(* ================================================================== *)

Lemma Ok_inj {A} (a b : A) : Ok a = Ok b -> a = b.
Proof. congruence. Qed.

Section HHOSControl.
Context {P : HHOS_PathPlanning_Env.HHOS_Env} {SO : scipy_optimize}.
Import HHOS_PathPlanning_Env.

(** The control scales of every environment that the constructor returns. *)
Lemma hhos_init_scales (state_design : string) (thrust : bool) (data : string)
    (scenario_based : bool) (N_TSs_max : nat) (N_TSs_random : bool)
    (w_ye w_ce w_coll w_comf w_speed : R) (c : config) :
  __init__ state_design thrust data scenario_based N_TSs_max N_TSs_random
           w_ye w_ce w_coll w_comf w_speed = Ok c ->
  surge_scale c = 0.5 /\ surge_min c = 0.1 /\ surge_max c = 5.0
  /\ d_head_scale c = FossenFnc.dtr 10.0
  /\ obs_size c = (3 + lidar_n_beams (parent c) + 6 * HHOS_PathPlanning_Env.N_TSs_max (parent c))%nat
  /\ HHOS_PathPlanning_Env.state_design c = state_design
  /\ FossenEnv.string_in state_design ["recursive"; "conventional"]%string = true.
Proof.
  unfold __init__.
  destruct (super_init _ _ _ _ _ _ _ _ _ _) as [b|]; cbn [bind]; [|discriminate].
  destruct (FossenEnv.string_in state_design _) eqn:Hs; cbn [assert bind]; [|discriminate].
  destruct (fdiv 60.0 (delta_t b)); cbn [bind]; [|discriminate].
  intros H. injection H as <-. cbn. repeat split.
Qed.

(** X8: manual surge control of an environment that the constructor has
    returned. An action outside [-1, 1] is refused before the vessel is
    touched and before the root finder is called. When the call returns, the
    surge speed of the vessel lies between 0.1 and 5.0 m/s, it is the old
    surge speed plus half the action whenever that lies between these
    bounds, and sway, yaw rate, position and heading are the old ones. *)
Theorem X8_manual_surge_control_bounds (state_design : string) (thrust : bool) (data : string)
    (scenario_based : bool) (N_TSs_max : nat) (N_TSs_random : bool)
    (w_ye w_ce w_coll w_comf w_speed : R) (e : t) (v : vessel) (a : R) :
  __init__ state_design thrust data scenario_based N_TSs_max N_TSs_random
           w_ye w_ce w_coll w_comf w_speed = Ok (cfg e) ->
  (a < -1 \/ 1 < a ->
     HHOS_PathPlanning._manual_surge_control e v a = Raise (AssertionError "Unknown action."))
  /\ (forall v', HHOS_PathPlanning._manual_surge_control e v a = Ok v' ->
        let '(u, sway, yaw) := KVLCC2.nu (ship v) in
        let '(u', sway', yaw') := KVLCC2.nu (ship v') in
        -1 <= a <= 1
        /\ 0.1 <= u' <= 5.0
        /\ (0.1 <= u + a * 0.5 <= 5.0 -> u' = u + a * 0.5)
        /\ sway' = sway /\ yaw' = yaw
        /\ KVLCC2.eta (ship v') = KVLCC2.eta (ship v)).
Proof.
  intros Hinit.
  destruct (hhos_init_scales _ _ _ _ _ _ _ _ _ _ _ _ Hinit) as (Hs & Hlo & Hhi & _).
  unfold HHOS_PathPlanning._manual_surge_control. split.
  - intros Ha.
    assert (E : ((-1 <=? a) && (a <=? 1)) = false).
    { apply andb_false_iff. destruct Ha; [left | right]; apply Rleb_false; lra. }
    now rewrite E.
  - intros v'.
    destruct ((-1 <=? a) && (a <=? 1)) eqn:E; cbn [assert bind]; [|discriminate].
    apply andb_true_iff in E. destruct E as [E1 E2].
    apply Rleb_true in E1, E2.
    destruct (KVLCC2.nu (ship v)) as [[u sway] yaw] eqn:Hnu.
    destruct (KVLCC2_speed._get_nps_from_u _ _) as [nps|]; cbn [bind]; [|discriminate].
    intros H. injection H as <-. cbn. rewrite Hs, Hlo, Hhi.
    split; [lra|]. split; [apply np_clip_bounds; lra|].
    split; [intros Hb; apply np_clip_id; exact Hb|]. auto.
Qed.

End HHOSControl.

Lemma sample_parent_init :
  @HHOS_PathPlanning_Env.__init__ sample_parent "conventional" true "sampled" false 2 false
     1 1 1 1 1 = Ok (hhos_config true 2).
Proof.
  unfold HHOS_PathPlanning_Env.__init__. cbn [sample_parent HHOS_PathPlanning_Env.super_init bind].
  cbn [FossenEnv.string_in existsb String.eqb Ascii.eqb Bool.eqb orb assert bind].
  rewrite fdiv_ok by (cbn; lra). cbn [bind].
  unfold hhos_config. do 2 f_equal.
  cbn [HHOS_PathPlanning_Env.delta_t]. unfold py_int.
  assert (E : 60.0 / 5.0 = 12) by lra. rewrite E.
  assert (E0 : (0 <=? 12) = true) by (apply Rleb_true; lra). rewrite E0.
  symmetry. apply Int_part_spec. cbn. lra.
Qed.

Lemma X8_manual_surge_control_bounds_witness :
  (0.5 < -1 \/ 1 < 0.5 ->
     @HHOS_PathPlanning._manual_surge_control newton_no_iteration
        (hhos_episode true 2 []) (hhos_vessel 0 0 0 3) 0.5
     = Raise (AssertionError "Unknown action."))
  /\ (forall v', @HHOS_PathPlanning._manual_surge_control newton_no_iteration
                    (hhos_episode true 2 []) (hhos_vessel 0 0 0 3) 0.5 = Ok v' ->
        let '(u, sway, yaw) := KVLCC2.nu (HHOS_PathPlanning_Env.ship (hhos_vessel 0 0 0 3)) in
        let '(u', sway', yaw') := KVLCC2.nu (HHOS_PathPlanning_Env.ship v') in
        -1 <= 0.5 <= 1
        /\ 0.1 <= u' <= 5.0
        /\ (0.1 <= u + 0.5 * 0.5 <= 5.0 -> u' = u + 0.5 * 0.5)
        /\ sway' = sway /\ yaw' = yaw
        /\ KVLCC2.eta (HHOS_PathPlanning_Env.ship v')
           = KVLCC2.eta (HHOS_PathPlanning_Env.ship (hhos_vessel 0 0 0 3))).
Proof.
  apply (@X8_manual_surge_control_bounds sample_parent newton_no_iteration
           "conventional" true "sampled" false 2 false 1 1 1 1 1
           (hhos_episode true 2 []) (hhos_vessel 0 0 0 3) 0.5).
  exact sample_parent_init.
Defined.

Section HHOSCollision.
Context {P : HHOS_PathPlanning_Env.HHOS_Env}.
Import HHOS_PathPlanning_Env.

(** The collision reward only goes down with every target ship, by ten when
    the target is within the ship domain. *)
Lemma r_coll_TS_le (e : t) (TS : vessel) (acc : R) : r_coll_TS e TS acc <= acc.
Proof.
  unfold r_coll_TS.
  destruct (KVLCC2.eta (ship (OS e))) as [[N0 E0] h0].
  destruct (KVLCC2.eta (ship TS)) as [[N1 E1] h1].
  set (D := get_ship_domain _ _ _ _ _ _).
  set (d := FossenFnc.ED N0 E0 N1 E1 true).
  assert (Hacc : (if d <=? D then acc - 10.0 else acc - exp (- (d - D) / 200)) <= acc).
  { destruct (d <=? D); [lra|]. pose proof (exp_pos (- (d - D) / 200)). lra. }
  repeat match goal with |- context [if ?c then _ else _] => destruct c end; lra.
Qed.

Lemma r_coll_TS_collision (e : t) (TS : vessel) (acc : R) :
  (let '(N_0, E_0, _) := KVLCC2.eta (ship (OS e)) in
   let '(N1, E1, _) := KVLCC2.eta (ship TS) in
   FossenFnc.ED N_0 E_0 N1 E1 true
   <=? get_ship_domain (ship_domain_A (OS e)) (ship_domain_B (OS e))
                       (ship_domain_C (OS e)) (ship_domain_D (OS e)) (OS e) TS) = true ->
  r_coll_TS e TS acc <= acc - 10.
Proof.
  unfold r_coll_TS.
  destruct (KVLCC2.eta (ship (OS e))) as [[N0 E0] h0].
  destruct (KVLCC2.eta (ship TS)) as [[N1 E1] h1].
  intros ->.
  repeat match goal with |- context [if ?c then _ else _] => destruct c end; lra.
Qed.

Lemma r_coll_fold_le (e : t) (l : list vessel) (acc : R) :
  fold_left (fun acc TS => r_coll_TS e TS acc) l acc <= acc.
Proof.
  revert acc. induction l as [|TS l IH]; intros acc; cbn [fold_left]; [lra|].
  eapply Rle_trans; [apply IH | apply r_coll_TS_le].
Qed.

Lemma r_coll_fold_collision (e : t) (l : list vessel) (acc : R) :
  HHOS_PathPlanning.TS_collision e l = true ->
  fold_left (fun acc TS => r_coll_TS e TS acc) l acc <= acc - 10.
Proof.
  revert acc. induction l as [|TS l IH]; intros acc; cbn [HHOS_PathPlanning.TS_collision fold_left].
  - discriminate.
  - intros Hc.
    pose proof (r_coll_TS_collision e TS acc) as Hhit.
    pose proof (r_coll_TS_le e TS acc) as Hle.
    destruct (KVLCC2.eta (ship (OS e))) as [[N0 E0] h0].
    destruct (KVLCC2.eta (ship TS)) as [[N1 E1] h1].
    destruct (_ <=? _) eqn:E.
    + eapply Rle_trans; [apply r_coll_fold_le | apply Hhit; reflexivity].
    + eapply Rle_trans; [apply IH; exact Hc | lra].
Qed.

(** The parts of the reward, whatever the control mode. *)
Lemma hhos_reward_parts (e : t) (a : list R) (rw : reward) :
  _calculate_reward e a = Ok rw ->
  let b := parent (cfg e) in
  r_ye rw = exp (- (0.05 * Rabs (glo_ye e)))
  /\ (r_ce rw = -10 \/ r_ce rw = 0)
  /\ r_coll rw
     = (let rc := fold_left (fun acc TS => r_coll_TS e TS acc) (TSs e) 0 in
        if H e <=? critical_depth (OS e) then rc - 10.0 else rc)
  /\ ((thrust_control_planner b = false
       /\ r rw = if negb (w_ye b + w_ce b + w_coll b =? 0)
                 then (w_ye b * r_ye rw + w_ce b * r_ce rw + w_coll b * r_coll rw)
                      / (w_ye b + w_ce b + w_coll b)
                 else 0)
      \/ (thrust_control_planner b = true
          /\ exists rc rs, rc <= 0 /\ rs <= 0
             /\ r rw = if negb (w_ye b + w_ce b + w_coll b + w_comf b + w_speed b =? 0)
                       then (w_ye b * r_ye rw + w_ce b * r_ce rw + w_coll b * r_coll rw
                             + w_comf b * rc + w_speed b * rs)
                            / (w_ye b + w_ce b + w_coll b + w_comf b + w_speed b)
                       else 0)).
Proof.
  unfold _calculate_reward.
  destruct (KVLCC2.nu (ship (OS e))) as [[u v] r0].
  destruct (KVLCC2.eta (ship (OS e))) as [[N E] psi].
  destruct (thrust_control_planner (parent (cfg e))) eqn:Ht.
  - unfold getitem. destruct (nth_error a 1) as [a1|]; cbn [bind]; [|discriminate].
    intros H0. apply Ok_inj in H0. subst rw. cbv beta iota zeta delta [r_ye r_ce r_coll r].
    split; [f_equal; lra|].
    split; [destruct (_ <=? _); [left | right]; lra|].
    split; [reflexivity|]. right. split; [reflexivity|].
    exists (- a1 ^ 2), (Rmax (- (u - desired_V (cfg e)) ^ 2) (-1.0)).
    split; [pose proof (pow2_ge_0 a1); lra|].
    split.
    { apply Rmax_lub; [pose proof (pow2_ge_0 (u - desired_V (cfg e))); lra | lra]. }
    cbv beta iota zeta delta [np_sum np_mul fold_right app].
    match goal with |- (if negb (?x =? 0.0) then _ else _) = if negb (?y =? 0) then _ else _ =>
      replace 0.0 with 0 by lra; replace x with y by lra; destruct (negb (y =? 0)) end; [|lra].
    unfold Rdiv. f_equal. lra.
  - cbn [bind]. intros H0. apply Ok_inj in H0. subst rw. cbv beta iota zeta delta [r_ye r_ce r_coll r].
    split; [f_equal; lra|].
    split; [destruct (_ <=? _); [left | right]; lra|].
    split; [reflexivity|]. left. split; [reflexivity|].
    cbv beta iota zeta delta [np_sum np_mul fold_right app].
    match goal with |- (if negb (?x =? 0.0) then _ else _) = if negb (?y =? 0) then _ else _ =>
      replace 0.0 with 0 by lra; replace x with y by lra; destruct (negb (y =? 0)) end; [|lra].
    unfold Rdiv. f_equal. lra.
Qed.

Lemma hhos_r_coll_nonpos (e : t) (a : list R) (rw : reward) :
  _calculate_reward e a = Ok rw -> r_coll rw <= 0.
Proof.
  intros Hr. destruct (hhos_reward_parts e a rw Hr) as (_ & _ & Hc & _).
  rewrite Hc. cbn zeta. pose proof (r_coll_fold_le e (TSs e) 0).
  destruct (_ <=? _); lra.
Qed.

(** X9: whenever [_check_collision] sets the collision flag (the water is
    no deeper than the critical depth of the own ship, or a target ship is
    within the ship domain), the collision part of the reward of the same
    situation is at most -10. *)
Theorem X9_collision_flag_is_penalised (e : t) (a : list R) (rw : reward) :
  HHOS_PathPlanning._check_collision e = true ->
  _calculate_reward e a = Ok rw ->
  r_coll rw <= -10.
Proof.
  intros Hflag Hr. destruct (hhos_reward_parts e a rw Hr) as (_ & _ & Hc & _).
  rewrite Hc. cbn zeta. unfold HHOS_PathPlanning._check_collision in Hflag.
  pose proof (r_coll_fold_le e (TSs e) 0) as Hle.
  destruct (H e <=? critical_depth (OS e)); [lra|].
  pose proof (r_coll_fold_collision e (TSs e) 0 Hflag). lra.
Qed.

Lemma weighted_mean_le_1 (W S w1 : R) :
  0 < W -> w1 <= W -> S <= w1 -> S / W <= 1.
Proof.
  intros HW H1 HS.
  apply (Rmult_le_reg_r W); [exact HW|].
  unfold Rdiv. rewrite Rmult_assoc, Rinv_l by lra. lra.
Qed.

(** The comfort and the speed part: assigned under thrust control only,
    the comfort part minus the square of the second action, the speed part
    minus the squared deviation from the desired speed, cut off at -1. *)
Lemma hhos_reward_comfort_speed (e : t) (a : list R) (rw : reward) :
  _calculate_reward e a = Ok rw ->
  let b := parent (cfg e) in
  (thrust_control_planner b = true ->
   exists rc rs, r_comf rw = Some rc /\ r_speed rw = Some rs
                 /\ rc <= 0 /\ -1 <= rs <= 0)
  /\ (thrust_control_planner b = false -> r_comf rw = None /\ r_speed rw = None).
Proof.
  unfold _calculate_reward.
  destruct (KVLCC2.nu (ship (OS e))) as [[u v] r0].
  destruct (KVLCC2.eta (ship (OS e))) as [[N E] psi].
  destruct (thrust_control_planner (parent (cfg e))) eqn:Ht.
  - unfold getitem. destruct (nth_error a 1) as [a1|]; cbn [bind]; [|discriminate].
    intros H0. apply Ok_inj in H0. subst rw. cbv beta iota zeta delta [r_comf r_speed].
    split; [|discriminate]. intros _.
    exists (- a1 ^ 2), (Rmax (- (u - desired_V (cfg e)) ^ 2) (-1.0)).
    split; [reflexivity|]. split; [reflexivity|].
    split; [pose proof (pow2_ge_0 a1); lra|].
    split; [eapply Rle_trans; [|apply Rmax_r]; lra|].
    apply Rmax_lub; [pose proof (pow2_ge_0 (u - desired_V (cfg e))); lra | lra].
  - cbn [bind]. intros H0. apply Ok_inj in H0. subst rw.
    cbv beta iota zeta delta [r_comf r_speed].
    split; [discriminate | intros _; split; reflexivity].
Qed.

(** X10: with weights that are not negative, the reward is at most 1: the
    cross-track part lies in (0, 1], the course part is 0 or -10, and the
    collision part is never positive; under thrust control the comfort part
    is never positive and the speed part lies in [-1, 0], and without
    thrust control neither of the two is assigned. *)
Theorem X10_hhos_reward_at_most_one (e : t) (a : list R) (rw : reward) :
  let b := parent (cfg e) in
  0 <= w_ye b -> 0 <= w_ce b -> 0 <= w_coll b -> 0 <= w_comf b -> 0 <= w_speed b ->
  _calculate_reward e a = Ok rw ->
  r rw <= 1
  /\ 0 < r_ye rw <= 1
  /\ (r_ce rw = -10 \/ r_ce rw = 0)
  /\ r_coll rw <= 0
  /\ (thrust_control_planner b = true ->
      exists rc rs, r_comf rw = Some rc /\ r_speed rw = Some rs
                    /\ rc <= 0 /\ -1 <= rs <= 0)
  /\ (thrust_control_planner b = false -> r_comf rw = None /\ r_speed rw = None).
Proof.
  intros b H1 H2 H3 H4 H5 Hr.
  pose proof (hhos_r_coll_nonpos e a rw Hr) as Hcoll.
  destruct (hhos_reward_comfort_speed e a rw Hr) as [Hthrust Hplain]. fold b in Hthrust, Hplain.
  destruct (hhos_reward_parts e a rw Hr) as (Hye & Hce & _ & Hsum). fold b in Hsum.
  assert (Hy : 0 < r_ye rw <= 1).
  { rewrite Hye. split; [apply exp_pos|].
    rewrite <- exp_0. pose proof (Rabs_pos (glo_ye e)).
    destruct (Req_dec_T (Rabs (glo_ye e)) 0) as [E0 | E0].
    - rewrite E0. replace (- (0.05 * 0)) with 0 by lra. lra.
    - left. apply exp_increasing. lra. }
  assert (Hc : r_ce rw <= 0) by (destruct Hce; lra).
  split; [|repeat (split; [assumption|]); assumption].
  destruct Hsum as [(_ & Er) | (_ & rc & rs & Hrc & Hrs & Er)]; rewrite Er.
  - destruct (_ =? 0) eqn:E0; cbn [negb]; [lra|].
    apply Reqb_false in E0.
    apply (weighted_mean_le_1 _ _ (w_ye b)); nra.
  - destruct (_ =? 0) eqn:E0; cbn [negb]; [lra|].
    apply Reqb_false in E0.
    apply (weighted_mean_le_1 _ _ (w_ye b)); nra.
Qed.

End HHOSCollision.

Lemma X9_collision_flag_is_penalised_witness :
  exists rw,
    HHOS_PathPlanning_Env._calculate_reward (P := sample_parent)
      (hhos_episode false 2 [hhos_vessel 100 0 0 3]) [0.5] = Ok rw
    /\ HHOS_PathPlanning_Env.r_coll rw <= -10.
Proof.
  destruct (hhos_reward_no_thrust (P := sample_parent)
              (hhos_episode false 2 [hhos_vessel 100 0 0 3]) [0.5] eq_refl) as (rw & Hrw & _).
  exists rw. split; [exact Hrw|].
  apply (X9_collision_flag_is_penalised (P := sample_parent)
           (hhos_episode false 2 [hhos_vessel 100 0 0 3]) [0.5] rw); [|exact Hrw].
  unfold HHOS_PathPlanning._check_collision.
  assert (E1 : (HHOS_PathPlanning_Env.H (hhos_episode false 2 [hhos_vessel 100 0 0 3])
                <=? HHOS_PathPlanning_Env.critical_depth
                      (HHOS_PathPlanning_Env.OS (hhos_episode false 2 [hhos_vessel 100 0 0 3])))
               = false) by (apply Rleb_false; cbn; lra).
  rewrite E1. cbn -[Rleb FossenFnc.ED].
  match goal with |- (if ?c then _ else _) = true =>
    assert (E2 : c = true); [|now rewrite E2] end.
  apply Rleb_true. apply Rlt_le. apply (ED_upper_bound 0 0 100 0 500); lra.
Defined.

Lemma X10_hhos_reward_at_most_one_witness :
  exists rw,
    HHOS_PathPlanning_Env._calculate_reward (P := sample_parent)
      (hhos_episode true 2 [hhos_vessel 100 0 0 3]) [0.5; 0.25] = Ok rw
    /\ HHOS_PathPlanning_Env.r rw <= 1
    /\ 0 < HHOS_PathPlanning_Env.r_ye rw <= 1
    /\ (HHOS_PathPlanning_Env.r_ce rw = -10 \/ HHOS_PathPlanning_Env.r_ce rw = 0)
    /\ HHOS_PathPlanning_Env.r_coll rw <= 0
    /\ (HHOS_PathPlanning_Env.thrust_control_planner
          (HHOS_PathPlanning_Env.parent
             (HHOS_PathPlanning_Env.cfg (hhos_episode true 2 [hhos_vessel 100 0 0 3]))) = true ->
        exists rc rs,
          HHOS_PathPlanning_Env.r_comf rw = Some rc
          /\ HHOS_PathPlanning_Env.r_speed rw = Some rs
          /\ rc <= 0 /\ -1 <= rs <= 0)
    /\ (HHOS_PathPlanning_Env.thrust_control_planner
          (HHOS_PathPlanning_Env.parent
             (HHOS_PathPlanning_Env.cfg (hhos_episode true 2 [hhos_vessel 100 0 0 3]))) = false ->
        HHOS_PathPlanning_Env.r_comf rw = None /\ HHOS_PathPlanning_Env.r_speed rw = None).
Proof.
  destruct (hhos_reward_thrust (P := sample_parent)
              (hhos_episode true 2 [hhos_vessel 100 0 0 3]) [0.5; 0.25] eq_refl)
    as (rw & rc & rs & Hrw & _); [cbn; lia|].
  exists rw. split; [exact Hrw|].
  apply (X10_hhos_reward_at_most_one (P := sample_parent)
           (hhos_episode true 2 [hhos_vessel 100 0 0 3]) [0.5; 0.25] rw);
    try exact Hrw; cbn; lra.
Defined.

(* ================================================================== *)
(** * HHOS path planning: the safety reward                            *)
(* ================================================================== *)

Section HHOSSafety.
Context {P : HHOS_PathPlanning_Env.HHOS_Env}.
Import HHOS_PathPlanning_Env.

Lemma MPC_reward_TS_le (e : t) (r : R) (TS : vessel) :
  HHOS_PathPlanning.MPC_reward_TS e r TS <= r.
Proof.
  unfold HHOS_PathPlanning.MPC_reward_TS.
  destruct (KVLCC2.eta (ship (OS e))) as [[N0 E0] h0].
  destruct (KVLCC2.eta (ship TS)) as [[N1 E1] h1].
  destruct (_ <=? 100); [lra|].
  match goal with |- _ - exp ?x <= _ => pose proof (exp_pos x) end. lra.
Qed.

Lemma MPC_reward_fold_le (e : t) (l : list vessel) (r : R) :
  fold_left (HHOS_PathPlanning.MPC_reward_TS e) l r <= r.
Proof.
  revert r. induction l as [|TS l IH]; intros r; cbn [fold_left]; [lra|].
  eapply Rle_trans; [apply IH | apply MPC_reward_TS_le].
Qed.

(** The distance between the own ship and a target ship. *)
Lemma MPC_reward_fold_close (e : t) (l : list vessel) (r : R) :
  Exists (fun TS => FossenFnc.ED (north (KVLCC2.eta (ship (OS e))))
                                 (east (KVLCC2.eta (ship (OS e))))
                                 (north (KVLCC2.eta (ship TS)))
                                 (east (KVLCC2.eta (ship TS))) true <= 100) l ->
  fold_left (HHOS_PathPlanning.MPC_reward_TS e) l r <= r - 100.
Proof.
  intros Hex. revert r. induction Hex as [TS l Hclose | TS l _ IH]; intros r; cbn [fold_left].
  - eapply Rle_trans; [apply MPC_reward_fold_le|].
    unfold HHOS_PathPlanning.MPC_reward_TS.
    unfold north, east in Hclose.
    destruct (KVLCC2.eta (ship (OS e))) as [[N0 E0] h0].
    destruct (KVLCC2.eta (ship TS)) as [[N1 E1] h1].
    cbn [fst snd] in Hclose. apply Rleb_true in Hclose. rewrite Hclose. lra.
  - eapply Rle_trans; [apply IH|]. pose proof (MPC_reward_TS_le e r TS). lra.
Qed.

(** X11: the safety reward [_MPC_reward] never exceeds 1, and it is at most
    -99 whenever the own ship heads more than a quarter turn away from the
    path, a target ship is within 100 m, or the water is no deeper than the
    critical depth of the own ship. *)
Theorem X11_MPC_reward_bounds (e : t) :
  HHOS_PathPlanning._MPC_reward e <= 1
  /\ (PI / 2 <= Rabs (FossenFnc.angle_to_pi (heading (KVLCC2.eta (ship (OS e))) - glo_pi_path e))
      \/ Exists (fun TS => FossenFnc.ED (north (KVLCC2.eta (ship (OS e))))
                                        (east (KVLCC2.eta (ship (OS e))))
                                        (north (KVLCC2.eta (ship TS)))
                                        (east (KVLCC2.eta (ship TS))) true <= 100) (TSs e)
      \/ H e <= critical_depth (OS e) ->
      HHOS_PathPlanning._MPC_reward e <= -99).
Proof.
  unfold HHOS_PathPlanning._MPC_reward.
  pose proof (MPC_reward_fold_close e (TSs e)) as Hclose.
  unfold heading. unfold north, east in Hclose.
  destruct (KVLCC2.eta (ship (OS e))) as [[N0 E0] psi]. cbn [fst snd] in *.
  set (ye := exp (- (0.05) * Rabs (glo_ye e))).
  assert (Hye : 0 < ye <= 1).
  { unfold ye. split; [apply exp_pos|].
    rewrite <- exp_0. pose proof (Rabs_pos (glo_ye e)).
    destruct (Req_dec_T (Rabs (glo_ye e)) 0) as [E0' | E0'].
    - rewrite E0'. replace (- (0.05) * 0) with 0 by lra. lra.
    - left. apply exp_increasing. lra. }
  set (turned := PI / 2 <=? Rabs (FossenFnc.angle_to_pi (psi - glo_pi_path e))).
  set (r1 := if turned then -100.0 else 0.0 + ye).
  assert (Hr1 : r1 <= 1) by (unfold r1; destruct turned; lra).
  pose proof (MPC_reward_fold_le e (TSs e) r1) as Hfold.
  split.
  - destruct (H e <=? critical_depth (OS e)); lra.
  - intros [Hturn | [Hex | Hground]].
    + assert (Et : turned = true) by (apply Rleb_true; exact Hturn).
      assert (Er : r1 = -100) by (unfold r1; rewrite Et; lra).
      destruct (H e <=? critical_depth (OS e)); lra.
    + specialize (Hclose r1 Hex).
      destruct (H e <=? critical_depth (OS e)); lra.
    + apply Rleb_true in Hground. rewrite Hground. lra.
Qed.

End HHOSSafety.

Lemma X11_MPC_reward_bounds_witness :
  HHOS_PathPlanning._MPC_reward (P := sample_parent) (hhos_episode false 2 [hhos_vessel 50 0 0 3]) <= 1
  /\ HHOS_PathPlanning._MPC_reward (P := sample_parent) (hhos_episode false 2 [hhos_vessel 50 0 0 3])
     <= -99.
Proof.
  destruct (X11_MPC_reward_bounds (P := sample_parent) (hhos_episode false 2 [hhos_vessel 50 0 0 3]))
    as [H1 H2].
  split; [exact H1|]. apply H2. right. left.
  constructor. cbn. apply Rlt_le. apply (ED_upper_bound 0 0 50 0 100); lra.
Defined.

(* ================================================================== *)
(** * Sorting                                                          *)
(* ================================================================== *)

Lemma ascending_cons (a : R) (l : list R) :
  ascending (a :: l) <-> (forall b, hd_error l = Some b -> a <= b) /\ ascending l.
Proof.
  destruct l as [|b l]; cbn [ascending hd_error].
  - split; [intros _; split; [discriminate | exact I] | auto].
  - split.
    + intros [H1 H2]. split; [|exact H2]. intros b' E. injection E as <-. exact H1.
    + intros [H1 H2]. split; [apply H1; reflexivity | exact H2].
Qed.

Lemma sorted_insert_perm {A} (key : A -> R) (a : A) (l : list A) :
  Permutation (a :: l) (sorted_insert key a l).
Proof.
  induction l as [|b l IH]; cbn [sorted_insert]; [reflexivity|].
  destruct (key a <? key b); [reflexivity|].
  rewrite perm_swap. now apply perm_skip.
Qed.

Lemma sorted_insert_hd {A} (key : A -> R) (a : A) (l : list A) (c : A) :
  hd_error (sorted_insert key a l) = Some c -> c = a \/ hd_error l = Some c.
Proof.
  destruct l as [|b l]; cbn [sorted_insert hd_error].
  - intros E. injection E as <-. now left.
  - destruct (key a <? key b); cbn [hd_error]; intros E; injection E as <-; auto.
Qed.

Lemma sorted_insert_ascending {A} (key : A -> R) (a : A) (l : list A) :
  ascending (map key l) -> ascending (map key (sorted_insert key a l)).
Proof.
  induction l as [|b l IH]; cbn [sorted_insert map].
  - intros _. cbn. auto.
  - intros Hs. destruct (key a <? key b) eqn:E.
    + apply Rltb_true in E. cbn [map]. apply ascending_cons. split; [|exact Hs].
      cbn [hd_error]. intros c Ec. injection Ec as <-. lra.
    + apply Rltb_false in E. cbn [map]. apply ascending_cons in Hs. destruct Hs as [Hhd Hs].
      apply ascending_cons. split; [|apply IH; exact Hs].
      intros c Ec.
      destruct (sorted_insert key a l) as [|x rest] eqn:Ei; [discriminate|].
      cbn [map hd_error] in Ec. injection Ec as <-.
      destruct (sorted_insert_hd key a l x) as [-> | Hx]; [now rewrite Ei | exact E |].
      apply Hhd. destruct l as [|y l']; [discriminate|].
      cbn [hd_error map] in *. now injection Hx as ->.
Qed.

Lemma sorted_by_perm {A} (key : A -> R) (l : list A) : Permutation l (sorted_by key l).
Proof.
  unfold sorted_by. rewrite (Permutation_rev l) at 1.
  induction (rev l) as [|a l' IH]; cbn [fold_right]; [reflexivity|].
  rewrite <- sorted_insert_perm. now apply perm_skip.
Qed.

Lemma sorted_by_ascending {A} (key : A -> R) (l : list A) :
  ascending (map key (sorted_by key l)).
Proof.
  unfold sorted_by. induction (rev l) as [|a l' IH]; cbn [fold_right]; [exact I|].
  apply sorted_insert_ascending, IH.
Qed.

(* ================================================================== *)
(** * HHOS path planning: the observation                              *)
(* ================================================================== *)

Section HHOSObservation.
Context {P : HHOS_PathPlanning_Env.HHOS_Env}.
Import HHOS_PathPlanning_Env.

(** X12: the observation of the "conventional" design has exactly as many
    entries as the observation space that the constructor declares
    (3 + LiDAR beams + 6 per target slot), provided that there is at least
    one target slot, that the target ships do not outnumber the slots and
    that the LiDAR returns one value for each beam. *)
Theorem X12_hhos_state_fills_observation_space (thrust : bool) (data : string)
    (scenario_based : bool) (N_TSs_max : nat) (N_TSs_random : bool)
    (w_ye w_ce w_coll w_comf w_speed : R) (e : t) (fuel : nat) :
  __init__ "conventional" thrust data scenario_based N_TSs_max N_TSs_random
           w_ye w_ce w_coll w_comf w_speed = Ok (cfg e) ->
  List.length (closeness_from_lidar e) = lidar_n_beams (parent (cfg e)) ->
  (1 <= HHOS_PathPlanning_Env.N_TSs_max (parent (cfg e)))%nat ->
  (List.length (TSs e) <= HHOS_PathPlanning_Env.N_TSs_max (parent (cfg e)))%nat ->
  (HHOS_PathPlanning_Env.N_TSs_max (parent (cfg e)) - List.length (TSs e) <= fuel)%nat ->
  exists state,
    _set_state fuel e = Some (Ok state)
    /\ List.length state = obs_size (cfg e).
Proof.
  intros Hinit Hlidar H1 Hle Hfuel.
  destruct (hhos_init_scales _ _ _ _ _ _ _ _ _ _ _ _ Hinit) as (_ & _ & _ & _ & Hobs & Hd & _).
  destruct (hhos_block_conventional fuel e Hd H1 Hle Hfuel) as (block & Hb & Hlen).
  unfold _set_state.
  destruct (KVLCC2.nu (ship (OS e))) as [[u v] r0].
  destruct (KVLCC2.eta (ship (OS e))) as [[N E] psi].
  rewrite Hb. eexists. split; [reflexivity|].
  rewrite !length_app, length_map, Hlen, Hlidar, Hobs.
  destruct (thrust_control_planner (parent (cfg e))); cbn [List.length]; lia.
Qed.

Lemma pad_ghost_ships_overfull (fuel N_TSs_max : nat) (rows : list (list cell)) :
  (N_TSs_max < List.length rows)%nat -> pad_ghost_ships fuel N_TSs_max rows = None.
Proof.
  revert rows. induction fuel as [|fuel IH]; intros rows Hlt; cbn [pad_ghost_ships];
    destruct (Nat.eqb_spec (List.length rows) N_TSs_max) as [E | E]; try lia.
  - reflexivity.
  - apply IH. rewrite length_app. cbn [List.length]. lia.
Qed.

(** X13: with more target ships than target slots, the observation of the
    "conventional" design is never completed: the loop that pads ghost
    ships until the number of rows equals [N_TSs_max] only moves away from
    its exit condition, whatever the number of passes. *)
Theorem X13_hhos_padding_never_ends (e : t) (fuel : nat) :
  state_design (cfg e) = "conventional"%string ->
  (HHOS_PathPlanning_Env.N_TSs_max (parent (cfg e)) < List.length (TSs e))%nat ->
  _set_state fuel e = None.
Proof.
  intros Hd Hlt. unfold _set_state, state_TSs_block.
  destruct (KVLCC2.nu (ship (OS e))) as [[u v] r0].
  destruct (KVLCC2.eta (ship (OS e))) as [[N E] psi] eqn:Heta.
  destruct (hhos_rows_spec e) as (rows & Hr & Hl & _).
  rewrite Hr, Hd. cbn [String.eqb Ascii.eqb Bool.eqb].
  rewrite pad_ghost_ships_overfull by (rewrite Hl; exact Hlt).
  reflexivity.
Qed.

(** X14: in the "conventional" design the per-target block is the
    concatenation of the rows of the target ships and of the ghost ships
    that fill the free slots, reordered (none lost, none added) so that the
    closeness, the first entry of a row, ascends: the closest target comes
    last. *)
Theorem X14_hhos_block_ascending_closeness (e : t) (fuel : nat) :
  state_design (cfg e) = "conventional"%string ->
  (1 <= HHOS_PathPlanning_Env.N_TSs_max (parent (cfg e)))%nat ->
  (List.length (TSs e) <= HHOS_PathPlanning_Env.N_TSs_max (parent (cfg e)))%nat ->
  (HHOS_PathPlanning_Env.N_TSs_max (parent (cfg e)) - List.length (TSs e) <= fuel)%nat ->
  exists TS_rows rows,
    state_TSs_rows e = Ok TS_rows
    /\ List.length TS_rows = List.length (TSs e)
    /\ state_TSs_block fuel e = Some (Ok (List.concat rows))
    /\ Permutation
         (TS_rows ++ repeat ghost_ship
                       (HHOS_PathPlanning_Env.N_TSs_max (parent (cfg e)) - List.length (TSs e)))
         rows
    /\ ascending (map row_key rows).
Proof.
  intros Hd H1 Hle Hfuel.
  destruct (hhos_rows_spec e) as (TS_rows & Hr & Hl & Hall).
  exists TS_rows.
  unfold state_TSs_block. rewrite Hr, Hd. cbn [String.eqb Ascii.eqb Bool.eqb].
  rewrite pad_ghost_ships_spec by (rewrite Hl; assumption).
  pose proof Hl as Hl'. rewrite Hl.
  set (padded := TS_rows ++ _).
  exists (sorted_by row_key padded).
  split; [reflexivity|]. split; [reflexivity|].
  split.
  - unfold np_hstack.
    destruct (sorted_by row_key padded) as [|row rest] eqn:Hs; [|reflexivity].
    pose proof (sorted_by_length row_key padded) as Hsl. rewrite Hs in Hsl.
    subst padded. rewrite length_app, repeat_length in Hsl. cbn [List.length] in Hsl. lia.
  - split; [apply sorted_by_perm | apply sorted_by_ascending].
Qed.

End HHOSObservation.

Lemma X12_hhos_state_fills_observation_space_witness :
  exists state,
    HHOS_PathPlanning_Env._set_state (P := sample_parent) 5
      (hhos_episode true 2 [hhos_vessel 100 0 0 3]) = Some (Ok state)
    /\ List.length state
       = HHOS_PathPlanning_Env.obs_size
           (HHOS_PathPlanning_Env.cfg (hhos_episode true 2 [hhos_vessel 100 0 0 3])).
Proof.
  apply (X12_hhos_state_fills_observation_space (P := sample_parent)
           true "sampled" false 2 false 1 1 1 1 1
           (hhos_episode true 2 [hhos_vessel 100 0 0 3]) 5).
  - exact sample_parent_init.
  - reflexivity.
  - cbn; lia.
  - cbn; lia.
  - cbn; lia.
Defined.

Lemma X13_hhos_padding_never_ends_witness :
  HHOS_PathPlanning_Env._set_state (P := sample_parent) 1000
    (hhos_episode false 1 [hhos_vessel 100 0 0 3; hhos_vessel 200 0 0 3]) = None.
Proof.
  apply (X13_hhos_padding_never_ends (P := sample_parent)); [reflexivity | cbn; lia].
Defined.

Lemma X14_hhos_block_ascending_closeness_witness :
  exists TS_rows rows,
    HHOS_PathPlanning_Env.state_TSs_rows (P := sample_parent)
      (hhos_episode false 3 [hhos_vessel 100 0 0 3]) = Ok TS_rows
    /\ List.length TS_rows = 1%nat
    /\ HHOS_PathPlanning_Env.state_TSs_block (P := sample_parent) 5
         (hhos_episode false 3 [hhos_vessel 100 0 0 3]) = Some (Ok (List.concat rows))
    /\ Permutation (TS_rows ++ repeat HHOS_PathPlanning_Env.ghost_ship 2) rows
    /\ ascending (map HHOS_PathPlanning_Env.row_key rows).
Proof.
  apply (X14_hhos_block_ascending_closeness (P := sample_parent)
           (hhos_episode false 3 [hhos_vessel 100 0 0 3]) 5);
    [reflexivity | cbn; lia | cbn; lia | cbn; lia].
Defined.

(* ================================================================== *)
(** * Angles: wrapping keeps sine and cosine                           *)
(* ================================================================== *)

Lemma sin_cos_whole_turns (x : R) (k : Z) :
  sin (x + 2 * IZR k * PI) = sin x /\ cos (x + 2 * IZR k * PI) = cos x.
Proof.
  destruct (Z_le_gt_dec 0 k) as [Hk | Hk].
  - rewrite <- (Z2Nat.id k Hk), <- INR_IZR_INZ.
    split; [apply sin_period | apply cos_period].
  - assert (Hn : (0 <= - k)%Z) by lia.
    pose proof (sin_period (x + 2 * IZR k * PI) (Z.to_nat (- k))) as Hs.
    pose proof (cos_period (x + 2 * IZR k * PI) (Z.to_nat (- k))) as Hc.
    rewrite INR_IZR_INZ, (Z2Nat.id _ Hn), opp_IZR in Hs, Hc.
    replace (x + 2 * IZR k * PI + 2 * - IZR k * PI) with x in Hs, Hc by lra.
    split; congruence.
Qed.

Lemma angle_to_2pi_whole_turns (a : R) :
  FossenFnc.angle_to_2pi a = a + 2 * IZR (- Int_part (a / (2 * PI))) * PI.
Proof.
  unfold FossenFnc.angle_to_2pi, frac_part. rewrite opp_IZR.
  pose proof PI_gt_3.
  assert (Hq : a / (2 * PI) * (2 * PI) = a) by (field; lra).
  lra.
Qed.

Lemma sin_angle_to_2pi (a : R) : sin (FossenFnc.angle_to_2pi a) = sin a.
Proof. rewrite angle_to_2pi_whole_turns. apply sin_cos_whole_turns. Qed.

Lemma cos_angle_to_2pi (a : R) : cos (FossenFnc.angle_to_2pi a) = cos a.
Proof. rewrite angle_to_2pi_whole_turns. apply sin_cos_whole_turns. Qed.

Lemma angle_to_pi_range (a : R) : - PI <= FossenFnc.angle_to_pi a < PI.
Proof.
  unfold FossenFnc.angle_to_pi.
  destruct (angle_to_2pi_wrapped (a + PI)) as [H0 H1]. lra.
Qed.

(* ================================================================== *)
(** * FossenEnv: the plotting helper                                   *)
(* ================================================================== *)

(** X15: [_plot_jet] always finds an end point, in whichever of its four
    quadrant cases the wrapped angle falls, and all four cases draw the
    same line: from (E, N) over the length [l] in the direction [angle],
    measured clockwise from north. *)
Theorem X15_plot_jet_end_point (E N l angle : R) :
  exists E1 N1,
    FossenEnv_episode._plot_jet E N l angle = Ok (E1, N1)
    /\ E1 = E + sin angle * l
    /\ N1 = N + cos angle * l.
Proof.
  unfold FossenEnv_episode._plot_jet.
  rewrite <- (sin_angle_to_2pi angle), <- (cos_angle_to_2pi angle).
  destruct (angle_to_2pi_wrapped angle) as [H0 H1].
  set (t := FossenFnc.angle_to_2pi angle) in *. cbv zeta.
  destruct (t <=? PI / 2) eqn:E1.
  { eexists _, _. split; [reflexivity|]. split; reflexivity. }
  apply Rleb_false in E1.
  destruct ((3 / 2 * PI <? t) && (t <=? 2 * PI)) eqn:E2.
  { eexists _, _. split; [reflexivity|].
    replace (2 * PI - t) with (- t + 2 * 1 * PI) by lra.
    destruct (sin_cos_whole_turns (- t) 1) as [Hs Hc].
    rewrite Hs, Hc, sin_neg, cos_neg. split; lra. }
  destruct ((PI <? t) && (t <=? 3 / 2 * PI)) eqn:E3.
  { eexists _, _. split; [reflexivity|].
    replace (t - PI) with (- (PI - t)) by lra.
    rewrite sin_neg, cos_neg, sin_PI_x, Rtrigo_facts.cos_pi_minus. split; lra. }
  destruct ((PI / 2 <? t) && (t <=? PI)) eqn:E4.
  { eexists _, _. split; [reflexivity|].
    rewrite sin_PI_x, Rtrigo_facts.cos_pi_minus. split; lra. }
  exfalso.
  apply andb_false_iff in E2, E3, E4.
  destruct (Rle_or_lt t PI) as [Hp | Hp].
  - destruct E4 as [E4 | E4]; [apply Rltb_false in E4 | apply Rleb_false in E4]; lra.
  - destruct (Rle_or_lt t (3 / 2 * PI)) as [Hq | Hq].
    + destruct E3 as [E3 | E3]; [apply Rltb_false in E3 | apply Rleb_false in E3]; lra.
    + destruct E2 as [E2 | E2]; [apply Rltb_false in E2 | apply Rleb_false in E2]; lra.
Qed.

(* ================================================================== *)
(** * FossenEnv: bounds of the reward                                  *)
(* ================================================================== *)

Section FossenRewardBounds.
Context {CS : CyberShipII.methods}.

(** X16: every part of the FossenEnv reward is a penalty. The distance,
    collision, COLREG and comfort parts are never positive, the heading
    part lies in [-3, 0], the collision part is at least -10 and the COLREG
    part at least -3 for each target ship; so with weights that are not
    negative the reward is never positive. *)
Theorem X16_fossen_reward_never_positive (e : FossenEnv.t)
    (w_dist w_head w_coll w_COLREG w_comf : R) (rw : FossenEnv.reward) :
  0 < FossenEnv.E_max (FossenEnv.cfg e) ->
  0 <= w_dist -> 0 <= w_head -> 0 <= w_coll -> 0 <= w_COLREG -> 0 <= w_comf ->
  FossenEnv._calculate_reward e w_dist w_head w_coll w_COLREG w_comf = Ok rw ->
  FossenEnv.r rw <= 0
  /\ FossenEnv.r_dist rw <= 0
  /\ -3 <= FossenEnv.r_head rw <= 0
  /\ -10 * INR (List.length (FossenEnv.TSs e)) <= FossenEnv.r_coll rw <= 0
  /\ -3 * INR (List.length (FossenEnv.TSs e)) <= FossenEnv.r_COLREG rw <= 0
  /\ FossenEnv.r_comf rw <= 0.
Proof.
  intros HE H1 H2 H3 H4 H5 Hr.
  pose proof (fossen_reward_sum e _ _ _ _ _ rw Hr) as Hsum.
  revert Hr. unfold FossenEnv._calculate_reward.
  destruct (CyberShipII.eta (FossenEnv.OS e)) as [[N0 E0] head0].
  destruct (CyberShipII.nu (FossenEnv.OS e)) as [[u v] r_OS].
  set (f := fun (acc : R * R) (TS_idx : nat) (TS : CyberShipII.t) => _).
  assert (G : forall l idx rc rC rc' rC',
             foldM_enum f idx l (rc, rC) = Ok (rc', rC') ->
             rc - 10 * INR (List.length l) <= rc' <= rc
             /\ rC - 3 * INR (List.length l) <= rC' <= rC).
  { induction l as [|TS l IH]; intros idx rc rC rc' rC'.
    - cbn [foldM_enum List.length INR]. intros E. apply Ok_inj in E.
      injection E as <- <-. lra.
    - cbn [foldM_enum List.length]. rewrite S_INR.
      destruct (f (rc, rC) idx TS) as [[rc1 rC1]|] eqn:Ef; cbn [bind]; [|discriminate].
      intros E. apply IH in E.
      assert (Hstep : rc - 10 <= rc1 <= rc /\ rC - 3 <= rC1 <= rC).
      { revert Ef. unfold f.
        destruct (CyberShipII.eta TS) as [[N_TS E_TS] p].
        set (rc2 := if _ <=? FossenEnv.coll_dist _ then rc - 10 else rc).
        assert (Hrc2 : rc - 10 <= rc2 <= rc) by (unfold rc2; destruct (_ <=? _); lra).
        destruct (getitem (FossenEnv.respawn_flags e) idx) as [flag|]; cbn [bind];
          [|discriminate].
        destruct (negb flag); [|intros Ef; apply Ok_inj in Ef; injection Ef as <- <-; lra].
        destruct (_ && _); [|intros Ef; apply Ok_inj in Ef; injection Ef as <- <-; lra].
        destruct (getitem (FossenEnv.TS_COLREGs e) idx) as [sigma|]; cbn [bind];
          [|discriminate].
        destruct (_ && _); [intros Ef; apply Ok_inj in Ef; injection Ef as <- <-; lra|].
        destruct (_ && _); intros Ef; apply Ok_inj in Ef; injection Ef as <- <-; lra. }
      lra. }
  destruct (foldM_enum f 0 (FossenEnv.TSs e) (0, 0)) as [[rc rC]|] eqn:Ef; cbn [bind];
    [|discriminate].
  apply G in Ef.
  intros Hr. apply Ok_inj in Hr. subst rw.
  cbv beta iota zeta delta [FossenEnv.r FossenEnv.r_dist FossenEnv.r_head FossenEnv.r_coll
                            FossenEnv.r_COLREG FossenEnv.r_comf] in *.
  set (dist := FossenFnc.ED N0 E0 _ _ true) in *.
  assert (Hd : 0 <= dist) by (unfold dist, FossenFnc.ED; apply sqrt_pos).
  set (ang := FossenFnc.angle_to_pi _) in *.
  pose proof (angle_to_pi_range ang) as Ha.
  assert (Hang : 0 <= Rabs ang <= PI).
  { split; [apply Rabs_pos|].
    unfold ang. unfold Rabs. destruct (Rcase_abs _);
      pose proof (angle_to_pi_range
        (FossenFnc.bng_rel N0 E0 (fst (FossenEnv.goal e)) (snd (FossenEnv.goal e)) head0 true));
      lra. }
  pose proof PI_gt_3 as HPI.
  assert (Hdist : - dist / FossenEnv.E_max (FossenEnv.cfg e) <= 0).
  { unfold Rdiv. pose proof (Rinv_0_lt_compat _ HE). nra. }
  assert (Hhead : -3 <= -3 * Rabs ang / PI <= 0).
  { unfold Rdiv. pose proof (Rinv_0_lt_compat PI ltac:(lra)) as Hi.
    assert (Hq : Rabs ang * / PI <= 1).
    { apply (Rmult_le_reg_r PI); [lra|]. rewrite Rmult_assoc, Rinv_l by lra. lra. }
    assert (Hq0 : 0 <= Rabs ang * / PI) by (apply Rmult_le_pos; lra).
    lra. }
  assert (Hcomf : -10 * Rabs r_OS ^ 2 <= 0) by (pose proof (pow2_ge_0 (Rabs r_OS)); lra).
  clear Hsum.
  repeat split; try lra.
  assert (P1 : w_dist * (- dist / FossenEnv.E_max (FossenEnv.cfg e)) <= 0) by nra.
  assert (P2 : w_head * (-3 * Rabs ang / PI) <= 0) by nra.
  assert (P3 : w_coll * rc <= 0) by nra.
  assert (P4 : w_COLREG * rC <= 0) by nra.
  assert (P5 : w_comf * (-10 * Rabs r_OS ^ 2) <= 0) by nra.
  lra.
Qed.

End FossenRewardBounds.

Lemma X16_fossen_reward_never_positive_witness :
  exists rw,
    FossenEnv._calculate_reward (CS := sample_methods) episode_355 1 1 1 1 1 = Ok rw
    /\ FossenEnv.r rw <= 0
    /\ FossenEnv.r_dist rw <= 0
    /\ -3 <= FossenEnv.r_head rw <= 0
    /\ -10 * INR (List.length (FossenEnv.TSs episode_355)) <= FossenEnv.r_coll rw <= 0
    /\ -3 * INR (List.length (FossenEnv.TSs episode_355)) <= FossenEnv.r_COLREG rw <= 0
    /\ FossenEnv.r_comf rw <= 0.
Proof.
  destruct (fossen_reward_returns (CS := sample_methods) episode_355 1 1 1 1 1) as [rw Hrw];
    [cbn; lia | cbn; lia |].
  exists rw. split; [exact Hrw|].
  apply (X16_fossen_reward_never_positive (CS := sample_methods) episode_355 1 1 1 1 1 rw);
    try exact Hrw; cbn; lra.
Defined.

(* ================================================================== *)
(** * FossenEnv: the observation                                       *)
(* ================================================================== *)

(** The attributes of every environment that the constructor returns. *)
Lemma fossen_init_spec (N_TSs_max : nat) (N_TSs_random N_TSs_increasing : bool)
    (cnt_approach state_design : string) (plot_traj : bool) (c : FossenEnv.config) :
  FossenEnv.__init__ N_TSs_max N_TSs_random N_TSs_increasing cnt_approach state_design
                     plot_traj = Ok c ->
  c = {| FossenEnv.delta_t := 0.5; FossenEnv.N_max := 200; FossenEnv.E_max := 200;
         FossenEnv.N_TSs_max := N_TSs_max; FossenEnv.N_TSs_random := N_TSs_random;
         FossenEnv.N_TSs_increasing := N_TSs_increasing;
         FossenEnv.outer_step_cnt := if N_TSs_increasing then Some 0%nat else None;
         FossenEnv.sight := 100; FossenEnv.coll_dist := 6.275; FossenEnv.TCPA_crit := 120;
         FossenEnv.min_dist_spawn_TS := 20;
         FossenEnv.cnt_approach := cnt_approach; FossenEnv.state_design := state_design;
         FossenEnv.goal_reach_dist := 10; FossenEnv.stop_spawn_dist := 5 * 10;
         FossenEnv.num_obs_OS := 9; FossenEnv.num_obs_TS := 6;
         FossenEnv.plot_traj := plot_traj;
         FossenEnv.obs_size :=
           if String.eqb state_design "RecDQN" then (9 + N_TSs_max * 6)%nat else (9 + 6)%nat;
         FossenEnv.action_space :=
           if FossenEnv.string_in cnt_approach ["tau"; "rps_angle"; "f123"]%string
           then Some 3%nat else None;
         FossenEnv._max_episode_steps := 500 |}
  /\ (state_design = "RecDQN"%string \/ state_design = "maxRisk"%string)
  /\ (N_TSs_random = false \/ N_TSs_increasing = false).
Proof.
  unfold FossenEnv.__init__.
  destruct (Nat.leb _ 1) eqn:E1; cbn [assert bind]; [|discriminate].
  destruct (FossenEnv.string_in state_design _) eqn:E2; cbn [assert bind]; [|discriminate].
  assert (Hsd : state_design = "RecDQN"%string \/ state_design = "maxRisk"%string).
  { unfold FossenEnv.string_in in E2. cbn [existsb] in E2.
    apply orb_true_iff in E2. destruct E2 as [E2 | E2].
    - right. now apply String.eqb_eq.
    - apply orb_true_iff in E2. destruct E2 as [E2 | E2]; [|discriminate].
      left. now apply String.eqb_eq. }
  assert (Hfl : N_TSs_random = false \/ N_TSs_increasing = false).
  { destruct N_TSs_random, N_TSs_increasing; auto; discriminate. }
  destruct Hsd as [-> | ->]; cbn [String.eqb Ascii.eqb Bool.eqb bind];
    intros H; apply Ok_inj in H; subst c; auto.
Qed.

Lemma argsort_insert_perm (key : nat -> R) (i : nat) (l : list nat) :
  Permutation (i :: l) (argsort_insert key i l).
Proof.
  induction l as [|j l IH]; cbn [argsort_insert]; [reflexivity|].
  destruct (key i <=? key j); [reflexivity|].
  rewrite perm_swap. now apply perm_skip.
Qed.

Lemma argsort_insert_hd (key : nat -> R) (i : nat) (l : list nat) (c : nat) :
  hd_error (argsort_insert key i l) = Some c -> c = i \/ hd_error l = Some c.
Proof.
  destruct l as [|j l]; cbn [argsort_insert hd_error].
  - intros E. injection E as <-. now left.
  - destruct (key i <=? key j); cbn [hd_error]; intros E; injection E as <-; auto.
Qed.

Lemma argsort_insert_ascending (key : nat -> R) (i : nat) (l : list nat) :
  ascending (map key l) -> ascending (map key (argsort_insert key i l)).
Proof.
  induction l as [|j l IH]; cbn [argsort_insert map].
  - intros _. cbn. auto.
  - intros Hs. destruct (key i <=? key j) eqn:E.
    + apply Rleb_true in E. cbn [map]. apply ascending_cons. split; [|exact Hs].
      cbn [hd_error]. intros c Ec. injection Ec as <-. lra.
    + apply Rleb_false in E. cbn [map]. apply ascending_cons in Hs. destruct Hs as [Hhd Hs].
      apply ascending_cons. split; [|apply IH; exact Hs].
      intros c Ec.
      destruct (argsort_insert key i l) as [|x rest] eqn:Ei; [discriminate|].
      cbn [map hd_error] in Ec. injection Ec as <-.
      destruct (argsort_insert_hd key i l x) as [-> | Hx]; [now rewrite Ei | lra |].
      apply Hhd. destruct l as [|y l']; [discriminate|].
      cbn [hd_error map] in *. now injection Hx as ->.
Qed.

Lemma np_argsort_perm (keys : list R) :
  Permutation (seq 0 (List.length keys)) (np_argsort keys).
Proof.
  unfold np_argsort.
  induction (seq 0 (List.length keys)) as [|i l IH]; cbn [fold_right]; [reflexivity|].
  rewrite <- argsort_insert_perm. now apply perm_skip.
Qed.

Lemma np_argsort_ascending (keys : list R) :
  ascending (map (fun k => nth k keys 0) (np_argsort keys)).
Proof.
  unfold np_argsort.
  induction (seq 0 (List.length keys)) as [|i l IH]; cbn [fold_right]; [exact I|].
  apply argsort_insert_ascending, IH.
Qed.

(** The head of an ascending list is a minimum. *)
Lemma ascending_hd_min (a : R) (l : list R) :
  ascending (a :: l) -> Forall (fun b => a <= b) l.
Proof.
  revert a. induction l as [|b l IH]; intros a Hs; [constructor|].
  cbn [ascending] in Hs. destruct Hs as [Hab Hs].
  constructor; [exact Hab|].
  eapply Forall_impl; [|apply IH; exact Hs]. cbv beta. intros; lra.
Qed.

Section FossenObservation.
Context {CS : CyberShipII.methods}.

Lemma ship_domain_pos (OS TS : CyberShipII.t) :
  0 < CyberShipII._get_V OS -> 0 <= CyberShipII.length OS ->
  0 < FossenEnv._get_ship_domain OS TS.
Proof.
  intros HV HL. unfold FossenEnv._get_ship_domain, FossenFnc.xy_from_polar.
  set (VR := sqrt _).
  assert (Hm : 0 < Rmax (CyberShipII._get_V OS) VR).
  { eapply Rlt_le_trans; [exact HV | apply Rmax_l]. }
  assert (Hp : 0 <= fpow (Rmax (CyberShipII._get_V OS) VR) 1.26).
  { unfold fpow. destruct (_ =? 0); [lra|]. unfold Rpower. left. apply exp_pos. }
  nra.
Qed.

Lemma fossen_state_length (e : FossenEnv.t) :
  FossenEnv.cnt_approach (FossenEnv.cfg e) = "tau"%string ->
  FossenEnv.num_obs_TS (FossenEnv.cfg e) = 6%nat ->
  CyberShipII.tau_cnt_r_max (FossenEnv.OS e) <> 0 ->
  (List.length (FossenEnv.TSs e) <= List.length (FossenEnv.TS_COLREGs e))%nat ->
  FossenEnv.state_design (FossenEnv.cfg e) = "maxRisk"%string
  \/ (FossenEnv.state_design (FossenEnv.cfg e) = "RecDQN"%string
      /\ (in_sight_count e <= FossenEnv.N_TSs_max (FossenEnv.cfg e))%nat) ->
  exists state,
    FossenEnv._set_state e = Ok state
    /\ List.length state
       = (9 + if String.eqb (FossenEnv.state_design (FossenEnv.cfg e)) "RecDQN"
              then FossenEnv.N_TSs_max (FossenEnv.cfg e) * 6 else 6)%nat.
Proof.
  intros Hcnt Hk Hmax Hlen Hcase.
  assert (Hblock : exists block, FossenEnv.state_TSs_block e = Ok block
                     /\ List.length block
                        = (if String.eqb (FossenEnv.state_design (FossenEnv.cfg e)) "RecDQN"
                           then FossenEnv.N_TSs_max (FossenEnv.cfg e) * 6 else 6)%nat).
  { destruct Hcase as [Hd | [Hd Hcount]].
    - destruct (fossen_block_maxRisk e Hd Hk Hlen) as (block & Hb & Hl).
      exists block. split; [exact Hb|]. rewrite Hd. exact Hl.
    - destruct (fossen_block_RecDQN e Hd Hk Hlen Hcount) as (present & Hb & Hp).
      eexists. split; [exact Hb|].
      rewrite length_app, repeat_length, Hp, Hd.
      cbn [String.eqb Ascii.eqb Bool.eqb]. lia. }
  destruct Hblock as (block & Hb & Hl).
  unfold FossenEnv._set_state.
  destruct (CyberShipII.eta (FossenEnv.OS e)) as [[N0 E0] head0].
  rewrite Hcnt. cbn [String.eqb Ascii.eqb Bool.eqb].
  rewrite fdiv_ok by exact Hmax. cbn [bind].
  destruct (CyberShipII.nu (FossenEnv.OS e)) as [[u v] r0].
  destruct (CyberShipII.nu_dot (FossenEnv.OS e)) as [[du dv] dr].
  destruct (CyberShipII.eta_dot (FossenEnv.OS e)) as [[dN dE] dh].
  rewrite Hb. cbn [bind]. eexists. split; [reflexivity|].
  rewrite !length_app, Hl. cbn [List.length]. lia.
Qed.

(** X17: the observation has exactly as many entries as the observation
    space that the constructor declares, in both state designs: under
    "RecDQN" when the target ships in sight do not outnumber the target
    slots, under "maxRisk" always. It is assumed that the control approach
    is "tau" with a non-zero maximum of the control moment, and that one
    COLREG situation is stored for each target ship. *)
Theorem X17_fossen_state_fills_observation_space (N_TSs_max : nat)
    (N_TSs_random N_TSs_increasing : bool) (state_design : string) (plot_traj : bool)
    (e : FossenEnv.t) :
  FossenEnv.__init__ N_TSs_max N_TSs_random N_TSs_increasing "tau" state_design plot_traj
  = Ok (FossenEnv.cfg e) ->
  CyberShipII.tau_cnt_r_max (FossenEnv.OS e) <> 0 ->
  (List.length (FossenEnv.TSs e) <= List.length (FossenEnv.TS_COLREGs e))%nat ->
  state_design = "maxRisk"%string \/ (in_sight_count e <= N_TSs_max)%nat ->
  exists state,
    FossenEnv._set_state e = Ok state
    /\ List.length state = FossenEnv.obs_size (FossenEnv.cfg e).
Proof.
  intros Hinit Hmax Hlen Hcase.
  destruct (fossen_init_spec _ _ _ _ _ _ _ Hinit) as (Hc & Hsd & _).
  destruct (fossen_state_length e) as (state & Hs & Hl);
    try (rewrite Hc; reflexivity); try assumption.
  - rewrite Hc. cbn [FossenEnv.state_design FossenEnv.N_TSs_max].
    destruct Hcase as [Hm | Hcount]; [now left|].
    destruct Hsd as [Hsd | Hsd]; [right; split; assumption | now left].
  - exists state. split; [exact Hs|]. rewrite Hl, Hc.
    cbn [FossenEnv.state_design FossenEnv.N_TSs_max FossenEnv.obs_size].
    destruct (String.eqb state_design "RecDQN"); lia.
Qed.

(** X18: under "RecDQN", more target ships in sight than target slots make
    the padding width negative: the per-target block ends in ValueError and
    no observation is returned. *)
Theorem X18_fossen_state_overflow (e : FossenEnv.t) :
  FossenEnv.state_design (FossenEnv.cfg e) = "RecDQN"%string ->
  FossenEnv.num_obs_TS (FossenEnv.cfg e) = 6%nat ->
  (List.length (FossenEnv.TSs e) <= List.length (FossenEnv.TS_COLREGs e))%nat ->
  (FossenEnv.N_TSs_max (FossenEnv.cfg e) < in_sight_count e)%nat ->
  FossenEnv.state_TSs_block e = Raise ValueError
  /\ forall state, FossenEnv._set_state e <> Ok state.
Proof.
  intros Hd Hk Hlen Hcount.
  assert (Hb : FossenEnv.state_TSs_block e = Raise ValueError).
  { destruct (fossen_rows_spec e Hlen) as (rows & ratios & Hf & Hr & Hq & Hall).
    unfold FossenEnv.state_TSs_block. rewrite Hf. cbn [bind]. rewrite Hd, Hk.
    cbn [String.eqb Ascii.eqb Bool.eqb].
    destruct (Nat.eqb_spec (List.length rows) 0) as [H0|H0]; [lia|].
    destruct (reordered_rows rows ratios) as [Hl Hall']; [lia | assumption |].
    cbv zeta in Hl, Hall'.
    pose proof (length_concat_uniform 6 _ Hall') as Hc. rewrite Hl, Hr in Hc.
    unfold np_pad_nan. rewrite Hc.
    destruct (Nat.ltb_spec (6 * FossenEnv.N_TSs_max (FossenEnv.cfg e)) (6 * in_sight_count e));
      [reflexivity | lia]. }
  split; [exact Hb|].
  intros state. unfold FossenEnv._set_state.
  destruct (CyberShipII.eta (FossenEnv.OS e)) as [[N0 E0] head0].
  match goal with |- (f_info <- ?c ;; _) <> _ => destruct c as [fi|]; cbn [bind] end;
    [|discriminate].
  destruct (CyberShipII.nu (FossenEnv.OS e)) as [[u v] r0].
  destruct (CyberShipII.nu_dot (FossenEnv.OS e)) as [[du dv] dr].
  destruct (CyberShipII.eta_dot (FossenEnv.OS e)) as [[dN dE] dh].
  rewrite Hb. discriminate.
Qed.

End FossenObservation.

(* ================================================================== *)
(** * FossenEnv: the order of the target ships in the observation      *)
(* ================================================================== *)

Lemma ascending_rev_map_rev {A} (f : A -> R) (l : list A) :
  descending (map f (rev l)) <-> ascending (map f l).
Proof. unfold descending. now rewrite <- map_rev, rev_involutive. Qed.

Lemma map_nth_seq {A} (l : list A) (d : A) :
  map (fun i => nth i l d) (seq 0 (List.length l)) = l.
Proof.
  induction l as [|a l IH]; [reflexivity|].
  cbn [List.length seq map nth]. f_equal.
  rewrite <- seq_shift, map_map. exact IH.
Qed.

Lemma Forall2_nth_in_range {A B} (R : A -> B -> Prop) (la : list A) (lb : list B) (da : A) (db : B)
    (idx : list nat) :
  Forall2 R la lb -> Forall (fun i => (i < List.length la)%nat) idx ->
  Forall2 R (map (fun i => nth i la da) idx) (map (fun i => nth i lb db) idx).
Proof.
  intros HF Hidx. induction Hidx as [|i idx Hi _ IH]; cbn [map]; constructor; [|exact IH].
  clear IH. revert i Hi. induction HF as [|a b la lb Hab _ IH]; intros i Hi.
  - cbn in Hi. lia.
  - destruct i as [|i]; [exact Hab|]. cbn [nth]. apply IH. cbn in Hi. lia.
Qed.

Section FossenOrder.
Context {CS : CyberShipII.methods}.

(** The rows and the risk ratios that the loop over the target ships
    builds belong, one by one, to the target ships in sight. *)
Lemma fossen_rows_of_visible (e : FossenEnv.t) (rows : list (list cell)) (ratios : list R) :
  FossenEnv.state_TSs_rows e = Ok (rows, ratios) ->
  ratios = map (risk_ratio e) (visible e)
  /\ Forall2 (row_of_target e) rows (visible e).
Proof.
  unfold FossenEnv.state_TSs_rows, visible, risk_ratio, row_of_target, in_sight, encounter_ED.
  destruct (CyberShipII.eta (FossenEnv.OS e)) as [[N0 E0] head0].
  unfold north, east. cbn [fst snd].
  set (f := fun (acc : list (list cell) * list R) (TS_idx : nat) (TS : CyberShipII.t) => _).
  set (p := fun TS : CyberShipII.t => _ <=? _).
  set (q := fun TS : CyberShipII.t => _ / _).
  set (Rrow := fun (row : list cell) (TS : CyberShipII.t) => _ /\ _).
  assert (G : forall l idx rows0 ratios0 rows1 ratios1,
             foldM_enum f idx l (rows0, ratios0) = Ok (rows1, ratios1) ->
             exists rows', rows1 = rows0 ++ rows'
               /\ ratios1 = ratios0 ++ map q (filter p l)
               /\ Forall2 Rrow rows' (filter p l)).
  { induction l as [|TS l IH]; intros idx rows0 ratios0 rows1 ratios1.
    - cbn [foldM_enum filter map]. intros E. apply Ok_inj in E. injection E as <- <-.
      exists []. rewrite !app_nil_r. repeat split. constructor.
    - cbn [foldM_enum filter]. unfold f at 1.
      destruct (CyberShipII.eta TS) as [[N E] headTS] eqn:Heta.
      assert (Hp : p TS = (FossenFnc.ED N0 E0 N E true <=? FossenEnv.sight (FossenEnv.cfg e)))
        by (unfold p; now rewrite Heta).
      assert (Hq : q TS = FossenFnc.ED N0 E0 N E true
                          / FossenEnv._get_ship_domain (FossenEnv.OS e) TS)
        by (unfold q; now rewrite Heta).
      rewrite Hp.
      destruct (FossenFnc.ED N0 E0 N E true <=? FossenEnv.sight (FossenEnv.cfg e)) eqn:Hs.
      + destruct (getitem (FossenEnv.TS_COLREGs e) idx) as [sigma|]; cbn [bind]; [|discriminate].
        intros E1. apply IH in E1. destruct E1 as (rows' & -> & -> & HF).
        eexists (_ :: rows'). rewrite <- !app_assoc. cbn [app map].
        split; [reflexivity|]. split; [now rewrite Hq|].
        constructor; [|exact HF]. unfold Rrow. rewrite Heta. cbn [fst snd hd_error List.length].
        split; reflexivity.
      + cbn [bind]. intros E1. apply IH in E1. exact E1. }
  intros E. apply G in E. destruct E as (rows' & -> & -> & HF). cbn [app]. auto.
Qed.

(** X19: under "RecDQN", with the own ship under way (so that every ship
    domain is positive), the per-target block lists the target ships in
    sight, each of them once, in descending order of their risk ratio
    (distance over ship domain): the target at highest risk comes last,
    before the NaN entries that fill the free slots. *)
Theorem X19_fossen_RecDQN_descending_risk_ratio (e : FossenEnv.t) :
  FossenEnv.state_design (FossenEnv.cfg e) = "RecDQN"%string ->
  FossenEnv.num_obs_TS (FossenEnv.cfg e) = 6%nat ->
  (List.length (FossenEnv.TSs e) <= List.length (FossenEnv.TS_COLREGs e))%nat ->
  (in_sight_count e <= FossenEnv.N_TSs_max (FossenEnv.cfg e))%nat ->
  0 < CyberShipII._get_V (FossenEnv.OS e) -> 0 <= CyberShipII.length (FossenEnv.OS e) ->
  exists targets rows,
    Permutation (visible e) targets
    /\ descending (map (risk_ratio e) targets)
    /\ Forall (fun TS => 0 <= risk_ratio e TS) targets
    /\ Forall2 (row_of_target e) rows targets
    /\ FossenEnv.state_TSs_block e
       = Ok (List.concat rows
             ++ repeat NaN (6 * (FossenEnv.N_TSs_max (FossenEnv.cfg e) - in_sight_count e))).
Proof.
  intros Hd Hk Hlen Hcount HV HL.
  destruct (fossen_rows_spec e Hlen) as (rows & ratios & Hf & Hr & Hq & Hall).
  destruct (fossen_rows_of_visible e rows ratios Hf) as (Hratios & HF2).
  set (order := rev (np_argsort ratios)).
  set (d := FossenEnv.OS e).
  exists (map (fun i => nth i (visible e) d) order), (map (fun i => nth i rows []) order).
  assert (Hvis : List.length (visible e) = in_sight_count e) by reflexivity.
  assert (Hperm : Permutation (seq 0 (List.length (visible e))) order).
  { unfold order. rewrite <- Permutation_rev. rewrite Hvis, <- Hq. apply np_argsort_perm. }
  assert (Hrange : Forall (fun i => (i < List.length rows)%nat) order).
  { unfold order. apply Forall_rev. rewrite Hr, <- Hq. apply np_argsort_in_range. }
  split.
  { rewrite <- (map_nth_seq (visible e) d) at 1. now apply Permutation_map. }
  split.
  { rewrite map_map.
    assert (E : map (fun i => risk_ratio e (nth i (visible e) d)) order
                = map (fun i => nth i ratios 0) order).
    { apply map_ext_in. intros i Hi.
      rewrite Forall_forall in Hrange. specialize (Hrange i Hi).
      rewrite Hratios.
      rewrite (nth_indep _ 0 (risk_ratio e d)) by (rewrite length_map, Hvis, <- Hr; exact Hrange).
      now rewrite map_nth. }
    rewrite E. unfold order. apply ascending_rev_map_rev. apply np_argsort_ascending. }
  split.
  { apply Forall_forall. intros TS HTS.
    unfold risk_ratio. apply Rmult_le_pos.
    - unfold encounter_ED, FossenFnc.ED. apply sqrt_pos.
    - left. apply Rinv_0_lt_compat. now apply ship_domain_pos. }
  split.
  { apply Forall2_nth_in_range; assumption. }
  unfold FossenEnv.state_TSs_block. rewrite Hf. cbn [bind]. rewrite Hd, Hk.
  cbn [String.eqb Ascii.eqb Bool.eqb].
  destruct (Nat.eqb_spec (List.length rows) 0) as [H0|H0].
  - assert (Hnil : ratios = []) by (destruct ratios; [reflexivity | cbn in Hq; lia]).
    unfold order. rewrite Hnil. cbn [np_argsort List.length seq fold_right rev map List.concat app].
    rewrite <- Hr, H0. do 2 f_equal. lia.
  - destruct (reordered_rows rows ratios) as [Hl Hall']; [lia | assumption |].
    cbv zeta in Hl, Hall'. fold order in Hl, Hall'.
    pose proof (length_concat_uniform 6 _ Hall') as Hc. rewrite Hl, Hr in Hc.
    fold order. rewrite np_pad_nan_ok by (rewrite Hc; nia).
    rewrite Hc. do 3 f_equal. lia.
Qed.

(** X20: under "maxRisk", with the own ship under way, the per-target block
    is six zeros when no target ship is in sight, and otherwise the row of
    a target ship in sight whose risk ratio (distance over ship domain) is
    the smallest of all target ships in sight. *)
Theorem X20_fossen_maxRisk_selects_smallest_risk_ratio (e : FossenEnv.t) :
  FossenEnv.state_design (FossenEnv.cfg e) = "maxRisk"%string ->
  FossenEnv.num_obs_TS (FossenEnv.cfg e) = 6%nat ->
  (List.length (FossenEnv.TSs e) <= List.length (FossenEnv.TS_COLREGs e))%nat ->
  0 < CyberShipII._get_V (FossenEnv.OS e) -> 0 <= CyberShipII.length (FossenEnv.OS e) ->
  (visible e = [] -> FossenEnv.state_TSs_block e = Ok (repeat (Num 0) 6))
  /\ (visible e <> [] ->
      exists TS block,
        In TS (visible e)
        /\ Forall (fun TS' => 0 <= risk_ratio e TS <= risk_ratio e TS') (visible e)
        /\ FossenEnv.state_TSs_block e = Ok block
        /\ row_of_target e block TS).
Proof.
  intros Hd Hk Hlen HV HL.
  destruct (fossen_rows_spec e Hlen) as (rows & ratios & Hf & Hr & Hq & Hall).
  destruct (fossen_rows_of_visible e rows ratios Hf) as (Hratios & HF2).
  assert (Hvis : List.length (visible e) = in_sight_count e) by reflexivity.
  unfold FossenEnv.state_TSs_block. rewrite Hf. cbn [bind]. rewrite Hd, Hk.
  cbn [String.eqb Ascii.eqb Bool.eqb].
  split.
  - intros Hnil. rewrite Hnil in Hvis. cbn in Hvis.
    destruct (Nat.eqb_spec (List.length rows) 0) as [H0|H0]; [|lia].
    do 2 f_equal. f_equal. lra.
  - intros Hne.
    destruct (Nat.eqb_spec (List.length rows) 0) as [H0|H0].
    { destruct (visible e); [congruence | cbn in Hvis; lia]. }
    set (d := FossenEnv.OS e).
    pose proof (np_argsort_ascending ratios) as Hasc.
    pose proof (np_argsort_perm ratios) as Hperm.
    pose proof (np_argsort_in_range ratios) as Hrange.
    destruct (np_argsort ratios) as [|i0 rest] eqn:Eo.
    { pose proof (np_argsort_length ratios) as Hlo. rewrite Eo in Hlo. cbn in Hlo. lia. }
    assert (Hi0 : (i0 < List.length ratios)%nat) by (inversion Hrange; assumption).
    exists (nth i0 (visible e) d), (nth i0 rows []).
    assert (Hmin : forall j, (j < List.length ratios)%nat -> nth i0 ratios 0 <= nth j ratios 0).
    { intros j Hj.
      assert (Hin : In j (i0 :: rest)).
      { eapply Permutation_in; [exact Hperm|]. apply in_seq. lia. }
      cbn [map] in Hasc. apply ascending_hd_min in Hasc.
      destruct Hin as [<- | Hin]; [lra|].
      rewrite Forall_forall in Hasc. apply (Hasc (nth j ratios 0)).
      apply in_map_iff. exists j. auto. }
    assert (Hnth : forall j, (j < List.length ratios)%nat ->
                     nth j ratios 0 = risk_ratio e (nth j (visible e) d)).
    { intros j Hj. rewrite Hratios.
      rewrite (nth_indep _ 0 (risk_ratio e d)) by (now rewrite <- Hratios).
      now rewrite map_nth. }
    split; [apply nth_In; lia|].
    split.
    { apply Forall_forall. intros TS' HTS'.
      destruct (In_nth _ _ d HTS') as (j & Hj & <-).
      rewrite <- !Hnth by lia. split; [|apply Hmin; lia].
      rewrite Hnth by lia. unfold risk_ratio. apply Rmult_le_pos.
      - unfold encounter_ED, FossenFnc.ED. apply sqrt_pos.
      - left. apply Rinv_0_lt_compat. now apply ship_domain_pos. }
    split.
    { do 2 f_equal. cbn [rev]. rewrite map_app. cbn [map]. apply last_last. }
    assert (HF : Forall2 (row_of_target e) (map (fun i => nth i rows []) [i0])
                         (map (fun i => nth i (visible e) d) [i0])).
    { apply Forall2_nth_in_range; [exact HF2|]. constructor; [lia | constructor]. }
    cbn [map] in HF. now inversion HF.
Qed.

End FossenOrder.

(** ** Concrete episodes *)

Lemma fossen_config_init (N_TSs_max : nat) :
  FossenEnv.__init__ N_TSs_max false false "tau" "RecDQN" false
  = Ok (fossen_config N_TSs_max "RecDQN")
  /\ FossenEnv.__init__ N_TSs_max false false "tau" "maxRisk" false
     = Ok (fossen_config N_TSs_max "maxRisk").
Proof. split; reflexivity. Qed.

Lemma two_ahead_visible (N_TSs_max : nat) (state_design : string) :
  visible (fossen_episode (fossen_config N_TSs_max state_design) (vessel_northbound 20 100 0.5)
                          (180, 100) [vessel_at 40 100 0; vessel_at 60 100 0])
  = [vessel_at 40 100 0; vessel_at 60 100 0].
Proof.
  unfold visible, fossen_episode. cbn [FossenEnv.TSs filter]. unfold in_sight.
  cbn [FossenEnv.OS FossenEnv.cfg fossen_config FossenEnv.sight].
  assert (E1 : (encounter_ED (vessel_northbound 20 100 0.5) (vessel_at 40 100 0) <=? 100) = true).
  { apply Rleb_true, Rlt_le. unfold encounter_ED. cbn. apply ED_upper_bound; lra. }
  assert (E2 : (encounter_ED (vessel_northbound 20 100 0.5) (vessel_at 60 100 0) <=? 100) = true).
  { apply Rleb_true, Rlt_le. unfold encounter_ED. cbn. apply ED_upper_bound; lra. }
  now rewrite E1, E2.
Qed.

Lemma two_ahead_in_sight_count (N_TSs_max : nat) (state_design : string) :
  in_sight_count (fossen_episode (fossen_config N_TSs_max state_design)
                    (vessel_northbound 20 100 0.5) (180, 100)
                    [vessel_at 40 100 0; vessel_at 60 100 0]) = 2%nat.
Proof.
  change (in_sight_count ?e) with (List.length (visible e)).
  now rewrite two_ahead_visible.
Qed.

Lemma northbound_under_way :
  0 < CyberShipII._get_V (methods := sample_methods) (vessel_northbound 20 100 0.5).
Proof.
  cbn. apply sqrt_lt_R0. lra.
Qed.

Lemma X17_fossen_state_fills_observation_space_witness :
  exists state,
    FossenEnv._set_state (CS := sample_methods) episode_RecDQN_two = Ok state
    /\ List.length state = FossenEnv.obs_size (FossenEnv.cfg episode_RecDQN_two).
Proof.
  apply (X17_fossen_state_fills_observation_space (CS := sample_methods)
           3 false false "RecDQN" false episode_RecDQN_two).
  - apply fossen_config_init.
  - cbn. lra.
  - cbn. lia.
  - right. unfold episode_RecDQN_two. rewrite two_ahead_in_sight_count. lia.
Defined.

Lemma X18_fossen_state_overflow_witness :
  FossenEnv.state_TSs_block (CS := sample_methods) episode_one_slot_two_targets
  = Raise ValueError
  /\ forall state,
       FossenEnv._set_state (CS := sample_methods) episode_one_slot_two_targets <> Ok state.
Proof.
  apply (X18_fossen_state_overflow (CS := sample_methods) episode_one_slot_two_targets).
  - reflexivity.
  - reflexivity.
  - cbn. lia.
  - unfold episode_one_slot_two_targets. rewrite two_ahead_in_sight_count. cbn. lia.
Defined.

Lemma X19_fossen_RecDQN_descending_risk_ratio_witness :
  exists targets rows,
    Permutation (visible episode_RecDQN_two) targets
    /\ descending (map (risk_ratio (CS := sample_methods) episode_RecDQN_two) targets)
    /\ Forall (fun TS => 0 <= risk_ratio (CS := sample_methods) episode_RecDQN_two TS) targets
    /\ Forall2 (row_of_target episode_RecDQN_two) rows targets
    /\ FossenEnv.state_TSs_block (CS := sample_methods) episode_RecDQN_two
       = Ok (List.concat rows
             ++ repeat NaN (6 * (FossenEnv.N_TSs_max (FossenEnv.cfg episode_RecDQN_two)
                                 - in_sight_count episode_RecDQN_two))).
Proof.
  apply (X19_fossen_RecDQN_descending_risk_ratio (CS := sample_methods) episode_RecDQN_two).
  - reflexivity.
  - reflexivity.
  - cbn. lia.
  - unfold episode_RecDQN_two. rewrite two_ahead_in_sight_count. cbn. lia.
  - exact northbound_under_way.
  - cbn. lra.
Defined.

Lemma X20_fossen_maxRisk_selects_smallest_risk_ratio_witness :
  (visible episode_maxRisk_two = [] ->
   FossenEnv.state_TSs_block (CS := sample_methods) episode_maxRisk_two = Ok (repeat (Num 0) 6))
  /\ (visible episode_maxRisk_two <> [] ->
      exists TS block,
        In TS (visible episode_maxRisk_two)
        /\ Forall (fun TS' => 0 <= risk_ratio (CS := sample_methods) episode_maxRisk_two TS
                              <= risk_ratio (CS := sample_methods) episode_maxRisk_two TS')
                  (visible episode_maxRisk_two)
        /\ FossenEnv.state_TSs_block (CS := sample_methods) episode_maxRisk_two = Ok block
        /\ row_of_target episode_maxRisk_two block TS).
Proof.
  apply (X20_fossen_maxRisk_selects_smallest_risk_ratio (CS := sample_methods)
           episode_maxRisk_two).
  - reflexivity.
  - reflexivity.
  - cbn. lia.
  - exact northbound_under_way.
  - cbn. lra.
Defined.

(* ================================================================== *)
(** * FossenEnv: the start of an episode                               *)
(* ================================================================== *)

Lemma ED_of_square (N0 E0 N1 E1 a : R) :
  0 <= a -> (N0 - N1) ^ 2 + (E0 - E1) ^ 2 = a ^ 2 -> FossenFnc.ED N0 E0 N1 E1 true = a.
Proof.
  intros Ha H. unfold FossenFnc.ED. rewrite H. now apply sqrt_sq_nonneg.
Qed.

Lemma np_random_choice_lt (n : nat) (g g' : rng) (i : nat) :
  np_random_choice n g = Ok (i, g') -> (i < n)%nat.
Proof.
  unfold np_random_choice. destruct (Nat.eqb_spec n 0) as [E | E]; [discriminate|].
  intros H. apply Ok_inj in H. injection H as <- _.
  apply Nat.mod_upper_bound. exact E.
Qed.

Lemma ForallOrdPairs_impl {A} (P Q : A -> A -> Prop) (l : list A) :
  (forall a b, P a b -> Q a b) -> ForallOrdPairs P l -> ForallOrdPairs Q l.
Proof.
  intros HPQ. induction 1 as [|a l Ha _ IH]; constructor; [|exact IH].
  eapply Forall_impl; [|exact Ha]. intros b. apply HPQ.
Qed.

Section FossenReset.
Context {CS : CyberShipII.methods}.
Import FossenEnv.

Lemma set_nu0_eta (s : CyberShipII.t) (x : R) :
  CyberShipII.eta (CyberShipII.set_nu0 s x) = CyberShipII.eta s.
Proof.
  unfold CyberShipII.set_nu0. destruct (CyberShipII.nu s) as [[u v] r]. reflexivity.
Qed.

Lemma reset_OS_eta (c : config) (N_init E_init head : R) (OS : CyberShipII.t) :
  constructor_stores_pose CS ->
  reset_OS c N_init E_init head = Ok OS ->
  CyberShipII.eta OS = (N_init, E_init, head).
Proof.
  intros Hpose. unfold reset_OS.
  destruct (String.eqb (cnt_approach c) "tau").
  - cbn [bind]. intros H. apply Ok_inj in H. subst OS. rewrite set_nu0_eta. apply Hpose.
  - destruct (String.eqb (cnt_approach c) "f123"); cbn [bind]; [|discriminate].
    intros H. apply Ok_inj in H. subst OS. rewrite set_nu0_eta. apply Hpose.
Qed.

(** The start situations: in each of the four, the goal is 0.8 times the
    size of the map away from the start position. *)
Lemma reset_sit_distance (c : config) (g g' : rng) (goal : R * R) (N_init E_init head : R) :
  N_max c = 200 -> E_max c = 200 ->
  FossenEnv_episode.reset_sit c g = Ok (goal, N_init, E_init, head, g') ->
  FossenFnc.ED N_init E_init (fst goal) (snd goal) true = 160.
Proof.
  intros HN HE. unfold FossenEnv_episode.reset_sit.
  destruct (np_random_choice 4 g) as [[sit g1]|]; cbn [bind]; [|discriminate].
  rewrite HN, HE. unfold np_random_uniform.
  destruct (Nat.eqb sit 0); [|destruct (Nat.eqb sit 1); [|destruct (Nat.eqb sit 2);
    [|destruct (Nat.eqb sit 3); [|discriminate]]]];
    intros H; apply Ok_inj in H; injection H as <- <- <- _ _; cbn [fst snd];
    apply ED_of_square; lra.
Qed.

Lemma reset_N_TSs_bound (c : config) (g g' : rng) (n : nat) :
  FossenEnv_episode.reset_N_TSs c g = Ok (n, g') ->
  (N_TSs_random c = true -> (n <= N_TSs_max c)%nat)
  /\ (N_TSs_random c = false -> N_TSs_increasing c = true -> (n <= 3)%nat)
  /\ (N_TSs_random c = false -> N_TSs_increasing c = false -> n = N_TSs_max c).
Proof.
  unfold FossenEnv_episode.reset_N_TSs.
  destruct (N_TSs_random c).
  - intros H. apply np_random_choice_lt in H.
    split; [intros _; lia|]. split; discriminate.
  - destruct (N_TSs_increasing c).
    + destruct (outer_step_cnt c) as [k|]; [|discriminate].
      intros H. apply Ok_inj in H. injection H as <- _.
      split; [discriminate|]. split; [|discriminate]. intros _ _.
      repeat match goal with |- context [if ?b then _ else _] => destruct b end; lia.
    + intros H. apply Ok_inj in H. injection H as <- _.
      split; [discriminate|]. split; [discriminate | reflexivity].
Qed.

Lemma spawn_TSs_frame (fuel n : nat) (e e' : FossenEnv.t) (g g' : rng) :
  spawn_TSs fuel n e g = Some (Ok (e', g')) ->
  cfg e' = cfg e /\ OS e' = OS e /\ goal e' = goal e /\ N_TSs e' = N_TSs e
  /\ TS_COLREGs e' = TS_COLREGs e /\ TS_COLREGs_old e' = TS_COLREGs_old e
  /\ respawn_flags e' = respawn_flags e
  /\ List.length (TSs e') = (List.length (TSs e) + n)%nat.
Proof.
  revert e g. induction n as [|n IH]; intros e g; cbn [spawn_TSs].
  - intros H. injection H as <- _. repeat split. lia.
  - destruct (_get_TS fuel e g) as [[[TS g1]|ex]|]; try discriminate.
    intros H. apply IH in H. cbn [set_TSs cfg OS goal N_TSs TS_COLREGs TS_COLREGs_old
                                  respawn_flags TSs] in H.
    rewrite length_app in H. cbn [List.length] in H.
    destruct H as (H1 & H2 & H3 & H4 & H5 & H6 & H7 & H8).
    repeat split; try assumption. lia.
Qed.

(** X21: what [reset] leaves behind, for an environment that the
    constructor has returned and any number of steps taken since, provided
    that the vessel constructor stores the pose it is given. The own ship
    starts 160 m from the goal, so that the episode is not over and target
    ships may respawn; there are as many target ships, and as many COLREG
    situations, as [N_TSs] says; each target ship lies at least 20 m from
    the ones placed before it; the number of target ships is [N_TSs_max]
    by default, at most [N_TSs_max] when drawn at random, and at most 3
    under the schedule, whatever [N_TSs_max] is; the respawn flags are the
    old ones. *)
Theorem X21_reset_postconditions (N_TSs_max : nat) (N_TSs_random N_TSs_increasing : bool)
    (cnt_approach state_design : string) (plot_traj : bool) (c : config) (k fuel : nat)
    (flags_before : list bool) (g g' : rng) (e : FossenEnv.t) (state : list cell) :
  constructor_stores_pose CS ->
  __init__ N_TSs_max N_TSs_random N_TSs_increasing cnt_approach state_design plot_traj = Ok c ->
  FossenEnv_episode.reset fuel (after_outer_steps c k) flags_before g = Some (Ok (e, state, g')) ->
  cfg e = after_outer_steps c k
  /\ goal_distance e = 160
  /\ FossenEnv_episode._done e 0 = false
  /\ stop_spawn_dist (cfg e) < goal_distance e
  /\ List.length (TSs e) = N_TSs e
  /\ List.length (TS_COLREGs e) = N_TSs e
  /\ ForallOrdPairs (fun a b => 20 <= spawn_distance b a) (TSs e)
  /\ (N_TSs_random = false -> N_TSs_increasing = false -> N_TSs e = N_TSs_max)
  /\ (N_TSs_random = true -> (N_TSs e <= N_TSs_max)%nat)
  /\ (N_TSs_increasing = true -> (N_TSs e <= 3)%nat)
  /\ respawn_flags e = flags_before
  /\ _set_state e = Ok state.
Proof.
  intros Hpose Hinit.
  destruct (fossen_init_spec _ _ _ _ _ _ _ Hinit) as (Hc & _ & Hfl).
  set (c' := after_outer_steps c k).
  assert (HN : N_max c' = 200) by (subst c' c; reflexivity).
  assert (HE : E_max c' = 200) by (subst c' c; reflexivity).
  assert (Hrnd : FossenEnv.N_TSs_random c' = N_TSs_random) by (subst c' c; reflexivity).
  assert (Hinc : FossenEnv.N_TSs_increasing c' = N_TSs_increasing) by (subst c' c; reflexivity).
  assert (Hmax : FossenEnv.N_TSs_max c' = N_TSs_max) by (subst c' c; reflexivity).
  assert (Hgr : goal_reach_dist c' = 10) by (subst c' c; reflexivity).
  assert (Hss : stop_spawn_dist c' = 5 * 10) by (subst c' c; reflexivity).
  assert (Hms : _max_episode_steps c' = 500%nat) by (subst c' c; reflexivity).
  assert (Hmd : min_dist_spawn_TS c' = 20) by (subst c' c; reflexivity).
  clearbody c'. clear Hc Hinit.
  unfold FossenEnv_episode.reset.
  destruct (FossenEnv_episode.reset_sit c' g) as [[[[[goal0 N_init] E_init] head] g1]|] eqn:Hsit;
    cbn [bind]; [|discriminate].
  destruct (reset_OS c' N_init E_init head) as [OS0|] eqn:HOS; cbn [bind]; [|discriminate].
  destruct (FossenEnv_episode.reset_N_TSs c' g1) as [[n g2]|] eqn:Hn; cbn [bind];
    [|discriminate].
  cbn [N_TSs].
  destruct (spawn_TSs fuel n _ g2) as [[[e1 g3]|]|] eqn:Hsp; try discriminate.
  destruct (spawn_TSs_frame _ _ _ _ _ _ Hsp) as (F1 & F2 & F3 & F4 & F5 & F6 & F7 & F8).
  destruct (spawn_TSs_separated fuel n (mk c' OS0 goal0 n [] [] [] flags_before) e1 g2 g3
              (FOP_nil _) Hsp) as (_ & Hsep).
  cbn [cfg OS goal N_TSs TS_COLREGs TS_COLREGs_old respawn_flags TSs List.length] in *.
  destruct (_set_state _) as [st|] eqn:Hst; [|discriminate].
  intros H. injection H as <- <- <-.
  pose proof (reset_OS_eta _ _ _ _ _ Hpose HOS) as Heta.
  pose proof (reset_sit_distance _ _ _ _ _ _ _ HN HE Hsit) as Hdist.
  pose proof (reset_N_TSs_bound _ _ _ _ Hn) as (B1 & B2 & B3).
  rewrite Hrnd, Hinc, Hmax in *.
  assert (Hgd : goal_distance (_set_COLREGs (set_COLREGs e1 (TS_COLREGs_old e1)
                                               (repeat 0%Z (N_TSs e1)))) = 160).
  { unfold goal_distance, _set_COLREGs, set_COLREGs. cbn [OS goal].
    rewrite F2, F3, Heta. unfold north, east. cbn [fst snd]. exact Hdist. }
  split; [exact F1|].
  split; [exact Hgd|].
  split.
  { unfold FossenEnv_episode._done. unfold goal_distance, north, east in Hgd.
    cbn [_set_COLREGs set_COLREGs OS goal cfg] in Hgd |- *.
    destruct (CyberShipII.eta (OS e1)) as [[N0 E0] h0]. cbn [fst snd] in Hgd.
    rewrite Hgd, F1, Hgr, Hms.
    assert (E10 : (160 <=? 10) = false) by (apply Rleb_false; lra).
    rewrite E10. reflexivity. }
  split; [rewrite Hgd; cbn [_set_COLREGs set_COLREGs cfg]; rewrite F1, Hss; lra|].
  cbn [_set_COLREGs set_COLREGs TSs TS_COLREGs N_TSs respawn_flags cfg].
  split; [lia|].
  split; [rewrite length_map; lia|].
  split.
  { eapply ForallOrdPairs_impl; [|exact Hsep].
    intros a b Hab. unfold separated in Hab. rewrite Hmd in Hab. exact Hab. }
  rewrite F4. cbn [N_TSs].
  split; [intros R1 R2; destruct Hfl; auto|].
  split; [auto|].
  split; [intros R2; destruct Hfl as [R1 | R1]; [auto | congruence]|].
  split; [exact F7 | rewrite F4 in Hst; exact Hst].
Qed.

End FossenReset.

(* ================================================================== *)
(** * FossenEnv: the first target ship and the return of [reset]       *)
(* ================================================================== *)

Lemma choice_1_to_5 (k : nat) :
  let s := nth (Nat.modulo k 5) [1; 2; 3; 4; 5]%Z 1%Z in
  s = 1%Z \/ s = 2%Z \/ s = 3%Z \/ s = 4%Z \/ s = 5%Z.
Proof.
  cbv zeta. pose proof (Nat.mod_upper_bound k 5 ltac:(lia)) as H.
  destruct (Nat.modulo k 5) as [|[|[|[|[|m]]]]]; cbn [nth]; auto 6. lia.
Qed.

Section FossenFirstTarget.
Context {CS : CyberShipII.methods}.
Import FossenEnv.

Lemma get_TS_pass_empty_fleet (e : FossenEnv.t) (g : rng) :
  cnt_approach (cfg e) = "tau"%string \/ cnt_approach (cfg e) = "f123"%string ->
  TSs e = [] ->
  exists TS g',
    _get_TS_pass e g = Ok (TS, true, g')
    /\ wrapped (heading (CyberShipII.eta TS))
    /\ py_pos g' = S (py_pos g)
    /\ (np_pos g' = np_pos g + 6 \/ np_pos g' = np_pos g + 7)%nat.
Proof.
  intros Hcnt Hnil. unfold _get_TS_pass. rewrite Hnil.
  destruct g as [nr np pr pp].
  pose proof (choice_1_to_5 (pr pp)) as Hs. cbv zeta in Hs.
  destruct Hcnt as [-> | ->];
    cbv beta iota zeta delta [String.eqb Ascii.eqb Bool.eqb np_random_uniform random_choice bind
                              List.length Nat.eqb np_raw np_pos py_raw py_pos];
    destruct (CyberShipII.eta (OS e)) as [[N0 E0] h0];
    destruct (FossenFnc.project_vector _ _ 1 (FossenFnc.bng_abs _ _ _ _)) as [vx vy];
    set (s := nth (pr pp mod 5) [1; 2; 3; 4; 5]%Z 1%Z) in *;
    destruct Hs as [-> | [-> | [-> | [-> | ->]]]];
    cbv beta iota zeta delta [Z.eqb Pos.eqb existsb orb];
    repeat match goal with
           | |- context [let '(_, _) := ?x in _] => destruct x
           end;
    (do 2 eexists; split; [reflexivity|];
     split; [cbn [CyberShipII.set_eta CyberShipII.eta heading snd]; apply angle_to_2pi_wrapped|];
     split; [reflexivity|]; cbn [np_pos]; lia).
Qed.

(** X22: with no target ship in place, [_get_TS] never rejects its
    candidate: under the control approaches "tau" and "f123" a single pass
    of its loop returns a target ship, whatever the random source yields.
    The heading of the ship lies in [0, 2pi); the pass takes one draw from
    [random] and six from [np.random], seven when the sampled situation is
    an overtaking. *)
Theorem X22_first_target_placed_in_one_pass (e : FossenEnv.t) (g : rng) (fuel : nat) :
  cnt_approach (cfg e) = "tau"%string \/ cnt_approach (cfg e) = "f123"%string ->
  TSs e = [] ->
  exists TS g',
    _get_TS (S fuel) e g = Some (Ok (TS, g'))
    /\ wrapped (heading (CyberShipII.eta TS))
    /\ py_pos g' = S (py_pos g)
    /\ (np_pos g' = np_pos g + 6 \/ np_pos g' = np_pos g + 7)%nat.
Proof.
  intros Hcnt Hnil.
  destruct (get_TS_pass_empty_fleet e g Hcnt Hnil) as (TS & g' & Hp & Hrest).
  exists TS, g'. split; [|exact Hrest].
  unfold _get_TS.
  assert (Ha : string_in (cnt_approach (cfg e)) ["tau"; "f123"]%string = true)
    by (destruct Hcnt as [-> | ->]; reflexivity).
  rewrite Ha. cbn [assert _get_TS_loop]. now rewrite Hp.
Qed.

Lemma reset_sit_returns (c : config) (g : rng) :
  exists goal0 N_init E_init head g', 
    FossenEnv_episode.reset_sit c g = Ok (goal0, N_init, E_init, head, g').
Proof.
  unfold FossenEnv_episode.reset_sit.
  destruct (np_random_choice 4 g) as [[sit g1]|] eqn:Hc.
  2:{ unfold np_random_choice in Hc. cbn [Nat.eqb] in Hc. discriminate. }
  apply np_random_choice_lt in Hc. cbn [bind]. unfold np_random_uniform.
  destruct sit as [|[|[|[|m]]]]; cbn [Nat.eqb]; try (do 5 eexists; reflexivity). lia.
Qed.

Lemma reset_returns_one_slot (N_TSs_max : nat) (N_TSs_random : bool)
    (state_design : string) (plot_traj : bool) (c : config) (fuel : nat)
    (flags_before : list bool) (g : rng) :
  moment_limit_nonzero CS ->
  (N_TSs_max <= 1)%nat ->
  __init__ N_TSs_max N_TSs_random false "tau" state_design plot_traj = Ok c ->
  exists e state g',
    FossenEnv_episode.reset (S fuel) c flags_before g = Some (Ok (e, state, g'))
    /\ List.length state = obs_size c.
Proof.
  intros Hlimit Hone Hinit.
  destruct (fossen_init_spec _ _ _ _ _ _ _ Hinit) as (Hc & Hsd & _).
  unfold FossenEnv_episode.reset.
  destruct (reset_sit_returns c g) as (goal0 & N_init & E_init & head & g1 & Hsit).
  rewrite Hsit. cbn [bind].
  assert (Hcnt : cnt_approach c = "tau"%string) by (rewrite Hc; reflexivity).
  unfold reset_OS at 1. rewrite Hcnt. cbn [String.eqb Ascii.eqb Bool.eqb bind].
  set (OS0 := CyberShipII.set_nu0 _ _).
  assert (HOS : CyberShipII.tau_cnt_r_max OS0 <> 0).
  { unfold OS0, CyberShipII.set_nu0.
    destruct (CyberShipII.nu _) as [[u v] r]. cbn [CyberShipII.set_nu CyberShipII.tau_cnt_r_max].
    apply Hlimit. }
  destruct (FossenEnv_episode.reset_N_TSs c g1) as [[n g2]|] eqn:Hn.
  2:{ revert Hn. unfold FossenEnv_episode.reset_N_TSs, np_random_choice. rewrite Hc.
      cbn [FossenEnv.N_TSs_random FossenEnv.N_TSs_increasing FossenEnv.N_TSs_max].
      destruct N_TSs_random; [|discriminate].
      replace (Nat.eqb (N_TSs_max + 1) 0) with false; [discriminate|].
      symmetry. apply Nat.eqb_neq. lia. }
  assert (Hn1 : (n <= N_TSs_max)%nat).
  { destruct (reset_N_TSs_bound _ _ _ _ Hn) as (B1 & _ & B3). rewrite Hc in B1, B3.
    cbn [FossenEnv.N_TSs_random FossenEnv.N_TSs_increasing FossenEnv.N_TSs_max] in B1, B3.
    destruct N_TSs_random; [apply B1; reflexivity | rewrite B3; auto]. }
  cbn [bind N_TSs].
  set (e0 := mk c OS0 goal0 n [] [] [] flags_before).
  assert (Hsp : exists e1 g3, spawn_TSs (S fuel) n e0 g2 = Some (Ok (e1, g3))).
  { destruct n as [|[|n]]; [do 2 eexists; reflexivity | | lia].
    assert (Hp : exists TS g3, _get_TS (S fuel) e0 g2 = Some (Ok (TS, g3))).
    { destruct (get_TS_pass_empty_fleet e0 g2) as (TS & g3 & Hp & _);
        [left; exact Hcnt | reflexivity |].
      exists TS, g3. unfold _get_TS.
      assert (Ha : string_in (cnt_approach (cfg e0)) ["tau"; "f123"]%string = true)
        by (cbn [e0 cfg]; rewrite Hcnt; reflexivity).
      rewrite Ha. cbn [assert _get_TS_loop]. now rewrite Hp. }
    destruct Hp as (TS & g3 & Hp).
    cbn [spawn_TSs]. rewrite Hp. do 2 eexists. reflexivity. }
  destruct Hsp as (e1 & g3 & Hsp). rewrite Hsp.
  destruct (spawn_TSs_frame _ _ _ _ _ _ Hsp) as (F1 & F2 & F3 & F4 & F5 & F6 & F7 & F8).
  cbn [e0 cfg OS goal N_TSs TS_COLREGs TS_COLREGs_old respawn_flags TSs List.length] in *.
  set (e2 := _set_COLREGs (set_COLREGs e1 (TS_COLREGs_old e1) (repeat 0%Z (N_TSs e1)))).
  assert (Hcfg : cfg e2 = c) by exact F1.
  assert (Hlen : (List.length (TSs e2) <= List.length (TS_COLREGs e2))%nat).
  { unfold e2. rewrite set_COLREGs_length. lia. }
  assert (Hsight : (in_sight_count e2 <= n)%nat).
  { unfold in_sight_count. eapply Nat.le_trans; [apply filter_length_le|].
    unfold e2. cbn [_set_COLREGs set_COLREGs TSs]. lia. }
  destruct (fossen_state_length e2) as (state & Hs & Hl).
  - rewrite Hcfg. exact Hcnt.
  - rewrite Hcfg, Hc. reflexivity.
  - unfold e2. cbn [_set_COLREGs set_COLREGs OS]. rewrite F2. exact HOS.
  - exact Hlen.
  - rewrite Hcfg, Hc. cbn [FossenEnv.state_design FossenEnv.N_TSs_max].
    destruct Hsd as [Hsd | Hsd]; [right; split; [exact Hsd | lia] | now left].
  - rewrite Hs. exists e2, state, g3. split; [reflexivity|].
    rewrite Hl, Hcfg, Hc. cbn [FossenEnv.state_design FossenEnv.N_TSs_max FossenEnv.obs_size].
    destruct (String.eqb state_design "RecDQN"); lia.
Qed.

(** X23: with the control approach "tau", at most one target slot and no
    schedule for the number of target ships, [reset] returns, whatever the
    random source yields and however few passes the sampling loop is
    allowed: an episode and an observation that has as many entries as the
    observation space declares. The vessel class is assumed to give every
    vessel a non-zero maximum of the control moment. *)
Theorem X23_reset_returns_with_one_slot (N_TSs_max : nat) (N_TSs_random : bool)
    (state_design : string) (plot_traj : bool) (c : config) (fuel : nat)
    (flags_before : list bool) (g : rng) :
  moment_limit_nonzero CS ->
  (N_TSs_max <= 1)%nat ->
  __init__ N_TSs_max N_TSs_random false "tau" state_design plot_traj = Ok c ->
  exists e state g',
    FossenEnv_episode.reset (S fuel) c flags_before g = Some (Ok (e, state, g'))
    /\ List.length state = obs_size c.
Proof. apply reset_returns_one_slot. Qed.

End FossenFirstTarget.

Lemma sample_methods_store_pose : constructor_stores_pose sample_methods.
Proof. unfold constructor_stores_pose. intros. reflexivity. Qed.

Lemma sample_methods_moment_limit : moment_limit_nonzero sample_methods.
Proof. unfold moment_limit_nonzero. intros. cbn. lra. Qed.

Lemma X21_reset_postconditions_witness :
  exists e state g',
    FossenEnv_episode.reset (CS := sample_methods) 1
      (after_outer_steps (fossen_config 1 "RecDQN") 0) [] rng_zero = Some (Ok (e, state, g'))
    /\ FossenEnv.cfg e = after_outer_steps (fossen_config 1 "RecDQN") 0
    /\ goal_distance e = 160
    /\ FossenEnv_episode._done e 0 = false
    /\ FossenEnv.stop_spawn_dist (FossenEnv.cfg e) < goal_distance e
    /\ List.length (FossenEnv.TSs e) = FossenEnv.N_TSs e
    /\ List.length (FossenEnv.TS_COLREGs e) = FossenEnv.N_TSs e
    /\ ForallOrdPairs (fun a b => 20 <= spawn_distance b a) (FossenEnv.TSs e)
    /\ (false = false -> false = false -> FossenEnv.N_TSs e = 1%nat)
    /\ (false = true -> (FossenEnv.N_TSs e <= 1)%nat)
    /\ (false = true -> (FossenEnv.N_TSs e <= 3)%nat)
    /\ FossenEnv.respawn_flags e = []
    /\ FossenEnv._set_state (CS := sample_methods) e = Ok state.
Proof.
  destruct (reset_returns_one_slot (CS := sample_methods) 1 false "RecDQN" false
              (fossen_config 1 "RecDQN") 0 [] rng_zero sample_methods_moment_limit
              (le_n 1) (proj1 (fossen_config_init 1))) as (e & state & g' & Hr & _).
  exists e, state, g'. split; [exact Hr|].
  apply (X21_reset_postconditions (CS := sample_methods) 1 false false "tau" "RecDQN" false
           (fossen_config 1 "RecDQN") 0 1 [] rng_zero g' e state).
  - exact sample_methods_store_pose.
  - apply fossen_config_init.
  - exact Hr.
Defined.

Lemma X22_first_target_placed_in_one_pass_witness :
  exists TS g',
    FossenEnv._get_TS (CS := sample_methods) 1 episode_no_TS rng_zero = Some (Ok (TS, g'))
    /\ wrapped (heading (CyberShipII.eta TS))
    /\ py_pos g' = S (py_pos rng_zero)
    /\ (np_pos g' = np_pos rng_zero + 6 \/ np_pos g' = np_pos rng_zero + 7)%nat.
Proof.
  apply (X22_first_target_placed_in_one_pass (CS := sample_methods) episode_no_TS rng_zero 0).
  - left. reflexivity.
  - reflexivity.
Defined.

Lemma X23_reset_returns_with_one_slot_witness :
  exists e state g',
    FossenEnv_episode.reset (CS := sample_methods) 1 (fossen_config 1 "RecDQN") [] rng_zero
    = Some (Ok (e, state, g'))
    /\ List.length state = FossenEnv.obs_size (fossen_config 1 "RecDQN").
Proof.
  apply (X23_reset_returns_with_one_slot (CS := sample_methods) 1 false "RecDQN" false
           (fossen_config 1 "RecDQN") 0 [] rng_zero).
  - exact sample_methods_moment_limit.
  - lia.
  - apply fossen_config_init.
Defined.

(* ================================================================== *)
(** * CNN_DQN_Agent.select_action: the epsilon-greedy schedule         *)
(* ================================================================== *)

Lemma binomial_in_range (p : R) (g : rng) :
  0 <= p <= 1 ->
  exists draw, np_random_binomial_1 p g
               = Ok (draw, mk_rng (np_raw g) (S (np_pos g)) (py_raw g) (py_pos g)).
Proof.
  intros [H0 H1]. unfold np_random_binomial_1.
  assert (E0 : (p <? 0) = false) by (apply Rltb_false; lra).
  assert (E1 : (1 <? p) = false) by (apply Rltb_false; lra).
  rewrite E0, E1. cbn [orb]. eexists. reflexivity.
Qed.

Lemma binomial_above_one (p : R) (g : rng) :
  1 < p -> np_random_binomial_1 p g = Raise ValueError.
Proof.
  intros H. unfold np_random_binomial_1.
  assert (E1 : (1 <? p) = true) by (apply Rltb_true; lra).
  rewrite E1, orb_true_r. reflexivity.
Qed.

Lemma binomial_certain (g : rng) :
  np_raw g (np_pos g) < 1 ->
  np_random_binomial_1 1.0 g
  = Ok (1%Z, mk_rng (np_raw g) (S (np_pos g)) (py_raw g) (py_pos g)).
Proof.
  intros H. unfold np_random_binomial_1.
  assert (E0 : (1.0 <? 0) = false) by (apply Rltb_false; lra).
  assert (E1 : (1 <? 1.0) = false) by (apply Rltb_false; lra).
  assert (E2 : (np_raw g (np_pos g) <? 1.0) = true) by (apply Rltb_true; lra).
  rewrite E0, E1, E2. reflexivity.
Qed.

Lemma randint_in_range (high : Z) (g : rng) :
  (0 < high)%Z ->
  exists a, (0 <= a < high)%Z /\
            np_random_randint_0 high g
            = Ok (a, mk_rng (np_raw g) (S (np_pos g)) (py_raw g) (py_pos g)).
Proof.
  intros H. unfold np_random_randint_0.
  destruct (Z.leb_spec high 0) as [E | E]; [lia|].
  eexists. split; [|reflexivity]. apply Z.mod_pos_bound. exact H.
Qed.

Lemma epsilon_decay_compose (e d f : R) (n : nat) :
  0 <= e -> 0 <= d <= 1 -> 0 <= f ->
  Rmax (Rmax (e * d) f * d ^ n) f = Rmax (e * d ^ S n) f.
Proof.
  intros He Hd Hf.
  assert (Hn0 : 0 <= d ^ n) by (apply pow_le; lra).
  assert (Hn1 : d ^ n <= 1).
  { rewrite <- (pow1 n). apply pow_incr. lra. }
  assert (Hfn : f * d ^ n <= f) by nra.
  cbn [pow].
  unfold Rmax at 2. destruct (Rle_dec (e * d) f) as [L | L].
  - assert (e * d * d ^ n <= f * d ^ n) by (apply Rmult_le_compat_r; lra).
    rewrite (Rmax_right (f * d ^ n) f) by lra.
    rewrite Rmax_right; [reflexivity | nra].
  - f_equal. ring.
Qed.

Section DQNActing.
Import CNN_DQN_acting.
Variable observation : Type.
Variable greedy : observation -> Z.

(** One call with a valid exploration rate returns, consumes one or two raw
    outputs and decays the rate; outside the "train" mode, or with at
    least one action, nothing can fail. *)
Lemma select_action_returns (ag : t) (s : observation) (g : rng) :
  0 <= epsilon ag <= 1 ->
  ((0 < num_actions ag)%Z \/ mode ag <> "train"%string) ->
  exists a g',
    select_action observation greedy ag s g
    = Ok (a, mk (mode ag) (num_actions ag)
                (Rmax (epsilon ag * eps_decay ag) (eps_final ag))
                (eps_decay ag) (eps_final ag), g')
    /\ (mode ag <> "train"%string ->
        a = greedy s /\ np_pos g' = S (np_pos g))
    /\ ((0 < num_actions ag)%Z -> mode ag = "train"%string ->
        a = greedy s \/ (0 <= a < num_actions ag)%Z).
Proof.
  intros He Hcase. unfold select_action.
  destruct (binomial_in_range (epsilon ag) g He) as [draw ->].
  cbn [bind].
  destruct (String.eqb_spec (mode ag) "train") as [Em | Em].
  - destruct Hcase as [Hn | Hn]; [|contradiction].
    destruct (draw =? 1)%Z; cbn [andb].
    + destruct (randint_in_range (num_actions ag)
                  (mk_rng (np_raw g) (S (np_pos g)) (py_raw g) (py_pos g)) Hn)
        as [a [Ha ->]].
      cbn [bind]. eexists. eexists. split; [reflexivity|].
      split; [intros; contradiction | intros; right; exact Ha].
    + cbn [bind]. eexists. eexists. split; [reflexivity|].
      split; [intros; contradiction | intros; left; reflexivity].
  - rewrite andb_false_r. cbn [bind]. eexists. eexists. split; [reflexivity|].
    split; [intros; split; reflexivity | intros; contradiction].
Qed.

(** A run of calls: the exploration rate after the run, the number of
    actions, and the greedy actions outside the "train" mode. *)
Lemma select_actions_returns (l : list observation) : forall (ag : t) (g : rng),
  0 <= epsilon ag <= 1 -> 0 <= eps_decay ag <= 1 -> 0 <= eps_final ag <= 1 ->
  eps_final ag <= epsilon ag ->
  ((0 < num_actions ag)%Z \/ mode ag <> "train"%string) ->
  exists acts ag' g',
    select_actions observation greedy ag l g = Ok (acts, ag', g')
    /\ List.length acts = List.length l
    /\ epsilon ag' = Rmax (epsilon ag * eps_decay ag ^ List.length l) (eps_final ag)
    /\ mode ag' = mode ag /\ num_actions ag' = num_actions ag
    /\ eps_decay ag' = eps_decay ag /\ eps_final ag' = eps_final ag
    /\ (mode ag <> "train"%string ->
        acts = map greedy l /\ np_pos g' = (np_pos g + List.length l)%nat)
    /\ ((0 < num_actions ag)%Z -> mode ag = "train"%string ->
        Forall2 (fun s a => a = greedy s \/ (0 <= a < num_actions ag)%Z) l acts).
Proof.
  induction l as [|s l IH]; intros ag g He Hd Hf Hfe Hcase.
  - cbn [select_actions List.length pow map]. exists [], ag, g.
    split; [reflexivity|]. split; [reflexivity|].
    split; [rewrite Rmult_1_r, Rmax_left by lra; reflexivity|].
    repeat (split; [reflexivity|]).
    split; [intros; split; [reflexivity | lia] | intros; constructor].
  - cbn [select_actions].
    destruct (select_action_returns ag s g He Hcase) as [a [g1 [E1 [Ht1 Hr1]]]].
    rewrite E1. cbn [bind].
    set (ag1 := mk (mode ag) (num_actions ag)
                   (Rmax (epsilon ag * eps_decay ag) (eps_final ag))
                   (eps_decay ag) (eps_final ag)).
    assert (He1 : 0 <= epsilon ag1 <= 1).
    { cbn [epsilon ag1]. split.
      - eapply Rle_trans; [|apply Rmax_r]. lra.
      - apply Rmax_lub; [nra | lra]. }
    destruct (IH ag1 g1 He1 Hd Hf (Rmax_r _ _) Hcase)
      as [acts [ag' [g' [E2 [Hlen [Heps [Hm [Hn [Hdd [Hff [Ht2 Hr2]]]]]]]]]]].
    rewrite E2. cbn [bind].
    exists (a :: acts), ag', g'. split; [reflexivity|].
    split; [cbn [List.length]; now rewrite Hlen|].
    split.
    { rewrite Heps. cbn [epsilon eps_decay eps_final ag1 List.length].
      apply epsilon_decay_compose; lra. }
    repeat (split; [assumption|]).
    split.
    + intros Hmode. destruct (Ht1 Hmode) as [-> Hp1].
      destruct (Ht2 Hmode) as [-> Hp2].
      split; [reflexivity|]. rewrite Hp2, Hp1. cbn [List.length]. lia.
    + intros Hpos Hmode. constructor; [apply Hr1; assumption | apply Hr2; assumption].
Qed.

(** X24: with [0 <= eps_decay <= 1], [0 <= eps_final <= 1] and at least one
    action, a run of calls of [select_action] on a fresh agent never
    raises; it returns one action per observation, each of them the greedy
    action or an integer of [0, num_actions), and leaves the exploration
    rate at [max(eps_decay ^ n, eps_final)] after [n] calls. *)
Theorem X24_epsilon_schedule (mode : string) (num_actions : Z) (eps_decay eps_final : R)
    (l : list observation) (g : rng) :
  0 <= eps_decay <= 1 -> 0 <= eps_final <= 1 -> (0 < num_actions)%Z ->
  exists acts ag g',
    select_actions observation greedy (initial mode num_actions eps_decay eps_final) l g
    = Ok (acts, ag, g')
    /\ List.length acts = List.length l
    /\ Forall2 (fun s a => a = greedy s \/ (0 <= a < num_actions)%Z) l acts
    /\ epsilon ag = Rmax (eps_decay ^ List.length l) eps_final.
Proof.
  intros Hd Hf Hn.
  destruct (select_actions_returns l (initial mode num_actions eps_decay eps_final) g)
    as [acts [ag [g' [E [Hlen [Heps [_ [_ [_ [_ [Ht Hr]]]]]]]]]]];
    cbn [initial epsilon CNN_DQN_acting.eps_decay CNN_DQN_acting.eps_final CNN_DQN_acting.num_actions CNN_DQN_acting.mode];
    try lra; [left; exact Hn|].
  exists acts, ag, g'. split; [exact E|]. split; [exact Hlen|].
  split.
  - cbn [initial CNN_DQN_acting.mode CNN_DQN_acting.num_actions] in Ht, Hr.
    destruct (String.eqb_spec mode "train") as [Em | Em].
    + apply Hr; assumption.
    + destruct (Ht Em) as [-> _]. clear.
      induction l; cbn [map]; constructor; auto.
  - rewrite Heps. cbn [initial epsilon CNN_DQN_acting.eps_decay CNN_DQN_acting.eps_final]. f_equal. lra.
Qed.

(** X25: outside the "train" mode every action is the greedy one, whatever
    the number of actions (even none or a negative one); each call still
    decays the exploration rate. *)
Theorem X25_test_mode_is_greedy (mode : string) (num_actions : Z) (eps_decay eps_final : R)
    (l : list observation) (g : rng) :
  mode <> "train"%string -> 0 <= eps_decay <= 1 -> 0 <= eps_final <= 1 ->
  exists ag g',
    select_actions observation greedy (initial mode num_actions eps_decay eps_final) l g
    = Ok (map greedy l, ag, g')
    /\ epsilon ag = Rmax (eps_decay ^ List.length l) eps_final.
Proof.
  intros Hm Hd Hf.
  destruct (select_actions_returns l (initial mode num_actions eps_decay eps_final) g)
    as [acts [ag [g' [E [Hlen [Heps [_ [_ [_ [_ [Ht Hr]]]]]]]]]]];
    cbn [initial epsilon CNN_DQN_acting.eps_decay CNN_DQN_acting.eps_final CNN_DQN_acting.num_actions CNN_DQN_acting.mode];
    try lra; [right; exact Hm|].
  cbn [initial CNN_DQN_acting.mode] in Ht. destruct (Ht Hm) as [-> Hp].
  exists ag, g'. split; [exact E|].
  rewrite Heps. cbn [initial epsilon CNN_DQN_acting.eps_decay CNN_DQN_acting.eps_final]. f_equal. lra.
Qed.

(** X26: with [eps_final] above 1 the exploration rate leaves [0, 1] after
    the first call, and any run of two or more calls on a fresh agent
    raises ValueError, in every mode and for every number of actions. *)
Theorem X26_eps_final_above_one_raises (mode : string) (num_actions : Z)
    (eps_decay eps_final : R) (l : list observation) (g : rng) :
  1 < eps_final -> (2 <= List.length l)%nat ->
  select_actions observation greedy (initial mode num_actions eps_decay eps_final) l g
  = Raise ValueError.
Proof.
  intros Hf Hl.
  destruct l as [|s1 [|s2 l]]; cbn [List.length] in Hl; try lia.
  cbn [select_actions]. unfold select_action at 1.
  cbn [initial epsilon CNN_DQN_acting.mode CNN_DQN_acting.num_actions CNN_DQN_acting.eps_decay CNN_DQN_acting.eps_final].
  destruct (binomial_in_range 1.0 g) as [draw ->]; [lra|].
  cbn [bind].
  assert (Hsecond : forall a g1 rest,
    ('(a0, ag, g0) <- select_action observation greedy
        (mk mode num_actions (Rmax (1.0 * eps_decay) eps_final) eps_decay eps_final) s2 g1 ;;
     '(acts, ag, g0) <- select_actions observation greedy ag rest g0 ;;
     Ok (a0 :: acts, ag, g0)) = Raise ValueError
    -> ('(acts, ag, g0) <-
          ('(a0, ag, g0) <- select_action observation greedy
              (mk mode num_actions (Rmax (1.0 * eps_decay) eps_final) eps_decay eps_final) s2 g1 ;;
           '(acts, ag, g0) <- select_actions observation greedy ag rest g0 ;;
           Ok (a0 :: acts, ag, g0)) ;;
        Ok (a :: acts, ag, g0)) = Raise ValueError :> result (list Z * t * rng)).
  { intros a g1 rest ->. reflexivity. }
  assert (Hraise : forall g1,
    select_action observation greedy
      (mk mode num_actions (Rmax (1.0 * eps_decay) eps_final) eps_decay eps_final) s2 g1
    = Raise ValueError).
  { intros g1. unfold select_action. cbn [epsilon].
    rewrite binomial_above_one; [reflexivity|].
    eapply Rlt_le_trans; [exact Hf | apply Rmax_r]. }
  destruct ((draw =? 1)%Z && String.eqb mode "train").
  - unfold np_random_randint_0. destruct (num_actions <=? 0)%Z; [reflexivity|].
    cbn [bind]. apply Hsecond. rewrite Hraise. reflexivity.
  - cbn [bind]. apply Hsecond. rewrite Hraise. reflexivity.
Qed.

End DQNActing.

(** X27: the first action of a fresh agent in the "train" mode is always a
    random one: it is an integer of [0, num_actions) that depends on the
    random source only, not on the network or the observation. *)
Theorem X27_first_training_action_is_random (observation : Type) (num_actions : Z)
    (eps_decay eps_final : R) (g : rng) :
  unit_interval_outputs g -> (0 < num_actions)%Z ->
  exists a g',
    (0 <= a < num_actions)%Z /\
    forall (greedy : observation -> Z) (s : observation),
      CNN_DQN_acting.select_action observation greedy
        (CNN_DQN_acting.initial "train" num_actions eps_decay eps_final) s g
      = Ok (a, CNN_DQN_acting.mk "train" num_actions (Rmax (1.0 * eps_decay) eps_final)
                 eps_decay eps_final, g').
Proof.
  intros Hg Hn.
  destruct (randint_in_range num_actions
              (mk_rng (np_raw g) (S (np_pos g)) (py_raw g) (py_pos g)) Hn) as [a [Ha E]].
  exists a. eexists. split; [exact Ha|].
  intros greedy s. unfold CNN_DQN_acting.select_action.
  cbn [CNN_DQN_acting.initial CNN_DQN_acting.epsilon CNN_DQN_acting.mode
       CNN_DQN_acting.num_actions CNN_DQN_acting.eps_decay CNN_DQN_acting.eps_final].
  rewrite binomial_certain by apply Hg.
  cbn [bind]. change ((1 =? 1)%Z && String.eqb "train" "train") with true.
  cbv iota. rewrite E. reflexivity.
Qed.

Lemma X24_epsilon_schedule_witness :
  exists acts ag g',
    CNN_DQN_acting.select_actions nat (fun _ => 0%Z)
      (CNN_DQN_acting.initial "train" 6 0.995 0.001) [1%nat; 2%nat; 3%nat] quarter_source
    = Ok (acts, ag, g')
    /\ List.length acts = 3%nat
    /\ Forall2 (fun (s : nat) a => a = 0%Z \/ (0 <= a < 6)%Z) [1%nat; 2%nat; 3%nat] acts
    /\ CNN_DQN_acting.epsilon ag = Rmax (0.995 ^ 3) 0.001.
Proof.
  apply (X24_epsilon_schedule nat (fun _ => 0%Z) "train" 6 0.995 0.001
           [1%nat; 2%nat; 3%nat] quarter_source); [lra | lra | lia].
Defined.

Lemma X25_test_mode_is_greedy_witness :
  exists ag g',
    CNN_DQN_acting.select_actions nat Z.of_nat
      (CNN_DQN_acting.initial "test" 6 0.995 0.001) [4%nat; 2%nat] quarter_source
    = Ok ([4%Z; 2%Z], ag, g')
    /\ CNN_DQN_acting.epsilon ag = Rmax (0.995 ^ 2) 0.001.
Proof.
  apply (X25_test_mode_is_greedy nat Z.of_nat "test" 6 0.995 0.001
           [4%nat; 2%nat] quarter_source); [discriminate | lra | lra].
Defined.

Lemma X26_eps_final_above_one_raises_witness :
  CNN_DQN_acting.select_actions nat Z.of_nat
    (CNN_DQN_acting.initial "train" 6 0.995 1.5) [4%nat; 2%nat] quarter_source
  = Raise ValueError.
Proof.
  apply (X26_eps_final_above_one_raises nat Z.of_nat "train" 6 0.995 1.5
           [4%nat; 2%nat] quarter_source); [lra | cbn; lia].
Defined.

Lemma quarter_source_unit_interval : unit_interval_outputs quarter_source.
Proof. intros i. cbn. lra. Qed.

Lemma X27_first_training_action_is_random_witness :
  exists a g',
    (0 <= a < 6)%Z /\
    forall (greedy : nat -> Z) (s : nat),
      CNN_DQN_acting.select_action nat greedy
        (CNN_DQN_acting.initial "train" 6 0.995 0.001) s quarter_source
      = Ok (a, CNN_DQN_acting.mk "train" 6 (Rmax (1.0 * 0.995) 0.001) 0.995 0.001, g').
Proof.
  apply (X27_first_training_action_is_random nat 6 0.995 0.001 quarter_source);
    [exact quarter_source_unit_interval | lia].
Defined.

(* ================================================================== *)
(** * TQC_Agent.train: truncation of the sorted quantile atoms         *)
(* ================================================================== *)

Lemma ascending_app (l1 l2 : list R) :
  ascending (l1 ++ l2) ->
  ascending l1 /\ forall a b, In a l1 -> In b l2 -> a <= b.
Proof.
  induction l1 as [|x l1 IH]; cbn [app].
  - intros _. split; [exact I | intros a b []].
  - intros Hs. pose proof (ascending_hd_min _ _ Hs) as Hmin.
    apply ascending_cons in Hs. destruct Hs as [Hhd Hs].
    destruct (IH Hs) as [H1 H2]. split.
    + apply ascending_cons. split; [|exact H1].
      intros b Eb. apply Hhd. destruct l1; [discriminate | exact Eb].
    + intros a b [<- | Ha] Hb; [|now apply H2].
      rewrite Forall_forall in Hmin. apply Hmin. apply in_or_app. now right.
Qed.

Lemma sorted_atoms (next_z : list R) :
  ascending (sorted_by (fun z => z) next_z)
  /\ List.length (sorted_by (fun z => z) next_z) = List.length next_z.
Proof.
  split.
  - rewrite <- (map_id (sorted_by (fun z => z) next_z)). apply sorted_by_ascending.
  - symmetry. apply Permutation_length, sorted_by_perm.
Qed.

(** X28: with a row of [total_quantiles] atoms and
    [0 <= top_quantiles_to_drop <= total_quantiles], the truncation keeps
    [total_quantiles - top_quantiles_to_drop] atoms in ascending order and
    drops the others, and no kept atom is larger than a dropped one. *)
Theorem X28_truncation_drops_largest (total_quantiles top_quantiles_to_drop : Z)
    (next_z : list R) :
  Z.of_nat (List.length next_z) = total_quantiles ->
  (0 <= top_quantiles_to_drop <= total_quantiles)%Z ->
  exists dropped,
    Permutation next_z
      (TQC_training.sorted_z_part total_quantiles top_quantiles_to_drop next_z ++ dropped)
    /\ Z.of_nat (List.length
         (TQC_training.sorted_z_part total_quantiles top_quantiles_to_drop next_z))
       = (total_quantiles - top_quantiles_to_drop)%Z
    /\ Z.of_nat (List.length dropped) = top_quantiles_to_drop
    /\ ascending (TQC_training.sorted_z_part total_quantiles top_quantiles_to_drop next_z)
    /\ forall a b,
         In a (TQC_training.sorted_z_part total_quantiles top_quantiles_to_drop next_z) ->
         In b dropped -> a <= b.
Proof.
  intros Hlen Hdrop.
  unfold TQC_training.sorted_z_part, py_slice_to.
  destruct (sorted_atoms next_z) as [Hasc Hslen].
  set (sorted_z := sorted_by (fun z => z) next_z) in *.
  destruct (Z.leb_spec 0 (total_quantiles - top_quantiles_to_drop)) as [E | E]; [|lia].
  set (k := Z.to_nat (total_quantiles - top_quantiles_to_drop)).
  exists (skipn k sorted_z).
  rewrite <- (firstn_skipn k sorted_z) in Hasc.
  apply ascending_app in Hasc. destruct Hasc as [H1 H2].
  split; [rewrite firstn_skipn; apply sorted_by_perm|].
  split; [rewrite length_firstn; lia|].
  split; [rewrite length_skipn; lia|].
  split; assumption.
Qed.

(** X29: when [top_quantiles_to_drop] exceeds [total_quantiles], the slice
    bound is negative and counts from the end of the row: the truncation
    keeps [max(0, 2 * total_quantiles - top_quantiles_to_drop)] atoms
    instead of none. *)
Theorem X29_truncation_overdrop (total_quantiles top_quantiles_to_drop : Z)
    (next_z : list R) :
  Z.of_nat (List.length next_z) = total_quantiles ->
  (total_quantiles < top_quantiles_to_drop)%Z ->
  Z.of_nat (List.length
    (TQC_training.sorted_z_part total_quantiles top_quantiles_to_drop next_z))
  = Z.max 0 (2 * total_quantiles - top_quantiles_to_drop).
Proof.
  intros Hlen Hdrop.
  unfold TQC_training.sorted_z_part, py_slice_to.
  destruct (sorted_atoms next_z) as [_ Hslen].
  set (sorted_z := sorted_by (fun z => z) next_z) in *.
  destruct (Z.leb_spec 0 (total_quantiles - top_quantiles_to_drop)) as [E | E]; [lia|].
  rewrite length_firstn. lia.
Qed.

(* ================================================================== *)
(** * TQC_Agent.quantile_huber_loss                                    *)
(* ================================================================== *)

Lemma sum_from_negative (f : nat -> R) (n : nat) : forall s,
  (0 < n)%nat -> (forall i, (s <= i < s + n)%nat -> f i < 0) ->
  fold_right (fun i acc => f i + acc) 0 (seq s n) < 0.
Proof.
  induction n as [|n IH]; intros s Hn Hf; [lia|].
  cbn [seq fold_right].
  assert (H0 : f s < 0) by (apply Hf; lia).
  destruct n as [|n]; [cbn [seq fold_right]; lra|].
  assert (fold_right (fun i acc => f i + acc) 0 (seq (S s) (S n)) < 0).
  { apply IH; [lia|]. intros i Hi. apply Hf. lia. }
  lra.
Qed.

Lemma sum_below_negative (n : nat) (f : nat -> R) :
  (0 < n)%nat -> (forall i, (i < n)%nat -> f i < 0) -> TQC_training.sum_below n f < 0.
Proof.
  intros Hn Hf. unfold TQC_training.sum_below.
  apply sum_from_negative; [exact Hn|]. intros i Hi. apply Hf. lia.
Qed.

Lemma tau_below_one (n q : nat) : (q < n)%nat -> 0 < TQC_training.tau n q < 1.
Proof.
  intros Hq. unfold TQC_training.tau.
  assert (Hn : 0 < INR n) by (apply lt_0_INR; lia).
  assert (Hq0 : 0 <= INR q) by apply pos_INR.
  assert (Hq1 : INR q + 1 <= INR n).
  { rewrite <- S_INR. apply le_INR. lia. }
  replace (INR q / INR n + 1 / 2 / INR n) with ((INR q + 1 / 2) / INR n)
    by (field; lra).
  split.
  - apply Rdiv_lt_0_compat; lra.
  - apply (Rmult_lt_reg_r (INR n)); [exact Hn|].
    unfold Rdiv. rewrite Rmult_assoc, Rinv_l by lra. lra.
Qed.

Lemma loss_entry_negative (n q : nat) (d : R) :
  (q < n)%nat -> -1 <= d < 0 -> TQC_training.loss_entry n q d < 0.
Proof.
  intros Hq Hd. unfold TQC_training.loss_entry, TQC_training.huber_loss.
  pose proof (tau_below_one n q Hq) as Ht.
  assert (E1 : (d <? 0) = true) by (apply Rltb_true; lra).
  assert (E2 : (1 <? Rabs d) = false).
  { apply Rltb_false. rewrite Rabs_left by lra. lra. }
  rewrite E1, E2.
  rewrite Rabs_left by lra.
  assert (0 < - (TQC_training.tau n q - 1)) by lra.
  assert (d * 0.5 ^ 2 < 0) by (cbn [pow]; lra).
  nra.
Qed.

Lemma broadcast_index_below (n i : nat) :
  (i < n)%nat -> TQC_training.broadcast_index n i = i.
Proof.
  intros Hi. unfold TQC_training.broadcast_index.
  destruct (Nat.eqb_spec n 1) as [-> | _]; [lia | reflexivity].
Qed.

(** X30: the quantile Huber loss is not bounded below by zero. For tensors
    of one batch size with at least one batch row, critic, quantile and
    target, whenever every target lies below every quantile of its row by
    at most 1, the loss is a number and is strictly negative. *)
Theorem X30_quantile_huber_loss_negative (quantiles : TQC_training.tensor3)
    (targets : TQC_training.tensor2) :
  TQC_training.batch2 targets = TQC_training.batch3 quantiles ->
  (0 < TQC_training.batch3 quantiles)%nat ->
  (0 < TQC_training.n_critics quantiles)%nat ->
  (0 < TQC_training.n_quantiles quantiles)%nat ->
  (0 < TQC_training.n_targets targets)%nat ->
  (forall b c q t,
     (b < TQC_training.batch3 quantiles)%nat ->
     (c < TQC_training.n_critics quantiles)%nat ->
     (q < TQC_training.n_quantiles quantiles)%nat ->
     (t < TQC_training.n_targets targets)%nat ->
     -1 <= TQC_training.entry2 targets b t - TQC_training.entry3 quantiles b c q < 0) ->
  exists loss,
    TQC_training.quantile_huber_loss quantiles targets = TQC_training.Returned (Num loss)
    /\ loss < 0.
Proof.
  intros Hb HB HC HQ HT Hd.
  unfold TQC_training.quantile_huber_loss, TQC_training.broadcast_dim.
  rewrite Hb, Nat.eqb_refl.
  destruct (Nat.eqb_spec (TQC_training.n_quantiles quantiles) 0) as [E | _]; [lia|].
  cbv zeta.
  set (count := (TQC_training.batch3 quantiles * TQC_training.n_critics quantiles
                 * TQC_training.n_quantiles quantiles * TQC_training.n_targets targets)%nat).
  assert (Hcount : (0 < count)%nat) by (unfold count; repeat apply Nat.mul_pos_pos; assumption).
  destruct (Nat.eqb_spec count 0) as [E | _]; [lia|].
  eexists. split; [reflexivity|].
  assert (Hc : 0 < INR count) by (apply lt_0_INR; exact Hcount).
  apply (Rmult_lt_reg_r (INR count)); [exact Hc|].
  unfold Rdiv. rewrite Rmult_assoc, Rinv_l, Rmult_1_r, Rmult_0_l by lra.
  apply sum_below_negative; [exact HB|]. intros b Hbb.
  apply sum_below_negative; [exact HC|]. intros c Hcc.
  apply sum_below_negative; [exact HQ|]. intros q Hqq.
  apply sum_below_negative; [exact HT|]. intros t Htt.
  rewrite !broadcast_index_below by assumption.
  apply loss_entry_negative; [exact Hqq | apply Hd; assumption].
Qed.

Lemma X28_truncation_drops_largest_witness :
  exists dropped,
    Permutation [3; 1; 2; 5; 4]
      (TQC_training.sorted_z_part 5 2 [3; 1; 2; 5; 4] ++ dropped)
    /\ Z.of_nat (List.length (TQC_training.sorted_z_part 5 2 [3; 1; 2; 5; 4])) = (5 - 2)%Z
    /\ Z.of_nat (List.length dropped) = 2%Z
    /\ ascending (TQC_training.sorted_z_part 5 2 [3; 1; 2; 5; 4])
    /\ forall a b,
         In a (TQC_training.sorted_z_part 5 2 [3; 1; 2; 5; 4]) -> In b dropped -> a <= b.
Proof.
  apply (X28_truncation_drops_largest 5 2 [3; 1; 2; 5; 4]); [reflexivity | lia].
Defined.

Lemma X29_truncation_overdrop_witness :
  Z.of_nat (List.length (TQC_training.sorted_z_part 5 6 [3; 1; 2; 5; 4]))
  = Z.max 0 (2 * 5 - 6).
Proof.
  apply (X29_truncation_overdrop 5 6 [3; 1; 2; 5; 4]); [reflexivity | lia].
Defined.

Lemma X30_quantile_huber_loss_negative_witness :
  exists loss,
    TQC_training.quantile_huber_loss quantiles_one targets_half
    = TQC_training.Returned (Num loss)
    /\ loss < 0.
Proof.
  apply (X30_quantile_huber_loss_negative quantiles_one targets_half);
    [reflexivity | cbn; lia | cbn; lia | cbn; lia | cbn; lia |].
  intros b c q t _ _ _ _. cbn. lra.
Defined.

(* ================================================================== *)
(** * KVLCC2: the two speed solvers are inverse to each other          *)
(* ================================================================== *)

(** The function handed to the root finder, on forward speeds and forward
    revolutions: it returns, and its only zero is the steady state. *)
Lemma to_find_root_of_steady (psi nps u : R) :
  0 < nps -> 0 < u ->
  (to_find_root_of psi nps u = Ok 0 <-> u = steady_speed_per_revolution * nps).
Proof.
  intros Hn Hu.
  assert (Hc : current_active (Some 0.0) = false) by apply no_current_zero.
  destruct (mmg_dynamics_ahead psi nps 0.0 u (Some 0.0) Hc Hu) as (J & E & HJ).
  assert (Hn' : nps <> 0) by lra.
  rewrite (surge_force_ahead_spec u nps J Hn' (HJ Hn')) in E.
  assert (Ef : to_find_root_of psi nps u
               = Ok (surge_force_ahead u nps / (KVLCC2.m + m_x))).
  { unfold to_find_root_of. replace 0.0 with 0 in * by lra.
    rewrite E. reflexivity. }
  pose proof solve_surge_mass_pos as Hm.
  rewrite Ef. rewrite <- (surge_force_zero_iff u nps Hn Hu).
  split.
  - intros H. apply Ok_inj in H.
    assert (G : surge_force_ahead u nps / (KVLCC2.m + m_x) * (KVLCC2.m + m_x)
                = surge_force_ahead u nps).
    { unfold Rdiv. rewrite Rmult_assoc, Rinv_l; lra. }
    rewrite H in G. lra.
  - intros ->. f_equal. unfold Rdiv. lra.
Qed.

Section SpeedSolvers.
Context {SO : scipy_optimize}.
Hypothesis newton_contract : finds_positive_root SO.

(** The converged speed of forward revolutions is the steady speed. *)
Lemma get_u_from_nps_steady (nps psi : R) :
  0 < nps ->
  KVLCC2_speed._get_u_from_nps nps psi = Ok (steady_speed_per_revolution * nps).
Proof.
  intros Hn. pose proof steady_speed_pos as Hk.
  assert (Hu : 0 < steady_speed_per_revolution * nps) by (apply Rmult_lt_0_compat; lra).
  unfold KVLCC2_speed._get_u_from_nps.
  destruct (newton_contract (fun u => to_find_root_of psi nps u) 5.0) as (u & E & Hpos & Hroot).
  - exists (steady_speed_per_revolution * nps). split; [exact Hu|].
    now apply to_find_root_of_steady.
  - rewrite E. f_equal. now apply (to_find_root_of_steady psi nps u).
Qed.

(** The revolutions that sustain a forward speed are the speed over the
    steady speed of one revolution. *)
Lemma get_nps_from_u_steady (u psi : R) :
  0 < u ->
  KVLCC2_speed._get_nps_from_u u psi = Ok (u / steady_speed_per_revolution).
Proof.
  intros Hu. pose proof steady_speed_pos as Hk.
  assert (Hn : 0 < u / steady_speed_per_revolution) by (apply Rdiv_lt_0_compat; lra).
  assert (Hku : steady_speed_per_revolution * (u / steady_speed_per_revolution) = u).
  { unfold Rdiv. rewrite (Rmult_comm u), <- Rmult_assoc, Rinv_r; lra. }
  unfold KVLCC2_speed._get_nps_from_u.
  destruct (newton_contract (fun nps => to_find_root_of psi nps u) 2.0)
    as (nps & E & Hpos & Hroot).
  - exists (u / steady_speed_per_revolution). split; [exact Hn|].
    apply to_find_root_of_steady; [exact Hn | exact Hu | now rewrite Hku].
  - rewrite E. f_equal.
    apply (to_find_root_of_steady psi nps u Hpos Hu) in Hroot.
    rewrite Hroot. unfold Rdiv.
    rewrite (Rmult_comm steady_speed_per_revolution), Rmult_assoc, Rinv_r; lra.
Qed.

(** C8: with a root finder that returns a positive root of the function it
    is given whenever there is one, the two solvers are inverse to each
    other on forward motion, whatever the headings passed to them. From
    forward revolutions [nps], [_get_u_from_nps] returns a forward speed,
    and [_get_nps_from_u] returns [nps] from that speed; from a forward
    speed [u], [_get_nps_from_u] returns forward revolutions, and
    [_get_u_from_nps] returns [u] from them. The values agree exactly,
    hence within every tolerance. *)
Theorem C8_speed_solvers_round_trip (nps u psi psi' : R) :
  0 < nps -> 0 < u ->
  (exists u', KVLCC2_speed._get_u_from_nps nps psi = Ok u' /\ 0 < u'
              /\ KVLCC2_speed._get_nps_from_u u' psi' = Ok nps)
  /\ (exists nps', KVLCC2_speed._get_nps_from_u u psi = Ok nps' /\ 0 < nps'
                   /\ KVLCC2_speed._get_u_from_nps nps' psi' = Ok u).
Proof.
  intros Hn Hu. pose proof steady_speed_pos as Hk. split.
  - exists (steady_speed_per_revolution * nps).
    assert (Hu' : 0 < steady_speed_per_revolution * nps) by (apply Rmult_lt_0_compat; lra).
    split; [now apply get_u_from_nps_steady|]. split; [exact Hu'|].
    rewrite (get_nps_from_u_steady _ psi' Hu'). f_equal.
    unfold Rdiv. rewrite (Rmult_comm steady_speed_per_revolution), Rmult_assoc, Rinv_r; lra.
  - exists (u / steady_speed_per_revolution).
    assert (Hn' : 0 < u / steady_speed_per_revolution) by (apply Rdiv_lt_0_compat; lra).
    split; [now apply get_nps_from_u_steady|]. split; [exact Hn'|].
    rewrite (get_u_from_nps_steady _ psi' Hn'). f_equal.
    unfold Rdiv. rewrite (Rmult_comm u), <- Rmult_assoc, Rinv_r; lra.
Qed.

End SpeedSolvers.

Lemma newton_positive_root_contract : finds_positive_root newton_positive_root.
Proof.
  intros func x0 Hroot. eexists. split; [reflexivity|].
  apply (Epsilon.epsilon_spec (inhabits x0) (fun x => 0 < x /\ func x = Ok 0)).
  exact Hroot.
Qed.

Lemma C8_speed_solvers_round_trip_witness :
  (exists u', KVLCC2_speed._get_u_from_nps (SO := newton_positive_root) 1.8 0 = Ok u'
              /\ 0 < u'
              /\ KVLCC2_speed._get_nps_from_u (SO := newton_positive_root) u' 0 = Ok 1.8)
  /\ (exists nps', KVLCC2_speed._get_nps_from_u (SO := newton_positive_root) 3 0 = Ok nps'
                   /\ 0 < nps'
                   /\ KVLCC2_speed._get_u_from_nps (SO := newton_positive_root) nps' 0 = Ok 3).
Proof.
  apply (C8_speed_solvers_round_trip (SO := newton_positive_root)
           newton_positive_root_contract 1.8 3 0 0); lra.
Defined.
